(* ===== verification/_CoqProject ===== *)
-Q . S2P
Prelude.v
RustStd.v
Wire.v
Json.v
Cursor.v
Codec.v
TensorStream.v
Streams.v
TensorPacket.v
Bitmap.v
Command.v
Peers.v
Network.v
Sessions.v
Hub.v
KvCache.v
ChatTemplate.v
MlSession.v
Gguf.v
GgufWrite.v
GgufFiles.v
Storage.v
Programs.v
Orchestrator.v
UserInput.v
Tui.v
ApiServer.v
Scheduling.v
Capability.v
Qwen3.v
GgufLoad.v
TensorExchange.v
Pipeline.v
Config.v
Checksum.v
Bindings.v
DsWeights.v
Bandwidth.v
Screen.v
EventBus.v
DsTensor.v
DsMatrices.v
DsMoe.v
DsShapes.v
DsAttention.v
DsModel.v
DeepSeekV3.v
Llama.v
Launch.v
TemplateFilters.v
DsReader.v
SessionStart.v
