(* ===== verification/Prelude.v ===== *)
(** * Pleiades: a verified model of the node's core logic

    Pleiades is a peer-to-peer program that runs a language model across several
    machines. Every node keeps model files, splits them into ranges of layers,
    finds the peers that hold other ranges, and passes the hidden states of a
    model from node to node over tensor streams. A node is driven by commands of
    its user (terminal interface or console), by requests and streams of other
    nodes, by Lua programs it runs, and by HTTP clients of a chat session.

    ** How the program is put together, and where it is modelled

    An event enters through one of the front ends, becomes a command or a request
    for the orchestrator, and leaves as calls of the capabilities (network,
    storage, sessions, programs) and as events on the bus.

    - Foundations. This file: results as a monad (the question-mark operator),
      machine integers in [Z] with [wrap], fixed-width encodings, strings as bytes,
      shared tactics and hints. [RustStd]: the parts of the Rust standard library
      the code uses (UTF-8 and lossy decoding, splitting, trimming, number and hex
      parsing and printing, sorting, base names of paths). [Wire]: byte streams read
      exactly or in chunks, and the events of the bus
      ([Src/EventBus/event.rs]). [Json]: reading serde values. [Cursor]: decoding at
      an offset of a buffer, the style of the packet and cache formats.
    - The wire. [Codec]: request-response frames ([Request_Response/codec.rs]).
      [TensorStream]: tensor frames, handshakes and buffers over the network and
      within the process. [Streams]: file, session and bandwidth streams.
      [TensorPacket]: packets of quantised tensors ([gguf_tensor.rs]). [Command]: the
      textual commands between nodes and inference ids.
    - Peers and network. [Bitmap]: layer bitmaps and ranges. [Peers]: the peer table
      and its manager, an instance of the class that states what the network and the
      orchestrator rely on. [Network]: the service's event handlers, the tables of
      outbound and inbound requests, the exchange of peer information. [Capability]:
      the operations scripts and orchestrator call, and the loop of the service.
      [Hub]: pairing the two ends of a stream. [Scheduling]: the table of who serves
      which layers ([list_model_peers]).
    - Models. [KvCache]: tensors and caches as bytes. [ChatTemplate]: the rewriting of
      Python chat templates; [TemplateFilters]: what they are rendered with. [Gguf]: analysis of a model's header, the tensors of a
      layer, splitting, load ranges ([gguf_model_manager.rs]). [GgufWrite]: the
      streaming writer. [GgufFiles]: conversion of model files on disk. [Qwen3]: both
      built-in architectures, forward pass, caches ([GGUF_Models]). [GgufLoad]: from a
      file to a model ready to run ([gguf_model.rs]). [MlSession]: a model session
      with its tokenizer, offloading and sampling ([context.rs]), over a class of
      models. [TensorExchange]: the tensor calls of scripts. [Pipeline]: loaded models
      as an instance of that class, and nodes that hand hidden states on.
    - Other models, behind features that are off. DeepSeek V4 ([deepseek_v4]):
      [DsWeights] (number formats and the reader of weights), [DsTensor] (candle's
      operations as classes, with what is asked of them), [DsMoe], [DsAttention] and
      [DsModel] (experts, attention, blocks and passes); [DsMatrices] and [DsShapes]
      are tensors that satisfy those classes. [DeepSeekV3], [DsReader] (the same model
      through a reader) and [Llama].
    - Storage and sessions. [Storage]: files, their locks and guards, flushing.
      [Checksum]: hashing a file. [Sessions]: chat sessions, their
      slots and the task that answers prompts; [SessionStart]: how that task starts.
    - Control. [Config]: configuration file, key pair and the first phases of [main.rs];
      [Launch]: the swarm, the start of the network service, and the running node, whose
      table of peers all components share.
      [Bindings]: what the functions of a script's tables do ([capability_binding.rs]).
      [Bandwidth]: the bandwidth test. [EventBus]: the bus and the console that prints
      it. [Programs]: the registry of Lua programs. [Orchestrator]: the core
      state, all user commands, inbound requests and streams, the event loop and its
      shutdown. [UserInput]: the command line. [Tui]: the terminal interface.
      [Screen]: what it draws. [ApiServer]: the HTTP interface of a session.

    ** Style of the model

    A struct is a Record with the fields the logic reads, an enum an Inductive with
    the source's constructors, a handler a function from the old state (and its
    inputs) to the new state with the effects it has, in order: replies, messages
    sent, events published. Code that returns a [Result] returns [result], and a
    panic is a value of its own where one is reachable ([fault], [mem_fault],
    [None] where the text says so). Tasks that interleave are step functions over a
    list of operations ([Network.Outbound], [Sessions.Task], [Hub], [Storage],
    [Capability.accept_step],
    [Launch.run_event], [SessionStart.step]), so a theorem over all lists is one over all
    interleavings. HashMaps are [gmap]s; where the code iterates one, either the
    result is sorted or the order is a parameter.

    Code outside the repository is a parameter: candle ([KvCache.Candle],
    [Qwen3.Nn], [DsTensor.Tensor_Ops], [DeepSeekV3.Nn_V3], [Llama.Nn_Llama]) with the
    laws the code needs ([Candle_Laws], [Nn_Laws], [Matrix_Laws], [Typing_Laws],
    [Shape_Laws]), the reader of V3 weights ([DsReader.GGUF_Reader]), libp2p's swarm
    ([Launch.Libp2p]), tokio's broadcast channel ([EventBus.Broadcast]), the GGUF
    values candle reads ([Gguf.Gguf]), the tokenizer, the template engine, hash
    functions, clocks and random words, PeerIds and addresses, the outcome of opening
    a stream, of a timer or of a file operation. Each theorem with such a hypothesis
    has a witness where the parameter is a concrete function ([KvCache.Plain],
    [Gguf.Example_Model], [Qwen3.Plain_Nn], [GgufLoad.Example_Files], [DsMatrices],
    [DsShapes], [EventBus.Plain_Bus]). 64-bit floats are computed where a claim rests
    on their rounding ([MlSession.F64]), otherwise a class ([DsTensor.Float64]).

    ** What the theorems show

    - Distribution. [Pipeline.distributed_inference], the main theorem: nodes that each
      load one of the files a model is split into, and hand hidden states on with the
      tensor calls of scripts, answer every sequence of passes as the whole model. It
      rests on [GgufLoad.split_pipeline] (if the whole file loads, its parts load and
      compose), [Gguf.split_preserves_layers] (a split serves its layers),
      [Qwen3.pipeline_is_model] (a forward pass composes over consecutive layers, with
      all caches) and [TensorExchange.tensors_cross] (tensors arrive in order and
      unchanged). [Scheduling.merged_shards]: what a script is told about the layers of
      its peers. [Capability.sent_file_arrives]: files arrive.
    - Models and their caches. [Pipeline.loaded_model_restores] and
      [MlSession.offload_roundtrip]: parked caches come back.
      [DsMoe.experts_per_token]: experts run on batches of tokens give every token
      what it gets alone.
      [DeepSeekV3.v3_stages_and_caches]: stages and caches of V3 models.
      [TemplateFilters.filters_are_python]: where template filters are Python's methods.
    - Control across nodes. [UserInput.typed_rexec_reaches_script]: a typed line
      starts the named program with the typed parameters at the named peer.
      [Orchestrator.bridge_serves_rounds]: a remote chat gets its rounds.
      [Command.network_command_roundtrip] and [UserInput.typed_command_roundtrip]:
      messages and typed lines are read as they are written, and which ones are not.
    - Liveness and termination. [Network.Outbound.outbound_answers_exact] (each caller
      is answered exactly once), [Capability.service_loop], [Screen.interface_draws]
      (the interface, with its drawing), [Orchestrator.quit_drains].
    - State. [Launch.launched_node] (a node keeps itself in its table of peers, whatever
      the network and the other components do), [Peers.table_is_its_history]
      (the peer table is the one its history tells), [SessionStart.session_start],
      [Storage.guards_exclude] and [Bindings.script_handles_exclude] (locks, and the
      handles scripts hold, where acquiring one is a single step),
      [Storage.flush_reconciles], [Config.restart_keeps_identity],
      [Sessions.Task.served_in_registration_order], [Tui.editor_is_a_stack],
      [ApiServer.api_answers_in_order].
    - Formats and figures. [Codec.Read_Frame_iff], [TensorPacket.tensor_packet_iff] and
      [Streams.File_Stream.Receive_File_Data_spec] say exactly what is accepted;
      [GgufWrite.streaming_write_is_one_pass] that the two passes of the writer give
      the file one pass would; [DsWeights.header_in_bounds] that no read of a weight
      leaves its file; [Checksum.checksum_of_contents] that a checksum is one of the
      contents; [Bandwidth.bandwidth_figure] what the figure is of a test of so many
      chunks, up to one.
    - Faults of the code that a theorem exhibits. Among the properties: conversion
      deletes parts split off a model that was not converted
      ([GgufFiles.conversion_on_disk]); no pass of a V4 model continues another
      ([DsModel.no_pass_continues]); a session whose model never connects keeps taking
      clients ([SessionStart.session_start]); a race between opening and
      accepting loses a stream ([Hub.LocalStreamHub.open_accept_race]); one silent peer
      stops the network service ([Capability.service_loop]); a file that grows while
      it is sent ends the interface ([Screen.interface_draws]). Beside them: a V3 file
      with a dense layer is never read, if its reader is what it seems
      ([DsReader.reader_agrees]), a loaded V4 model does no pass at all
      ([DsModel.loaded_v4_refuses]), a Llama model cannot be distributed
      ([Llama.llama_refuses]), a user can forge turns of a chat
      ([TemplateFilters.prompts_agree_and_forge]), saved
      key/value caches cannot be read back ([KvCache.saved_kv_is_unreadable]),
      conversion mixes up tensors that are not stored in name order
      ([GgufWrite.conversion_and_order]), a session serves a bounded number of clients
      ever ([Sessions.session_serves_max_slots_ever]) and ends with the first that
      leaves ([Sessions.Task.departed_client_ends_session]), a client that leaves
      shifts the answers of all others ([ApiServer.api_bad_turns]), a timed-out accept
      swallows the next stream ([Capability.accept_retry]).

    Theorems that are not listed here support them or cover further operations; the
    comment before each one says what it states.

    ** Fuel

    Loops that are not structural take fuel, and a theorem or lemma shows that the
    fuel their caller passes is enough: reading and sending a file runs once per
    arrival of bytes and at most once per remaining byte ([receive_loop],
    [send_loop], [copy_loop]); the bridge of a session reads at least the four bytes
    of a frame's length per round ([bridge]); text is consumed by at least one byte
    per step ([replace], [words_from], [strip] and the rewriting of
    [split] with an index in a template). No theorem has the form that a loop is
    right if it returns.

    ** Not modelled

    - [lib.rs] and the memory queries of [Orchestrator/mod.rs], which nothing calls.
    - The registration of Lua functions and the Lua state ([engine.rs], part of
      [capability_binding.rs]): they pass arguments on; the operations behind them are
      modelled with their components. The Lua programs and the Python tools are in
      other languages.
    - Layout and colours of the terminal interface other than those of the log.
    - [Mlp_Weights::New_Dense] of the V3 models, which the repository does not have.
    - Disk errors other than absence, except where a file says otherwise.
    - The capacity of channels: a sender that waits for room is a later turn of it. The
      awaits inside an acquisition of a file, except in [Storage.exclusion_broken] and
      the two steps [Acquire_Read_find] and [Acquire_take]; a flush is one step. The
      end of a session's task when the thread of its model is gone.
    - Lower-casing outside ASCII, where the code lower-cases names and types. *)
From Stdlib Require Export ZArith Lia Bool Ascii String.
From Stdlib Require Export Init.Byte Sorting.Sorted.
From stdpp Require Export base numbers list strings gmap sets.
From coqutil Require Export Byte.
From coqutil Require Import Word.LittleEndianList.

#[global] Set Default Goal Selector "!".
Open Scope Z_scope.
Open Scope list_scope.

(** ** Results

    Rust's [Result<A, E>].  The error type comes first so that [result E] is
    a monad for stdpp's [x ← m; k] notation, which models the [?] operator. *)
Inductive result (E A : Type) : Type :=
  | Ok (a : A)
  | Err (e : E).
Arguments Ok {E A} a.
Arguments Err {E A} e.

#[global] Instance result_ret E : MRet (result E) := fun A a => Ok a.
#[global] Instance result_bind E : MBind (result E) := fun A B f m =>
  match m with Ok a => f a | Err e => Err e end.
#[global] Instance result_fmap E : FMap (result E) := fun A B f m =>
  match m with Ok a => Ok (f a) | Err e => Err e end.

(** [map_err] and [ok_or] of the Rust standard library. *)
Definition map_err {E F A} (f : E -> F) (m : result E A) : result F A :=
  match m with Ok a => Ok a | Err e => Err (f e) end.
Definition ok_or {E A} (e : E) (o : option A) : result E A :=
  match o with Some a => Ok a | None => Err e end.
Definition is_ok {E A} (m : result E A) : bool :=
  match m with Ok _ => true | Err _ => false end.
Definition to_option {E A} (m : result E A) : option A :=
  match m with Ok a => Some a | Err _ => None end.

Lemma result_bind_Ok {E A B} (m : result E A) (f : A -> result E B) (b : B) :
  (m ≫= f) = Ok b <-> exists a, m = Ok a /\ f a = Ok b.
Proof.
  destruct m as [a|e]; cbn; split.
  - eauto.
  - intros (a' & [= ->] & ?); done.
  - done.
  - intros (a' & ? & ?); done.
Qed.

(** ** Machine integers

    An unsigned [w]-bit integer is a [Z] in [0, 2^w); arithmetic that wraps is
    written with [wrap]. The program targets 64-bit hosts, so [usize] is
    [u64] and [as usize] on a [u32] or a [u64] keeps the value. *)
Definition wrap (w z : Z) : Z := z mod 2 ^ w.
Definition in_range (w z : Z) : Prop := 0 <= z < 2 ^ w.
Definition in_rangeb (w z : Z) : bool := (0 <=? z) && (z <? 2 ^ w).
Definition U64_MAX : Z := 2 ^ 64 - 1.

#[global] Instance in_range_dec w z : Decision (in_range w z).
Proof. unfold in_range; apply _. Defined.

Lemma wrap_id w z : in_range w z -> wrap w z = z.
Proof. unfold in_range, wrap. apply Z.mod_small. Qed.

Lemma wrap_range w z : 0 <= w -> in_range w (wrap w z).
Proof. intros. unfold in_range, wrap. apply Z.mod_pos_bound. lia. Qed.

(** ** Bytes *)
Abbreviation bytes := (list byte).

(** The length of a list as an integer: [len()] of the Rust containers. *)
Definition zlen {A} (l : list A) : Z := Z.of_nat (length l).
Definition bz (b : byte) : Z := byte.unsigned b.

Lemma zlen_nonneg {A} (l : list A) : 0 <= zlen l.
Proof. unfold zlen; lia. Qed.
Lemma zlen_nil {A} : zlen (@nil A) = 0.
Proof. done. Qed.
Lemma zlen_cons {A} (x : A) l : zlen (x :: l) = 1 + zlen l.
Proof. unfold zlen; cbn [length]; lia. Qed.
Lemma zlen_app {A} (l k : list A) : zlen (l ++ k) = zlen l + zlen k.
Proof. unfold zlen. rewrite length_app. lia. Qed.
Lemma bz_range b : 0 <= bz b < 256.
Proof. apply byte.unsigned_range. Qed.
Lemma bz_inj a b : bz a = bz b -> a = b.
Proof. apply byte.unsigned_inj. Qed.
Lemma bz_of_Z z : 0 <= z < 256 -> bz (byte.of_Z z) = z.
Proof. intros. unfold bz. rewrite byte.unsigned_of_Z. apply Z.mod_small. lia. Qed.

(** ** Fixed-width integer encodings

    [to_le_bytes]/[from_le_bytes] and [to_be_bytes]/[from_be_bytes] of the
    Rust integer types, for an [n]-byte integer. *)
Definition to_le_bytes (n : nat) (v : Z) : bytes := le_split n v.
Definition from_le_bytes (bs : bytes) : Z := le_combine bs.
Definition to_be_bytes (n : nat) (v : Z) : bytes := rev (le_split n v).
Definition from_be_bytes (bs : bytes) : Z := le_combine (rev bs).

Lemma length_to_le_bytes n v : length (to_le_bytes n v) = n.
Proof. apply length_le_split. Qed.
Lemma length_to_be_bytes n v : length (to_be_bytes n v) = n.
Proof. unfold to_be_bytes. rewrite length_rev. apply length_le_split. Qed.
Lemma zlen_to_le_bytes n v : zlen (to_le_bytes n v) = Z.of_nat n.
Proof. unfold zlen. by rewrite length_to_le_bytes. Qed.
Lemma zlen_to_be_bytes n v : zlen (to_be_bytes n v) = Z.of_nat n.
Proof. unfold zlen. by rewrite length_to_be_bytes. Qed.

Lemma from_to_le_bytes n v :
  from_le_bytes (to_le_bytes n v) = wrap (8 * Z.of_nat n) v.
Proof. unfold from_le_bytes, to_le_bytes, wrap. rewrite le_combine_split. by rewrite Z.mul_comm. Qed.
Lemma from_to_be_bytes n v :
  from_be_bytes (to_be_bytes n v) = wrap (8 * Z.of_nat n) v.
Proof. unfold from_be_bytes, to_be_bytes. rewrite rev_involutive. apply from_to_le_bytes. Qed.

Lemma from_to_le_id n v :
  in_range (8 * Z.of_nat n) v -> from_le_bytes (to_le_bytes n v) = v.
Proof. intros. rewrite from_to_le_bytes. by apply wrap_id. Qed.
Lemma from_to_be_id n v :
  in_range (8 * Z.of_nat n) v -> from_be_bytes (to_be_bytes n v) = v.
Proof. intros. rewrite from_to_be_bytes. by apply wrap_id. Qed.

Lemma to_from_le_bytes n bs : length bs = n -> to_le_bytes n (from_le_bytes bs) = bs.
Proof. intros <-. apply split_le_combine. Qed.
Lemma to_from_be_bytes n bs : length bs = n -> to_be_bytes n (from_be_bytes bs) = bs.
Proof.
  intros <-. unfold to_be_bytes, from_be_bytes.
  rewrite <- (length_rev bs), split_le_combine. apply rev_involutive.
Qed.

Lemma from_le_bytes_range bs : in_range (8 * zlen bs) (from_le_bytes bs).
Proof. unfold in_range, from_le_bytes, zlen. apply le_combine_bound. Qed.
Lemma from_be_bytes_range bs : in_range (8 * zlen bs) (from_be_bytes bs).
Proof.
  unfold from_be_bytes. replace (zlen bs) with (zlen (rev bs)).
  - apply from_le_bytes_range.
  - unfold zlen. by rewrite length_rev.
Qed.

Lemma foldl_extend {A} (f : A -> bytes) l buf :
  foldl (fun buf x => buf ++ f x) buf l = buf ++ concat (map f l).
Proof.
  revert buf. induction l as [|x l IH]; intros buf; cbn; [by rewrite app_nil_r|].
  by rewrite IH, app_assoc.
Qed.

(** ** Strings

    A Rust [String] is its UTF-8 bytes; here a Rocq [string], one [ascii] per
    byte. [as_bytes] is the byte view. *)
Definition as_bytes (s : string) : bytes := list_byte_of_string s.
Definition of_bytes (bs : bytes) : string := string_of_list_byte bs.
Definition str_len (s : string) : Z := zlen (as_bytes s).

Lemma of_as_bytes s : of_bytes (as_bytes s) = s.
Proof. apply string_of_list_byte_of_string. Qed.
Lemma as_of_bytes bs : as_bytes (of_bytes bs) = bs.
Proof. apply list_byte_of_string_of_list_byte. Qed.
Lemma as_bytes_inj s t : as_bytes s = as_bytes t -> s = t.
Proof. intros H. by rewrite <- (of_as_bytes s), <- (of_as_bytes t), H. Qed.
Lemma as_bytes_app s t : as_bytes (s +:+ t) = as_bytes s ++ as_bytes t.
Proof.
  unfold as_bytes, list_byte_of_string.
  induction s as [|c s IH]; [done|].
  change (String c s +:+ t) with (String c (s +:+ t)). cbn. by f_equal.
Qed.

(** ** Automation shared by the components *)
Create HintDb wire discriminated.
Create Rewrite HintDb zlen.
#[export] Hint Resolve zlen_nonneg bz_range wrap_range : wire.
#[export] Hint Rewrite @zlen_nil @zlen_cons @zlen_app zlen_to_le_bytes zlen_to_be_bytes : zlen.

(** [zlens]: normalise lengths, then linear arithmetic. *)
Ltac zlens := autorewrite with zlen in *; try lia.

(** [inv_ok]: decompose every hypothesis that says a bind of results is [Ok]. *)
Ltac inv_ok :=
  repeat match goal with
  | H : (_ ≫= _) = Ok _ |- _ => apply result_bind_Ok in H as (? & ? & ?)
  | H : Ok _ = Ok _ |- _ => injection H as H; subst
  | H : Err _ = Ok _ |- _ => discriminate H
  | H : Ok _ = Err _ |- _ => discriminate H
  | H : Some _ = Some _ |- _ => injection H as H; subst
  | H : None = Some _ |- _ => discriminate H
  | H : Some _ = None |- _ => discriminate H
  end.

(** [crush_match]: case split on every match in the goal or the hypotheses. *)
Ltac crush_match := repeat (case_match; simplify_eq/=).
