(* ===== verification/RustStd.v ===== *)
(** * The parts of the Rust standard library the node relies on

    UTF-8 validation ([str::from_utf8], [String::from_utf8]), character
    boundaries and slicing of [str], [split]/[splitn] on an ASCII separator,
    decimal and hexadecimal integer parsing and printing, [trim],
    [to_lowercase], [starts_with]/[ends_with]/[contains].  Everything is
    executable and works on the bytes of the string. *)
From S2P Require Import Prelude.

#[global] Instance byte_eq_decision : EqDecision byte := Byte.byte_eq_dec.

(** ** UTF-8 *)
Module Utf8.
Definition between (lo hi : Z) (b : byte) : bool := (lo <=? bz b) && (bz b <=? hi).
Definition is_cont (b : byte) : bool := between 0x80 0xBF b.

(** The admissible second byte depends on the first one (no overlong forms,
  no surrogates, nothing above U+10FFFF). *)
Definition second_ok (b0 b1 : byte) : bool :=
  if bz b0 =? 0xE0 then between 0xA0 0xBF b1
  else if bz b0 =? 0xED then between 0x80 0x9F b1
  else if bz b0 =? 0xF0 then between 0x90 0xBF b1
  else if bz b0 =? 0xF4 then between 0x80 0x8F b1
  else is_cont b1.

Fixpoint valid (l : bytes) : bool :=
  match l with
  | [] => true
  | b0 :: r0 =>
      if bz b0 <? 0x80 then valid r0
      else if between 0xC2 0xDF b0 then
        match r0 with
        | b1 :: r1 => is_cont b1 && valid r1
        | [] => false
        end
      else if between 0xE0 0xEF b0 then
        match r0 with
        | b1 :: b2 :: r2 => second_ok b0 b1 && is_cont b2 && valid r2
        | _ => false
        end
      else if between 0xF0 0xF4 b0 then
        match r0 with
        | b1 :: b2 :: b3 :: r3 => second_ok b0 b1 && is_cont b2 && is_cont b3 && valid r3
        | _ => false
        end
      else false
  end.

(** [str::from_utf8]. *)
Definition from_utf8 (l : bytes) : option string :=
  if valid l then Some (of_bytes l) else None.

(** A value of the Rust type [String]/[str]. *)
Definition is_str (s : string) : Prop := valid (as_bytes s) = true.

Lemma from_utf8_str s : is_str s -> from_utf8 (as_bytes s) = Some s.
Proof. unfold is_str, from_utf8. intros ->. by rewrite of_as_bytes. Qed.

Lemma from_utf8_Some l s : from_utf8 l = Some s -> as_bytes s = l /\ is_str s.
Proof.
  unfold from_utf8, is_str. destruct (valid l) eqn:E; [|done].
  intros [= <-]. by rewrite as_of_bytes.
Qed.

(** [String::from_utf8_lossy]: each maximal ill-formed stretch becomes U+FFFD. *)
Definition replacement : bytes := [xef; xbf; xbd].
Fixpoint lossy (l : bytes) : bytes :=
  match l with
  | [] => []
  | b0 :: r0 =>
      if bz b0 <? 0x80 then b0 :: lossy r0
      else if between 0xC2 0xDF b0 then
        match r0 with
        | b1 :: r1 => if is_cont b1 then b0 :: b1 :: lossy r1 else replacement ++ lossy r0
        | [] => replacement
        end
      else if between 0xE0 0xEF b0 then
        match r0 with
        | b1 :: r1 =>
            if second_ok b0 b1 then
              match r1 with
              | b2 :: r2 => if is_cont b2 then b0 :: b1 :: b2 :: lossy r2 else replacement ++ lossy r1
              | [] => replacement
              end
            else replacement ++ lossy r0
        | [] => replacement
        end
      else if between 0xF0 0xF4 b0 then
        match r0 with
        | b1 :: r1 =>
            if second_ok b0 b1 then
              match r1 with
              | b2 :: r2 =>
                  if is_cont b2 then
                    match r2 with
                    | b3 :: r3 =>
                        if is_cont b3 then b0 :: b1 :: b2 :: b3 :: lossy r3 else replacement ++ lossy r2
                    | [] => replacement
                    end
                  else replacement ++ lossy r1
              | [] => replacement
              end
            else replacement ++ lossy r0
        | [] => replacement
        end
      else replacement ++ lossy r0
  end.

Lemma lossy_valid l : valid l = true -> lossy l = l.
Proof.
  induction l as [l IH] using (induction_ltof1 _ (@length byte)). unfold ltof in IH.
  destruct l as [|b0 r0]; [done|]. cbn [valid lossy].
  case_match; [intros; by rewrite IH by (done || cbn; lia)|].
  case_match; [|case_match; [|case_match; [|done]]].
  - destruct r0 as [|b1 r]; [done|]. intros [-> Hr]%andb_prop. by rewrite IH by (done || cbn; lia).
  - destruct r0 as [|b1 [|b2 r]]; [done..|]. intros [[-> ->]%andb_prop Hr]%andb_prop.
    by rewrite IH by (done || cbn; lia).
  - destruct r0 as [|b1 [|b2 [|b3 r]]]; [done..|].
    intros [[[-> ->]%andb_prop ->]%andb_prop Hr]%andb_prop. by rewrite IH by (done || cbn; lia).
Qed.

Definition is_ascii (b : byte) : Prop := bz b < 0x80.

Lemma valid_ascii_app l k : Forall is_ascii l -> valid (l ++ k) = valid k.
Proof.
  induction 1 as [|b l Hb _ IH]; [done|]. cbn. unfold is_ascii in Hb.
  by rewrite (proj2 (Z.ltb_lt _ _) Hb).
Qed.
Lemma valid_app l k : valid l = true -> valid (l ++ k) = valid k.
Proof.
  induction l as [l IH] using (induction_ltof1 _ (@length byte)). unfold ltof in IH.
  destruct l as [|b0 r0]; [done|]. cbn [valid app].
  case_match; [apply IH; cbn; lia|].
  case_match; [|case_match; [|case_match; [|done]]].
  - destruct r0 as [|b1 r]; [done|]. cbn [app]. intros [-> Hr]%andb_prop. cbn. apply IH; [cbn; lia|done].
  - destruct r0 as [|b1 [|b2 r]]; [done..|]. cbn [app]. intros [[-> ->]%andb_prop Hr]%andb_prop.
    cbn. apply IH; [cbn; lia|done].
  - destruct r0 as [|b1 [|b2 [|b3 r]]]; [done..|]. cbn [app].
    intros [[[-> ->]%andb_prop ->]%andb_prop Hr]%andb_prop. cbn. apply IH; [cbn; lia|done].
Qed.

Lemma second_ok_high b0 b1 : second_ok b0 b1 = true -> 0x80 <= bz b1.
Proof. unfold second_ok, is_cont, between. repeat case_match; intros [? _]%andb_prop; lia. Qed.
Lemma is_cont_high b : is_cont b = true -> 0x80 <= bz b.
Proof. unfold is_cont, between. intros [? _]%andb_prop; lia. Qed.

(** Cutting at an ASCII character leaves valid pieces. *)
Lemma second_ok_cont b0 b1 : second_ok b0 b1 = true -> is_cont b1 = true.
Proof. unfold second_ok, is_cont, between. repeat case_match; rewrite ?andb_true_iff, ?Z.leb_le; lia. Qed.
Lemma valid_cut a c b : is_ascii c -> valid (a ++ c :: b) = true -> valid a = true /\ valid b = true.
Proof.
  intros Hc. unfold is_ascii in Hc.
  induction a as [a IH] using (induction_ltof1 _ (@length byte)). unfold ltof in IH.
  destruct a as [|b0 a]; cbn [valid app]; [by rewrite (proj2 (Z.ltb_lt _ _) Hc)|].
  case_match; [apply IH; cbn; lia|].
  case_match; [|case_match; [|case_match; [|done]]].
  - destruct a as [|b1 a]; cbn [app]; intros [V1 V2]%andb_prop.
    + apply is_cont_high in V1. lia.
    + apply IH in V2 as [-> ->]; [by rewrite V1|cbn; lia].
  - destruct a as [|b1 [|b2 a]]; cbn [app]; [destruct b; [done|]|..]; intros [[V1 V2]%andb_prop V3]%andb_prop.
    + apply second_ok_high in V1. lia.
    + apply is_cont_high in V2. lia.
    + apply IH in V3 as [-> ->]; [by rewrite V1, V2|cbn; lia].
  - destruct a as [|b1 [|b2 [|b3 a]]]; cbn [app];
      [destruct b as [|? [|? ?]]; [done|done|]|destruct b; [done|]|..];
      intros [[[V1 V2]%andb_prop V3]%andb_prop V4]%andb_prop.
    + apply second_ok_high in V1. lia.
    + apply is_cont_high in V2. lia.
    + apply is_cont_high in V3. lia.
    + apply IH in V4 as [-> ->]; [by rewrite V1, V2, V3|cbn; lia].
Qed.

Lemma valid_ascii l : Forall is_ascii l -> valid l = true.
Proof. intros H. rewrite <- (app_nil_r l), valid_ascii_app; done. Qed.

(** [is_char_boundary] and the slice [&s[i..j]], which panics off a
  boundary or out of range. *)
Definition is_char_boundary (l : bytes) (i : Z) : bool :=
  if i =? 0 then true
  else if i =? zlen l then true
  else match l !! Z.to_nat i with
       | Some b => (0 <=? i) && negb (is_cont b)
       | None => false
       end.
Definition slice (l : bytes) (i j : Z) : option bytes :=
  if (i <=? j) && is_char_boundary l i && is_char_boundary l j
  then Some (take (Z.to_nat (j - i)) (drop (Z.to_nat i) l)) else None.
End Utf8.

(** ** Splitting on an ASCII separator *)
Module Split.
(** [s.split(c)]: never empty. *)
Fixpoint split (c : byte) (l : bytes) : list bytes :=
  match l with
  | [] => [[]]
  | x :: r =>
      if decide (x = c) then [] :: split c r
      else match split c r with
           | p :: ps => (x :: p) :: ps
           | [] => [[x]]
           end
  end.

(** [s.splitn(n, c)]. *)
Fixpoint splitn (n : nat) (c : byte) (l : bytes) : list bytes :=
  match n with
  | O => []
  | S O => [l]
  | S n' =>
      (fix go (acc r : bytes) : list bytes :=
         match r with
         | [] => [rev acc]
         | x :: r' => if decide (x = c) then rev acc :: splitn n' c r' else go (x :: acc) r'
         end) [] l
  end.

Lemma split_none c l : c ∉ l -> split c l = [l].
Proof.
  induction l as [|x l IH]; [done|]. intros [Hx Hl]%not_elem_of_cons.
  cbn. rewrite decide_False by done. by rewrite IH.
Qed.

Lemma split_app c a b : c ∉ a -> split c (a ++ c :: b) = a :: split c b.
Proof.
  induction a as [|x a IH]; cbn.
  - by rewrite decide_True.
  - intros [Hx Ha]%not_elem_of_cons. rewrite decide_False by done. by rewrite IH.
Qed.

(** The parts never contain the separator, and joining them gives the text. *)
Fixpoint join (c : byte) (ps : list bytes) : bytes :=
  match ps with
  | [] => []
  | [p] => p
  | p :: ps => p ++ c :: join c ps
  end.

Lemma split_app_last c a b : c ∉ b -> split c (a ++ c :: b) = split c a ++ [b].
Proof.
  intros Hb. induction a as [|x a IH]; cbn [app split].
  - rewrite decide_True by done. by rewrite (split_none c b).
  - rewrite IH. case_decide; [done|]. by destruct (split c a) eqn:E; [destruct a as [|y a]; cbn in E; repeat case_match|].
Qed.
Lemma split_nonempty c l : split c l <> [].
Proof. destruct l as [|x l]; cbn; [done|]. case_decide; [done|]. by destruct (split c l). Qed.

Lemma split_parts c l : Forall (fun p => c ∉ p) (split c l).
Proof.
  induction l as [|x l IH]; cbn.
  - repeat constructor. apply not_elem_of_nil.
  - case_decide; [constructor; [apply not_elem_of_nil|done]|].
    destruct (split c l); inversion_clear IH; repeat constructor; try done;
      apply not_elem_of_cons; split; try done; apply not_elem_of_nil.
Qed.

Lemma join_split c l : join c (split c l) = l.
Proof.
  induction l as [|x l IH]; [done|]. cbn. pose proof (split_nonempty c l) as Hne.
  case_decide as Hx; subst.
  - destruct (split c l); [done|]. cbn in *. by rewrite IH.
  - destruct (split c l) as [|p [|q ps]]; [done|..]; cbn in *; by rewrite <- IH.
Qed.

Lemma split_length_app c a b : length (split c (a ++ c :: b)) = (length (split c a) + length (split c b))%nat.
Proof.
  induction a as [|x a IH]; cbn [split app].
  - by rewrite decide_True.
  - case_decide; cbn [length]; [by rewrite IH|].
    pose proof (split_nonempty c a). pose proof (split_nonempty c (a ++ c :: b)).
    destruct (split c (a ++ c :: b)), (split c a); cbn [length] in *; done || lia.
Qed.
Lemma split_length_free c a : length (split c a) = 1%nat <-> c ∉ a.
Proof.
  split; [|intros H; by rewrite split_none].
  intros Hl (a1 & a2 & ->)%list_elem_of_split.
  rewrite split_length_app in Hl. pose proof (split_nonempty c a1). pose proof (split_nonempty c a2).
  destruct (split c a1), (split c a2); cbn [length] in *; done || lia.
Qed.

(** Splitting joined pieces: as many parts as pieces exactly when no piece
  holds the separator, and then the pieces themselves. *)
Lemma split_join c ps : ps <> [] -> Forall (fun p => c ∉ p) ps -> split c (join c ps) = ps.
Proof.
  intros Hne HF. induction HF as [|p ps Hp HF IH]; [done|]. destruct ps as [|q ps].
  - cbn. by apply split_none.
  - change (join c (p :: q :: ps)) with (p ++ c :: join c (q :: ps)).
    rewrite split_app, IH by done. done.
Qed.
Lemma split_join_length c ps :
  ps <> [] -> (length ps <= length (split c (join c ps)))%nat /\
  (length (split c (join c ps)) = length ps -> Forall (fun p => c ∉ p) ps).
Proof.
  intros Hne. induction ps as [|p ps IH]; [done|].
  pose proof (split_nonempty c p) as Hp.
  assert (1 <= length (split c p))%nat as Hp1 by (destruct (split c p); cbn; [done|lia]).
  destruct ps as [|q ps].
  - cbn [join length]. split; [done|]. intros H. repeat constructor. by apply split_length_free.
  - change (join c (p :: q :: ps)) with (p ++ c :: join c (q :: ps)).
    rewrite split_length_app. destruct IH as [IH1 IH2]; [done|]. cbn [length] in *. split; [lia|].
    intros H. constructor; [apply split_length_free; lia|apply IH2; lia].
Qed.

Lemma split_valid c l :
  Utf8.is_ascii c -> Utf8.valid l = true -> Forall (fun p => Utf8.valid p = true) (split c l).
Proof.
  intros Hc. induction l as [l IH] using (induction_ltof1 _ (@length byte)). unfold ltof in IH.
  intros Hl. destruct (decide (c ∈ l)) as [(a & b & -> & Ha)%list_elem_of_split_l|Hn].
  - rewrite split_app by done. apply Utf8.valid_cut in Hl as [? ?]; [|done].
    constructor; [done|]. apply IH; [rewrite length_app; cbn; lia|done].
  - rewrite split_none by done. by constructor.
Qed.
Lemma join_valid c ps :
  Utf8.is_ascii c -> Forall (fun p => Utf8.valid p = true) ps -> Utf8.valid (join c ps) = true.
Proof.
  intros Hc HF. induction HF as [|p ps Hp HF IH]; [done|]. destruct ps as [|q ps]; [done|].
  change (join c (p :: q :: ps)) with (p ++ [c] ++ join c (q :: ps)).
  rewrite Utf8.valid_app, Utf8.valid_ascii_app by (try done; by constructor). done.
Qed.

Lemma splitn_step n c a b :
  c ∉ a -> splitn (S (S n)) c (a ++ c :: b) = a :: splitn (S n) c b.
Proof.
  intros Ha. cbn [splitn].
  match goal with |- ?go [] _ = _ => set (g := go) end.
  assert (forall acc, c ∉ a -> g acc (a ++ c :: b) = (rev acc ++ a) :: splitn (S n) c b) as Hg.
  { clear Ha. induction a as [|x a IH]; intros acc Hacc; cbn.
    - rewrite decide_True by done. by rewrite app_nil_r.
    - apply not_elem_of_cons in Hacc as [Hx Ha]. rewrite decide_False by done.
      rewrite IH by done. cbn. by rewrite <- app_assoc. }
  by rewrite Hg.
Qed.
End Split.

(** ** Integers as text *)
Module Num.
Inductive int_error : Set := Empty | InvalidDigit | PosOverflow.

(** [char::to_digit]. *)
Definition to_digit (radix : Z) (b : byte) : option Z :=
  let c := bz b in
  let d := if (48 <=? c) && (c <=? 57) then c - 48
           else if (97 <=? c) && (c <=? 122) then c - 87
           else if (65 <=? c) && (c <=? 90) then c - 55
           else radix in
  if d <? radix then Some d else None.

Fixpoint digits (radix max acc : Z) (l : bytes) : result int_error Z :=
  match l with
  | [] => Ok acc
  | b :: r =>
      match to_digit radix b with
      | None => Err InvalidDigit
      | Some d =>
          if max <? acc * radix then Err PosOverflow
          else if max <? acc * radix + d then Err PosOverflow
          else digits radix max (acc * radix + d) r
      end
  end.

Definition plus : byte := "+"%byte.
Definition minus : byte := "-"%byte.

(** [uN::from_str_radix] for an unsigned type whose largest value is [max]:
  a leading ['+'] is accepted, a leading ['-'] is an invalid digit. *)
Definition from_str_radix (radix max : Z) (l : bytes) : result int_error Z :=
  match l with
  | [] => Err Empty
  | [b] => if decide (b = plus \/ b = minus) then Err InvalidDigit
           else digits radix max 0 [b]
  | b :: r => if decide (b = plus) then digits radix max 0 r
              else digits radix max 0 (b :: r)
  end.

(** [parse::<uN>()]. *)
Definition parse_uint (w : Z) (l : bytes) : result int_error Z :=
  from_str_radix 10 (2 ^ w - 1) l.

(** [format!("{}", n)] for an unsigned integer. *)
Fixpoint dec_rev (fuel : nat) (z : Z) : bytes :=
  match fuel with
  | O => []
  | S f => byte.of_Z (48 + z mod 10) :: (if z / 10 =? 0 then [] else dec_rev f (z / 10))
  end.
Definition print_dec (z : Z) : bytes := rev (dec_rev (S (Z.to_nat (Z.log2 z))) z).

(** [format!("{:02x}", b)]. *)
Definition hex_digit (d : Z) : byte := byte.of_Z (if d <? 10 then 48 + d else 87 + d).
Definition print_hex2 (b : byte) : bytes := [hex_digit (bz b / 16); hex_digit (bz b mod 16)].

Lemma digits_app radix max acc l k :
  digits radix max acc (l ++ k) = digits radix max acc l ≫= (fun a => digits radix max a k).
Proof.
  revert acc. induction l as [|b l IH]; intros acc; [done|]. cbn.
  destruct (to_digit radix b); [|done]. do 2 (case_match; [done|]). apply IH.
Qed.

Definition is_digit (b : byte) : Prop := 48 <= bz b <= 57.

Lemma dec_rev_digits fuel z : Forall is_digit (dec_rev fuel z).
Proof.
  revert z. induction fuel as [|f IH]; intros z; cbn; [constructor|].
  pose proof (Z.mod_pos_bound z 10 ltac:(lia)).
  constructor.
  - unfold is_digit. rewrite bz_of_Z; lia.
  - case_match; [constructor|apply IH].
Qed.
Lemma print_dec_digits z : Forall is_digit (print_dec z).
Proof. apply Forall_rev, dec_rev_digits. Qed.
Lemma print_dec_nonempty z : print_dec z <> [].
Proof.
  unfold print_dec. cbn [dec_rev rev]. intros H. by apply app_eq_nil in H as [_ ?].
Qed.

Lemma to_digit_dec d : 0 <= d < 10 -> to_digit 10 (byte.of_Z (48 + d)) = Some d.
Proof.
  intros. unfold to_digit. rewrite bz_of_Z by lia.
  rewrite (proj2 (Z.leb_le _ _)), (proj2 (Z.leb_le _ _)) by lia. cbn [andb].
  rewrite (proj2 (Z.ltb_lt _ _)) by lia. f_equal; lia.
Qed.

Lemma digits_dec_rev fuel max z :
  0 <= z < 2 ^ Z.of_nat fuel -> z <= max -> digits 10 max 0 (rev (dec_rev fuel z)) = Ok z.
Proof.
  revert z. induction fuel as [|f IH]; intros z Hz Hmax; cbn [dec_rev rev].
  - cbn. f_equal. change (2 ^ Z.of_nat 0) with 1 in Hz. lia.
  - pose proof (Z.mod_pos_bound z 10 ltac:(lia)) as Hm.
    pose proof (Z.div_mod z 10 ltac:(lia)) as Hdm.
    rewrite Nat2Z.inj_succ, Z.pow_succ_r in Hz by lia.
    assert (digits 10 max 0 (rev (if z / 10 =? 0 then [] else dec_rev f (z / 10))) = Ok (z / 10)) as Hq.
    { destruct (Z.eqb_spec (z / 10) 0) as [->|Hne]; [done|]. apply IH; [|lia].
      assert (0 <= z / 10) by (apply Z.div_pos; lia). lia. }
    rewrite digits_app, Hq. cbn. rewrite to_digit_dec by lia.
    rewrite !(proj2 (Z.ltb_ge _ _)) by lia. f_equal. lia.
Qed.

Lemma from_str_radix_digits radix max l :
  Forall is_digit l -> l <> [] -> from_str_radix radix max l = digits radix max 0 l.
Proof.
  intros Hd Hne. destruct l as [|b r]; [done|]. inversion_clear Hd as [|?? Hb ?].
  assert (b <> plus /\ b <> minus) as [? ?].
  { split; intros ->; destruct Hb as [Hb _]; exact (Hb eq_refl). }
  unfold from_str_radix. destruct r; rewrite decide_False; tauto.
Qed.

(** Printing then parsing an unsigned integer of width [w] gives it back. *)
Lemma parse_print_dec w z : in_range w z -> parse_uint w (print_dec z) = Ok z.
Proof.
  intros [Hz0 Hz]. unfold parse_uint.
  rewrite from_str_radix_digits by auto using print_dec_digits, print_dec_nonempty.
  unfold print_dec. apply digits_dec_rev; [|lia]. split; [done|].
  rewrite Nat2Z.inj_succ, Z2Nat.id by apply Z.log2_nonneg.
  destruct (Z.eq_dec z 0) as [->|]; [done|]. apply Z.log2_spec. lia.
Qed.

Lemma digits_range radix max acc l z :
  0 <= radix -> 0 <= acc <= max -> digits radix max acc l = Ok z -> 0 <= z <= max.
Proof.
  intros Hr. revert acc. induction l as [|b l IH]; intros acc Hacc; cbn.
  - intros; inv_ok. done.
  - destruct (to_digit radix b) as [d|] eqn:Hd; [|done].
    destruct (Z.ltb_spec max (acc * radix)); [done|].
    destruct (Z.ltb_spec max (acc * radix + d)); [done|]. apply IH.
    assert (0 <= d); [|nia]. unfold to_digit in Hd.
    repeat case_match; simplify_eq; rewrite ?andb_true_iff, ?Z.leb_le, ?Z.ltb_lt in *; lia.
Qed.
Lemma parse_uint_range w l z : 0 <= w -> parse_uint w l = Ok z -> in_range w z.
Proof.
  intros Hw H. assert (0 < 2 ^ w) by (apply Z.pow_pos_nonneg; lia).
  enough (0 <= z <= 2 ^ w - 1) by (unfold in_range; lia).
  unfold parse_uint, from_str_radix in H.
  repeat case_match; inv_ok; (eapply digits_range; [| |done]; lia).
Qed.

Lemma from_str_radix_hex2 b : from_str_radix 16 255 (print_hex2 b) = Ok (bz b).
Proof. by destruct b. Qed.
Lemma print_hex2_ascii b : Forall Utf8.is_ascii (print_hex2 b).
Proof. destruct b; repeat constructor. Qed.

Lemma is_digit_ascii l : Forall is_digit l -> Forall Utf8.is_ascii l.
Proof. intros H. eapply Forall_impl; [exact H|]. unfold is_digit, Utf8.is_ascii. lia. Qed.
End Num.

(** ** Searching and trimming *)
Module Str.
Fixpoint starts_with (p l : bytes) : bool :=
  match p, l with
  | [], _ => true
  | _ :: _, [] => false
  | a :: p', b :: l' => if decide (a = b) then starts_with p' l' else false
  end.
Definition ends_with (p l : bytes) : bool := starts_with (rev p) (rev l).
Fixpoint contains (p l : bytes) : bool :=
  starts_with p l || match l with [] => false | _ :: l' => contains p l' end.

(** ASCII lower-casing. Other code points are kept. Of those only the Kelvin
  sign U+212A and U+0130 lower-case to something with an ASCII letter, [k] and
  [i] with a dot above; a name with one of them is not modelled. *)
Definition to_lower (b : byte) : byte :=
  if (65 <=? bz b) && (bz b <=? 90) then byte.of_Z (bz b + 32) else b.
Definition to_lowercase (l : bytes) : bytes := map to_lower l.

(** The UTF-8 encodings of the code points with the White_Space property. *)
Definition white : list bytes :=
  map (fun z => [byte.of_Z z]) [9; 10; 11; 12; 13; 32] ++
  map (fun z => map byte.of_Z z)
    ([[0xC2; 0x85]; [0xC2; 0xA0]; [0xE1; 0x9A; 0x80]] ++
     map (fun k => [0xE2; 0x80; 0x80 + k]) [0; 1; 2; 3; 4; 5; 6; 7; 8; 9; 10; 0x28; 0x29; 0x2F] ++
     [[0xE2; 0x81; 0x9F]; [0xE3; 0x80; 0x80]]).
Definition strip_one (ws : list bytes) (l : bytes) : option bytes :=
  match List.find (fun w => starts_with w l) ws with
  | Some w => Some (drop (length w) l)
  | None => None
  end.
Fixpoint strip (ws : list bytes) (fuel : nat) (l : bytes) : bytes :=
  match fuel with
  | O => l
  | S f => match strip_one ws l with Some l' => strip ws f l' | None => l end
  end.
Definition trim_start (l : bytes) : bytes := strip white (length l) l.
Definition trim_end (l : bytes) : bytes := rev (strip (map (@rev byte) white) (length l) (rev l)).
Definition trim (l : bytes) : bytes := trim_end (trim_start l).

Lemma starts_with_app p l : starts_with p (p ++ l) = true.
Proof. induction p; cbn; [done|]. by rewrite decide_True. Qed.
Lemma starts_with_spec p l : starts_with p l = true <-> exists k, l = p ++ k.
Proof.
  split; [|intros [k ->]; apply starts_with_app].
  revert l. induction p as [|a p IH]; intros l; [by eauto|].
  destruct l as [|b l]; cbn; [done|]. case_decide; [|done]. subst.
  intros [k ->]%IH. by exists k.
Qed.
Lemma contains_single b l : contains [b] l = true <-> b ∈ l.
Proof.
  induction l as [|x l IH]; cbn.
  - rewrite elem_of_nil. done.
  - rewrite orb_true_iff, IH, elem_of_cons. case_decide; intuition congruence.
Qed.

(** Text with no byte that starts or ends a white-space character is left alone. *)
Lemma strip_id ws fuel l :
  Forall (fun w => starts_with w l = false) ws -> strip ws fuel l = l.
Proof.
  intros H. destruct fuel as [|f]; [done|]. cbn. unfold strip_one.
  destruct (List.find _ _) as [w|] eqn:E; [|done].
  apply List.find_some in E as [Hin Hw]. rewrite List.Forall_forall in H.
  by rewrite (H w Hin) in Hw.
Qed.

(** [str::find]: the offset of the first occurrence. *)
Fixpoint find (p l : bytes) : option nat :=
  if starts_with p l then Some O
  else match l with [] => None | _ :: l' => S <$> find p l' end.
(** [str::replace] of a non-empty pattern. *)
Fixpoint replace_fuel (fuel : nat) (p r l : bytes) : bytes :=
  match fuel with
  | O => l
  | S fuel =>
      match find p l with
      | Some i => take i l ++ r ++ replace_fuel fuel p r (drop (i + length p) l)
      | None => l
      end
  end.
Definition replace (p r l : bytes) : bytes := replace_fuel (length l) p r l.

Lemma contains_spec p l : contains p l = true <-> exists a b, l = a ++ p ++ b.
Proof.
  induction l as [|x l IH]; cbn [contains].
  - rewrite orb_false_r, starts_with_spec. split.
    + intros [k E]. by exists [], k.
    + intros ([|] & c & E); [by exists c|done].
  - rewrite orb_true_iff, starts_with_spec, IH. split.
    + intros [[k E]|(a & c & ->)]; [by exists [], k|by exists (x :: a), c].
    + intros ([|y a] & c & E); [left; by exists c|right; injection E as <- ->; eauto].
Qed.
Lemma contains_app_l p l k : contains p (l ++ k) = false -> contains p l = false.
Proof.
  rewrite <- !not_true_iff_false, !contains_spec. intros H (a & c & ->). apply H.
  exists a, (c ++ k). by rewrite <- !app_assoc.
Qed.
Lemma contains_app_r p l k : contains p (l ++ k) = false -> contains p k = false.
Proof.
  rewrite <- !not_true_iff_false, !contains_spec. intros H (a & c & ->). apply H.
  exists (l ++ a), c. by rewrite <- !app_assoc.
Qed.
Lemma find_at_Some p l i :
  find p l = Some i -> exists a b, l = a ++ p ++ b /\ i = length a /\ (p <> [] -> contains p a = false).
Proof.
  revert i. induction l as [|x l IH]; intros i; cbn [find].
  - destruct (starts_with p []) eqn:E; [|done]. apply starts_with_spec in E as [k E]. intros [= <-].
    exists [], k. by destruct p.
  - destruct (starts_with p (x :: l)) eqn:E.
    + apply starts_with_spec in E as [k E]. intros [= <-]. exists [], k. by destruct p.
    + destruct (find p l) as [j|]; [|done]. intros [= <-].
      destruct (IH j eq_refl) as (a & c & -> & -> & Hc). exists (x :: a), c. repeat split; [done..|].
      intros Hp. cbn [contains]. rewrite Hc by done.
      destruct (starts_with p (x :: a)) eqn:E'; [|done]. apply starts_with_spec in E' as [k E'].
      change (x :: a ++ p ++ c) with ((x :: a) ++ p ++ c) in E.
      rewrite E', <- app_assoc, starts_with_app in E. done.
Qed.
Lemma find_at_None p l : find p l = None <-> contains p l = false.
Proof.
  induction l as [|x l IH]; cbn [find contains].
  - by destruct (starts_with p []).
  - destruct (starts_with p (x :: l)); [done|]. rewrite orb_false_l, <- IH. by destruct (find p l).
Qed.
Lemma find_le p l i : find p l = Some i -> (i + length p <= length l)%nat.
Proof. intros (a & c & -> & -> & _)%find_at_Some. rewrite !length_app. lia. Qed.

Lemma replace_fuel_eq p r f1 f2 l :
  p <> [] -> (length l <= f1)%nat -> (length l <= f2)%nat ->
  replace_fuel f1 p r l = replace_fuel f2 p r l.
Proof.
  intros Hp. assert (0 < length p)%nat as Hp' by (destruct p; cbn; done || lia).
  revert f2 l. induction f1 as [|f1 IH]; intros f2 l H1 H2.
  - destruct f2 as [|f2]; [done|]. cbn [replace_fuel].
    destruct (find p l) eqn:E; [apply find_le in E; lia|done].
  - destruct f2 as [|f2]; cbn [replace_fuel]; (destruct (find p l) eqn:E; [|done]);
      apply find_le in E; [lia|].
    do 2 f_equal. apply IH; rewrite length_drop; lia.
Qed.
Lemma replace_app p r a c :
  p <> [] -> find p (a ++ p ++ c) = Some (length a) ->
  replace p r (a ++ p ++ c) = a ++ r ++ replace p r c.
Proof.
  intros Hp E. assert (0 < length p)%nat as Hp' by (destruct p; cbn; done || lia).
  unfold replace. rewrite (replace_fuel_eq _ _ _ (S (length (a ++ p ++ c)))) by (done || lia).
  cbn [replace_fuel]. rewrite E, take_app_length. do 2 f_equal.
  rewrite app_assoc, drop_app_length' by (rewrite length_app; lia).
  apply replace_fuel_eq; [done| |lia]. rewrite !length_app. lia.
Qed.
Lemma replace_none p r l : contains p l = false -> replace p r l = l.
Proof. unfold replace. intros H%find_at_None. destruct (length l); [done|]. cbn [replace_fuel]. by rewrite H. Qed.
(** Induction along the replacements. *)
Lemma replace_ind p r (P : bytes -> bytes -> Prop) :
  p <> [] ->
  (forall l, contains p l = false -> P l l) ->
  (forall a c, contains p a = false -> P c (replace p r c) -> P (a ++ p ++ c) (a ++ r ++ replace p r c)) ->
  forall l, P l (replace p r l).
Proof.
  intros Hp H0 H1 l. induction l as [l IH] using (induction_ltof1 _ (@length byte)). unfold ltof in IH.
  destruct (find p l) as [i|] eqn:E.
  - pose proof E as (a & c & -> & -> & Ha)%find_at_Some. rewrite replace_app by done.
    apply H1; [by apply Ha|]. apply IH. rewrite !length_app. destruct p; [done|]. cbn. lia.
  - apply find_at_None in E. rewrite replace_none by done. by apply H0.
Qed.
(** An occurrence cannot straddle a byte that is not in the pattern. *)
Lemma starts_with_sep p a x c : x ∉ p -> starts_with p (a ++ x :: c) = starts_with p a.
Proof.
  revert a. induction p as [|q p IH]; intros a Hx; [done|]. apply not_elem_of_cons in Hx as [Hq Hx].
  destruct a as [|y a]; cbn [starts_with app]; [by rewrite decide_False|]. case_decide; [by apply IH|done].
Qed.
Lemma contains_sep p a x c :
  x ∉ p -> contains p (a ++ x :: c) = contains p a || contains p c.
Proof.
  intros Hx. induction a as [|y a IH].
  - cbn [app contains]. rewrite <- (starts_with_sep p [] x c Hx). cbn [app]. by rewrite orb_false_r.
  - change ((y :: a) ++ x :: c) with (y :: (a ++ x :: c)). cbn [contains]. rewrite IH.
    change (y :: (a ++ x :: c)) with ((y :: a) ++ x :: c). rewrite starts_with_sep by done. by rewrite orb_assoc.
Qed.
Lemma contains_head q p r c : q ∉ r -> contains (q :: p) (r ++ c) = contains (q :: p) c.
Proof.
  intros Hq. induction r as [|y r IH]; [done|]. apply not_elem_of_cons in Hq as [Hy Hq].
  cbn [app contains starts_with]. rewrite decide_False by done. by apply IH.
Qed.
(** Replacing a pattern by a text that starts with a byte foreign to [q] and
  does not hold its first byte creates no occurrence of [q]... *)
Lemma replace_keeps_absent q q' p x r l :
  x ∉ q :: q' -> q ∉ x :: r -> p <> [] -> contains (q :: q') l = false ->
  contains (q :: q') (replace p (x :: r) l) = false.
Proof.
  intros Hx Hq Hp. revert l. apply (replace_ind p (x :: r) (fun l o => contains _ l = false -> contains _ o = false)).
  - done.
  - done.
  - intros a c _ IH H. cbn [app]. rewrite contains_sep by done.
    rewrite (contains_app_l _ _ _ H). cbn [orb]. apply not_elem_of_cons in Hq as [_ Hq].
    rewrite contains_head by done. apply IH. by apply contains_app_r, contains_app_r in H.
Qed.
(** ... and of the pattern itself leaves none. *)
Lemma replace_removes q p x r l :
  x ∉ q :: p -> q ∉ x :: r -> contains (q :: p) (replace (q :: p) (x :: r) l) = false.
Proof.
  intros Hx Hq. revert l. apply (replace_ind (q :: p) (x :: r) (fun _ o => contains _ o = false)); [done|done|].
  intros a c Ha IH. cbn [app]. rewrite contains_sep, Ha by done. cbn [orb].
  apply not_elem_of_cons in Hq as [_ Hq]. by rewrite contains_head.
Qed.
(** In a text without the pattern followed by it, the first occurrence is the
  latter, when the first byte of the pattern does not recur in it. *)
Lemma find_first q p a c :
  q ∉ p -> contains (q :: p) a = false -> find (q :: p) (a ++ (q :: p) ++ c) = Some (length a).
Proof.
  intros Hq. induction a as [|y a IH]; intros Ha.
  - cbn [app find length]. change (q :: p ++ c) with ((q :: p) ++ c). by rewrite starts_with_app.
  - change ((y :: a) ++ (q :: p) ++ c) with (y :: (a ++ (q :: p) ++ c)). cbn [find contains] in *.
    apply orb_false_iff in Ha as [H1 H2]. rewrite IH by done.
    assert (starts_with (q :: p) (y :: a ++ (q :: p) ++ c) = false) as ->; [|done].
    cbn [starts_with] in *. destruct (decide (q = y)); [|done]. cbn [app].
    by rewrite starts_with_sep.
Qed.
(** [str::strip_prefix], [str::split_once] and [rsplitn(2, c)] of an ASCII separator. *)
Definition strip_prefix (p l : bytes) : option bytes :=
  if starts_with p l then Some (drop (length p) l) else None.
Fixpoint split_once (c : byte) (l : bytes) : option (bytes * bytes) :=
  match l with
  | [] => None
  | x :: r =>
      if decide (x = c) then Some ([], r)
      else match split_once c r with Some (k, v) => Some (x :: k, v) | None => None end
  end.
Definition rsplitn2 (c : byte) (l : bytes) : list bytes :=
  match split_once c (rev l) with
  | Some (k, v) => [rev k; rev v]
  | None => [l]
  end.
(** [str::split_whitespace]; [cur] holds the word being read, reversed. *)
Fixpoint words_from (fuel : nat) (cur l : bytes) : list bytes :=
  let flush := match cur with [] => [] | _ => [rev cur] end in
  match fuel with
  | O => flush
  | S fuel =>
      match strip_one white l with
      | Some r => flush ++ words_from fuel [] r
      | None => match l with [] => flush | b :: r => words_from fuel (b :: cur) r end
      end
  end.
Definition split_whitespace (l : bytes) : list bytes := words_from (S (length l)) [] l.

(** A text that [trim] keeps, and a word. *)
Definition is_trimmed (l : bytes) : bool :=
  negb (bool_decide (l = [])) && negb (bool_decide (is_Some (strip_one white l)))
  && negb (bool_decide (is_Some (strip_one (map (@rev byte) white) (rev l)))).
Definition is_word (l : bytes) : bool :=
  negb (bool_decide (l = [])) && forallb (fun w => negb (contains w l)) white.

Lemma strip_one_None ws l : strip_one ws l = None <-> Forall (fun w => starts_with w l = false) ws.
Proof.
  unfold strip_one. destruct (List.find _ _) as [w|] eqn:E.
  - split; [done|]. intros HF. apply List.find_some in E as [Hin Hw]. rewrite List.Forall_forall in HF.
    by rewrite (HF w Hin) in Hw.
  - split; [|done]. intros _. apply List.Forall_forall. by apply List.find_none.
Qed.
Lemma strip_stop ws fuel l : strip_one ws l = None -> strip ws fuel l = l.
Proof. intros ?%strip_one_None. by apply strip_id. Qed.
Lemma is_trimmed_spec l :
  is_trimmed l = true <-> l <> [] /\ strip_one white l = None /\ strip_one (map (@rev byte) white) (rev l) = None.
Proof.
  unfold is_trimmed. rewrite !andb_true_iff, !negb_true_iff, !bool_decide_eq_false.
  rewrite <- !eq_None_not_Some. tauto.
Qed.
Lemma trim_id l : is_trimmed l = true -> trim l = l.
Proof.
  intros (_ & H1 & H2)%is_trimmed_spec. unfold trim, trim_start, trim_end.
  rewrite (strip_stop white) by done. rewrite strip_stop by done. apply rev_involutive.
Qed.
Lemma starts_with_rev w l : starts_with (rev w) (rev l) = true <-> exists k, l = k ++ w.
Proof.
  rewrite starts_with_spec. split.
  - intros [k Hk]. exists (rev k). by rewrite <- (rev_involutive l), Hk, rev_app_distr, rev_involutive.
  - intros [k ->]. exists (rev k). apply rev_app_distr.
Qed.
(** A white-space character of several bytes has no space in it. *)
Lemma white_space_only w : In w white -> In " "%byte w -> w = [" "%byte].
Proof.
  assert (Forall (fun w => " "%byte ∈ w -> w = [" "%byte]) white) as HF.
  { apply (bool_decide_unpack _). by vm_compute. }
  rewrite List.Forall_forall in HF. intros Hw Hi. apply HF; [done|]. by apply list_elem_of_In.
Qed.
Lemma white_nonempty w : In w white -> w <> [].
Proof.
  assert (Forall (fun w => w <> []) white) as HF by (apply (bool_decide_unpack _); by vm_compute).
  rewrite List.Forall_forall in HF. apply HF.
Qed.
Definition no_white (l : bytes) : Prop := Forall (fun w => contains w l = false) white.
Lemma is_word_spec l : is_word l = true <-> l <> [] /\ no_white l.
Proof.
  unfold is_word, no_white. rewrite andb_true_iff, negb_true_iff, bool_decide_eq_false, forallb_forall, List.Forall_forall.
  by setoid_rewrite negb_true_iff.
Qed.
(** White space at either end of a text with a space in it does not reach over that space. *)
Lemma white_prefix w x l k : In w white -> x <> [] -> x ++ " "%byte :: l = w ++ k -> exists k', x = w ++ k'.
Proof.
  intros Hw Hx [(k' & -> & _)|(k' & -> & He)]%app_eq_inv; [by exists k'|].
  destruct k' as [|b k']; [exists []; by rewrite !app_nil_r|]. injection He as <- ->.
  assert (x ++ " "%byte :: k' = [" "%byte]) as Hs by (apply white_space_only; [done|apply in_or_app; right; by left]).
  destruct x as [|? [|? ?]]; done.
Qed.
Lemma white_suffix w y l k : In w white -> y <> [] -> l ++ " "%byte :: y = k ++ w -> exists k', y = k' ++ w.
Proof.
  intros Hw Hy [(k' & -> & Hk)|(k' & -> & Hk)]%app_eq_inv.
  - assert (w = [" "%byte]) as -> by (apply white_space_only; [done|]; rewrite Hk; apply in_or_app; right; by left).
    destruct k' as [|? [|? ?]], y; done.
  - destruct k' as [|b k']; [|injection Hk as <- ->; by exists k']. cbn in Hk. subst w.
    assert (" "%byte :: y = [" "%byte]) as [= ->] by (apply white_space_only; [done|by left]). done.
Qed.
Lemma contains_at w a b : contains w (a ++ w ++ b) = true.
Proof. apply contains_spec. by exists a, b. Qed.
Lemma no_white_head x l :
  x <> [] -> no_white x -> strip_one white x = None /\ strip_one white (x ++ " "%byte :: l) = None.
Proof.
  intros Hne Hx. unfold no_white in Hx. rewrite List.Forall_forall in Hx. rewrite !strip_one_None.
  split; apply List.Forall_forall; intros w Hw; apply not_true_iff_false; intros [k Hk]%starts_with_spec.
  - specialize (Hx w Hw). subst x. pose proof (contains_at w [] k) as Hc. cbn in Hc. congruence.
  - apply white_prefix in Hk as [k' ->]; [|done..]. specialize (Hx w Hw).
    pose proof (contains_at w [] k') as Hc. cbn in Hc. congruence.
Qed.
Lemma strip_end_None y :
  strip_one (map (@rev byte) white) (rev y) = None <-> forall w k, In w white -> y <> k ++ w.
Proof.
  rewrite strip_one_None. split.
  - intros HF w k Hw ->. rewrite List.Forall_forall in HF. specialize (HF (rev w) (in_map _ _ _ Hw)).
    apply not_true_iff_false in HF. apply HF, starts_with_rev. by exists k.
  - intros HF. apply List.Forall_forall. intros w' (w & <- & Hw)%in_map_iff. apply not_true_iff_false.
    intros [k Hk]%starts_with_rev. by apply (HF w k).
Qed.
Lemma word_trimmed x : is_word x = true -> is_trimmed x = true.
Proof.
  intros [Hne Hx]%is_word_spec. apply is_trimmed_spec. split; [done|]. split; [by apply (no_white_head x [])|].
  apply strip_end_None. intros w k Hw ->. unfold no_white in Hx. rewrite List.Forall_forall in Hx. specialize (Hx w Hw).
  pose proof (contains_at w k []) as Hc. rewrite app_nil_r in Hc. by rewrite Hc in Hx.
Qed.
(** A word, a space and a text that [trim] keeps. *)
Lemma trimmed_cons x y :
  is_word x = true -> is_trimmed y = true -> is_trimmed (x ++ " "%byte :: y) = true.
Proof.
  intros [Hne Hx]%is_word_spec (Hy & _ & Ht)%is_trimmed_spec. apply is_trimmed_spec. split; [by destruct x|].
  split; [by apply no_white_head|]. rewrite strip_end_None in *. intros w k Hw Hk.
  apply white_suffix in Hk as [k' ->]; [|done..]. by apply (Ht w k').
Qed.
Lemma trimmed_join ws :
  ws <> [] -> Forall (fun w => is_word w = true) ws -> is_trimmed (Split.join " "%byte ws) = true.
Proof.
  intros Hne HF. induction HF as [|w ws Hw HF IH]; [done|]. destruct ws as [|v ws]; [by apply word_trimmed|].
  by apply trimmed_cons, IH.
Qed.

(** *** Words *)
Lemma words_word x cur l fuel :
  no_white x -> (length x <= fuel)%nat ->
  words_from fuel cur (x ++ " "%byte :: l) = words_from (fuel - length x) (rev x ++ cur) (" "%byte :: l) /\
  words_from fuel cur x = words_from (fuel - length x) (rev x ++ cur) [].
Proof.
  revert cur fuel. induction x as [|b x IH]; intros cur fuel Hx Hf; cbn [length] in *; [by rewrite Nat.sub_0_r|].
  destruct fuel as [|fuel]; [lia|]. cbn [words_from].
  destruct (no_white_head (b :: x) l) as [-> ->]; [done..|]. cbn [app Nat.sub rev]. rewrite <- app_assoc. apply IH; [|lia].
  eapply Forall_impl; [exact Hx|]. intros w Hw. by apply (contains_app_r w [b]).
Qed.
Lemma words_from_join ws fuel :
  Forall (fun w => is_word w = true) ws -> (length (Split.join " "%byte ws) < fuel)%nat ->
  words_from fuel [] (Split.join " "%byte ws) = ws.
Proof.
  intros HF. revert fuel. induction HF as [|w ws Hw HF IH]; intros fuel Hf; [by destruct fuel|].
  apply is_word_spec in Hw as [Hne Hw]. assert (rev w <> []) as Hr by (intros E; apply Hne; by rewrite <- (rev_involutive w), E).
  destruct ws as [|v ws].
  - cbn [Split.join] in *. destruct (words_word w [] [] fuel Hw) as [_ ->]; [lia|]. rewrite app_nil_r.
    destruct (fuel - length w)%nat; cbn; (destruct (rev w) eqn:E; [done|]); by rewrite <- E, rev_involutive.
  - change (Split.join _ (w :: v :: ws)) with (w ++ " "%byte :: Split.join " "%byte (v :: ws)) in *.
    rewrite length_app in Hf. cbn [length] in Hf. destruct (words_word w [] (Split.join " "%byte (v :: ws)) fuel Hw) as [-> _]; [lia|].
    destruct (fuel - length w)%nat as [|f] eqn:Ef; [lia|]. rewrite app_nil_r. cbn [words_from].
    change (strip_one white (" "%byte :: ?l)) with (Some l). cbn [mbind option_bind].
    destruct (rev w) as [|b r] eqn:E; [done|]. rewrite IH by lia. by rewrite <- E, rev_involutive.
Qed.
Lemma split_whitespace_join ws :
  Forall (fun w => is_word w = true) ws -> split_whitespace (Split.join " "%byte ws) = ws.
Proof. intros. apply words_from_join; [done|lia]. Qed.
Lemma split_once_app c k v : c ∉ k -> split_once c (k ++ c :: v) = Some (k, v).
Proof.
  induction k as [|x k IH]; cbn; [by rewrite decide_True|]. intros [Hx Hk]%not_elem_of_cons.
  rewrite decide_False by done. by rewrite IH.
Qed.
Lemma rsplitn2_app c k v : c ∉ v -> rsplitn2 c (k ++ c :: v) = [v; k].
Proof.
  intros Hv. unfold rsplitn2. rewrite rev_app_distr. cbn [rev]. rewrite <- app_assoc.
  cbn [app]. rewrite split_once_app; [by rewrite !rev_involutive|].
  intros Hi. apply Hv. by apply list_elem_of_In, in_rev, list_elem_of_In.
Qed.
Lemma split_once_none c l : c ∉ l -> split_once c l = None.
Proof.
  induction l as [|x l IH]; cbn; [done|]. intros [Hx Hl]%not_elem_of_cons. rewrite decide_False by done. by rewrite IH.
Qed.
Lemma rsplitn2_none c l : c ∉ l -> rsplitn2 c l = [l].
Proof.
  intros Hl. unfold rsplitn2. rewrite split_once_none; [done|].
  intros Hi. apply Hl. by apply list_elem_of_In, in_rev, list_elem_of_In.
Qed.
End Str.

(** ** Sorting

    [sort], [sort_by(|a, b| key(a).cmp(&key(b)))]: the stable sort by a
    string key, compared by bytes. *)
Module Sort.
Definition str_le (a b : string) : Prop := String.leb a b = true.
#[global] Instance str_le_dec a b : Decision (str_le a b).
Proof. unfold str_le; apply _. Defined.
Fixpoint insert_by {A} (f : A -> string) (x : A) (l : list A) : list A :=
  match l with
  | [] => [x]
  | y :: l' => if decide (str_le (f x) (f y)) then x :: l else y :: insert_by f x l'
  end.
Definition sort_by {A} (f : A -> string) (l : list A) : list A := foldr (insert_by f) [] l.
Definition sort (l : list string) : list string := sort_by id l.

Lemma str_le_refl a : str_le a a.
Proof. destruct (String.leb_total a a); done. Qed.

Section sort.
Context {A : Type} (f : A -> string).
Definition key_le (a b : A) : Prop := str_le (f a) (f b).
Lemma insert_by_perm x l : insert_by f x l ≡ₚ x :: l.
Proof. induction l as [|y l IH]; cbn; [done|]. case_decide; [done|]. rewrite IH. apply Permutation_swap. Qed.
Lemma sort_by_perm l : sort_by f l ≡ₚ l.
Proof. induction l as [|x l IH]; [done|]. cbn. by rewrite insert_by_perm, IH. Qed.
Lemma insert_by_sorted x l : Sorted key_le l -> Sorted key_le (insert_by f x l).
Proof.
  induction 1 as [|y l Hs IH Hh]; cbn; [repeat constructor|]. case_decide as Hxy; [repeat constructor; done|].
  constructor; [done|]. unfold key_le in *. assert (str_le (f y) (f x)) as Hyx
    by (unfold str_le in *; destruct (String.leb_total (f x) (f y)); done).
  destruct l as [|z l]; cbn; [by constructor|]. inversion_clear Hh. case_decide; by constructor.
Qed.
Lemma sort_by_sorted l : Sorted key_le (sort_by f l).
Proof. induction l as [|x l IH]; [constructor|]. by apply insert_by_sorted. Qed.
(** Stability: elements of one key keep their order. *)
Lemma sort_by_stable k l :
  List.filter (fun a => String.eqb (f a) k) (sort_by f l) = List.filter (fun a => String.eqb (f a) k) l.
Proof.
  induction l as [|x l IH]; [done|]. cbn [sort_by foldr List.filter]. fold (sort_by f l). rewrite <- IH.
  generalize (sort_by f l). clear IH l. intros l. induction l as [|y l IH]; [done|]. cbn [insert_by].
  case_decide as Hxy; [done|]. cbn [List.filter]. rewrite IH.
  destruct (String.eqb_spec (f x) k) as [Ex|]; [|by case_match].
  destruct (String.eqb_spec (f y) k) as [Ey|]; [|done]. destruct Hxy. rewrite Ex, Ey. apply str_le_refl.
Qed.
End sort.
End Sort.
