(* ===== verification/Wire.v ===== *)
(** * Byte streams and the event bus

    The streams the protocols read and write, the [io::Error] kinds they
    return, and the events the components publish.

    A stream that is read with [read_exact] only is the list of bytes the peer
    has sent before closing it.  A stream read with plain [read] is the list of
    the chunks the transport delivers, in order: the protocols must not depend
    on how the bytes are cut.  A sink is the list of bytes written so far. *)
From S2P Require Import Prelude RustStd.

Inductive io_error : Set := InvalidData | UnexpectedEof | TimedOut | OtherIo.
#[global] Instance io_error_eq_dec : EqDecision io_error.
Proof. solve_decision. Defined.

(** ** Readers *)
Definition reader (A : Type) : Type := bytes -> result io_error (A * bytes).
#[global] Instance reader_ret : MRet reader := fun A a s => Ok (a, s).
#[global] Instance reader_bind : MBind reader := fun A B f m s =>
  match m s with Ok (a, s') => f a s' | Err e => Err e end.

Definition read_fail {A} (e : io_error) : reader A := fun _ => Err e.

(** [stream.read_exact(&mut [0u8; n])]. *)
Definition read_exact (n : Z) : reader bytes := fun s =>
  if zlen s <? n then Err UnexpectedEof
  else Ok (take (Z.to_nat n) s, drop (Z.to_nat n) s).

Definition read_le (n : nat) : reader Z := b ← read_exact (Z.of_nat n); mret (from_le_bytes b).
Definition read_be (n : nat) : reader Z := b ← read_exact (Z.of_nat n); mret (from_be_bytes b).
(** [String::from_utf8(buf).map_err(InvalidData)]. *)
Definition utf8_or_invalid (b : bytes) : reader string :=
  match Utf8.from_utf8 b with Some t => mret t | None => read_fail InvalidData end.

Section reader_lemmas.
Context {A B : Type}.

Lemma reader_bind_Ok (m : reader A) (f : A -> reader B) s b s'' :
  (m ≫= f) s = Ok (b, s'') <-> exists a s', m s = Ok (a, s') /\ f a s' = Ok (b, s'').
Proof.
  unfold mbind, reader_bind. destruct (m s) as [[a s']|e]; split; try naive_solver.
Qed.
Lemma reader_bind_step (m : reader A) (f : A -> reader B) s a s' :
  m s = Ok (a, s') -> (m ≫= f) s = f a s'.
Proof. unfold mbind, reader_bind. by intros ->. Qed.
End reader_lemmas.

Lemma read_exact_app b s : read_exact (zlen b) (b ++ s) = Ok (b, s).
Proof.
  unfold read_exact. rewrite (proj2 (Z.ltb_ge _ _)) by (zlens; pose proof (zlen_nonneg s); lia).
  unfold zlen. by rewrite Nat2Z.id, take_app_length, drop_app_length.
Qed.
Lemma read_exact_app' n b s : n = zlen b -> read_exact n (b ++ s) = Ok (b, s).
Proof. intros ->. apply read_exact_app. Qed.
Lemma read_exact_Ok n s b s' :
  0 <= n -> read_exact n s = Ok (b, s') <-> s = b ++ s' /\ zlen b = n.
Proof.
  intros Hn. split.
  - unfold read_exact. destruct (Z.ltb_spec (zlen s) n); [done|]. intros [= <- <-].
    rewrite take_drop. split; [done|]. unfold zlen in *. rewrite length_take. lia.
  - intros [-> <-]. apply read_exact_app.
Qed.
Lemma read_exact_short n s : zlen s < n -> read_exact n s = Err UnexpectedEof.
Proof. intros. unfold read_exact. by rewrite (proj2 (Z.ltb_lt _ _)). Qed.

Lemma read_le_app n v s :
  in_range (8 * Z.of_nat n) v -> read_le n (to_le_bytes n v ++ s) = Ok (v, s).
Proof.
  intros Hv. unfold read_le. rewrite (reader_bind_step _ _ _ (to_le_bytes n v) s).
  - unfold mret, reader_ret. by rewrite from_to_le_id.
  - apply read_exact_app'. by rewrite zlen_to_le_bytes.
Qed.
Lemma read_be_app n v s :
  in_range (8 * Z.of_nat n) v -> read_be n (to_be_bytes n v ++ s) = Ok (v, s).
Proof.
  intros Hv. unfold read_be. rewrite (reader_bind_step _ _ _ (to_be_bytes n v) s).
  - unfold mret, reader_ret. by rewrite from_to_be_id.
  - apply read_exact_app'. by rewrite zlen_to_be_bytes.
Qed.
Lemma read_le_Ok n s v s' :
  read_le n s = Ok (v, s') -> s = to_le_bytes n v ++ s' /\ in_range (8 * Z.of_nat n) v.
Proof.
  unfold read_le. intros (b & r & Hb & Hv)%reader_bind_Ok.
  apply read_exact_Ok in Hb as [-> Hb]; [|lia]. injection Hv as <- ->.
  rewrite to_from_le_bytes by (unfold zlen in Hb; lia).
  split; [done|]. pose proof (from_le_bytes_range b) as R. by rewrite Hb in R.
Qed.
Lemma read_be_Ok n s v s' :
  read_be n s = Ok (v, s') -> s = to_be_bytes n v ++ s' /\ in_range (8 * Z.of_nat n) v.
Proof.
  unfold read_be. intros (b & r & Hb & Hv)%reader_bind_Ok.
  apply read_exact_Ok in Hb as [-> Hb]; [|lia]. injection Hv as <- ->.
  rewrite to_from_be_bytes by (unfold zlen in Hb; lia).
  split; [done|]. pose proof (from_be_bytes_range b) as R. by rewrite Hb in R.
Qed.
Lemma utf8_or_invalid_str t s : Utf8.is_str t -> utf8_or_invalid (as_bytes t) s = Ok (t, s).
Proof. intros Ht. unfold utf8_or_invalid. by rewrite Utf8.from_utf8_str. Qed.
Lemma utf8_or_invalid_Ok b s t s' :
  utf8_or_invalid b s = Ok (t, s') -> b = as_bytes t /\ Utf8.is_str t /\ s' = s.
Proof.
  unfold utf8_or_invalid. destruct (Utf8.from_utf8 b) eqn:E; [|done].
  intros [= -> ->]. apply Utf8.from_utf8_Some in E as [-> ?]. done.
Qed.

(** [rd]: run one read step over bytes whose encoding is syntactically in front. *)
Ltac in_range_hyp := match goal with H : in_range _ ?x |- in_range _ ?x => exact H end.
Ltac rd := first
  [ erewrite reader_bind_step; [|apply read_exact_app]
  | erewrite reader_bind_step; [|apply read_exact_app'; zlens]
  | erewrite reader_bind_step; [|apply read_le_app; in_range_hyp]
  | erewrite reader_bind_step; [|apply read_be_app; in_range_hyp]
  | erewrite reader_bind_step; [|apply utf8_or_invalid_str; assumption] ].

(** ** Chunked streams *)
Module Chunked.
(** [stream.read(&mut buf[..n])]: at most [n] bytes of the next chunk; no
  bytes once the stream is closed. *)
Definition read (n : Z) (cs : list bytes) : bytes * list bytes :=
  match cs with
  | [] => ([], [])
  | c :: cs' =>
      if n <? zlen c then (take (Z.to_nat n) c, drop (Z.to_nat n) c :: cs')
      else (c, cs')
  end.

(** A transport never delivers an empty chunk before the end. *)
Definition delivers (cs : list bytes) : Prop := Forall (fun c => c <> []) cs.

Lemma read_concat n cs b cs' :
  read n cs = (b, cs') -> concat cs = b ++ concat cs'.
Proof.
  destruct cs as [|c cs]; cbn; [by intros [= <- <-]|].
  destruct (n <? zlen c); intros [= <- <-]; [|done].
  cbn. by rewrite app_assoc, take_drop.
Qed.
Lemma read_le_n n cs b cs' : 0 <= n -> read n cs = (b, cs') -> zlen b <= n.
Proof.
  destruct cs as [|c cs]; cbn; [intros ? [= <- <-]; zlens|].
  destruct (Z.ltb_spec n (zlen c)); intros ? [= <- <-]; [|done].
  unfold zlen. rewrite length_take. lia.
Qed.
Lemma read_delivers n cs b cs' :
  0 < n -> delivers cs -> read n cs = (b, cs') -> delivers cs' /\ (b = [] -> cs = []).
Proof.
  intros Hn Hd. destruct cs as [|c cs]; cbn; [by intros [= <- <-]|].
  inversion_clear Hd as [|?? Hc Hcs].
  destruct (Z.ltb_spec n (zlen c)) as [Hlt|]; intros [= <- <-]; [|done].
  unfold zlen in Hlt. split.
  - constructor; [|done]. intros E%(f_equal length). rewrite length_drop in E. cbn in E. lia.
  - intros E%(f_equal length). rewrite length_take in E. cbn in E. lia.
Qed.

(** [stream.read_exact(&mut [0u8; n])] over chunks: the bytes, then the
  chunks left; [UnexpectedEof] when the stream ends first. *)
Fixpoint read_exact (n : nat) (cs : list bytes) : result io_error (bytes * list bytes) :=
  match n with
  | O => Ok ([], cs)
  | _ =>
    match cs with
    | [] => Err UnexpectedEof
    | c :: cs' =>
        if (n <? length c)%nat then Ok (take n c, drop n c :: cs')
        else '(b, cs'') ← read_exact (n - length c) cs'; Ok (c ++ b, cs'')
    end
  end.

Lemma read_exact_spec n cs :
  delivers cs ->
  match read_exact n cs with
  | Ok (b, cs') => delivers cs' /\ b = take n (concat cs) /\ concat cs' = drop n (concat cs) /\
                   (n <= length (concat cs))%nat
  | Err e => e = UnexpectedEof /\ (length (concat cs) < n)%nat
  end.
Proof.
  revert n. induction cs as [|c cs IH]; intros n Hd.
  { destruct n; cbn; repeat split; try done; lia. }
  inversion_clear Hd as [|?? Hc Hcs].
  destruct n as [|n]; [cbn; repeat split; try lia; by constructor|].
  cbn [read_exact concat]. rewrite length_app, take_app, drop_app.
  destruct (Nat.ltb_spec (S n) (length c)) as [Hlt|Hge].
  - replace (S n - length c)%nat with O by lia.
    rewrite take_0, drop_0, app_nil_r. repeat split; [|lia]. constructor; [|done].
    intros E%(f_equal length). rewrite length_drop in E. cbn [length] in E. lia.
  - specialize (IH (S n - length c)%nat Hcs).
    unfold mbind, result_bind. destruct (read_exact _ cs) as [[b cs']|e]; [|split; [apply IH|lia]].
    destruct IH as (? & -> & Hr & ?). rewrite (take_ge c), (drop_ge c) by lia.
    repeat split; [done|exact Hr|lia].
Qed.
End Chunked.

(** ** Events

    Payloads are the values built with [serde_json::json!]; their text is
    [serde_json]'s. Publishing is synchronous and never fails: a component's
    effect on the bus is the list of events it publishes, in order. *)
Inductive json : Type :=
  | JNull
  | JBool (b : bool)
  | JNum (n : Z)
  | JStr (s : string)
  | JArr (l : list json)
  | JObj (fields : list (string * json)).

Inductive NotifyLevel : Set := Info | Warn | Error.
Inductive Bus_Event : Type :=
  | Notify (level : NotifyLevel) (message : string)
  | State (payload : json)
  | Stream (payload : json)
  | Output (payload : json).
