(* ===== verification/Json.v ===== *)
(** * Reading JSON values

    [serde_json::Value] as the interface and the HTTP server read it: [v["k"]],
    [get], [as_str], [as_bool], [as_u64] and [as_array].  Objects made by
    [serde_json::json!] have no two fields of the same name. *)
From S2P Require Import Prelude RustStd Wire.

Definition field (v : json) (k : string) : option json :=
  match v with
  | JObj fields => snd <$> List.find (fun '(k', _) => String.eqb k' k) fields
  | _ => None
  end.
Definition index (v : json) (k : string) : json := default JNull (field v k).
Definition json_str (v : json) : option string := match v with JStr s => Some s | _ => None end.
Definition json_bool (v : json) : option bool := match v with JBool b => Some b | _ => None end.
Definition json_u64 (v : json) : option Z :=
  match v with JNum n => if in_rangeb 64 n then Some n else None | _ => None end.
Definition json_array (v : json) : option (list json) := match v with JArr l => Some l | _ => None end.
Definition str_or (v : json) (k dflt : string) : string := default dflt (json_str (index v k)).
Definition u64_or (v : json) (k : string) (dflt : Z) : Z := default dflt (json_u64 (index v k)).
Lemma json_u64_ok z : in_range 64 z -> json_u64 (JNum z) = Some z.
Proof. intros [H1 H2]. unfold json_u64, in_rangeb. by rewrite (proj2 (Z.leb_le _ _) H1), (proj2 (Z.ltb_lt _ _) H2). Qed.
Lemma json_u64_nonneg v z : json_u64 v = Some z -> in_range 64 z.
Proof. unfold json_u64, in_rangeb, in_range. destruct v; try done. case_match; [|done]. intros [= <-]. lia. Qed.
