(* ===== verification/Cursor.v ===== *)
(** * Decoding at an offset

    Several decoders of the program walk a byte slice with an explicit
    [offset: usize]: before each field they test [offset + n > data.len()],
    return an error when the test holds, and otherwise take
    [data[offset..offset + n]] and advance.  This file is that discipline: a
    monad over the slice and the offset, the encodings a decoder accepts, and
    the composition lemmas of the round trips. *)
From S2P Require Import Prelude RustStd Wire.

(** A Rust call that can also panic. *)
Inductive fault (E : Type) : Type := Failed (e : E) | Panicked.
Arguments Failed {E} e.
Arguments Panicked {E}.

Definition isize_max : Z := 2 ^ 63 - 1.

Definition cursor (E A : Type) : Type := bytes -> Z -> result (fault E) (A * Z).
#[global] Instance cursor_ret E : MRet (cursor E) := fun A a _ off => Ok (a, off).
#[global] Instance cursor_bind E : MBind (cursor E) := fun A B f m data off =>
  match m data off with Ok (a, off) => f a data off | Err e => Err e end.

Definition slice (data : bytes) (from to : Z) : bytes :=
  take (Z.to_nat (to - from)) (drop (Z.to_nat from) data).

(** Test, slice and advance.  [offset + count] overflows for a huge [count]:
    with overflow checks the addition panics; without them the sum wraps to
    less than [offset], passes the test, and the slice panics.  [short] is the
    error of the test, from the expected and the actual number of bytes. *)
Definition read_bytes {E} (short : Z -> Z -> E) (count : Z) : cursor E bytes :=
  fun data offset =>
    if U64_MAX <? offset + count then Err Panicked
    else if zlen data <? offset + count then Err (Failed (short (offset + count) (zlen data)))
    else Ok (slice data offset (offset + count), offset + count).

Definition cfail {E A} (e : E) : cursor E A := fun _ _ => Err (Failed e).
Definition cread_be {E} short (n : nat) : cursor E Z :=
  b ← read_bytes short (Z.of_nat n); mret (from_be_bytes b).
Definition cread_le {E} short (n : nat) : cursor E Z :=
  b ← read_bytes short (Z.of_nat n); mret (from_le_bytes b).
(** [std::str::from_utf8(bytes).map_err(|_| e)?] *)
Definition cutf8 {E} (e : E) (b : bytes) : cursor E string :=
  match Utf8.from_utf8 b with Some t => mret t | None => cfail e end.
(** [for _ in 0..n { v.push(m?) }] *)
Fixpoint crepeat {E A} (n : nat) (m : cursor E A) : cursor E (list A) :=
  match n with
  | O => mret []
  | S n => a ← m; l ← crepeat n m; mret (a :: l)
  end.

(** ** What a decoder accepts

    [parses m b a]: wherever [b] stands in a slice, [m] at its start returns
    [a] and stops at its end. [accepts m P]: whatever [m] accepts is a stretch
    [b] of the slice from the offset with [P a b]. *)
Definition parses {E A} (m : cursor E A) (b : bytes) (a : A) : Prop :=
  forall pre post, zlen (pre ++ b ++ post) <= isize_max ->
    m (pre ++ b ++ post) (zlen pre) = Ok (a, zlen (pre ++ b)).
Definition accepts {E A} (m : cursor E A) (P : A -> bytes -> Prop) : Prop :=
  forall pre s a off, m (pre ++ s) (zlen pre) = Ok (a, off) ->
    exists b post, s = b ++ post /\ off = zlen (pre ++ b) /\ P a b.

Section cursor_lemmas.
Context {E : Type} (short : Z -> Z -> E).
Implicit Types (b : bytes).

Lemma slice_app pre b post :
  slice (pre ++ b ++ post) (zlen pre) (zlen pre + zlen b) = b.
Proof.
  unfold slice, zlen. rewrite Nat2Z.id, drop_app_length.
  replace (Z.to_nat _) with (length b) by lia. apply take_app_length.
Qed.

Lemma parses_ret {A} (a : A) : parses (E:=E) (mret a) [] a.
Proof. intros pre post _. cbn. by rewrite app_nil_r. Qed.
Lemma parses_bind {A B} (m : cursor E A) (f : A -> cursor E B) b1 b2 b a c :
  parses m b1 a -> parses (f a) b2 c -> b = b1 ++ b2 -> parses (m ≫= f) b c.
Proof.
  intros H1 H2 -> pre post Hl. unfold mbind, cursor_bind. rewrite <- app_assoc in *.
  rewrite H1 by done. specialize (H2 (pre ++ b1) post). rewrite <- !app_assoc in H2. by apply H2.
Qed.
Lemma parses_bytes b : parses (read_bytes short (zlen b)) b b.
Proof.
  intros pre post Hl. unfold read_bytes. pose proof (zlen_nonneg post).
  rewrite !zlen_app in *. unfold isize_max, U64_MAX in *.
  rewrite (proj2 (Z.ltb_ge _ (zlen pre + zlen b))) by lia.
  rewrite (proj2 (Z.ltb_ge (zlen pre + _) _)) by lia. by rewrite slice_app.
Qed.
Lemma parses_bytes' n b : n = zlen b -> parses (read_bytes short n) b b.
Proof. intros ->. apply parses_bytes. Qed.
Lemma parses_be n v :
  in_range (8 * Z.of_nat n) v -> parses (cread_be short n) (to_be_bytes n v) v.
Proof.
  intros Hv. unfold cread_be. rewrite <- (from_to_be_id n v) at 2 by done.
  eapply parses_bind; [apply parses_bytes'; by rewrite zlen_to_be_bytes|apply parses_ret|].
  by rewrite app_nil_r.
Qed.
Lemma parses_le n v :
  in_range (8 * Z.of_nat n) v -> parses (cread_le short n) (to_le_bytes n v) v.
Proof.
  intros Hv. unfold cread_le. rewrite <- (from_to_le_id n v) at 2 by done.
  eapply parses_bind; [apply parses_bytes'; by rewrite zlen_to_le_bytes|apply parses_ret|].
  by rewrite app_nil_r.
Qed.
Lemma parses_utf8 e t : Utf8.is_str t -> parses (E:=E) (cutf8 e (as_bytes t)) [] t.
Proof. intros Ht. unfold cutf8. rewrite Utf8.from_utf8_str by done. apply parses_ret. Qed.
Lemma parses_repeat {A} (m : cursor E A) (enc : A -> bytes) l :
  Forall (fun a => parses m (enc a) a) l ->
  parses (crepeat (length l) m) (concat (map enc l)) l.
Proof.
  induction 1 as [|a l Ha Hl IH]; [apply parses_ret|]. cbn [length crepeat map concat].
  eapply parses_bind; [exact Ha| |done].
  eapply parses_bind; [exact IH|apply parses_ret|]. by rewrite app_nil_r.
Qed.

Lemma accepts_ret {A} (a : A) : accepts (E:=E) (mret a) (fun a' b => a' = a /\ b = []).
Proof. intros pre s a' off [= <- <-]. exists [], s. by rewrite app_nil_r. Qed.
Lemma accepts_bind {A B} (m : cursor E A) (f : A -> cursor E B) P Q :
  accepts m P -> (forall a b, P a b -> accepts (f a) (Q a b)) ->
  accepts (m ≫= f) (fun c b => exists a b1 b2, P a b1 /\ Q a b1 c b2 /\ b = b1 ++ b2).
Proof.
  intros Hm Hf pre s c off. unfold mbind, cursor_bind.
  destruct (m (pre ++ s) (zlen pre)) as [[a off1]|] eqn:E1; [|done].
  apply Hm in E1 as (b1 & post1 & -> & -> & HP). rewrite app_assoc. intros E2.
  apply (Hf _ _ HP) in E2 as (b2 & post2 & -> & -> & HQ).
  exists (b1 ++ b2), post2. rewrite <- !app_assoc. eauto 10.
Qed.
Lemma accepts_impl {A} (m : cursor E A) (P Q : A -> bytes -> Prop) :
  accepts m P -> (forall a b, P a b -> Q a b) -> accepts m Q.
Proof. intros Hm HPQ pre s a off (b & post & ? & ? & ?)%Hm. eauto 10. Qed.
Lemma accepts_bytes n :
  0 <= n -> accepts (read_bytes short n) (fun a b => a = b /\ zlen b = n).
Proof.
  intros Hn pre s a off. unfold read_bytes. case_match; [done|].
  destruct (Z.ltb_spec (zlen (pre ++ s)) (zlen pre + n)) as [|Hl]; [done|]. intros [= <- <-].
  rewrite zlen_app in Hl. unfold slice. replace (zlen pre + n - zlen pre) with n by lia.
  replace (Z.to_nat (zlen pre)) with (length pre) by (unfold zlen; lia). rewrite drop_app_length.
  exists (take (Z.to_nat n) s), (drop (Z.to_nat n) s). rewrite take_drop.
  assert (zlen (take (Z.to_nat n) s) = n) as E1
    by (unfold zlen in *; rewrite length_take; lia).
  rewrite zlen_app, E1. done.
Qed.
Lemma accepts_be n :
  accepts (cread_be short n) (fun v b => b = to_be_bytes n v /\ in_range (8 * Z.of_nat n) v).
Proof.
  eapply accepts_impl; [apply accepts_bind; [apply accepts_bytes; lia|intros; apply accepts_ret]|].
  intros v b (a & b1 & b2 & [-> Hl] & [-> ->] & ->). rewrite app_nil_r.
  rewrite to_from_be_bytes by (unfold zlen in Hl; lia). split; [done|].
  rewrite <- Hl. apply from_be_bytes_range.
Qed.
Lemma accepts_le n :
  accepts (cread_le short n) (fun v b => b = to_le_bytes n v /\ in_range (8 * Z.of_nat n) v).
Proof.
  eapply accepts_impl; [apply accepts_bind; [apply accepts_bytes; lia|intros; apply accepts_ret]|].
  intros v b (a & b1 & b2 & [-> Hl] & [-> ->] & ->). rewrite app_nil_r.
  rewrite to_from_le_bytes by (unfold zlen in Hl; lia). split; [done|].
  rewrite <- Hl. apply from_le_bytes_range.
Qed.
Lemma accepts_fail {A} e P : accepts (@cfail E A e) P.
Proof. by intros pre s a off. Qed.
Lemma accepts_utf8 e c :
  accepts (E:=E) (cutf8 e c) (fun t b => b = [] /\ c = as_bytes t /\ Utf8.is_str t).
Proof.
  unfold cutf8. destruct (Utf8.from_utf8 c) eqn:Hu; [|apply accepts_fail].
  apply Utf8.from_utf8_Some in Hu as [Hc Ht]. eapply accepts_impl; [apply accepts_ret|].
  intros ?? [-> ->]. by rewrite Hc.
Qed.
Lemma accepts_repeat {A} (m : cursor E A) (P : A -> bytes -> Prop) n :
  accepts m P ->
  accepts (crepeat n m) (fun l b => length l = n /\ exists bs, b = concat bs /\ Forall2 P l bs).
Proof.
  intros Hm. induction n as [|n IH]; cbn [crepeat].
  - eapply accepts_impl; [apply accepts_ret|]. intros l b [-> ->]. split; [done|]. exists []. done.
  - eapply accepts_impl.
    { apply accepts_bind; [exact Hm|]. intros a b _. apply accepts_bind; [exact IH|].
      intros l b' _. apply accepts_ret. }
    intros l b (a & b1 & b2 & HP & (l' & b3 & b4 & (Hlen & bs & -> & HF) & [-> ->] & ->) & ->).
    split; [cbn; lia|]. exists (b1 :: bs). rewrite app_nil_r. split; [done|by constructor].
Qed.
End cursor_lemmas.

(** [pstep tac]: one step of a round trip, over the encoding in front, parsed
    as [tac] says; [pskip tac]: a step that consumes nothing. *)
Ltac pstep tac := refine (parses_bind _ _ _ _ _ _ _ _ _ eq_refl); [tac|].
Ltac pfield :=
  first [ apply parses_be; in_range_hyp | apply parses_le; in_range_hyp
        | apply parses_bytes'; zlens | apply parses_bytes ].
Ltac pskip tac := eapply parses_bind; [tac| |by rewrite app_nil_l].
(** [astep]: one step of a soundness proof. *)
Ltac astep :=
  lazymatch goal with
  | |- accepts (_ ≫= _) _ => apply accepts_bind; [|intros]
  | |- accepts (mret _) _ => apply accepts_ret
  | |- accepts (cread_be _ _) _ => apply accepts_be
  | |- accepts (cread_le _ _) _ => apply accepts_le
  | |- accepts (cutf8 _ _) _ => apply accepts_utf8
  end.
