(* ===== verification/Codec.v ===== *)
(** * Request-response TLV codec ([Src/Network/Request_Response/codec.rs])

    One frame is [1-byte type][8-byte big-endian length][payload]. *)
From S2P Require Import Prelude RustStd Wire.

Definition MAX_FRAME_SIZE : Z := 2 * 1024 * 1024 * 1024.

Inductive DataType : Set := Command | Data | File | InfoType.
#[global] Instance DataType_eq_dec : EqDecision DataType.
Proof. solve_decision. Defined.

(** [data_type as u8]: the discriminants. *)
Definition DataType_as_u8 (d : DataType) : Z :=
  match d with Command => 0 | Data => 1 | File => 2 | InfoType => 4 end.

Definition From_U8 (v : Z) : result io_error DataType :=
  match v with
  | 0 => Ok Command
  | 1 => Ok Data
  | 2 => Ok File
  | 4 => Ok InfoType
  | _ => Err InvalidData
  end.

Record Network_Data : Type := mk_Network_Data { data_type : DataType; payload : bytes }.

Definition lift_result {A} (m : result io_error A) : reader A := fun s =>
  match m with Ok a => Ok (a, s) | Err e => Err e end.

Definition Read_Frame : reader Network_Data :=
  type_byte ← read_exact 1;
  data_type ← lift_result (From_U8 (from_le_bytes type_byte));
  len_bytes ← read_exact 8;
  let len := from_be_bytes len_bytes in
  if MAX_FRAME_SIZE <? len then read_fail InvalidData
  else
    payload ← read_exact len;
    mret (mk_Network_Data data_type payload).

Definition Write_Frame (io : bytes) (data : Network_Data) : bytes :=
  let io := io ++ [byte.of_Z (DataType_as_u8 (data_type data))] in
  let len := wrap 64 (zlen (payload data)) in
  let io := io ++ to_be_bytes 8 len in
  io ++ payload data.

(** [PleiadesCodec]: requests and responses share the frame format. *)
Definition read_request : reader Network_Data := Read_Frame.
Definition read_response : reader Network_Data := Read_Frame.
Definition write_request (io : bytes) (req : Network_Data) : bytes := Write_Frame io req.
Definition write_response (io : bytes) (res : Network_Data) : bytes := Write_Frame io res.

Lemma From_U8_spec v d : From_U8 v = Ok d <-> v = DataType_as_u8 d.
Proof.
  split.
  - unfold From_U8. repeat case_match; intros; inv_ok; done.
  - intros ->. by destruct d.
Qed.
Lemma DataType_as_u8_range d : 0 <= DataType_as_u8 d < 256.
Proof. destruct d; cbn; lia. Qed.
Lemma bz_DataType d : bz (byte.of_Z (DataType_as_u8 d)) = DataType_as_u8 d.
Proof. apply bz_of_Z, DataType_as_u8_range. Qed.

Lemma from_le_bytes_single b : from_le_bytes [b] = bz b.
Proof. unfold from_le_bytes. apply LittleEndianList.le_combine_1. Qed.

Lemma Write_Frame_eq io d :
  Write_Frame io d =
  io ++ [byte.of_Z (DataType_as_u8 (data_type d))] ++
  to_be_bytes 8 (wrap 64 (zlen (payload d))) ++ payload d.
Proof. unfold Write_Frame. by rewrite <- !app_assoc. Qed.

Lemma frame_type_step t s :
  lift_result (From_U8 (from_le_bytes [byte.of_Z (DataType_as_u8 t)])) s = Ok (t, s).
Proof.
  unfold lift_result. rewrite from_le_bytes_single, bz_DataType.
  by rewrite (proj2 (From_U8_spec _ t)).
Qed.

(** C27: the codec is exact. A stream parses as the frame [d] followed by
    [rest] if and only if it is the encoding of [d] followed by [rest] and the
    payload is within the 2 GB limit: reading inverts writing, no two byte
    sequences parse to the same frame, and nothing beyond the frame is read. *)
Theorem Read_Frame_iff s d rest :
  Read_Frame s = Ok (d, rest) <->
  s = Write_Frame [] d ++ rest /\ zlen (payload d) <= MAX_FRAME_SIZE.
Proof.
  split.
  - unfold Read_Frame. intros (tb & s1 & H1 & (t & s2 & H2 & (lb & s3 & H3 & H4)%reader_bind_Ok)%reader_bind_Ok)%reader_bind_Ok.
    apply read_exact_Ok in H1 as [-> Htb]; [|lia]. apply read_exact_Ok in H3 as [-> Hlb]; [|lia].
    unfold lift_result in H2. destruct (From_U8 _) as [t'|] eqn:Ht; simplify_eq.
    destruct (Z.ltb_spec MAX_FRAME_SIZE (from_be_bytes lb)) as [|Hmax]; [done|].
    apply reader_bind_Ok in H4 as (p & s4 & H4 & [= <- ->]).
    pose proof (from_be_bytes_range lb) as Hr. rewrite Hlb in Hr.
    apply read_exact_Ok in H4 as [-> Hp]; [|apply Hr]. cbn [payload]. split; [|lia].
    destruct tb as [|b [|]]; [done| |unfold zlen in Htb; cbn in Htb; lia].
    apply From_U8_spec in Ht. rewrite from_le_bytes_single in Ht. unfold bz in Ht.
    rewrite Write_Frame_eq. cbn [data_type payload app]. rewrite <- Ht, byte.of_Z_unsigned, Hp, wrap_id by done.
    rewrite to_from_be_bytes by (unfold zlen in Hlb; lia). by rewrite <- app_assoc.
  - intros [-> Hmax]. rewrite Write_Frame_eq.
    unfold Read_Frame. rewrite <- !app_assoc.
    rewrite app_nil_l. rewrite reader_bind_step with (1 := read_exact_app [_] _).
    rewrite reader_bind_step with (1 := frame_type_step _ _).
    assert (in_range (8 * Z.of_nat 8) (zlen (payload d))) as Hr.
    { pose proof (zlen_nonneg (payload d)). unfold in_range. unfold MAX_FRAME_SIZE in Hmax. lia. }
    rewrite wrap_id by done.
    erewrite reader_bind_step; [|by apply read_exact_app'; rewrite zlen_to_be_bytes].
    rewrite from_to_be_id by done. rewrite (proj2 (Z.ltb_ge _ _)) by done.
    rewrite reader_bind_step with (1 := read_exact_app _ _). by destruct d.
Qed.
