(* ===== verification/TensorStream.v ===== *)
(** * Tensor streams ([Src/Network/Tensor_Stream/protocol.rs] and
      [Src/Orchestrator/local_tensor_stream/frames.rs])

    Frames [8B offset LE][8B length LE][data], the end-of-session sentinel
    frame, the reusable receive buffer, and the in-process variant of the same
    protocol. A receive is a function of the incoming bytes and of the buffer;
    it returns the outcome and the buffer it leaves, also when it fails. *)
From S2P Require Import Prelude RustStd Wire.

Definition TENSOR_EOF_OFFSET : Z := U64_MAX.
Definition MAX_TENSOR_SIZE : Z := 512 * 1024 * 1024.

(** ** [Tensor_Buffer] *)
Record Tensor_Buffer : Type := mk_Tensor_Buffer { buf : bytes; valid_len : Z }.

Definition New (capacity : Z) : Tensor_Buffer := mk_Tensor_Buffer [] 0.

(** [Vec::resize(len, 0)]. *)
Definition vec_resize (len : Z) (l : bytes) : bytes :=
  let n := Z.to_nat len in take n l ++ replicate (n - length l) Byte.x00.

Definition As_Mut_Slice (b : Tensor_Buffer) (len : Z) : Tensor_Buffer :=
  mk_Tensor_Buffer (vec_resize len (buf b)) len.

(** [&self.buf[..self.valid_len]]: a panic when the range is out of bounds. *)
Definition As_Slice (b : Tensor_Buffer) : option bytes :=
  if zlen (buf b) <? valid_len b then None else Some (take (Z.to_nat (valid_len b)) (buf b)).
Definition Len (b : Tensor_Buffer) : Z := valid_len b.
Definition Is_Empty (b : Tensor_Buffer) : bool := valid_len b =? 0.
Definition Clear (b : Tensor_Buffer) : Tensor_Buffer := mk_Tensor_Buffer (buf b) 0.

(** Writing [data] at the start of the slice handed out by [As_Mut_Slice]. *)
Definition fill (b : Tensor_Buffer) (data : bytes) : Tensor_Buffer :=
  mk_Tensor_Buffer (data ++ drop (length data) (buf b)) (valid_len b).

(** ** Frames *)
Definition Send_Tensor_Frame (stream : bytes) (offset : Z) (data : bytes) : bytes :=
  let header := to_le_bytes 8 offset ++ to_le_bytes 8 (wrap 64 (zlen data)) in
  let stream := stream ++ header in
  stream ++ data.

Definition Send_EOF (stream : bytes) : bytes :=
  let stream := stream ++ to_le_bytes 8 TENSOR_EOF_OFFSET in
  stream ++ to_le_bytes 8 0.

(** The two header fields: [header[0..8]] and [header[8..16]]. *)
Definition header_offset (header : bytes) : Z := from_le_bytes (take 8 header).
Definition header_length (header : bytes) : Z := from_le_bytes (take 8 (drop 8 header)).

(** [stream.read_exact(slice)]: on an early end the bytes that did arrive have
    been written. *)
Definition read_body (offset length : Z) (s : bytes) (b : Tensor_Buffer)
  : result io_error (Z * bytes) * Tensor_Buffer :=
  let b := As_Mut_Slice b length in
  match read_exact length s with
  | Ok (data, s') => (Ok (offset, s'), fill b data)
  | Err e => (Err e, fill b s)
  end.

Definition Receive_Tensor_Frame (stream : bytes) (buffer : Tensor_Buffer)
  : result io_error (Z * bytes) * Tensor_Buffer :=
  match read_exact 16 stream with
  | Err e => (Err e, buffer)
  | Ok (header, s) =>
      let offset := header_offset header in
      let length := header_length header in
      if (offset =? TENSOR_EOF_OFFSET) && (length =? 0)
      then (Ok (TENSOR_EOF_OFFSET, s), Clear buffer)
      else if MAX_TENSOR_SIZE <? length then (Err InvalidData, buffer)
      else read_body offset length s buffer
  end.

Definition Write_Tensor_Stream_Handshake (stream : bytes) (inference_id : Z) : bytes :=
  stream ++ to_le_bytes 8 inference_id.
Definition Read_Tensor_Stream_Handshake : reader Z := read_le 8.

(** ** The in-process variant *)
Definition local_send_frame (stream : bytes) (offset : Z) (data : bytes) : bytes :=
  let header := to_le_bytes 8 offset ++ to_le_bytes 8 (wrap 64 (zlen data)) in
  let stream := stream ++ header in
  stream ++ data.

Definition local_recv_frame (stream : bytes) (buffer : Tensor_Buffer)
  : result io_error (Z * bytes) * Tensor_Buffer :=
  match read_exact 16 stream with
  | Err e => (Err e, buffer)
  | Ok (header, s) =>
      let offset := header_offset header in
      let length := header_length header in
      if (offset =? TENSOR_EOF_OFFSET) && (length =? 0)
      then (Ok (TENSOR_EOF_OFFSET, s), Clear buffer)
      else read_body offset length s buffer
  end.

Definition local_send_eof (stream : bytes) : bytes :=
  let stream := stream ++ to_le_bytes 8 TENSOR_EOF_OFFSET in
  stream ++ to_le_bytes 8 0.

(** ** Invariant and lemmas *)
Definition wf (b : Tensor_Buffer) : Prop := 0 <= valid_len b <= zlen (buf b).

Lemma length_vec_resize len l : length (vec_resize len l) = Z.to_nat len.
Proof. unfold vec_resize. rewrite length_app, length_take, length_replicate. lia. Qed.

Lemma As_Slice_wf b : wf b -> As_Slice b = Some (take (Z.to_nat (valid_len b)) (buf b)).
Proof. intros [_ H]. unfold As_Slice. by rewrite (proj2 (Z.ltb_ge _ _)). Qed.

Lemma fill_wf b data : wf b -> wf (fill b data).
Proof.
  unfold wf, fill, zlen. cbn [buf valid_len]. rewrite length_app, length_drop. lia.
Qed.
Lemma As_Mut_Slice_wf b len : 0 <= len -> wf (As_Mut_Slice b len).
Proof. unfold wf, As_Mut_Slice, zlen. cbn [buf valid_len]. rewrite length_vec_resize. lia. Qed.

Lemma read_body_wf offset len s b : 0 <= len -> wf (read_body offset len s b).2.
Proof.
  intros H. unfold read_body. destruct (read_exact _ _) as [[d s']|e];
    by apply fill_wf, As_Mut_Slice_wf.
Qed.

Lemma fill_resized b len data :
  zlen data = len -> As_Slice (fill (As_Mut_Slice b len) data) = Some data.
Proof.
  intros Hl. rewrite As_Slice_wf by (apply fill_wf, As_Mut_Slice_wf; subst; apply zlen_nonneg).
  unfold fill, As_Mut_Slice. cbn [buf valid_len]. rewrite <- Hl. unfold zlen. rewrite Nat2Z.id.
  by rewrite take_app_length.
Qed.

Lemma header_length_nonneg h : 0 <= header_length h.
Proof. apply from_le_bytes_range. Qed.

Lemma header_fields offset len :
  in_range 64 offset -> in_range 64 len ->
  let h := to_le_bytes 8 offset ++ to_le_bytes 8 len in
  zlen h = 16 /\ header_offset h = offset /\ header_length h = len.
Proof.
  intros Ho Hl. cbn zeta. unfold header_offset, header_length. split; [by zlens|].
  rewrite take_app_length' by by rewrite length_to_le_bytes.
  rewrite drop_app_length' by by rewrite length_to_le_bytes.
  rewrite take_ge by by rewrite length_to_le_bytes.
  by rewrite !from_to_le_id.
Qed.

Lemma header_eq h :
  zlen h = 16 -> h = to_le_bytes 8 (header_offset h) ++ to_le_bytes 8 (header_length h).
Proof.
  unfold zlen. intros Hh. unfold header_offset, header_length.
  rewrite !to_from_le_bytes by (rewrite ?length_take, ?length_drop; lia).
  rewrite (take_ge (drop 8 h)) by (rewrite length_drop; lia). by rewrite take_drop.
Qed.

Lemma header_fields_range h :
  zlen h = 16 -> in_range 64 (header_offset h) /\ in_range 64 (header_length h).
Proof.
  unfold zlen. intros Hh. unfold header_offset, header_length.
  pose proof (from_le_bytes_range (take 8 h)) as H1.
  pose proof (from_le_bytes_range (take 8 (drop 8 h))) as H2.
  unfold zlen in *. rewrite ?length_take, ?length_drop in *.
  replace (8 * Z.of_nat (8 `min` length h)) with 64 in H1 by lia.
  replace (8 * Z.of_nat (8 `min` (length h - 8))) with 64 in H2 by lia. done.
Qed.

Lemma Send_EOF_is_empty_frame s : Send_EOF s = Send_Tensor_Frame s TENSOR_EOF_OFFSET [].
Proof. unfold Send_EOF, Send_Tensor_Frame. rewrite app_nil_r, <- app_assoc. done. Qed.

Lemma Send_Tensor_Frame_app s offset data :
  Send_Tensor_Frame s offset data = s ++ Send_Tensor_Frame [] offset data.
Proof. unfold Send_Tensor_Frame. by rewrite app_nil_l, <- !app_assoc. Qed.

Lemma read_sent_header offset data rest :
  in_range 64 offset -> in_range 64 (zlen data) ->
  exists h, read_exact 16 (Send_Tensor_Frame [] offset data ++ rest) = Ok (h, data ++ rest) /\
            header_offset h = offset /\ header_length h = zlen data.
Proof.
  intros Ho Hd. exists (to_le_bytes 8 offset ++ to_le_bytes 8 (zlen data)).
  destruct (header_fields offset (zlen data) Ho Hd) as (Hl & -> & ->).
  unfold Send_Tensor_Frame. rewrite app_nil_l, wrap_id by done.
  rewrite <- (app_assoc _ data rest). by rewrite (read_exact_app' 16) by done.
Qed.

Lemma read_body_app offset data rest b :
  read_body offset (zlen data) (data ++ rest) b =
  (Ok (offset, rest), fill (As_Mut_Slice b (zlen data)) data).
Proof. unfold read_body. by rewrite read_exact_app. Qed.

Lemma read_body_Ok offset len s b o rest b' :
  0 <= len -> read_body offset len s b = (Ok (o, rest), b') ->
  o = offset /\ exists data, s = data ++ rest /\ zlen data = len /\ As_Slice b' = Some data.
Proof.
  intros Hl. unfold read_body. destruct (read_exact _ _) as [[d s']|e] eqn:E; [|done].
  intros [= -> -> <-]. apply read_exact_Ok in E as [-> E]; [|done].
  split; [done|]. exists d. by rewrite fill_resized.
Qed.

Lemma Clear_As_Slice b : As_Slice (Clear b) = Some [].
Proof.
  unfold As_Slice, Clear. cbn [buf valid_len].
  rewrite (proj2 (Z.ltb_ge _ _)) by apply zlen_nonneg. done.
Qed.

(** what is sent is received. For any buffer, a frame of at most 512 MB is
    received with its offset, the buffer then holds exactly its data, and the
    bytes that follow the frame are left in the stream; an empty frame at the
    EOF offset is the sentinel and reads as such. *)
Theorem tensor_frame_roundtrip offset data rest b :
  in_range 64 offset -> zlen data <= MAX_TENSOR_SIZE ->
  exists b', Receive_Tensor_Frame (Send_Tensor_Frame [] offset data ++ rest) b = (Ok (offset, rest), b')
             /\ As_Slice b' = Some data.
Proof.
  intros Ho Hd. assert (in_range 64 (zlen data)) as Hr.
  { pose proof (zlen_nonneg data). unfold in_range, MAX_TENSOR_SIZE in *. lia. }
  destruct (read_sent_header offset data rest Ho Hr) as (h & Hh & Hof & Hlen).
  unfold Receive_Tensor_Frame. rewrite Hh, Hof, Hlen.
  destruct (Z.eqb_spec offset TENSOR_EOF_OFFSET) as [->|]; cbn [andb].
  - destruct (Z.eqb_spec (zlen data) 0) as [Hz|].
    + destruct data; [|rewrite zlen_cons in Hz; pose proof (zlen_nonneg data); lia]. eexists; split; [done|]. apply Clear_As_Slice.
    + rewrite (proj2 (Z.ltb_ge _ _)) by done. rewrite read_body_app.
      eexists; split; [done|]. by apply fill_resized.
  - rewrite (proj2 (Z.ltb_ge _ _)) by done. rewrite read_body_app.
    eexists; split; [done|]. by apply fill_resized.
Qed.

Lemma tensor_frame_roundtrip_witness :
  in_range 64 42 /\ zlen [x68; x69] <= MAX_TENSOR_SIZE /\
  exists b', Receive_Tensor_Frame (Send_Tensor_Frame [] 42 [x68; x69] ++ [x00]) (New 4)
             = (Ok (42, [x00]), b') /\ As_Slice b' = Some [x68; x69].
Proof.
  assert (in_range 64 42) as H1 by (vm_compute; done).
  assert (zlen [x68; x69] <= MAX_TENSOR_SIZE) as H2 by (vm_compute; done).
  split; [exact H1|]. split; [exact H2|].
  exact (tensor_frame_roundtrip 42 [x68; x69] [x00] (New 4) H1 H2).
Defined.

(** nothing else is received. Whenever a receive succeeds, the stream
    started with the encoding of a frame within the size limit, the buffer
    holds exactly that frame's data and the rest of the stream is untouched. *)
Theorem tensor_frame_sound s b offset rest b' :
  Receive_Tensor_Frame s b = (Ok (offset, rest), b') ->
  exists data, s = Send_Tensor_Frame [] offset data ++ rest /\
    As_Slice b' = Some data /\ zlen data <= MAX_TENSOR_SIZE /\ in_range 64 offset.
Proof.
  unfold Receive_Tensor_Frame. destruct (read_exact 16 s) as [[h s1]|] eqn:Eh; [|done].
  apply read_exact_Ok in Eh as [-> Eh]; [|lia].
  destruct (header_fields_range h Eh) as [Ho Hl]. pose proof (header_eq h Eh) as Heq.
  case_match eqn:Eeof.
  - apply andb_true_iff in Eeof as [Eo%Z.eqb_eq El%Z.eqb_eq]. intros [= <- <- <-].
    exists []. rewrite Heq, Eo, El. split.
    + unfold Send_Tensor_Frame. by rewrite app_nil_r.
    + split; [apply Clear_As_Slice|]. split; [done|]. by vm_compute.
  - destruct (Z.ltb_spec MAX_TENSOR_SIZE (header_length h)) as [|Hmax]; [done|].
    intros (-> & data & -> & Hd & Hs)%read_body_Ok; [|apply Hl].
    exists data. split; [|split; [done|split; [lia|done]]].
    unfold Send_Tensor_Frame. rewrite app_nil_l, wrap_id by (rewrite Hd; done).
    rewrite Hd, <- Heq. by rewrite <- app_assoc.
Qed.

Lemma tensor_frame_sound_witness :
  exists b', Receive_Tensor_Frame (Send_EOF [] ++ [x07]) (mk_Tensor_Buffer [x01] 1)
             = (Ok (TENSOR_EOF_OFFSET, [x07]), b') /\
  exists data, Send_EOF [] ++ [x07] = Send_Tensor_Frame [] TENSOR_EOF_OFFSET data ++ [x07] /\
    As_Slice b' = Some data /\ zlen data <= MAX_TENSOR_SIZE /\ in_range 64 TENSOR_EOF_OFFSET.
Proof.
  eexists. split; [vm_compute; reflexivity|].
  eapply (tensor_frame_sound _ (mk_Tensor_Buffer [x01] 1)). vm_compute. reflexivity.
Defined.

(** the buffer stays well formed. Whatever bytes the peer sends, and
    whether the receive succeeds or fails half-way, the valid length never
    exceeds the buffer, so [As_Slice] never panics afterwards. *)
Theorem receive_keeps_buffer_wf s b :
  wf b -> wf (Receive_Tensor_Frame s b).2 /\ wf (local_recv_frame s b).2 /\
  As_Slice (Receive_Tensor_Frame s b).2 <> None /\ As_Slice (local_recv_frame s b).2 <> None.
Proof.
  intros Hb.
  assert (forall b, wf b -> As_Slice b <> None) as Hs by (intros; by rewrite As_Slice_wf).
  assert (wf (Clear b)) by (unfold wf, Clear in *; cbn; pose proof (zlen_nonneg (buf b)); lia).
  assert (wf (Receive_Tensor_Frame s b).2).
  { unfold Receive_Tensor_Frame. repeat case_match; cbn; auto using read_body_wf, header_length_nonneg. }
  assert (wf (local_recv_frame s b).2).
  { unfold local_recv_frame. repeat case_match; cbn; auto using read_body_wf, header_length_nonneg. }
  auto.
Qed.

Lemma receive_keeps_buffer_wf_witness :
  wf (New 8) /\ wf (Receive_Tensor_Frame [x01; x02] (New 8)).2 /\
  wf (local_recv_frame [x01; x02] (New 8)).2 /\
  As_Slice (Receive_Tensor_Frame [x01; x02] (New 8)).2 <> None /\
  As_Slice (local_recv_frame [x01; x02] (New 8)).2 <> None.
Proof.
  assert (wf (New 8)) as H by (vm_compute; split; discriminate).
  split; [exact H|]. exact (receive_keeps_buffer_wf [x01; x02] (New 8) H).
Defined.

(** the in-process frames are the network frames. Both senders write the
    same bytes, and the in-process receive behaves as the network one on every
    stream except on a header that announces more than 512 MB, which the
    network side rejects and the in-process side goes on to read. *)
Theorem local_frames_agree s b offset data :
  local_send_frame s offset data = Send_Tensor_Frame s offset data /\
  local_send_eof s = Send_EOF s /\
  (local_recv_frame s b = Receive_Tensor_Frame s b \/
   exists h s', read_exact 16 s = Ok (h, s') /\ MAX_TENSOR_SIZE < header_length h /\
     Receive_Tensor_Frame s b = (Err InvalidData, b) /\
     local_recv_frame s b = read_body (header_offset h) (header_length h) s' b).
Proof.
  do 2 (split; [done|]).
  unfold local_recv_frame, Receive_Tensor_Frame.
  destruct (read_exact 16 s) as [[h s']|e] eqn:E; [|by left].
  destruct (_ && _) eqn:Eeof; [by left|].
  destruct (Z.ltb_spec MAX_TENSOR_SIZE (header_length h)); [|by left].
  right. by exists h, s'.
Qed.
