(* ===== verification/Streams.v ===== *)
(** * File, session and bandwidth streams ([Src/Network/File_Stream],
      [Src/Network/Session_Stream], [Src/Network/Bandwidth_Stream])

    The in-band headers and acknowledgements, the chunked transfer of file
    contents, the session text frames and the byte counter of the bandwidth
    test. The clock of the bandwidth sender is an argument: the outcomes of the
    successive deadline tests. *)
From S2P Require Import Prelude RustStd Wire.

(** ** [File_Stream/protocol.rs] *)
Module File_Stream.
Definition CHUNK_SIZE : Z := 64 * 1024.
Definition FILE_HEADER_ACCEPT : Z := 1.
Definition FILE_HEADER_REJECT : Z := 0.

Definition Write_File_Stream_Header (stream : bytes) (file_name : string) (file_size : Z)
    (checksum : string) : bytes :=
  let name_bytes := as_bytes file_name in
  let checksum_bytes := as_bytes checksum in
  let name_len := wrap 16 (zlen name_bytes) in
  let stream := stream ++ to_be_bytes 2 name_len in
  let stream := stream ++ name_bytes in
  let stream := stream ++ to_le_bytes 8 file_size in
  let checksum_len := wrap 16 (zlen checksum_bytes) in
  let stream := stream ++ to_be_bytes 2 checksum_len in
  stream ++ checksum_bytes.

Definition Read_File_Stream_Header : reader (string * Z * string) :=
  name_len ← read_be 2;
  name_buf ← read_exact name_len;
  file_name ← utf8_or_invalid name_buf;
  file_size ← read_le 8;
  checksum_len ← read_be 2;
  checksum_buf ← read_exact checksum_len;
  checksum ← utf8_or_invalid checksum_buf;
  mret (file_name, file_size, checksum).

Definition Write_File_Stream_Ack (stream : bytes) (accepted : bool) : bytes :=
  let ack := if accepted then FILE_HEADER_ACCEPT else FILE_HEADER_REJECT in
  stream ++ [byte.of_Z ack].
Definition Read_File_Stream_Ack : reader bool :=
  b ← read_exact 1; mret (from_le_bytes b =? FILE_HEADER_ACCEPT).

(** The [file_progress] event. *)
Definition file_progress (name dir : string) (sent total : Z) : Bus_Event :=
  Stream (JObj [("type", JStr "file_progress"); ("name", JStr name); ("dir", JStr dir);
                ("peer", JStr ""); ("sent", JNum sent); ("total", JNum total)])%string.

(** The send loop: [file] is the open file as a sequence of reads.  Each turn
  consumes at least one byte or ends, so the number of bytes is enough
  fuel; the bytes written and the events published are returned. *)
Fixpoint send_loop (fuel : nat) (name : string) (file_size : Z) (file : list bytes)
    (stream : bytes) (sent : Z) : option (bytes * list Bus_Event) :=
  match fuel with
  | O => None
  | S fuel =>
      let (b, file) := Chunked.read CHUNK_SIZE file in
      if zlen b =? 0 then Some (stream, [])
      else
        let stream := stream ++ b in
        let sent := sent + zlen b in
        match send_loop fuel name file_size file stream sent with
        | Some (stream, evs) => Some (stream, file_progress name "send" sent file_size :: evs)
        | None => None
        end
  end.
Definition Send_File_Data (stream : bytes) (name : string) (file_size : Z) (file : list bytes)
  : option (bytes * list Bus_Event) :=
  send_loop (S (length (concat file))) name file_size file stream 0.

(** The receive loop over the chunks of the stream: the outcome, the bytes
  written to the destination, the chunks left, the events. *)
Fixpoint receive_loop (fuel : nat) (name : string) (file_size : Z) (stream : list bytes)
    (file : bytes) (remaining : Z)
  : option (result io_error unit * bytes * list bytes * list Bus_Event) :=
  if remaining <=? 0 then Some (Ok tt, file, stream, [])
  else
    match fuel with
    | O => None
    | S fuel =>
        let to_read := Z.min remaining CHUNK_SIZE in
        let (b, stream) := Chunked.read to_read stream in
        if zlen b =? 0 then Some (Err UnexpectedEof, file, stream, [])
        else
          let file := file ++ b in
          let remaining := remaining - zlen b in
          let received := file_size - remaining in
          match receive_loop fuel name file_size stream file remaining with
          | Some (r, file, stream, evs) =>
              Some (r, file, stream, file_progress name "receive" received file_size :: evs)
          | None => None
          end
    end.
Definition Receive_File_Data (stream : list bytes) (name : string) (file_size : Z)
  : option (result io_error unit * bytes * list bytes * list Bus_Event) :=
  receive_loop (S (length (concat stream))) name file_size stream [] file_size.

Lemma read_header_app file_name file_size checksum rest :
  Utf8.is_str file_name -> Utf8.is_str checksum ->
  in_range 16 (str_len file_name) -> in_range 16 (str_len checksum) -> in_range 64 file_size ->
  Read_File_Stream_Header (Write_File_Stream_Header [] file_name file_size checksum ++ rest)
  = Ok ((file_name, file_size, checksum), rest).
Proof.
  unfold str_len. intros Hn Hc Hnl Hcl Hs.
  unfold Write_File_Stream_Header. rewrite !wrap_id, app_nil_l, <- !app_assoc by done.
  unfold Read_File_Stream_Header. do 3 rd. do 4 rd. done.
Qed.

Lemma read_header_Ok s file_name file_size checksum rest :
  Read_File_Stream_Header s = Ok ((file_name, file_size, checksum), rest) ->
  s = Write_File_Stream_Header [] file_name file_size checksum ++ rest /\
  Utf8.is_str file_name /\ Utf8.is_str checksum /\
  in_range 16 (str_len file_name) /\ in_range 16 (str_len checksum) /\ in_range 64 file_size.
Proof.
  unfold Read_File_Stream_Header, str_len.
  intros (nl & s1 & [-> Hnl]%read_be_Ok & (nb & s2 & Hnb & (n & s3 & (-> & Hn & ->)%utf8_or_invalid_Ok & H)%reader_bind_Ok)%reader_bind_Ok)%reader_bind_Ok.
  apply read_exact_Ok in Hnb as [-> Hnb]; [|apply Hnl].
  apply reader_bind_Ok in H as (fs & s4 & [-> Hfs]%read_le_Ok & (cl & s5 & [-> Hcl]%read_be_Ok & (cb & s6 & Hcb & H)%reader_bind_Ok)%reader_bind_Ok).
  apply read_exact_Ok in Hcb as [-> Hcb]; [|apply Hcl].
  apply reader_bind_Ok in H as (c & s7 & (-> & Hc & ->)%utf8_or_invalid_Ok & [= <- <- <- <-]).
  rewrite Hnb, Hcb. split; [|done].
  unfold Write_File_Stream_Header. rewrite Hnb, Hcb, !wrap_id, app_nil_l, <- !app_assoc by done. done.
Qed.

(** the file header is exact. A stream parses as a header followed by
  [rest] if and only if it is the encoding of that header followed by
  [rest], where the name and the checksum are UTF-8 of fewer than 65536
  bytes and the size fits 64 bits. *)
Theorem file_header_iff s file_name file_size checksum rest :
  Read_File_Stream_Header s = Ok ((file_name, file_size, checksum), rest) <->
  s = Write_File_Stream_Header [] file_name file_size checksum ++ rest /\
  Utf8.is_str file_name /\ Utf8.is_str checksum /\
  in_range 16 (str_len file_name) /\ in_range 16 (str_len checksum) /\ in_range 64 file_size.
Proof.
  split; [apply read_header_Ok|]. intros (-> & ? & ? & ? & ? & ?). by apply read_header_app.
Qed.

Lemma ack_roundtrip accepted rest :
  Read_File_Stream_Ack (Write_File_Stream_Ack [] accepted ++ rest) = Ok (accepted, rest).
Proof.
  unfold Read_File_Stream_Ack, Write_File_Stream_Ack. rewrite app_nil_l. rd. by destruct accepted.
Qed.

(** Progress events, as [(sent, total)] pairs. *)
Definition progress_of (e : Bus_Event) : option (Z * Z) :=
  match e with
  | Stream (JObj [_; _; _; _; (_, JNum s); (_, JNum t)]) => Some (s, t)
  | _ => None
  end.

(** [sents] is a progress report from [start] to [stop] out of [total]:
  strictly increasing, and its last value is [stop]. *)
Definition reports (total start stop : Z) (evs : list Bus_Event) : Prop :=
  exists sents, omap progress_of evs = map (fun s => (s, total)) sents /\
    StronglySorted Z.lt (start :: sents) /\ List.last sents start = stop.

Lemma reports_nil total start : reports total start start [].
Proof. exists []. split; [done|]. split; [repeat constructor|done]. Qed.
Lemma reports_cons total start mid stop mid' stop' name dir evs :
  reports total mid' stop' evs -> mid' = mid -> stop' = stop -> start < mid ->
  reports total start stop (file_progress name dir mid total :: evs).
Proof.
  intros (sents & E & Hs & Hl) -> -> Hlt. exists (mid :: sents). cbn. rewrite E. split; [done|]. split.
  - constructor; [done|]. inversion_clear Hs as [|?? Hss Hall]. constructor; [done|].
    eapply Forall_impl; [exact Hall|]. cbn. lia.
  - destruct sents; [done|]. cbn in Hl |- *. rewrite <- Hl.
    clear. revert z. induction sents as [|y l IH]; intros z; [done|]. apply IH.
Qed.

(** Reading [n] bytes of a chunked stream that still has some. *)
Lemma read_progress n stream b stream' :
  0 < n -> Chunked.delivers stream -> Chunked.read n stream = (b, stream') ->
  Chunked.delivers stream' /\ concat stream = b ++ concat stream' /\ zlen b <= n /\
  (zlen b = 0 -> stream = [] /\ stream' = [] /\ b = []).
Proof.
  intros Hn Hd Er. pose proof (Chunked.read_concat _ _ _ _ Er) as Hc.
  pose proof (Chunked.read_le_n _ _ _ _ (Z.lt_le_incl _ _ Hn) Er) as Hb.
  destruct (Chunked.read_delivers _ _ _ _ Hn Hd Er) as [Hd' Hnil].
  split; [done|]. split; [done|]. split; [done|]. intros Hz.
  assert (b = []) as -> by (destruct b; [done|rewrite zlen_cons in Hz; pose proof (zlen_nonneg b0); lia]).
  rewrite (Hnil eq_refl) in *. cbn in Er. by injection Er as <-.
Qed.

Lemma receive_loop_spec fuel name size stream file remaining :
  Chunked.delivers stream -> (length (concat stream) < fuel)%nat -> 0 <= remaining ->
  exists r rest evs,
    receive_loop fuel name size stream file remaining
    = Some (r, file ++ take (Z.to_nat remaining) (concat stream), rest, evs) /\
    r = (if zlen (concat stream) <? remaining then Err UnexpectedEof else Ok tt) /\
    concat rest = drop (Z.to_nat remaining) (concat stream) /\
    reports size (size - remaining)
      (size - remaining + Z.min remaining (zlen (concat stream))) evs.
Proof.
  revert stream file remaining. induction fuel as [|fuel IH]; intros stream file remaining Hd Hf Hr; [lia|].
  cbn [receive_loop]. destruct (Z.leb_spec remaining 0) as [Hle|Hgt].
  { assert (remaining = 0) as -> by lia. pose proof (zlen_nonneg (concat stream)).
    rewrite take_0, app_nil_r, drop_0, (proj2 (Z.ltb_ge _ _)), Z.min_l, Z.add_0_r by done.
    eexists _, _, _. split; [done|]. auto using reports_nil. }
  destruct (Chunked.read _ stream) as [b stream'] eqn:Er.
  apply read_progress in Er as (Hd' & Hc & Hbn & Hnil); [|unfold CHUNK_SIZE; lia|done].
  destruct (Z.eqb_spec (zlen b) 0) as [Hz|Hnz].
  - destruct (Hnil Hz) as (-> & -> & ->). eexists _, _, _. cbn [concat].
    rewrite take_nil, drop_nil, app_nil_r, (proj2 (Z.ltb_lt _ _)), Z.min_r, Z.add_0_r
      by (rewrite zlen_nil; lia).
    split; [done|]. auto using reports_nil.
  - pose proof (zlen_nonneg b). pose proof (zlen_nonneg (concat stream')).
    rewrite Hc, zlen_app, take_app, drop_app in *. rewrite length_app in Hf. unfold zlen in *.
    destruct (IH stream' (file ++ b) (remaining - Z.of_nat (length b)))
      as (r & rest & evs & E & Hres & Hrest & Hp); [done|lia|lia|].
    rewrite E, (take_ge b), (drop_ge b), app_assoc by lia.
    replace (Z.to_nat remaining - length b)%nat with (Z.to_nat (remaining - Z.of_nat (length b))) by lia.
    eexists _, rest, _. split; [done|]. split; [|split; [done|]].
    + rewrite Hres. do 2 case Z.ltb_spec; try done; lia.
    + eapply reports_cons; [exact Hp|lia..].
Qed.

(** C30: receiving a file. However the transport cuts the bytes, the loop
  terminates; the destination holds exactly the first [file_size] bytes of
  the stream and the bytes after them are left unread. The result is
  [UnexpectedEof] if and only if the peer closed the stream early, and then
  everything it sent has been written. The progress events increase strictly
  from zero to the number of bytes received. *)
Theorem Receive_File_Data_spec stream name file_size :
  Chunked.delivers stream -> in_range 64 file_size ->
  exists r rest evs,
    Receive_File_Data stream name file_size
    = Some (r, take (Z.to_nat file_size) (concat stream), rest, evs) /\
    (r = Ok tt <-> file_size <= zlen (concat stream)) /\
    (r = Err UnexpectedEof <-> zlen (concat stream) < file_size) /\
    concat rest = drop (Z.to_nat file_size) (concat stream) /\
    reports file_size 0 (Z.min file_size (zlen (concat stream))) evs.
Proof.
  intros Hd Hs. unfold Receive_File_Data.
  destruct (receive_loop_spec (S (length (concat stream))) name file_size stream [] file_size)
    as (r & rest & evs & E & Hres & Hrest & Hp); [done|lia|apply Hs|].
  rewrite E, Z.sub_diag in *. exists r, rest, evs. rewrite Hres.
  split; [done|]. case Z.ltb_spec; intros; repeat split; try done; lia.
Qed.
Lemma Receive_File_Data_spec_witness :
  Chunked.delivers [[x01; x02]; [x03]] /\ in_range 64 5 /\
  exists r rest evs,
    Receive_File_Data [[x01; x02]; [x03]] "f" 5
    = Some (r, take (Z.to_nat 5) (concat [[x01; x02]; [x03]]), rest, evs) /\
    (r = Ok tt <-> 5 <= zlen (concat [[x01; x02]; [x03]])) /\
    (r = Err UnexpectedEof <-> zlen (concat [[x01; x02]; [x03]]) < 5) /\
    concat rest = drop (Z.to_nat 5) (concat [[x01; x02]; [x03]]) /\
    reports 5 0 (Z.min 5 (zlen (concat [[x01; x02]; [x03]]))) evs.
Proof.
  assert (Chunked.delivers [[x01; x02]; [x03]]) as Hd by (repeat constructor; discriminate).
  assert (in_range 64 5) as Hs by (unfold in_range; lia).
  split; [exact Hd|]. split; [exact Hs|]. exact (Receive_File_Data_spec _ "f" 5 Hd Hs).
Defined.

Lemma send_loop_spec fuel name size file stream sent :
  Chunked.delivers file -> (length (concat file) < fuel)%nat ->
  exists evs, send_loop fuel name size file stream sent = Some (stream ++ concat file, evs) /\
    reports size sent (sent + zlen (concat file)) evs.
Proof.
  revert file stream sent. induction fuel as [|fuel IH]; intros file stream sent Hd Hf; [lia|].
  cbn [send_loop]. destruct (Chunked.read _ file) as [b file'] eqn:Er.
  apply read_progress in Er as (Hd' & Hc & Hbn & Hnil); [|done|done].
  destruct (Z.eqb_spec (zlen b) 0) as [Hz|Hnz].
  - destruct (Hnil Hz) as (-> & -> & ->). eexists. cbn [concat].
    rewrite app_nil_r, Z.add_0_r. split; [done|]. apply reports_nil.
  - pose proof (zlen_nonneg b). rewrite Hc, zlen_app, length_app in *. unfold zlen in *.
    destruct (IH file' (stream ++ b) (sent + Z.of_nat (length b))) as (evs & E & Hp); [done|lia|].
    rewrite E, app_assoc. eexists. split; [done|]. eapply reports_cons; [exact Hp|lia..].
Qed.

(** a file transfer. What [Send_File_Data] writes for a file of
  [file_size] bytes, delivered in any chunks and followed by anything, is
  received as exactly the file's contents, with [Ok]. *)
Theorem file_transfer name dest file (chunks rest : list bytes) :
  Chunked.delivers file -> Chunked.delivers chunks -> in_range 64 (zlen (concat file)) ->
  forall sent evs,
  Send_File_Data [] name (zlen (concat file)) file = Some (sent, evs) ->
  concat chunks = sent ++ concat rest ->
  sent = concat file /\ reports (zlen (concat file)) 0 (zlen (concat file)) evs /\
  exists left evs', Receive_File_Data chunks dest (zlen (concat file))
                = Some (Ok tt, concat file, left, evs') /\ concat left = concat rest.
Proof.
  intros Hf Hch Hr sent evs Hsend Hcat. unfold Send_File_Data in Hsend.
  destruct (send_loop_spec (S (length (concat file))) name (zlen (concat file)) file [] 0)
    as (evs' & E & Hp); [done|lia|].
  rewrite E in Hsend. injection Hsend as <- <-. split; [done|]. split; [done|].
  unfold Receive_File_Data.
  destruct (receive_loop_spec (S (length (concat chunks))) dest (zlen (concat file)) chunks []
    (zlen (concat file))) as (r & left & evs & E' & Hres & Hrest & _); [done|lia|apply Hr|].
  rewrite E', Hres, Hcat in *. cbn [app] in *. exists left, evs.
  unfold zlen in *. rewrite length_app, Nat2Z.id, (proj2 (Z.ltb_ge _ _)) by lia.
  rewrite take_app_length, Hrest, Nat2Z.id, drop_app_length. done.
Qed.
Lemma file_transfer_witness :
  exists sent evs left evs',
  Send_File_Data [] "a" 3 [[x01; x02]; [x03]] = Some (sent, evs) /\
  concat [[x01]; [x02; x03; x04]] = sent ++ concat [[x04]] /\
  Receive_File_Data [[x01]; [x02; x03; x04]] "b" 3
    = Some (Ok tt, concat [[x01; x02]; [x03]], left, evs') /\ concat left = [x04].
Proof.
  assert (Chunked.delivers [[x01; x02]; [x03]]) as H1 by (repeat constructor; discriminate).
  assert (Chunked.delivers [[x01]; [x02; x03; x04]]) as H2 by (repeat constructor; discriminate).
  assert (in_range 64 3) as H3 by (unfold in_range; lia).
  destruct (file_transfer "a" "b" [[x01; x02]; [x03]] [[x01]; [x02; x03; x04]] [[x04]] H1 H2 H3
    _ _ eq_refl eq_refl) as (_ & _ & left & evs' & E & Hl).
  do 2 eexists. exists left, evs'. split; [reflexivity|]. split; [reflexivity|]. split; [exact E|exact Hl].
Defined.
End File_Stream.

(** ** [Session_Stream/protocol.rs] *)
Module Session_Stream.
(** Declared by the source; no operation uses it. *)
Definition MAX_FRAME_SIZE : Z := 64 * 1024.

Definition Write_Session_Handshake (stream : bytes) (session_id : Z) : bytes :=
  stream ++ to_be_bytes 8 session_id.
Definition Read_Session_Handshake : reader Z := read_be 8.

Definition write_session_frame (stream : bytes) (text : string) : bytes :=
  let payload := as_bytes text in
  let stream := stream ++ to_be_bytes 4 (wrap 32 (zlen payload)) in
  stream ++ payload.
Definition read_session_frame : reader string :=
  len ← read_be 4;
  buf ← read_exact len;
  utf8_or_invalid buf.

Lemma read_frame_app text rest :
  Utf8.is_str text -> in_range 32 (str_len text) ->
  read_session_frame (write_session_frame [] text ++ rest) = Ok (text, rest).
Proof.
  unfold str_len. intros Ht Hl. unfold write_session_frame, read_session_frame.
  rewrite wrap_id, app_nil_l, <- !app_assoc by done. do 2 rd. by apply utf8_or_invalid_str.
Qed.
Lemma read_frame_Ok s text rest :
  read_session_frame s = Ok (text, rest) ->
  s = write_session_frame [] text ++ rest /\ Utf8.is_str text /\ in_range 32 (str_len text).
Proof.
  unfold read_session_frame, str_len.
  intros (n & s1 & [-> Hn]%read_be_Ok & (b & s2 & Hb & (-> & Ht & ->)%utf8_or_invalid_Ok)%reader_bind_Ok)%reader_bind_Ok.
  apply read_exact_Ok in Hb as [-> Hb]; [|apply Hn]. rewrite Hb. split; [|done].
  unfold write_session_frame. by rewrite Hb, wrap_id, app_nil_l, <- app_assoc.
Qed.

(** The reader of one side of a session: the handshake, then frames until the
  end of the stream. *)
Fixpoint read_frames (fuel : nat) (s : bytes) : result io_error (list string) :=
  match fuel, s with
  | _, [] => Ok []
  | O, _ => Err OtherIo
  | S fuel, s => '(t, s) ← read_session_frame s; ts ← read_frames fuel s; Ok (t :: ts)
  end.

(** a session stream. The handshake and any sequence of text frames
  that one side writes are read by the other side as the same session id
  and the same texts in the same order, whatever the texts contain
  (empty ones and the end-of-generation sentinel included). *)
Theorem session_stream_roundtrip session_id texts :
  in_range 64 session_id ->
  Forall (fun t => Utf8.is_str t /\ in_range 32 (str_len t)) texts ->
  let sent := foldl write_session_frame (Write_Session_Handshake [] session_id) texts in
  exists frames, Read_Session_Handshake sent = Ok (session_id, frames) /\
    read_frames (length texts) frames = Ok texts.
Proof.
  intros Hid Hall sent. exists (foldl write_session_frame [] texts). split.
  - assert (forall acc, foldl write_session_frame acc texts = acc ++ foldl write_session_frame [] texts) as Happ.
    { clear. induction texts as [|t ts IH] using rev_ind; intros acc; [by rewrite app_nil_r|].
      rewrite !foldl_snoc, (IH acc). unfold write_session_frame. by rewrite !app_assoc. }
    unfold sent. rewrite Happ. unfold Write_Session_Handshake. rewrite app_nil_l.
    by apply read_be_app.
  - clear sent. induction texts as [|t ts IH]; [done|].
    inversion_clear Hall as [|?? [Ht Hl] Hts].
    assert (foldl write_session_frame [] (t :: ts)
      = write_session_frame [] t ++ foldl write_session_frame [] ts) as ->.
    { cbn [foldl]. generalize (write_session_frame [] t). clear.
      induction ts as [|t ts IH] using rev_ind; intros acc; [by rewrite app_nil_r|].
      rewrite !foldl_snoc, IH. unfold write_session_frame. by rewrite !app_assoc. }
    cbn [length read_frames]. destruct (write_session_frame [] t ++ _) eqn:E.
    { apply (f_equal length) in E. unfold write_session_frame in E.
      rewrite !length_app, length_to_be_bytes in E. cbn in E. lia. }
    rewrite <- E, read_frame_app by done. unfold mbind, result_bind. by rewrite IH.
Qed.
Lemma session_stream_roundtrip_witness :
  in_range 64 7 /\ Forall (fun t => Utf8.is_str t /\ in_range 32 (str_len t)) ["hi"; ""]%string /\
  let sent := foldl write_session_frame (Write_Session_Handshake [] 7) ["hi"; ""]%string in
  exists frames, Read_Session_Handshake sent = Ok (7, frames) /\
    read_frames 2 frames = Ok ["hi"; ""]%string.
Proof.
  assert (in_range 64 7) as H1 by (unfold in_range; lia).
  assert (Forall (fun t => Utf8.is_str t /\ in_range 32 (str_len t)) ["hi"; ""]%string) as H2
    by (repeat constructor; vm_compute; congruence).
  split; [exact H1|]. split; [exact H2|]. exact (session_stream_roundtrip 7 _ H1 H2).
Defined.

(** a session frame is exact, and has no bound but its length field:
  texts longer than [MAX_FRAME_SIZE] are read like any other. *)
Theorem session_frame_iff s text rest :
  read_session_frame s = Ok (text, rest) <->
  s = write_session_frame [] text ++ rest /\ Utf8.is_str text /\ in_range 32 (str_len text).
Proof.
  split; [apply read_frame_Ok|]. intros (-> & ? & ?). by apply read_frame_app.
Qed.
End Session_Stream.

(** ** [Bandwidth_Stream/protocol.rs] *)
Module Bandwidth_Stream.
Definition CHUNK_SIZE : Z := 64 * 1024.
Definition MAX_DURATION_SECS : Z := 10.

(** [clock]: the outcome of each test [now >= deadline]; [None] while the
  clock has not reached the deadline. *)
Fixpoint send_chunks (clock : list bool) (stream : list bytes) : option (list bytes) :=
  match clock with
  | [] => None
  | true :: _ => Some stream
  | false :: clock => send_chunks clock (stream ++ [repeat x00 (Z.to_nat CHUNK_SIZE)])
  end.
Definition Send_Bandwidth_Test (duration_secs : Z) (clock : list bool) : option (list bytes) :=
  send_chunks clock [to_le_bytes 2 duration_secs].

Fixpoint count_loop (fuel : nat) (stream : list bytes) (total : Z) : option Z :=
  match fuel with
  | O => None
  | S fuel =>
      let (b, stream) := Chunked.read CHUNK_SIZE stream in
      if zlen b =? 0 then Some total else count_loop fuel stream (total + zlen b)
  end.
Definition Receive_And_Count (stream : list bytes) : option (result io_error Z) :=
  match Chunked.read_exact 2 stream with
  | Err e => Some (Err e)
  | Ok (dur_buf, stream) =>
      if MAX_DURATION_SECS <? from_le_bytes dur_buf then Some (Err InvalidData)
      else Ok <$> count_loop (S (length (concat stream))) stream 0
  end.

Definition Write_Bandwidth_Result (stream : bytes) (total_bytes : Z) : bytes :=
  stream ++ to_le_bytes 8 total_bytes.
Definition Read_Bandwidth_Result : reader Z := read_le 8.

Lemma count_loop_spec fuel stream total :
  Chunked.delivers stream -> (length (concat stream) < fuel)%nat ->
  count_loop fuel stream total = Some (total + zlen (concat stream)).
Proof.
  revert stream total. induction fuel as [|fuel IH]; intros stream total Hd Hf; [lia|].
  cbn [count_loop]. destruct (Chunked.read _ stream) as [b stream'] eqn:Er.
  apply File_Stream.read_progress in Er as (Hd' & Hc & _ & Hnil); [|done|done].
  destruct (Z.eqb_spec (zlen b) 0) as [Hz|Hnz].
  - destruct (Hnil Hz) as (-> & _ & _). cbn [concat]. rewrite zlen_nil. f_equal. lia.
  - rewrite Hc, zlen_app, length_app in *. unfold zlen in *.
    rewrite IH; [|done|lia]. f_equal. lia.
Qed.

Lemma receive_count stream :
  Chunked.delivers stream ->
  Receive_And_Count stream
  = Some (if zlen (concat stream) <? 2 then Err UnexpectedEof
          else if MAX_DURATION_SECS <? from_le_bytes (take 2 (concat stream)) then Err InvalidData
          else Ok (zlen (concat stream) - 2)).
Proof.
  intros Hd. unfold Receive_And_Count. pose proof (Chunked.read_exact_spec 2 stream Hd) as H.
  unfold zlen. destruct (Chunked.read_exact 2 stream) as [[b rest]|e].
  - destruct H as (Hd' & -> & Hr & Hl). rewrite (proj2 (Z.ltb_ge (Z.of_nat _) 2)) by lia.
    case_match; [done|]. rewrite count_loop_spec by (done || lia). rewrite Hr. unfold zlen.
    rewrite length_drop. cbn [fmap option_fmap option_map]. do 2 f_equal. lia.
  - destruct H as [-> ?]. by rewrite (proj2 (Z.ltb_lt _ _)) by lia.
Qed.
Lemma send_chunks_spec clock stream out :
  send_chunks clock stream = Some out ->
  exists n, (n < length clock)%nat /\ out = stream ++ repeat (repeat x00 (Z.to_nat CHUNK_SIZE)) n.
Proof.
  revert stream. induction clock as [|[] clock IH]; intros stream; cbn [send_chunks]; [done| |].
  - intros [= <-]. exists O. cbn. rewrite app_nil_r. split; [lia|done].
  - intros (n & Hn & ->)%IH. exists (S n). cbn [length repeat]. rewrite <- app_assoc. split; [lia|done].
Qed.
(** The clock that allows [n] chunks: the loop pushes exactly those, whatever
  the clock would say later. *)
Lemma send_chunks_exact n later stream :
  send_chunks (repeat false n ++ true :: later) stream
  = Some (stream ++ repeat (repeat x00 (Z.to_nat CHUNK_SIZE)) n).
Proof.
  revert stream. induction n as [|n IH]; intros stream; cbn [repeat app send_chunks].
  - by rewrite app_nil_r.
  - by rewrite IH, <- app_assoc.
Qed.
Lemma zlen_chunks n : zlen (concat (repeat (repeat x00 (Z.to_nat CHUNK_SIZE)) n)) = Z.of_nat n * CHUNK_SIZE.
Proof.
  induction n as [|n IH]; [done|].
  cbn [repeat concat]. rewrite zlen_app, IH. unfold zlen at 1. rewrite repeat_length, Z2Nat.id by done. lia.
Qed.
(** What the receiver counts of an admissible test of [n] chunks. *)
Lemma count_chunks duration_secs n chunks :
  0 <= duration_secs <= MAX_DURATION_SECS -> Chunked.delivers chunks ->
  concat chunks = to_le_bytes 2 duration_secs ++ concat (repeat (repeat x00 (Z.to_nat CHUNK_SIZE)) n) ->
  Receive_And_Count chunks = Some (Ok (Z.of_nat n * CHUNK_SIZE)).
Proof.
  intros Hd Hch Hcat. rewrite receive_count, Hcat by done.
  assert (length (to_le_bytes 2 duration_secs) = 2%nat) as Hl by apply length_to_le_bytes.
  rewrite zlen_app, take_app, (take_ge (to_le_bytes _ _)), Hl, take_0, app_nil_r by lia.
  rewrite from_to_le_id by (unfold in_range, MAX_DURATION_SECS in *; lia).
  rewrite zlen_to_le_bytes, (proj2 (Z.ltb_ge MAX_DURATION_SECS _)), zlen_chunks by lia.
  assert (0 <= Z.of_nat n * CHUNK_SIZE) by (unfold CHUNK_SIZE; lia).
  rewrite (proj2 (Z.ltb_ge _ _)) by lia. do 2 f_equal. lia.
Qed.
(** the bandwidth counter. For any delivery of any bytes the receiver
  terminates: it refuses a stream shorter than its header
  ([UnexpectedEof]) or one that asks for more than ten seconds
  ([InvalidData]), and otherwise returns the number of bytes after the
  header, however they are cut. *)
Theorem Receive_And_Count_spec stream :
  Chunked.delivers stream ->
  Receive_And_Count stream
  = Some (if zlen (concat stream) <? 2 then Err UnexpectedEof
          else if MAX_DURATION_SECS <? from_le_bytes (take 2 (concat stream)) then Err InvalidData
          else Ok (zlen (concat stream) - 2)).
Proof. apply receive_count. Qed.
Lemma Receive_And_Count_spec_witness :
  Chunked.delivers [[x03]; [x00; x00]; [x00]] /\ Receive_And_Count [[x03]; [x00; x00]; [x00]] = Some (Ok 2).
Proof.
  assert (Chunked.delivers [[x03]; [x00; x00]; [x00]]) as H by (repeat constructor; discriminate).
  split; [exact H|]. exact (Receive_And_Count_spec _ H).
Defined.

(** a bandwidth test end to end. Whatever the clock and the transport
  do, the receiver of an admissible test counts exactly the 64 KB chunks the
  sender pushed before its deadline, and the two-byte header is not counted. *)
Theorem bandwidth_test_counts duration_secs clock out chunks :
  0 <= duration_secs <= MAX_DURATION_SECS ->
  Send_Bandwidth_Test duration_secs clock = Some out ->
  Chunked.delivers chunks -> concat chunks = concat out ->
  exists n, (n < length clock)%nat /\
    Receive_And_Count chunks = Some (Ok (Z.of_nat n * CHUNK_SIZE)).
Proof.
  unfold Send_Bandwidth_Test. intros Hd (n & Hn & ->)%send_chunks_spec Hch Hcat.
  exists n. split; [done|]. by apply (count_chunks duration_secs).
Qed.
Lemma bandwidth_test_counts_witness :
  exists out, Send_Bandwidth_Test 3 [true] = Some out /\ Chunked.delivers out /\
    exists n, (n < 1)%nat /\ Receive_And_Count out = Some (Ok (Z.of_nat n * CHUNK_SIZE)).
Proof.
  assert (Chunked.delivers [to_le_bytes 2 3]) as H by (repeat constructor; discriminate).
  exists [to_le_bytes 2 3]. split; [reflexivity|]. split; [exact H|].
  refine (bandwidth_test_counts 3 [true] _ _ _ eq_refl H eq_refl). unfold MAX_DURATION_SECS; lia.
Defined.
End Bandwidth_Stream.
