(* ===== verification/TensorPacket.v ===== *)
(** * GGUF tensor packets ([Src/ML_Engine/gguf_tensor.rs])

    The packet that carries a named tensor between nodes, its serialisation
    (big-endian length-prefixed fields) and its deserialisation, with the
    errors of each field.  Error messages that are texts of the standard
    library ([Utf8Error]) are left out of [Invalid_Utf8]. *)
From S2P Require Import Prelude RustStd Wire Cursor.

Inductive GGUF_Tensor_Error : Type :=
  | Serialize_Failed (msg : string)
  | Insufficient_Data (expected actual : Z)
  | Invalid_Utf8
  | Unknown_Dtype (dtype : string).

Inductive GGUF_Dtype : Set :=
  | F32 | F16 | BF16 | Q8_0 | Q4_0 | Q4_1 | Q5_0 | Q5_1 | Q2_K | Q3_K | Q4_K | Q5_K | Q6_K.
#[global] Instance GGUF_Dtype_eq_dec : EqDecision GGUF_Dtype.
Proof. solve_decision. Defined.

Definition As_Str (d : GGUF_Dtype) : string :=
  match d with
  | F32 => "F32" | F16 => "F16" | BF16 => "BF16" | Q8_0 => "Q8_0" | Q4_0 => "Q4_0"
  | Q4_1 => "Q4_1" | Q5_0 => "Q5_0" | Q5_1 => "Q5_1" | Q2_K => "Q2_K" | Q3_K => "Q3_K"
  | Q4_K => "Q4_K" | Q5_K => "Q5_K" | Q6_K => "Q6_K"
  end.

Definition From_Str (s : string) : result GGUF_Tensor_Error GGUF_Dtype :=
  if String.eqb s "F32" then Ok F32
  else if String.eqb s "F16" then Ok F16
  else if String.eqb s "BF16" then Ok BF16
  else if String.eqb s "Q8_0" then Ok Q8_0
  else if String.eqb s "Q4_0" then Ok Q4_0
  else if String.eqb s "Q4_1" then Ok Q4_1
  else if String.eqb s "Q5_0" then Ok Q5_0
  else if String.eqb s "Q5_1" then Ok Q5_1
  else if String.eqb s "Q2_K" then Ok Q2_K
  else if String.eqb s "Q3_K" then Ok Q3_K
  else if String.eqb s "Q4_K" then Ok Q4_K
  else if String.eqb s "Q5_K" then Ok Q5_K
  else if String.eqb s "Q6_K" then Ok Q6_K
  else Err (Unknown_Dtype s).

Record GGUF_Tensor_Packet : Type := New {
    name : string;
    shape : list Z;
    dtype : GGUF_Dtype;
    data : bytes;
}.

Definition GGUF_Tensor_Serialize (packet : GGUF_Tensor_Packet)
    : result GGUF_Tensor_Error bytes :=
  let name_bytes := as_bytes (name packet) in
  let dtype_bytes := as_bytes (As_Str (dtype packet)) in
  let buf := to_be_bytes 4 (wrap 32 (zlen name_bytes)) in
  let buf := buf ++ name_bytes in
  let buf := buf ++ to_be_bytes 4 (wrap 32 (zlen (shape packet))) in
  let buf := foldl (fun buf dim => buf ++ to_be_bytes 8 dim) buf (shape packet) in
  let buf := buf ++ to_be_bytes 4 (wrap 32 (zlen dtype_bytes)) in
  let buf := buf ++ dtype_bytes in
  let buf := buf ++ to_be_bytes 8 (zlen (data packet)) in
  let buf := buf ++ data packet in
  Ok buf.

Definition lift {A} (m : result GGUF_Tensor_Error A) : cursor GGUF_Tensor_Error A :=
  match m with Ok a => mret a | Err e => cfail e end.

(** The fields before the data, then the data. *)
Definition deserialize_head : cursor GGUF_Tensor_Error (string * list Z * GGUF_Dtype) :=
  name_len ← cread_be Insufficient_Data 4;
  name_bytes ← read_bytes Insufficient_Data name_len;
  name ← cutf8 Invalid_Utf8 name_bytes;
  ndim ← cread_be Insufficient_Data 4;
  shape ← crepeat (Z.to_nat ndim) (cread_be Insufficient_Data 8);
  dtype_len ← cread_be Insufficient_Data 4;
  dtype_bytes ← read_bytes Insufficient_Data dtype_len;
  dtype_str ← cutf8 Invalid_Utf8 dtype_bytes;
  dtype ← lift (From_Str dtype_str);
  mret (name, shape, dtype).

Definition deserialize_packet : cursor GGUF_Tensor_Error GGUF_Tensor_Packet :=
  '(name, shape, dtype) ← deserialize_head;
  data_len ← cread_be Insufficient_Data 8;
  data ← read_bytes Insufficient_Data data_len;
  mret (New name shape dtype data).

Definition GGUF_Tensor_Deserialize (bs : bytes)
    : result (fault GGUF_Tensor_Error) GGUF_Tensor_Packet :=
  fst <$> deserialize_packet bs 0.

(** ** Well-formed packets *)
Definition wf (p : GGUF_Tensor_Packet) : Prop :=
  Utf8.is_str (name p) /\ in_range 32 (str_len (name p)) /\
  in_range 32 (zlen (shape p)) /\ Forall (in_range 64) (shape p) /\ in_range 64 (zlen (data p)).

(** The fields up to the data, in one piece. *)
Definition encode_head (p : GGUF_Tensor_Packet) : bytes :=
  to_be_bytes 4 (zlen (as_bytes (name p))) ++ as_bytes (name p) ++
  to_be_bytes 4 (zlen (shape p)) ++ concat (map (to_be_bytes 8) (shape p)) ++
  to_be_bytes 4 (zlen (as_bytes (As_Str (dtype p)))) ++ as_bytes (As_Str (dtype p)).
Definition encode (p : GGUF_Tensor_Packet) : bytes :=
  encode_head p ++ to_be_bytes 8 (zlen (data p)) ++ data p.

Lemma From_Str_As_Str d : From_Str (As_Str d) = Ok d.
Proof. by destruct d. Qed.
Lemma From_Str_Ok s d : From_Str s = Ok d -> s = As_Str d.
Proof.
  unfold From_Str.
  repeat match goal with
  | |- context [String.eqb s ?t] => destruct (String.eqb_spec s t); [intros [= <-]; done|]
  end. done.
Qed.
Lemma As_Str_is_str d : Utf8.is_str (As_Str d).
Proof. by destruct d. Qed.
Lemma As_Str_len d : in_range 32 (zlen (as_bytes (As_Str d))).
Proof. by destruct d. Qed.

Lemma serialize_encode p : wf p -> GGUF_Tensor_Serialize p = Ok (encode p).
Proof.
  intros (_ & Hn & Hs & _ & _). unfold GGUF_Tensor_Serialize, encode, encode_head, str_len in *.
  rewrite foldl_extend, !wrap_id, <- !app_assoc by first [done|apply As_Str_len]. done.
Qed.

Lemma parses_lift s d : From_Str s = Ok d -> parses (lift (From_Str s)) [] d.
Proof. intros ->. apply parses_ret. Qed.

Lemma parses_head p :
  wf p -> parses deserialize_head (encode_head p) (name p, shape p, dtype p).
Proof.
  intros (Hu & Hn & Hs & Hd & Hl). unfold encode_head, str_len in *.
  pose proof (As_Str_is_str (dtype p)) as Hdu. pose proof (As_Str_len (dtype p)) as Hdl.
  unfold deserialize_head.
  pstep pfield. pstep pfield. pskip ltac:(by apply parses_utf8). pstep pfield.
  pstep ltac:(idtac).
  { unfold zlen. rewrite Nat2Z.id. apply parses_repeat.
    eapply Forall_impl; [exact Hd|]. intros v Hv. by apply parses_be. }
  pstep pfield.
  eapply parses_bind; [apply parses_bytes| |by rewrite app_nil_r].
  pskip ltac:(by apply parses_utf8). pskip ltac:(apply parses_lift, From_Str_As_Str).
  apply parses_ret.
Qed.
Lemma parses_packet p : wf p -> parses deserialize_packet (encode p) p.
Proof.
  intros Hw. pose proof Hw as (_ & _ & _ & _ & Hl). unfold deserialize_packet, encode.
  pstep ltac:(by apply parses_head). pstep pfield.
  eapply parses_bind; [apply parses_bytes| |by rewrite app_nil_r].
  destruct p. apply parses_ret.
Qed.

Lemma accepts_lift s :
  accepts (lift (From_Str s)) (fun d b => b = [] /\ s = As_Str d).
Proof.
  destruct (From_Str s) as [d|] eqn:E; [|apply accepts_fail]. apply From_Str_Ok in E.
  eapply accepts_impl; [apply accepts_ret|]. by intros ?? [-> ->].
Qed.

Lemma accepts_shape n :
  0 <= n -> accepts (E:=GGUF_Tensor_Error) (crepeat (Z.to_nat n) (cread_be Insufficient_Data 8))
    (fun l b => zlen l = n /\ b = concat (map (to_be_bytes 8) l) /\ Forall (in_range 64) l).
Proof.
  intros Hn. eapply accepts_impl; [apply accepts_repeat, accepts_be|].
  intros l b (Hl & bs & -> & HF). split; [unfold zlen; lia|]. clear Hl Hn.
  induction HF as [|v b l bs [-> Hv] HF [IH1 IH2]]; [done|].
  cbn [concat map]. rewrite IH1. split; [done|by constructor].
Qed.

Lemma accepts_head :
  accepts deserialize_head (fun '(nm, sh, dt) b => forall d, in_range 64 (zlen d) ->
    let p := New nm sh dt d in wf p /\ b = encode_head p).
Proof.
  eapply accepts_impl.
  { unfold deserialize_head.
    apply accepts_bind; [apply accepts_be|intros nl ? [_ Hnl]].
    apply accepts_bind; [apply accepts_bytes, Hnl|intros nb ? _].
    apply accepts_bind; [apply accepts_utf8|intros nm ? _].
    apply accepts_bind; [apply accepts_be|intros nd ? [_ Hnd]].
    apply accepts_bind; [apply accepts_shape, Hnd|intros sh ? _].
    apply accepts_bind; [apply accepts_be|intros dl ? [_ Hdl]].
    apply accepts_bind; [apply accepts_bytes, Hdl|intros db ? _].
    apply accepts_bind; [apply accepts_utf8|intros ds ? _].
    apply accepts_bind; [apply accepts_lift|intros; apply accepts_ret]. }
  intros [[nm0 sh0] dt0] b H.
  destruct H as (nl & b1 & r1 & [-> Hnl] & (nb & b2 & r2 & [-> Hnb] & H & ->) & ->).
  destruct H as (nm & b3 & r3 & (-> & -> & Hu) & (nd & b4 & r4 & [-> Hnd] & H & ->) & ->).
  destruct H as (sh & b5 & r5 & (Hsh & -> & Hdims) & (dl & b6 & r6 & [-> Hdl] & H & ->) & ->).
  destruct H as (db & b7 & r7 & [-> Hdb] & (ds & b8 & r8 & (-> & -> & Hds) & H & ->) & ->).
  destruct H as (dt & b9 & r9 & (-> & ->) & ([= -> -> ->] & ->) & ->).
  intros d Hd. unfold wf, encode_head, str_len. cbn [name shape dtype data].
  rewrite Hnb, Hsh, Hdb, !app_nil_r. done.
Qed.

Lemma accepts_data nm sh dt :
  accepts (data_len ← cread_be Insufficient_Data 8;
           data ← read_bytes Insufficient_Data data_len;
           mret (New nm sh dt data))
    (fun p b => exists d, in_range 64 (zlen d) /\ p = New nm sh dt d /\
                          b = to_be_bytes 8 (zlen d) ++ d).
Proof.
  eapply accepts_impl.
  { apply accepts_bind; [apply accepts_be|intros bl ? [_ Hbl]].
    apply accepts_bind; [apply accepts_bytes, Hbl|intros; apply accepts_ret]. }
  intros p b (bl & b2 & r2 & [-> Hbl] & (d & b3 & r3 & [-> Hd] & [-> ->] & ->) & ->).
  exists b3. rewrite Hd, app_nil_r. done.
Qed.

Lemma accepts_packet : accepts deserialize_packet (fun p b => wf p /\ b = encode p).
Proof.
  eapply accepts_impl.
  { unfold deserialize_packet.
    eapply (accepts_bind _ _ _ (fun h _ p b => exists d, in_range 64 (zlen d) /\
      p = New h.1.1 h.1.2 h.2 d /\ b = to_be_bytes 8 (zlen d) ++ d)); [apply accepts_head|].
    intros [[nm sh] dt] ? _. apply accepts_data. }
  intros p b ([[nm sh] dt] & b1 & r1 & Hh & (d & Hd & -> & ->) & ->).
  destruct (Hh d Hd) as [Hw ->]. done.
Qed.

Lemma deserialize_Ok bs p :
  GGUF_Tensor_Deserialize bs = Ok p -> exists rest, bs = encode p ++ rest /\ wf p.
Proof.
  unfold GGUF_Tensor_Deserialize. destruct (deserialize_packet bs 0) as [[p' off]|] eqn:E; [|done].
  intros [= <-]. apply (accepts_packet []) in E as (b & post & -> & _ & Hw & ->). eauto.
Qed.

(** C29: tensor packets. A byte slice deserialises to a packet if and only if it
    starts with the serialisation of that packet, where the name is UTF-8
    shorter than 4 GB and the dimensions fit 64 bits; so serialisation is
    injective and deserialisation inverts it, and bytes after the packet are
    ignored. *)
Theorem tensor_packet_iff bs p :
  zlen bs <= isize_max ->
  GGUF_Tensor_Deserialize bs = Ok p <->
  wf p /\ exists enc rest, GGUF_Tensor_Serialize p = Ok enc /\ bs = enc ++ rest.
Proof.
  intros Hl. split.
  - intros (rest & -> & Hw)%deserialize_Ok. split; [done|].
    exists (encode p), rest. by rewrite serialize_encode.
  - intros (Hw & enc & rest & E & ->). rewrite serialize_encode in E by done.
    injection E as <-. unfold GGUF_Tensor_Deserialize.
    pose proof (parses_packet p Hw [] rest Hl) as E. cbn [app] in E. rewrite zlen_nil in E.
    by rewrite E.
Qed.
Lemma tensor_packet_iff_witness :
  let p := New "w" [2; 3] Q4_K [x01; x02] in
  let bs := match GGUF_Tensor_Serialize p with Ok e => e ++ [x07] | Err _ => [] end in
  zlen bs <= isize_max /\
  (GGUF_Tensor_Deserialize bs = Ok p <->
   wf p /\ exists enc rest, GGUF_Tensor_Serialize p = Ok enc /\ bs = enc ++ rest) /\
  GGUF_Tensor_Deserialize bs = Ok p.
Proof.
  intros p bs. assert (zlen bs <= isize_max) as H by (vm_compute; discriminate).
  split; [exact H|]. split; [exact (tensor_packet_iff bs p H)|reflexivity].
Defined.

(** a hostile data length panics. After any well-formed fields, a data
    length within the size of the preceding fields of [2^64] makes
    [*offset + count] overflow, and the deserialiser panics where it promises
    [Insufficient_Data]; any smaller length that exceeds the slice is reported. *)
Theorem hostile_data_len_panics p data_len rest :
  wf p -> in_range 64 data_len ->
  let bs := encode_head p ++ to_be_bytes 8 data_len ++ rest in
  zlen bs <= isize_max -> zlen rest < data_len ->
  GGUF_Tensor_Deserialize bs
  = if 2 ^ 64 - zlen (encode_head p) - 8 <=? data_len then Err Panicked
    else Err (Failed (Insufficient_Data (zlen (encode_head p) + 8 + data_len) (zlen bs))).
Proof.
  intros Hw Hr bs Hl Hlt. unfold GGUF_Tensor_Deserialize, deserialize_packet, mbind, cursor_bind.
  pose proof (parses_head p Hw [] (to_be_bytes 8 data_len ++ rest) Hl) as Eh.
  cbn [app] in Eh. unfold bs in *. rewrite zlen_nil in Eh. rewrite Eh. clear Eh.
  pose proof (parses_be Insufficient_Data 8 data_len Hr (encode_head p) rest Hl) as Ed.
  rewrite Ed. clear Ed. unfold read_bytes. zlens. unfold isize_max, U64_MAX in *.
  pose proof (zlen_nonneg (encode_head p)). pose proof (zlen_nonneg rest).
  destruct (Z.leb_spec (2 ^ 64 - zlen (encode_head p) - 8) data_len) as [Hbig|Hsmall].
  - by rewrite (proj2 (Z.ltb_lt _ _)) by lia.
  - rewrite (proj2 (Z.ltb_ge (2 ^ 64 - 1) _)) by lia.
    rewrite (proj2 (Z.ltb_lt _ _)) by lia. cbn. do 3 f_equal; lia.
Qed.
Lemma hostile_data_len_panics_witness :
  let p := New "w" [] F32 [] in
  GGUF_Tensor_Deserialize (encode_head p ++ to_be_bytes 8 U64_MAX ++ []) = Err Panicked.
Proof.
  intros p. assert (wf p) as H1 by (repeat split; try constructor; vm_compute; congruence).
  assert (in_range 64 U64_MAX) as H2 by (vm_compute; split; congruence).
  assert (zlen (encode_head p ++ to_be_bytes 8 U64_MAX ++ []) <= isize_max) as H3
    by (vm_compute; discriminate).
  exact (hostile_data_len_panics p U64_MAX [] H1 H2 H3 eq_refl).
Defined.
