(* ===== verification/Bitmap.v ===== *)
(** * Layer bitmaps and layer ranges

    The 256-bit layer bitmap of a model: its construction
    ([Src/ML_Engine/gguf_model_manager.rs]), its hexadecimal encodings
    ([gguf_model_manager.rs], [Src/PeerManagement/peer_info.rs]), the range texts
    shown to the user ([peer_info.rs], [Src/TUI/mod.rs]) and the ranges the
    scheduler works with ([Src/VM/capability_binding.rs]).

    A bitmap is its 32 bytes.  Indices are bounded by the loops and are [nat].
    [None] is a panic where a definition returns an option of its result:
    [&hex[i..j]] panics off a character boundary. *)
From S2P Require Import Prelude RustStd Cursor.

Abbreviation bitmap := (list byte) (only parsing).
Definition zero_bitmap : bitmap := repeat x00 32.

(** [bitmap[i / 8] & (1 << (i % 8)) != 0] *)
Definition bit_set (b : bitmap) (i : nat) : bool :=
  negb (Z.land (bz (nth (i / 8) b x00)) (Z.shiftl 1 (Z.of_nat (i mod 8))) =? 0).
(** [bitmap[byte_idx] |= 1 << bit_idx] *)
Definition or_bit (b : bitmap) (byte_idx bit_idx : nat) : bitmap :=
  alter (fun x => byte.of_Z (Z.lor (bz x) (Z.shiftl 1 (Z.of_nat bit_idx)))) byte_idx b.

Definition Build_Layer_Bitmap {D} (layer_tensors_map : gmap nat D) (num_layers : nat) : bitmap :=
  foldl (fun b i =>
    if decide (is_Some (layer_tensors_map !! i)) then
      if (i / 8 <? 32)%nat then or_bit b (i / 8) (i mod 8) else b
    else b) zero_bitmap (seq 0 num_layers).

(** ** Hexadecimal encodings *)
Definition Bitmap_To_Hex (b : bitmap) : bytes := concat (map Num.print_hex2 b).

Definition Parse_Bitmap_Hex (hex : bytes) : option bitmap :=
  let hex := Str.trim hex in
  foldl (fun acc i =>
    b ← acc;
    pair ← Utf8.slice hex (Z.of_nat (i * 2)) (Z.of_nat (i * 2 + 2));
    Some match Num.from_str_radix 16 255 pair with
         | Ok v => <[i := byte.of_Z v]> b
         | Err _ => b
         end) (Some zero_bitmap) (seq 0 (Nat.min 32 (length hex / 2))).

Definition serialize_bitmap_hex (b : bitmap) : bytes := concat (map Num.print_hex2 b).

Inductive bitmap_error : Set := Not_64_Chars | Invalid_Hex.
Definition deserialize_bitmap_hex (hex : bytes) : result (fault bitmap_error) bitmap :=
  if negb (length hex =? 64)%nat then Err (Failed Not_64_Chars)
  else
    foldl (fun acc i =>
      b ← acc;
      pair ← ok_or Panicked (Utf8.slice hex (Z.of_nat (i * 2)) (Z.of_nat (i * 2 + 2)));
      v ← map_err (fun _ => Failed Invalid_Hex) (Num.from_str_radix 16 255 pair);
      mret (<[i := byte.of_Z v]> b)) (Ok zero_bitmap) (seq 0 32).

(** ** Ranges *)
Section compress.
Context {A : Type} (push : nat -> nat -> A).
(** The loop that merges consecutive layers, generic in what is pushed. *)
Definition compress_step (st : list A * nat * nat) (l : nat) : list A * nat * nat :=
  let '(ranges, start, end_) := st in
  if (l =? end_ + 1)%nat then (ranges, start, l) else (ranges ++ [push start end_], l, l).
Definition compress (first : nat) (rest : list nat) : list A :=
  let '(ranges, start, end_) := foldl compress_step ([], first, first) rest in
  ranges ++ [push start end_].
End compress.

Definition print_nat (n : nat) : bytes := Num.print_dec (Z.of_nat n).
Definition dash : byte := "-"%byte.
Definition comma : byte := ","%byte.
Definition print_range (start end_ : nat) : bytes :=
  if (start =? end_)%nat then print_nat start else print_nat start ++ [dash] ++ print_nat end_.

Definition layers (b : bitmap) : list nat :=
  List.filter (bit_set b) (seq 0 256).

Definition layer_range (layer_bitmap : bitmap) : bytes :=
  match layers layer_bitmap with
  | [] => as_bytes "none"
  | first :: rest => Split.join comma (compress print_range first rest)
  end.

(** The TUI's decoder: [Some None] is the function's [None]. *)
Definition bitmap_hex_to_layer_range (hex : bytes) : option (option bytes) :=
  if (length hex <? 64)%nat then Some None
  else
    let step (acc : option (option (list nat))) (i : nat) :=
      l ← acc;
      match l with
      | None => Some None
      | Some l =>
          pair ← Utf8.slice hex (Z.of_nat (i * 2)) (Z.of_nat (i * 2 + 2));
          Some match Num.from_str_radix 16 255 pair with
               | Err _ => None
               | Ok v => Some (l ++ map (fun bit => (i * 8 + bit)%nat)
                   (List.filter (fun bit => negb (Z.land v (Z.shiftl 1 (Z.of_nat bit)) =? 0)) (seq 0 8)))
               end
      end in
    r ← foldl step (Some (Some [])) (seq 0 32);
    Some match r with
         | Some (first :: rest) => Some (Split.join comma (compress print_range first rest))
         | _ => None
         end.

(** [bitmap_range]: the lowest and the highest bit, zero for an empty bitmap. *)
Definition bitmap_range (b : bitmap) : nat * nat :=
  let '(mn, mx) := foldl (fun '(mn, mx) layer =>
    if bit_set b layer then (match mn with None => Some layer | _ => mn end, Some layer)
    else (mn, mx)) (None, None) (seq 0 256) in
  (default O mn, default O mx).

(** ** Split file names *)
Definition underscore : byte := "_"%byte.
Definition marker : bytes := as_bytes "_split_".
(** The text after the last occurrence of [p] ([rfind] and the slice after it). *)
Fixpoint after_last (p l : bytes) : option bytes :=
  match l with
  | [] => if decide (p = []) then Some [] else None
  | _ :: r =>
      match after_last p r with
      | Some t => Some t
      | None => if Str.starts_with p l then Some (drop (length p) l) else None
      end
  end.
Definition strip_suffix (suf l : bytes) : bytes :=
  if Str.ends_with suf l then take (length l - length suf) l else l.

Definition parse_split_range (name : bytes) : option (Z * Z) :=
  let name := strip_suffix (as_bytes ".pgguf") name in
  range_part ← after_last marker name;
  match Split.split underscore range_part with
  | [s; e] =>
      s ← to_option (Num.parse_uint 32 s);
      e ← to_option (Num.parse_uint 32 e);
      Some (s, e)
  | _ => None
  end.

(** [adjust_range]; [num_layers] is a [u32]. *)
Definition adjust_range (min_bit max_bit : nat) (file_name : bytes) (num_layers : option Z) : Z * Z :=
  match parse_split_range file_name with
  | Some (s, e) => (s, e)
  | None =>
      match num_layers with
      | Some n =>
          if (0 <? n) && (n <=? Z.of_nat max_bit - Z.of_nat min_bit + 1) then (0, n + 1)
          else (Z.of_nat min_bit, Z.of_nat max_bit)
      | None => (Z.of_nat min_bit, Z.of_nat max_bit)
      end
  end.

(** The output name of [GGUF_Split_Model]: [{stem}_split_{start}_{end}.pgguf]. *)
Definition split_file_name (stem : bytes) (split_start split_end : Z) : bytes :=
  stem ++ marker ++ Num.print_dec split_start ++ [underscore] ++ Num.print_dec split_end
  ++ as_bytes ".pgguf".

(** ** Bits *)
Lemma bit_set_testbit b i : bit_set b i = Z.testbit (bz (nth (i / 8) b x00)) (Z.of_nat (i mod 8)).
Proof.
  unfold bit_set. set (x := bz _). set (k := Z.of_nat _).
  assert (0 <= k) as Hk by (unfold k; lia).
  destruct (Z.testbit x k) eqn:E.
  - destruct (Z.eqb_spec (Z.land x (Z.shiftl 1 k)) 0) as [H|]; [|done].
    apply (f_equal (fun z => Z.testbit z k)) in H.
    rewrite Z.land_spec, E, Z.shiftl_spec, Z.sub_diag, Z.bits_0 in H by done. done.
  - rewrite (proj2 (Z.eqb_eq _ _)); [done|]. apply Z.bits_inj'. intros n Hn.
    rewrite Z.land_spec, Z.shiftl_spec, Z.bits_0 by done.
    destruct (Z.eq_dec n k) as [->|Hne]; [by rewrite E|].
    destruct (Z.ltb_spec n k); [rewrite (Z.testbit_neg_r 1) by lia|rewrite (Z.bits_above_log2 1) by (cbn; lia)];
      apply andb_false_r.
Qed.

Lemma length_or_bit b i k : length (or_bit b i k) = length b.
Proof. apply length_alter. Qed.

Lemma bz_or x k : (k < 8)%nat ->
  bz (byte.of_Z (Z.lor (bz x) (Z.shiftl 1 (Z.of_nat k)))) = Z.lor (bz x) (Z.shiftl 1 (Z.of_nat k)).
Proof.
  intros Hk. apply bz_of_Z. pose proof (bz_range x).
  assert (0 <= Z.shiftl 1 (Z.of_nat k)) by (apply Z.shiftl_nonneg; lia).
  split; [apply Z.lor_nonneg; lia|]. change 256 with (2 ^ 8).
  apply Z.log2_lt_cancel. rewrite Z.log2_lor, Z.log2_shiftl, Z.log2_1, Z.log2_pow2 by lia.
  destruct (Z.eq_dec (bz x) 0) as [->|]; [cbn; lia|].
  pose proof (proj1 (Z.log2_lt_pow2 (bz x) 8 ltac:(lia))). lia.
Qed.

Lemma bit_set_or_bit b i j :
  length b = 32%nat -> (i < 256)%nat ->
  bit_set (or_bit b (i / 8) (i mod 8)) j = (j =? i)%nat || bit_set b j.
Proof.
  intros Hl Hi. rewrite !bit_set_testbit. unfold or_bit.
  pose proof (Nat.div_mod_eq i 8). pose proof (Nat.div_mod_eq j 8).
  pose proof (Nat.mod_upper_bound i 8). pose proof (Nat.mod_upper_bound j 8).
  rewrite !nth_lookup.
  destruct (decide (i / 8 = j / 8)%nat) as [E|E].
  - rewrite E, list_lookup_alter, decide_True by done. destruct (lookup_lt_is_Some_2 b (j / 8)) as [x Hx]; [lia|].
    rewrite Hx. cbn [fmap option_fmap option_map default from_option id].
    rewrite bz_or, Z.lor_spec, Z.shiftl_spec by lia.
    destruct (Nat.eqb_spec j i) as [->|Hne].
    + by rewrite Z.sub_diag, orb_true_r.
    + rewrite orb_false_l. replace (Z.testbit 1 _) with false; [apply orb_false_r|].
      symmetry. destruct (Z.ltb_spec (Z.of_nat (j mod 8)) (Z.of_nat (i mod 8))).
      * apply Z.testbit_neg_r; lia.
      * apply Z.bits_above_log2; [lia|]. change (Z.log2 1) with 0. lia.
  - rewrite list_lookup_alter_ne by done.
    destruct (Nat.eqb_spec j i) as [->|]; [done|by rewrite orb_false_l].
Qed.

Lemma build_spec {D} (m : gmap nat D) n :
  length (Build_Layer_Bitmap m n) = 32%nat /\
  forall i, bit_set (Build_Layer_Bitmap m n) i
            = bool_decide ((i < 256)%nat /\ (i < n)%nat /\ is_Some (m !! i)).
Proof.
  unfold Build_Layer_Bitmap. induction n as [|n [IHl IH]].
  - split; [done|]. intros i. rewrite bool_decide_false by lia.
    rewrite bit_set_testbit. unfold zero_bitmap. cbn [seq foldl].
    rewrite nth_lookup. destruct (repeat x00 32 !! (i / 8)%nat) as [x|] eqn:E; [|apply Z.bits_0].
    apply list_elem_of_lookup_2, list_elem_of_In, List.repeat_spec in E as ->. apply Z.bits_0.
  - rewrite seq_S, foldl_snoc. cbn [Nat.add]. set (acc := foldl _ _ _) in *.
    assert (forall i, i <> n \/ ~ (n < 256)%nat \/ ~ is_Some (m !! n) ->
      bit_set acc i = bool_decide ((i < 256)%nat /\ (i < S n)%nat /\ is_Some (m !! i))) as Hsame.
    { intros i Hne. rewrite IH. apply bool_decide_ext.
      destruct (decide (i = n)) as [->|]; [split; [lia|tauto]|].
      split; intros (? & ? & ?); repeat split; try done; lia. }
    destruct (decide (is_Some (m !! n))) as [Hs|Hs].
    2: { split; [done|]. intros i. apply Hsame. auto. }
    destruct (Nat.ltb_spec (n / 8) 32) as [Hlt|Hge].
    + assert (n < 256)%nat as Hn 
        by (pose proof (Nat.div_mod_eq n 8); pose proof (Nat.mod_upper_bound n 8); lia).
      split; [by rewrite length_or_bit|]. intros i. rewrite bit_set_or_bit by done.
      destruct (Nat.eqb_spec i n) as [->|Hne]; [|apply Hsame; auto].
      symmetry. apply bool_decide_true. repeat split; [done|lia|done].
    + assert (~ (n < 256)%nat) by (pose proof (Nat.div_mod_eq n 8); pose proof (Nat.mod_upper_bound n 8); lia).
      split; [done|]. intros i. apply Hsame. auto.
Qed.

(** building the bitmap. Bit [i] of the bitmap of a converted model is set
    exactly when block [i] has tensors, for the blocks below both the model's
    block count and 256; blocks from 256 on are dropped silently. *)
Theorem Build_Layer_Bitmap_bit {D} (layer_tensors_map : gmap nat D) num_layers i :
  bit_set (Build_Layer_Bitmap layer_tensors_map num_layers) i = true <->
  (i < Nat.min num_layers 256)%nat /\ is_Some (layer_tensors_map !! i).
Proof.
  rewrite (proj2 (build_spec _ _)), bool_decide_eq_true. split; intros (? & ?); [intuition lia|].
  repeat split; [lia..|done].
Qed.

(** ** Hexadecimal *)
Lemma slice_ascii l i j :
  Forall Utf8.is_ascii l -> 0 <= i <= j -> j <= zlen l ->
  Utf8.slice l i j = Some (take (Z.to_nat (j - i)) (drop (Z.to_nat i) l)).
Proof.
  intros Ha Hij Hj.
  assert (forall k, 0 <= k <= zlen l -> Utf8.is_char_boundary l k = true) as Hb.
  { intros k Hk. unfold Utf8.is_char_boundary. case_match; [done|].
    destruct (Z.eqb_spec k (zlen l)) as [|Hne]; [done|].
    destruct (lookup_lt_is_Some_2 l (Z.to_nat k)) as [b Hlk]; [unfold zlen in *; lia|]. rewrite Hlk.
    apply (Forall_lookup_1 _ _ _ _ Ha) in Hlk. unfold Utf8.is_ascii in Hlk.
    unfold Utf8.is_cont, Utf8.between.
    rewrite (proj2 (Z.leb_gt 0x80 _)), (proj2 (Z.leb_le 0 k)) by lia. done. }
  unfold Utf8.slice. rewrite !Hb, (proj2 (Z.leb_le i j)) by lia. done.
Qed.

Lemma hex_ascii b : Forall Utf8.is_ascii (Bitmap_To_Hex b).
Proof.
  unfold Bitmap_To_Hex. induction b; cbn [map concat]; [constructor|].
  apply Forall_app. split; [apply Num.print_hex2_ascii|done].
Qed.
Lemma length_hex b : length (Bitmap_To_Hex b) = (length b * 2)%nat.
Proof. unfold Bitmap_To_Hex. induction b; cbn in *; lia. Qed.
Lemma drop_hex i b : drop (i * 2) (Bitmap_To_Hex b) = Bitmap_To_Hex (drop i b).
Proof.
  revert b. induction i as [|i IH]; intros [|x b]; [done|done|by rewrite drop_nil|].
  cbn [Nat.mul Nat.add]. unfold Bitmap_To_Hex in *. cbn [map concat app drop Num.print_hex2]. apply IH.
Qed.
Lemma slice_hex i x b :
  b !! i = Some x ->
  Utf8.slice (Bitmap_To_Hex b) (Z.of_nat (i * 2)) (Z.of_nat (i * 2 + 2)) = Some (Num.print_hex2 x).
Proof.
  intros Hx. pose proof (lookup_lt_Some _ _ _ Hx) as Hlt.
  rewrite slice_ascii; [|apply hex_ascii|lia|unfold zlen; rewrite length_hex; lia].
  rewrite Nat2Z.id, drop_hex. replace (Z.to_nat _) with 2%nat by lia.
  by rewrite (drop_S _ _ _ Hx).
Qed.

(** Filling a bitmap position by position. *)
Lemma insert_prefix i x (b c : bitmap) :
  b !! i = Some x -> length c = length b ->
  <[i := x]> (take i b ++ drop i c) = take (S i) b ++ drop (S i) c.
Proof.
  intros Hx Hl. pose proof (lookup_lt_Some _ _ _ Hx) as Hlt.
  destruct (lookup_lt_is_Some_2 c i) as [y Hy]; [lia|].
  rewrite (drop_S _ _ _ Hy), (take_S_r _ _ _ Hx), <- app_assoc.
  replace i with (length (take i b) + 0)%nat at 1 by (rewrite length_take; lia).
  by rewrite insert_app_r.
Qed.

Lemma trim_hex b : Str.trim (Bitmap_To_Hex b) = Bitmap_To_Hex b.
Proof.
  assert (forall x, Forall (fun w => exists a r, w = a :: r /\ a <> x) Str.white ->
    forall l, Forall (fun w => Str.starts_with w (x :: l) = false) Str.white) as Hst.
  { intros x H l. eapply Forall_impl; [exact H|]. intros w (a & r & -> & Hne). cbn.
    by rewrite decide_False. }
  assert (forall y, Forall (fun w => exists a r, w = a :: r /\ a <> y) (map (@rev byte) Str.white) ->
    forall l, Forall (fun w => Str.starts_with w (y :: l) = false) (map (@rev byte) Str.white)) as Hen.
  { intros y H l. eapply Forall_impl; [exact H|]. intros w (a & r & -> & Hne). cbn.
    by rewrite decide_False. }
  assert (forall d, 0 <= d < 16 ->
    Forall (fun w => exists a r, w = a :: r /\ a <> Num.hex_digit d) Str.white /\
    Forall (fun w => exists a r, w = a :: r /\ a <> Num.hex_digit d) (map (@rev byte) Str.white)) as Hd.
  { intros d Hd. assert (d ∈ seqZ 0 16) as Hin by (apply elem_of_seqZ; lia). clear Hd. revert d Hin.
    rewrite <- Forall_forall. repeat constructor; cbn; do 2 eexists; (split; [reflexivity|discriminate]). }
  unfold Str.trim, Str.trim_start, Str.trim_end. destruct b as [|x b]; [done|].
  rewrite (Str.strip_id Str.white).
  2: { unfold Bitmap_To_Hex. cbn. apply Hst, Hd. pose proof (bz_range x). Z.div_mod_to_equations; lia. }
  rewrite Str.strip_id; [apply rev_involutive|].
  destruct (exists_last (l := x :: b)) as (b' & y & ->); [done|].
  unfold Bitmap_To_Hex. rewrite map_app, concat_app, rev_app_distr. cbn.
  apply Hen, Hd. pose proof (bz_range y). Z.div_mod_to_equations; lia.
Qed.

Lemma of_bz b : byte.of_Z (bz b) = b.
Proof. by destruct b. Qed.

Lemma parse_hex b : length b = 32%nat -> Parse_Bitmap_Hex (Bitmap_To_Hex b) = Some b.
Proof.
  intros Hl. unfold Parse_Bitmap_Hex. rewrite trim_hex, length_hex, Hl.
  change (Nat.min 32 (32 * 2 / 2)) with 32%nat.
  assert (forall n, (n <= 32)%nat -> foldl (fun acc i =>
    b' ← acc; pair ← Utf8.slice (Bitmap_To_Hex b) (Z.of_nat (i * 2)) (Z.of_nat (i * 2 + 2));
    Some match Num.from_str_radix 16 255 pair with Ok v => <[i := byte.of_Z v]> b' | Err _ => b' end)
    (Some zero_bitmap) (seq 0 n) = Some (take n b ++ drop n zero_bitmap)) as Hf.
  { induction n as [|n IH]; intros Hn; [done|]. rewrite seq_S, foldl_snoc, IH by lia. cbn [Nat.add].
    destruct (lookup_lt_is_Some_2 b n) as [x Hx]; [lia|]. cbn [mbind option_bind].
    rewrite (slice_hex _ _ _ Hx). cbn [mbind option_bind]. rewrite Num.from_str_radix_hex2, of_bz.
    f_equal. by apply insert_prefix. }
  rewrite Hf, take_ge, drop_ge, app_nil_r by (rewrite ?Hl; done). done.
Qed.

Lemma deserialize_hex b : length b = 32%nat -> deserialize_bitmap_hex (Bitmap_To_Hex b) = Ok b.
Proof.
  intros Hl. unfold deserialize_bitmap_hex. rewrite length_hex, Hl. cbn [Nat.mul Nat.add Nat.eqb negb].
  match goal with |- foldl ?f _ _ = _ => assert (forall n, (n <= 32)%nat ->
    foldl f (Ok zero_bitmap) (seq 0 n) = Ok (take n b ++ drop n zero_bitmap)) as Hf end.
  { induction n as [|n IH]; intros Hn; [done|]. rewrite seq_S, foldl_snoc, IH by lia. cbn [Nat.add].
    destruct (lookup_lt_is_Some_2 b n) as [x Hx]; [lia|]. cbn [mbind result_bind].
    rewrite (slice_hex _ _ _ Hx). cbn [mbind result_bind ok_or].
    rewrite Num.from_str_radix_hex2. cbn [mbind result_bind map_err]. rewrite of_bz.
    unfold mret, result_ret. f_equal. by apply insert_prefix. }
  rewrite Hf, take_ge, drop_ge, app_nil_r by (rewrite ?Hl; done). done.
Qed.

(** ** Ranges of layers *)
Definition expand (r : nat * nat) : list nat := seq (fst r) (snd r + 1 - fst r).
(** Maximal runs: non-empty, in order, with a gap between consecutive ones. *)
Fixpoint maximal (rs : list (nat * nat)) : Prop :=
  match rs with
  | [] => True
  | (s, e) :: rs' =>
      (s <= e)%nat /\ match rs' with (s', _) :: _ => (e + 1 < s')%nat | [] => True end /\ maximal rs'
  end.

Lemma compress_map {A} (push : nat -> nat -> A) first rest :
  compress push first rest = map (uncurry push) (compress pair first rest).
Proof.
  unfold compress.
  assert (forall rs s e, foldl (compress_step push) (map (uncurry push) rs, s, e) rest
    = let '(rs', s', e') := foldl (compress_step pair) (rs, s, e) rest in
      (map (uncurry push) rs', s', e')) as H.
  { induction rest as [|l rest IH]; intros rs s e; [done|]. cbn [foldl compress_step].
    destruct (l =? e + 1)%nat; [apply IH|].
    specialize (IH (rs ++ [(s, e)]) l l). rewrite map_app in IH. exact IH. }
  specialize (H [] first first).
  destruct (foldl (compress_step pair) _ _) as [[rs s] e]. cbn [map] in H.
  rewrite H. by rewrite map_app.
Qed.

Lemma maximal_snoc rs s e s' :
  maximal (rs ++ [(s, e)]) -> forall e', (e + 1 < s')%nat -> (s' <= e')%nat ->
  maximal (rs ++ [(s, e); (s', e')]).
Proof.
  induction rs as [|[a b] rs IH]; cbn; intros H e' Hlt Hle; [intuition|].
  destruct H as (? & ? & ?). split; [done|]. split; [|by apply IH].
  by destruct rs.
Qed.
Lemma maximal_widen rs s e e' :
  maximal (rs ++ [(s, e)]) -> (e <= e')%nat -> maximal (rs ++ [(s, e')]).
Proof.
  induction rs as [|[a b] rs IH]; cbn; intros H Hle; [intuition lia|].
  destruct H as (? & ? & ?). split; [done|]. split; [|by apply IH].
  by destruct rs as [|[? ?] ?].
Qed.

Lemma compress_spec first rest :
  StronglySorted lt (first :: rest) ->
  let rs := compress pair first rest in
  concat (map expand rs) = first :: rest /\ maximal rs /\ rs <> [].
Proof.
  unfold compress.
  assert (forall rs s e, maximal (rs ++ [(s, e)]) -> (s <= e)%nat -> StronglySorted lt (e :: rest) ->
    let '(rs', s', e') := foldl (compress_step pair) (rs, s, e) rest in
    concat (map expand (rs' ++ [(s', e')])) = concat (map expand (rs ++ [(s, e)])) ++ rest /\
    maximal (rs' ++ [(s', e')])) as H.
  { induction rest as [|l rest IH]; intros rs s e Hm Hse Hs; [by rewrite app_nil_r|].
    inversion_clear Hs as [|?? Hs' Hall]. inversion_clear Hall as [|?? Hel _].
    cbn [foldl compress_step]. destruct (Nat.eqb_spec l (e + 1)) as [->|Hne].
    - assert (maximal (rs ++ [(s, (e + 1)%nat)])) as Hm' by (eapply maximal_widen; [done|lia]).
      specialize (IH rs s (e + 1)%nat Hm' ltac:(lia) Hs').
      destruct (foldl _ _ _) as [[rs' s'] e']. destruct IH as [-> IH]. split; [|done].
      rewrite !map_app, !concat_app, <- !app_assoc. f_equal. unfold expand. cbn.
      replace (e + 1 + 1 - s)%nat with (S (e + 1 - s)) by lia. rewrite seq_S, app_nil_r, <- app_assoc.
      replace (s + (e + 1 - s))%nat with (e + 1)%nat by lia. by rewrite app_nil_r.
    - assert (maximal ((rs ++ [(s, e)]) ++ [(l, l)])) as Hm'
        by (rewrite <- app_assoc; apply maximal_snoc; [done|lia..]).
      specialize (IH (rs ++ [(s, e)]) l l Hm' ltac:(lia) Hs').
      destruct (foldl _ _ _) as [[rs' s'] e']. destruct IH as [-> IH]. split; [|done].
      rewrite (map_app _ (rs ++ _)), concat_app, <- app_assoc. f_equal.
      unfold expand. cbn. by replace (l + 1 - l)%nat with 1%nat by lia. }
  intros Hs. specialize (H [] first first). cbn [app maximal] in H.
  assert (maximal [(first, first)]) as Hm by (cbn; lia). specialize (H ltac:(done) ltac:(lia) Hs).
  destruct (foldl _ _ _) as [[rs s] e]. destruct H as [-> ?]. split; [|split; [done|by destruct rs]].
  unfold expand. cbn. by replace (first + 1 - first)%nat with 1%nat by lia.
Qed.

Lemma seq_sorted a n : StronglySorted lt (seq a n).
Proof.
  revert a. induction n as [|n IH]; intros a; cbn; constructor; [apply IH|].
  apply Forall_forall. intros x [? _]%elem_of_seq. lia.
Qed.
Lemma filter_sorted (P : nat -> bool) l : StronglySorted lt l -> StronglySorted lt (List.filter P l).
Proof.
  induction 1 as [|x l Hs IH Hall]; cbn; [constructor|]. destruct (P x); [|done].
  constructor; [done|]. apply Forall_forall. intros y Hy%list_elem_of_In%List.filter_In.
  rewrite Forall_forall in Hall. apply Hall, list_elem_of_In, Hy.
Qed.
Lemma layers_sorted b : StronglySorted lt (layers b).
Proof. apply filter_sorted, seq_sorted. Qed.
Lemma elem_of_layers b i : i ∈ layers b <-> (i < 256)%nat /\ bit_set b i = true.
Proof.
  unfold layers. rewrite list_elem_of_In, List.filter_In, List.in_seq. split; intros [? ?]; split; try done; lia.
Qed.

(** the displayed layer range. The text is ["none"] for an empty bitmap;
    otherwise it is the comma-separated list of the maximal runs of set bits,
    in increasing order, each printed as its first and last layer: expanding
    the printed runs gives back exactly the set bits. *)
Theorem layer_range_runs b :
  (layers b = [] /\ layer_range b = as_bytes "none") \/
  exists rs, rs <> [] /\ layer_range b = Split.join comma (map (uncurry print_range) rs) /\
    concat (map expand rs) = layers b /\ maximal rs /\
    (forall i, i ∈ concat (map expand rs) <-> (i < 256)%nat /\ bit_set b i = true).
Proof.
  pose proof (layers_sorted b) as Hs. pose proof (elem_of_layers b) as He. unfold layer_range.
  destruct (layers b) as [|first rest]; [by left|]. right.
  destruct (compress_spec first rest Hs) as (Hc & Hm & Hne).
  exists (compress pair first rest). rewrite Hc. split; [done|]. split; [|auto].
  by rewrite <- compress_map.
Qed.

(** The TUI's bit loop over one byte, and over the 32 bytes. *)
Lemma byte_layers b i :
  map (fun bit => (i * 8 + bit)%nat)
    (List.filter (fun bit => negb (Z.land (bz (nth i b x00)) (Z.shiftl 1 (Z.of_nat bit)) =? 0)) (seq 0 8))
  = List.filter (bit_set b) (seq (i * 8) 8).
Proof.
  assert (forall bit, (bit < 8)%nat -> bit_set b (i * 8 + bit)
    = negb (Z.land (bz (nth i b x00)) (Z.shiftl 1 (Z.of_nat bit)) =? 0)) as H.
  { intros bit Hb. unfold bit_set.
    replace ((i * 8 + bit) / 8)%nat with i by (rewrite Nat.div_add_l, Nat.div_small by lia; lia).
    replace ((i * 8 + bit) mod 8)%nat with bit; [done|].
    rewrite Nat.add_comm, Nat.Div0.mod_add, Nat.mod_small; lia. }
  replace (seq (i * 8) 8) with (map (fun bit => (i * 8 + bit)%nat) (seq 0 8))
    by (cbn; repeat f_equal; lia).
  assert (Forall (fun bit => (bit < 8)%nat) (seq 0 8)) as HF by (repeat constructor).
  induction HF as [|bit l Hb HF IH]; [done|]. cbn [map List.filter]. rewrite H by done.
  case_match; cbn [map]; by rewrite IH.
Qed.

Lemma bitmap_hex_layers b :
  length b = 32%nat ->
  bitmap_hex_to_layer_range (Bitmap_To_Hex b)
  = Some (match layers b with [] => None | _ => Some (layer_range b) end).
Proof.
  intros Hl. unfold bitmap_hex_to_layer_range, layer_range. rewrite length_hex, Hl.
  change (32 * 2 <? 64)%nat with false. cbn match beta.
  match goal with |- (foldl ?f _ _ ≫= _) = _ => assert (forall n, (n <= 32)%nat ->
    foldl f (Some (Some [])) (seq 0 n) = Some (Some (List.filter (bit_set b) (seq 0 (n * 8))))) as Hf end.
  { induction n as [|n IH]; intros Hn; [done|]. rewrite (seq_S n), foldl_snoc, IH by lia.
    cbn [mbind option_bind Nat.add]. destruct (lookup_lt_is_Some_2 b n) as [x Hx]; [lia|].
    rewrite (slice_hex _ _ _ Hx). cbn [mbind option_bind]. rewrite Num.from_str_radix_hex2.
    replace x with (nth n b x00) by (by rewrite nth_lookup, Hx). rewrite byte_layers.
    rewrite <- List.filter_app, <- seq_app. do 3 f_equal. f_equal. lia. }
  specialize (Hf 32%nat (le_n _)). assert (32 * 8 = 256)%nat as E8 by reflexivity. rewrite E8 in Hf.
  rewrite Hf. unfold mbind, option_bind, layers. by destruct (List.filter _ _).
Qed.

(** the hexadecimal form of a bitmap. Both encoders write the same 64
    digits; the PGGUF reader and the peer-info reader give back the bitmap, and
    the TUI decodes it to the text [layer_range] shows (nothing when empty).
    None of the three panics on it. *)
Theorem bitmap_hex_roundtrip b :
  length b = 32%nat ->
  serialize_bitmap_hex b = Bitmap_To_Hex b /\ length (Bitmap_To_Hex b) = 64%nat /\
  Parse_Bitmap_Hex (Bitmap_To_Hex b) = Some b /\
  deserialize_bitmap_hex (Bitmap_To_Hex b) = Ok b /\
  bitmap_hex_to_layer_range (Bitmap_To_Hex b)
  = Some (match layers b with [] => None | _ => Some (layer_range b) end).
Proof.
  intros Hl. split; [done|]. split; [by rewrite length_hex, Hl|].
  auto using parse_hex, deserialize_hex, bitmap_hex_layers.
Qed.
Lemma bitmap_hex_roundtrip_witness :
  let b := x05 :: repeat x00 31 in
  length b = 32%nat /\ Parse_Bitmap_Hex (Bitmap_To_Hex b) = Some b /\
  bitmap_hex_to_layer_range (Bitmap_To_Hex b) = Some (Some (as_bytes "0,2")).
Proof.
  intros b. assert (length b = 32%nat) as H by reflexivity.
  destruct (bitmap_hex_roundtrip b H) as (_ & _ & Hp & _ & Ht).
  split; [exact H|]. split; [exact Hp|]. rewrite Ht. reflexivity.
Defined.

(** ** The scheduler's ranges *)
Lemma bitmap_range_fold b n :
  let '(mn, mx) := foldl (fun '(mn, mx) layer =>
    if bit_set b layer then (match mn with None => Some layer | _ => mn end, Some layer)
    else (mn, mx)) (None, None) (seq 0 n) in
  mn = head (List.filter (bit_set b) (seq 0 n)) /\ mx = last (List.filter (bit_set b) (seq 0 n)).
Proof.
  induction n as [|n IH]; [done|]. rewrite seq_S, foldl_snoc, List.filter_app. cbn [Nat.add List.filter].
  destruct (foldl _ _ _) as [mn mx]. destruct IH as [-> ->].
  destruct (bit_set b n); [|by rewrite app_nil_r].
  rewrite last_snoc. split; [|done]. by destruct (List.filter _ _).
Qed.

Lemma bitmap_range_layers b :
  bitmap_range b = (default O (head (layers b)), default O (last (layers b))).
Proof.
  unfold bitmap_range, layers. pose proof (bitmap_range_fold b 256) as H.
  destruct (foldl _ _ _) as [mn mx]. by destruct H as [-> ->].
Qed.

Lemma sorted_head l x a : StronglySorted lt l -> head l = Some a -> x ∈ l -> (a <= x)%nat.
Proof.
  destruct 1 as [|y l Hs Hall]; [done|]. intros [= ->] [->|Hx]%elem_of_cons; [done|].
  rewrite Forall_forall in Hall. specialize (Hall _ Hx). lia.
Qed.
Lemma sorted_last l x z : StronglySorted lt l -> last l = Some z -> x ∈ l -> (x <= z)%nat.
Proof.
  induction 1 as [|y l Hs IH Hall]; [done|]. destruct l as [|y' l].
  - intros [= ->] ->%list_elem_of_singleton. done.
  - rewrite last_cons_cons. intros Hz [->|Hx]%elem_of_cons; [|by apply IH].
    apply last_Some_elem_of in Hz. rewrite Forall_forall in Hall. specialize (Hall _ Hz). lia.
Qed.

(** Whatever the stem, the name written for a split is parsed back. *)
Lemma after_last_none t : "s"%byte ∉ t -> after_last marker t = None.
Proof.
  induction t as [|c t IH]; [done|]. intros [Hc Ht]%not_elem_of_cons.
  cbn [after_last]. rewrite (IH Ht). destruct (Str.starts_with marker (c :: t)) eqn:E; [|done].
  apply Str.starts_with_spec in E as [k E]. exfalso. injection E as -> ->. apply Ht. by left.
Qed.
Lemma after_last_app stem l t : after_last marker l = Some t -> after_last marker (stem ++ l) = Some t.
Proof. intros H. induction stem as [|c s IH]; [done|]. cbn [app after_last]. by rewrite IH. Qed.
Lemma after_last_marker t : "s"%byte ∉ t -> after_last marker (marker ++ t) = Some t.
Proof.
  intros Ht. pose proof (after_last_none t Ht) as Hn.
  unfold marker in *. cbn. cbn in Hn. rewrite Hn.
  destruct t as [|c t]; [done|]. apply not_elem_of_cons in Ht as [Hc Ht].
  cbn. by rewrite (decide_False _ _ Hc).
Qed.

Lemma digits_free (c : byte) z : ~ Num.is_digit c -> c ∉ Num.print_dec z.
Proof.
  intros Hc Hin. pose proof (Num.print_dec_digits z) as Hd.
  rewrite Forall_forall in Hd. by apply Hc, Hd.
Qed.

Ltac not_digit := unfold Num.is_digit; vm_compute; let H := fresh in intros [_ H]; by apply H.

(** split names. The file name [GGUF_Split_Model] writes for a split is
    read back by the scheduler as exactly that range, whatever the original
    name is (it may contain the marker itself). *)
Theorem split_name_roundtrip stem s e :
  in_range 32 s -> in_range 32 e ->
  parse_split_range (split_file_name stem s e) = Some (s, e).
Proof.
  intros Hs He. unfold parse_split_range, split_file_name, strip_suffix, Str.ends_with.
  set (tl := Num.print_dec s ++ [underscore] ++ Num.print_dec e).
  assert (stem ++ marker ++ Num.print_dec s ++ [underscore] ++ Num.print_dec e ++ as_bytes ".pgguf"
    = (stem ++ marker ++ tl) ++ as_bytes ".pgguf") as -> by (unfold tl; by rewrite <- !app_assoc).
  rewrite rev_app_distr, Str.starts_with_app, length_app, Nat.add_sub, take_app_length.
  assert ("s"%byte ∉ tl) as Hfree.
  { unfold tl. intros [H|[H|H]%elem_of_app]%elem_of_app.
    - exact (digits_free "s"%byte _ ltac:(not_digit) H).
    - by apply list_elem_of_singleton in H.
    - exact (digits_free "s"%byte _ ltac:(not_digit) H). }
  rewrite (after_last_app _ _ _ (after_last_marker tl Hfree)). cbn [mbind option_bind]. unfold tl.
  cbn [app]. rewrite Split.split_app by (apply digits_free; not_digit).
  rewrite Split.split_none by (apply digits_free; not_digit).
  by rewrite !Num.parse_print_dec.
Qed.
Lemma split_name_roundtrip_witness :
  parse_split_range (split_file_name (as_bytes "a_split_1_2") 0 13) = Some (0, 13).
Proof. apply split_name_roundtrip; unfold in_range; lia. Defined.

(** the layer range offered to the scheduler. [bitmap_range] is the lowest
    and the highest held block; for a file that is not named as a split,
    [adjust_range] reports the whole pipeline [0..N+1] exactly when the span of
    held blocks is at least the positive block count, and otherwise returns the
    block numbers themselves, which are one less than the pipeline coordinates
    ([0] is the embedding there, block [i] is layer [i + 1]). *)
Theorem adjust_range_unsplit b file_name n :
  parse_split_range file_name = None -> layers b <> [] ->
  let '(lo, hi) := bitmap_range b in
  bit_set b lo = true /\ bit_set b hi = true /\
  (forall i, (i < 256)%nat -> bit_set b i = true -> (lo <= i <= hi)%nat) /\
  adjust_range lo hi file_name (Some n)
  = if (0 <? n) && (n <=? Z.of_nat (hi - lo + 1)) then (0, n + 1) else (Z.of_nat lo, Z.of_nat hi).
Proof.
  intros Hname Hne. rewrite bitmap_range_layers. pose proof (layers_sorted b) as Hs.
  destruct (head (layers b)) as [lo|] eqn:Hlo; [|by destruct (layers b)].
  destruct (last (layers b)) as [hi|] eqn:Hhi; [|by apply last_None in Hhi]. cbn [default from_option id].
  pose proof (last_Some_elem_of _ _ Hhi) as Hin2.
  assert (lo ∈ layers b) as Hin1 by (destruct (layers b); [done|injection Hlo as ->; left]).
  assert (lo <= hi)%nat by (by eapply sorted_head). unfold adjust_range. rewrite Hname.
  split; [by apply elem_of_layers in Hin1 as [_ ?]|].
  split; [by apply elem_of_layers in Hin2 as [_ ?]|]. split.
  - intros i Hi Hb. assert (i ∈ layers b) by (by apply elem_of_layers).
    split; [by eapply sorted_head|by eapply sorted_last].
  - by replace (Z.of_nat (hi - lo + 1)) with (Z.of_nat hi - Z.of_nat lo + 1) by lia.
Qed.
Lemma adjust_range_unsplit_witness :
  let b := x06 :: repeat x00 31 in
  parse_split_range (as_bytes "m.pgguf") = None /\ bitmap_range b = (1%nat, 2%nat) /\
  adjust_range 1 2 (as_bytes "m.pgguf") (Some 4) = (1, 2).
Proof.
  intros b. assert (parse_split_range (as_bytes "m.pgguf") = None) as H1 by reflexivity.
  assert (layers b <> []) as H2 by (vm_compute; discriminate).
  pose proof (adjust_range_unsplit b (as_bytes "m.pgguf") 4 H1 H2) as H.
  assert (bitmap_range b = (1%nat, 2%nat)) as E by (vm_compute; reflexivity). rewrite E in H.
  destruct H as (_ & _ & _ & H). auto.
Defined.
