(* ===== verification/Command.v ===== *)
(** * The inter-node command protocol ([Src/Orchestrator/command.rs],
      [Src/Orchestrator/inference_id.rs])

    The ['|']-separated text commands that travel as [DataType::Command]
    payloads, and the generator of inference ids that identify them.  The error
    messages, texts for the log, are constructors that name the failing check. *)
From S2P Require Import Prelude RustStd.

Inductive NetworkProtocol : Type :=
  | Establish_Tensor_Stream (inference_id : Z) (target_peer_id : string)
  | Join_Pipeline (inference_id : Z) (model_file_id device : string) (layer_start layer_end : Z)
  | Profile_Request (model_id : string) (layer_count : Z) (device : string)
  | ExecRemote (command params_json : string).

Inductive command_error : Type :=
  | Not_Utf8
  | Empty_Payload
  | Wrong_Fields (command : string) (expected actual : nat)
  | Bad_Number (field : string)
  | Unknown_Command (prefix : bytes).

Definition bar : byte := "|"%byte.

(** [parts[i].parse::<uN>().map_err(..)?] *)
Definition parse_field (w : Z) (field : string) (part : bytes) : result command_error Z :=
  map_err (fun _ => Bad_Number field) (Num.parse_uint w part).

Definition Parse_Network_Command (payload : bytes) : result command_error NetworkProtocol :=
  if negb (Utf8.valid payload) then Err Not_Utf8
  else
    let parts := Split.split bar payload in
    match parts with
    | [] => Err Empty_Payload
    | p0 :: _ =>
        if decide (p0 = as_bytes "ESTABLISH_TENSOR_STREAM") then
          match parts with
          | [_; id; target] =>
              inference_id ← parse_field 64 "inference_id" id;
              Ok (Establish_Tensor_Stream inference_id (of_bytes target))
          | _ => Err (Wrong_Fields "ESTABLISH_TENSOR_STREAM" 3 (length parts))
          end
        else if decide (p0 = as_bytes "JOIN_PIPELINE") then
          match parts with
          | [_; id; model; device; s; e] =>
              inference_id ← parse_field 64 "inference_id" id;
              layer_start ← parse_field 64 "layer_start" s;
              layer_end ← parse_field 64 "layer_end" e;
              Ok (Join_Pipeline inference_id (of_bytes model) (of_bytes device) layer_start layer_end)
          | _ => Err (Wrong_Fields "JOIN_PIPELINE" 6 (length parts))
          end
        else if decide (p0 = as_bytes "PROFILE") then
          match parts with
          | [_; model; count; device] =>
              layer_count ← parse_field 32 "layer_count" count;
              Ok (Profile_Request (of_bytes model) layer_count (of_bytes device))
          | _ => Err (Wrong_Fields "PROFILE" 4 (length parts))
          end
        else if decide (p0 = as_bytes "EXEC") then
          match parts with
          | [_; command; params] => Ok (ExecRemote (of_bytes command) (of_bytes params))
          | _ => Err (Wrong_Fields "EXEC" 3 (length parts))
          end
        else Err (Unknown_Command p0)
    end.

Definition Serialize_Network_Command (cmd : NetworkProtocol) : bytes :=
  match cmd with
  | Establish_Tensor_Stream id target =>
      as_bytes "ESTABLISH_TENSOR_STREAM|" ++ Num.print_dec id ++ [bar] ++ as_bytes target
  | Join_Pipeline id model device s e =>
      as_bytes "JOIN_PIPELINE|" ++ Num.print_dec id ++ [bar] ++ as_bytes model ++ [bar] ++
      as_bytes device ++ [bar] ++ Num.print_dec s ++ [bar] ++ Num.print_dec e
  | Profile_Request model count device =>
      as_bytes "PROFILE|" ++ as_bytes model ++ [bar] ++ Num.print_dec count ++ [bar] ++ as_bytes device
  | ExecRemote command params =>
      as_bytes "EXEC|" ++ as_bytes command ++ [bar] ++ as_bytes params
  end.

(** ** Values of the type, and their fields *)
Definition wf (cmd : NetworkProtocol) : Prop :=
  match cmd with
  | Establish_Tensor_Stream id target => in_range 64 id /\ Utf8.is_str target
  | Join_Pipeline id model device s e =>
      in_range 64 id /\ Utf8.is_str model /\ Utf8.is_str device /\ in_range 64 s /\ in_range 64 e
  | Profile_Request model count device => Utf8.is_str model /\ in_range 32 count /\ Utf8.is_str device
  | ExecRemote command params => Utf8.is_str command /\ Utf8.is_str params
  end.
Definition texts (cmd : NetworkProtocol) : list string :=
  match cmd with
  | Establish_Tensor_Stream _ target => [target]
  | Join_Pipeline _ model device _ _ => [model; device]
  | Profile_Request model _ device => [model; device]
  | ExecRemote command params => [command; params]
  end.
(** No text field holds the separator. *)
Definition bar_free (cmd : NetworkProtocol) : Prop := Forall (fun t => bar ∉ as_bytes t) (texts cmd).
#[global] Instance bar_free_dec cmd : Decision (bar_free cmd).
Proof. unfold bar_free. apply _. Defined.

(** The fields as they are joined. *)
Definition fields (cmd : NetworkProtocol) : list bytes :=
  match cmd with
  | Establish_Tensor_Stream id target => [as_bytes "ESTABLISH_TENSOR_STREAM"; Num.print_dec id; as_bytes target]
  | Join_Pipeline id model device s e =>
      [as_bytes "JOIN_PIPELINE"; Num.print_dec id; as_bytes model; as_bytes device; Num.print_dec s; Num.print_dec e]
  | Profile_Request model count device =>
      [as_bytes "PROFILE"; as_bytes model; Num.print_dec count; as_bytes device]
  | ExecRemote command params => [as_bytes "EXEC"; as_bytes command; as_bytes params]
  end.

Lemma serialize_fields cmd : Serialize_Network_Command cmd = Split.join bar (fields cmd).
Proof. by destruct cmd. Qed.

Lemma dec_bar_free z : bar ∉ Num.print_dec z.
Proof.
  intros Hin. pose proof (Num.print_dec_digits z) as H. rewrite Forall_forall in H.
  specialize (H _ Hin). by destruct H.
Qed.
Lemma dec_valid z : Utf8.valid (Num.print_dec z) = true.
Proof. apply Utf8.valid_ascii, Num.is_digit_ascii, Num.print_dec_digits. Qed.

Lemma serialize_valid cmd : wf cmd -> Utf8.valid (Serialize_Network_Command cmd) = true.
Proof.
  intros Hw. rewrite serialize_fields. apply Split.join_valid; [done|].
  destruct cmd; cbn in Hw; cbn [fields]; repeat constructor; first [apply dec_valid | apply Hw].
Qed.

Definition prefix (cmd : NetworkProtocol) : string :=
  match cmd with
  | Establish_Tensor_Stream _ _ => "ESTABLISH_TENSOR_STREAM"
  | Join_Pipeline _ _ _ _ _ => "JOIN_PIPELINE"
  | Profile_Request _ _ _ => "PROFILE"
  | ExecRemote _ _ => "EXEC"
  end.
Lemma prefix_free cmd : bar ∉ as_bytes (prefix cmd).
Proof. destruct cmd; apply (bool_decide_unpack _); by vm_compute. Qed.

Lemma fields_free cmd : Forall (fun p => bar ∉ p) (fields cmd) <-> bar_free cmd.
Proof.
  pose proof dec_bar_free. pose proof (prefix_free cmd) as Hp. unfold bar_free.
  destruct cmd; cbn [fields texts prefix] in *; rewrite ?Forall_cons, ?Forall_nil; naive_solver.
Qed.
Lemma split_fields cmd : exists ps,
  Split.split bar (Serialize_Network_Command cmd) = as_bytes (prefix cmd) :: ps /\
  (length (fields cmd) <= S (length ps))%nat /\
  (length (fields cmd) = S (length ps) -> bar_free cmd).
Proof.
  rewrite serialize_fields.
  destruct (Split.split_join_length bar (fields cmd)) as [Hle Heq]; [by destruct cmd|].
  rewrite fields_free in Heq.
  assert (exists r, Split.join bar (fields cmd) = as_bytes (prefix cmd) ++ bar :: r) as [r E]
    by (destruct cmd; eexists; reflexivity).
  rewrite E in *. rewrite Split.split_app in * by apply prefix_free. cbn [length] in *.
  eexists. split; [done|]. split; [done|]. intros Hl. by apply Heq.
Qed.

Lemma parse_field_dec w f z : in_range w z -> parse_field w f (Num.print_dec z) = Ok z.
Proof. intros H. unfold parse_field. by rewrite Num.parse_print_dec. Qed.

Lemma parse_serialize cmd : wf cmd -> bar_free cmd ->
  Parse_Network_Command (Serialize_Network_Command cmd) = Ok cmd.
Proof.
  intros Hw Hb. unfold Parse_Network_Command. rewrite serialize_valid by done. cbn [negb].
  rewrite serialize_fields, Split.split_join by first [by apply fields_free|by destruct cmd].
  destruct cmd; cbn in Hw; cbn [fields]; rewrite ?decide_False by done; rewrite ?decide_True by done;
    rewrite ?parse_field_dec by apply Hw; cbn [mbind result_bind]; by rewrite ?of_as_bytes.
Qed.

Lemma parse_serialize_bar cmd : wf cmd -> ~ bar_free cmd ->
  exists n m, Parse_Network_Command (Serialize_Network_Command cmd) = Err (Wrong_Fields (prefix cmd) n m) /\ (n < m)%nat.
Proof.
  intros Hw Hb. unfold Parse_Network_Command. rewrite serialize_valid by done. cbn [negb].
  destruct (split_fields cmd) as (ps & -> & Hle & Hf).
  assert (length (fields cmd) < S (length ps))%nat as Hlt
    by (destruct (decide (length (fields cmd) = S (length ps))); [exfalso; by apply Hb, Hf|lia]).
  clear Hle Hf. exists (length (fields cmd)), (S (length ps)). split; [|done].
  destruct cmd; cbn [fields prefix length] in *; rewrite ?decide_False by done; rewrite decide_True by done;
    clear Hw Hb; do 6 (try (destruct ps as [|? ps]; cbn [length] in Hlt; [exfalso; lia|])); reflexivity.
Qed.

(** The parsed commands are values of the type without separators. *)
Lemma parse_Ok payload cmd :
  Parse_Network_Command payload = Ok cmd -> wf cmd /\ bar_free cmd.
Proof.
  unfold Parse_Network_Command. destruct (Utf8.valid payload) eqn:Hv; [|done]. cbn [negb].
  pose proof (Split.split_valid bar payload ltac:(done) Hv) as Hvs.
  pose proof (Split.split_parts bar payload) as Hps.
  assert (forall w f p z, 0 <= w -> parse_field w f p = Ok z -> in_range w z) as Hr.
  { unfold parse_field. intros w f p z Hw0. destruct (Num.parse_uint w p) eqn:E; [|done].
    intros [= <-]. by eapply Num.parse_uint_range. }
  unfold bar_free. intros H. repeat (case_match; try discriminate H); inv_ok;
    repeat match goal with H : Forall _ (_ :: _) |- _ => inversion_clear H end;
    cbn [wf texts]; unfold Utf8.is_str; rewrite ?Forall_cons, ?Forall_nil, ?as_of_bytes;
    repeat match goal with H : parse_field _ _ _ = Ok _ |- _ => apply Hr in H; [|done] end; done.
Qed.

(** C20: commands between nodes. A command with numbers in range and texts in valid
    UTF-8 is parsed back exactly as it was serialised if and only if no text has a
    [|] in it. One with a separator in a text is never taken for another command:
    parsing it fails with the number-of-fields error of its own prefix. Whatever
    payload is parsed, serialising the command and parsing it again gives the same. *)
Theorem network_command_roundtrip cmd :
  wf cmd ->
  (bar_free cmd <-> Parse_Network_Command (Serialize_Network_Command cmd) = Ok cmd) /\
  (~ bar_free cmd -> exists n m, (n < m)%nat /\
     Parse_Network_Command (Serialize_Network_Command cmd) = Err (Wrong_Fields (prefix cmd) n m)) /\
  (forall payload cmd', Parse_Network_Command payload = Ok cmd' ->
     Parse_Network_Command (Serialize_Network_Command cmd') = Ok cmd').
Proof.
  intros Hw. split; [split; [by apply parse_serialize|by intros [_ ?]%parse_Ok]|]. split.
  - intros Hb. destruct (parse_serialize_bar cmd Hw Hb) as (n & m & E & Hlt). eauto.
  - intros payload cmd' [Hw' Hb']%parse_Ok. by apply parse_serialize.
Qed.
Lemma network_command_roundtrip_witness :
  let cmd := ExecRemote "bench" (of_bytes (as_bytes "{'m':'a|b'}")) in
  wf cmd /\ ~ bar_free cmd /\
  exists n m, (n < m)%nat /\
    Parse_Network_Command (Serialize_Network_Command cmd) = Err (Wrong_Fields "EXEC" n m).
Proof.
  intros cmd. assert (wf cmd) as H1 by (split; reflexivity).
  assert (~ bar_free cmd) as H2 by (apply (bool_decide_unpack _); vm_compute; exact I).
  split; [exact H1|]. split; [exact H2|].
  exact (proj1 (proj2 (network_command_roundtrip cmd H1)) H2).
Defined.

(** ** Inference ids

    [peer_hash] is the 64-bit [DefaultHasher] value of the local peer id;
    [LOCAL_COUNTER] is the process-wide atomic counter, which starts at one and
    wraps. *)
Module Inference_Id.
Definition initial_counter : Z := 1.
Definition Generate_Inference_Id (peer_hash : Z) (counter : Z) : Z * Z :=
  let high := wrap 32 (Z.shiftr peer_hash 32) in
  let low := counter in
  (Z.lor (Z.shiftl high 32) low, wrap 32 (counter + 1)).

(** [n] calls in the order of their atomic increments. *)
Fixpoint generate (n : nat) (peer_hash counter : Z) : list Z :=
  match n with
  | O => []
  | S n =>
      let (id, counter) := Generate_Inference_Id peer_hash counter in
      id :: generate n peer_hash counter
  end.

Lemma lor_disjoint x c : 0 <= c < 2 ^ 32 -> Z.lor (x * 2 ^ 32) c = x * 2 ^ 32 + c.
Proof.
  intros Hc. symmetry. apply Z.add_nocarry_lor. apply Z.bits_inj'. intros n Hn.
  rewrite Z.land_spec, Z.bits_0. destruct (Z.ltb_spec n 32).
  - by rewrite Z.mul_pow2_bits_low.
  - rewrite (proj2 (Z.testbit_false c n Hn)); [apply andb_false_r|].
    rewrite Z.div_small; [done|]. split; [lia|].
    eapply Z.lt_le_trans; [apply Hc|]. by apply Z.pow_le_mono_r.
Qed.

Lemma id_parts h c : in_range 64 h -> in_range 32 c ->
  fst (Generate_Inference_Id h c) = Z.shiftr h 32 * 2 ^ 32 + c.
Proof.
  intros Hh Hc. unfold Generate_Inference_Id, in_range in *. cbn [fst].
  rewrite Z.shiftr_div_pow2 by done. unfold wrap.
  rewrite (Z.mod_small (h / 2 ^ 32)) by (split; [apply Z.div_pos; lia|apply Z.div_lt_upper_bound; lia]).
  by rewrite Z.shiftl_mul_pow2, lor_disjoint.
Qed.

Lemma generate_map n h c : in_range 64 h -> in_range 32 c ->
  generate n h c = map (fun i => Z.shiftr h 32 * 2 ^ 32 + wrap 32 (c + Z.of_nat i)) (seq 0 n).
Proof.
  intros Hh. revert c. induction n as [|n IH]; intros c Hc; [done|]. cbn [generate seq map].
  pose proof (id_parts h c Hh Hc) as E. unfold Generate_Inference_Id in *. cbn [fst] in E.
  rewrite E, Z.add_0_r, (wrap_id 32 c) by done. f_equal.
  rewrite IH by (apply wrap_range; lia). rewrite <- seq_shift, map_map. apply map_ext. intros i.
  f_equal. unfold wrap. rewrite Zplus_mod_idemp_l. f_equal. lia.
Qed.

(** inference ids. The first [2^32] ids a node generates are pairwise
  distinct 64-bit numbers that start with the high half of the hash of the
  peer id, whatever the state of the counter; so ids of two nodes can only
  collide when those halves do. *)
Theorem inference_ids_distinct n h c :
  in_range 64 h -> in_range 32 c -> Z.of_nat n <= 2 ^ 32 ->
  NoDup (generate n h c) /\
  Forall (fun id => in_range 64 id /\ Z.shiftr id 32 = Z.shiftr h 32) (generate n h c).
Proof.
  intros Hh Hc Hn. rewrite generate_map by done. unfold in_range in *. split.
  - apply NoDup_ListNoDup, List.NoDup_map_NoDup_ForallPairs; [|apply List.seq_NoDup].
    intros i j Hi%List.in_seq Hj%List.in_seq E. unfold wrap in E.
    assert ((c + Z.of_nat i) mod 2 ^ 32 = (c + Z.of_nat j) mod 2 ^ 32) as E' by lia.
    clear E. pose proof (Z.div_mod (c + Z.of_nat i) (2 ^ 32) ltac:(lia)).
    pose proof (Z.div_mod (c + Z.of_nat j) (2 ^ 32) ltac:(lia)). nia.
  - apply Forall_map, Forall_true. intros i.
    pose proof (wrap_range 32 (c + Z.of_nat i) ltac:(lia)) as [Hw1 Hw2].
    assert (0 <= Z.shiftr h 32 < 2 ^ 32) as Hs.
    { rewrite Z.shiftr_div_pow2 by done. split; [apply Z.div_pos; lia|apply Z.div_lt_upper_bound; lia]. }
    split; [lia|]. rewrite (Z.shiftr_div_pow2 (_ + _)) by done.
    rewrite Z.div_add_l, Z.div_small by lia. lia.
Qed.
Lemma inference_ids_distinct_witness :
  NoDup (generate 3 0xDEADBEEF12345678 (2 ^ 32 - 2)) /\
  generate 3 0xDEADBEEF12345678 (2 ^ 32 - 2) = [0xDEADBEEFFFFFFFFE; 0xDEADBEEFFFFFFFFF; 0xDEADBEEF00000000].
Proof.
  assert (in_range 64 0xDEADBEEF12345678) as H1 by (unfold in_range; lia).
  assert (in_range 32 (2 ^ 32 - 2)) as H2 by (unfold in_range; lia).
  assert (Z.of_nat 3 <= 2 ^ 32) as H3 by lia.
  split; [exact (proj1 (inference_ids_distinct 3 _ _ H1 H2 H3))|reflexivity].
Defined.
End Inference_Id.
