(* ===== verification/Peers.v ===== *)
(** * Peer management ([Src/PeerManagement])

    The records of known nodes, the manager that keeps them, and the capability
    trait through which the network and the orchestrator use it.

    [PeerId] and [Multiaddr] are libp2p's: a type with decidable equality and an
    encoding, and an address type. [Instant]s are numbers, and the operations that
    read the clock take [now]. The manager's [RwLock] makes every operation
    atomic, so an operation is a function on the map. A Rust [HashMap] iterates in
    an unspecified order: [iter] is one, constrained only to be a permutation
    of the values. *)
From S2P Require Import Prelude RustStd Bitmap.

Record SupportedModel : Type := mk_SupportedModel {
    model_id : Z;
    file_name : string;
    layer_bitmap : bitmap;
}.
Record PeerProfile : Type := mk_PeerProfile { latency_ms : option Z }.
Definition PeerProfile_default : PeerProfile := mk_PeerProfile None.
Record SessionSummary : Type := mk_SessionSummary {
    session_id : Z;
    session_model_id : string;
    occupied_slots : Z;
    total_slots : Z;
}.

Section peer_info.
Context {PeerId Multiaddr : Type} `{Countable PeerId} (to_string : PeerId -> bytes).

Record PeerInfo : Type := mk_PeerInfo {
  peer_id : PeerId;
  name : bytes;
  addresses : list Multiaddr;
  local : bool;
  connected_at : Z;
  last_active : Z;
  profile : PeerProfile;
  supported_models : list SupportedModel;
  sessions : list SessionSummary;
}.

Definition new (now : Z) (p : PeerId) (addrs : list Multiaddr) : PeerInfo :=
  mk_PeerInfo p [] addrs false now now PeerProfile_default [] [].
Definition new_local (now : Z) (p : PeerId) (nm : bytes) : PeerInfo :=
  mk_PeerInfo p nm [] true now now PeerProfile_default [] [].

(** [{name}#{last four bytes of the peer id}]. *)
Definition display_name (i : PeerInfo) : bytes :=
  if decide (name i = []) then as_bytes "unknown"
  else
    let peer_str := to_string (peer_id i) in
    let suffix := if (4 <=? length peer_str)%nat then drop (length peer_str - 4) peer_str else peer_str in
    name i ++ ["#"%byte] ++ suffix.

Definition update_profile_info (now : Z) (pr : PeerProfile) (i : PeerInfo) : PeerInfo :=
  mk_PeerInfo (peer_id i) (name i) (addresses i) (local i) (connected_at i) now
    (match latency_ms pr with Some v => mk_PeerProfile (Some v) | None => profile i end)
    (supported_models i) (sessions i).
Definition update_supported_models_info (now : Z) (ms : list SupportedModel) (i : PeerInfo) : PeerInfo :=
  mk_PeerInfo (peer_id i) (name i) (addresses i) (local i) (connected_at i) now (profile i) ms (sessions i).
Definition update_sessions_info (now : Z) (ss : list SessionSummary) (i : PeerInfo) : PeerInfo :=
  mk_PeerInfo (peer_id i) (name i) (addresses i) (local i) (connected_at i) now (profile i)
    (supported_models i) ss.
Definition set_name (nm : bytes) (i : PeerInfo) : PeerInfo :=
  mk_PeerInfo (peer_id i) nm (addresses i) (local i) (connected_at i) (last_active i) (profile i)
    (supported_models i) (sessions i).

Inductive Peer_Management_Error : Type :=
  | PeerNotFound (who : bytes)
  | Internal (msg : bytes).

(** ** [PeerManager] *)
Abbreviation PeerManager := (gmap PeerId PeerInfo).
Context (iter : PeerManager -> list PeerInfo).

Definition PeerManager_new (now : Z) (local_peer_id : PeerId) (nm : bytes) : PeerManager :=
  {[ local_peer_id := new_local now local_peer_id nm ]}.

(** What [upsert_peer] stores: the entry keeps [old]'s times, profile, models
  and local flag, and its name when the new one is empty. *)
Definition merge (old : option PeerInfo) (i : PeerInfo) : PeerInfo :=
  match old with
  | Some old =>
      mk_PeerInfo (peer_id i) (if decide (name i = []) then name old else name i) (addresses i)
        (local old) (connected_at old) (last_active old) (profile old) (supported_models old) (sessions i)
  | None => i
  end.
Definition upsert_peer (i : PeerInfo) (peers : PeerManager) : bool * PeerManager :=
  let old := peers !! peer_id i in
  (bool_decide (is_Some old), <[peer_id i := merge old i]> peers).

Definition remove_peer (p : PeerId) (peers : PeerManager) : option PeerInfo * PeerManager :=
  match peers !! p with
  | Some i => if local i then (None, peers) else (Some i, delete p peers)
  | None => (None, peers)
  end.

Definition get_all_peers (peers : PeerManager) : list PeerInfo := iter peers.
Definition get_local_peer (peers : PeerManager) : option PeerInfo := List.find local (iter peers).
Definition get_peer_by_name (nm : bytes) (peers : PeerManager) : option PeerInfo :=
  List.find (fun i => bool_decide (display_name i = nm)) (iter peers).

Definition set_local_name (nm : bytes) (peers : PeerManager)
    : result Peer_Management_Error PeerManager :=
  match List.find local (iter peers) with
  | Some i => Ok (<[peer_id i := set_name nm i]> peers)
  | None => Err (PeerNotFound (as_bytes "local"))
  end.

Definition update_entry (f : PeerInfo -> PeerInfo) (p : PeerId) (peers : PeerManager)
    : result Peer_Management_Error PeerManager :=
  match peers !! p with
  | Some i => Ok (<[p := f i]> peers)
  | None => Err (PeerNotFound (to_string p))
  end.
Definition update_profile (now : Z) (p : PeerId) (pr : PeerProfile) :=
  update_entry (update_profile_info now pr) p.
Definition update_supported_models (now : Z) (p : PeerId) (ms : list SupportedModel) :=
  update_entry (update_supported_models_info now ms) p.
Definition update_sessions (now : Z) (p : PeerId) (ss : list SessionSummary) :=
  update_entry (update_sessions_info now ss) p.

Definition clear (peers : PeerManager) : PeerManager :=
  filter (fun '(_, i) => local i = true) peers.

(** ** The manager as a state machine: any sequence of operations *)
Inductive peer_op : Type :=
  | Op_upsert (i : PeerInfo)
  | Op_remove (p : PeerId)
  | Op_set_local_name (nm : bytes)
  | Op_profile (now : Z) (p : PeerId) (pr : PeerProfile)
  | Op_models (now : Z) (p : PeerId) (ms : list SupportedModel)
  | Op_sessions (now : Z) (p : PeerId) (ss : list SessionSummary)
  | Op_clear.

Definition keep (peers : PeerManager) (r : result Peer_Management_Error PeerManager) : PeerManager :=
  match r with Ok m => m | Err _ => peers end.
Definition run_op (peers : PeerManager) (op : peer_op) : PeerManager :=
  match op with
  | Op_upsert i => snd (upsert_peer i peers)
  | Op_remove p => snd (remove_peer p peers)
  | Op_set_local_name nm => keep peers (set_local_name nm peers)
  | Op_profile now p pr => keep peers (update_profile now p pr peers)
  | Op_models now p ms => keep peers (update_supported_models now p ms peers)
  | Op_sessions now p ss => keep peers (update_sessions now p ss peers)
  | Op_clear => clear peers
  end.
(** Entries built by [PeerInfo::new], as all callers of the trait do. *)
Definition remote_op (op : peer_op) : Prop :=
  match op with Op_upsert i => local i = false | _ => True end.

(** Keys agree with entries; the local entry is the only local one. *)
Definition wf (me : PeerId) (peers : PeerManager) : Prop :=
  map_Forall (fun p i => peer_id i = p /\ (local i = true <-> p = me)) peers /\ is_Some (peers !! me).

Lemma merge_peer_id old i : peer_id (merge old i) = peer_id i.
Proof. by destruct old. Qed.

Lemma wf_insert me peers p i :
  wf me peers -> peer_id i = p -> (local i = true <-> p = me) -> wf me (<[p := i]> peers).
Proof.
  intros [Hf Hme] Hp Hl. split; [by apply map_Forall_insert_2|].
  destruct (decide (p = me)) as [->|]; [by rewrite lookup_insert_eq|by rewrite lookup_insert_ne].
Qed.

Lemma wf_update me peers p i f :
  wf me peers -> peers !! p = Some i -> (forall i, peer_id (f i) = peer_id i /\ local (f i) = local i) ->
  wf me (<[p := f i]> peers).
Proof.
  intros Hw Hp Hf. destruct (proj1 Hw p i Hp) as [Hid Hloc]. destruct (Hf i) as [Hfi Hfl].
  apply wf_insert; [done|congruence|by rewrite Hfl].
Qed.

Lemma wf_upsert me peers i : wf me peers -> local i = false -> wf me (snd (upsert_peer i peers)).
Proof.
  intros Hw Hi. unfold upsert_peer. cbn [snd]. apply wf_insert; [done|apply merge_peer_id|].
  destruct (peers !! peer_id i) as [old|] eqn:E; cbn [merge local].
  - by destruct (proj1 Hw _ _ E).
  - rewrite Hi. split; [done|]. intros Heq. destruct (proj2 Hw) as [? Hs].
    by rewrite Heq, Hs in E.
Qed.
Lemma wf_remove me peers p : wf me peers -> wf me (snd (remove_peer p peers)).
Proof.
  intros Hw. unfold remove_peer. destruct (peers !! p) as [i|] eqn:E; [|done].
  destruct (local i) eqn:El; [done|]. destruct Hw as [Hf Hme]. cbn. split; [by apply map_Forall_delete|].
  rewrite lookup_delete_ne; [done|]. intros ->. apply Hf in E as [_ E]. rewrite El in E.
  by destruct E as [_ E]; specialize (E eq_refl).
Qed.
Lemma wf_clear me peers : wf me peers -> wf me (clear peers).
Proof.
  intros [Hf [i Hi]]. split.
  - intros p j [Hj _]%map_lookup_filter_Some. by apply Hf.
  - exists i. apply map_lookup_filter_Some. split; [done|]. apply (Hf _ _ Hi). done.
Qed.

(** [HashMap] iteration: every value once. *)
Context (iter_perm : forall m, iter m ≡ₚ (map_to_list m).*2).

Lemma elem_of_iter i m : i ∈ iter m <-> exists p, m !! p = Some i.
Proof.
  rewrite iter_perm, list_elem_of_fmap. split.
  - intros ([p j] & -> & Hin%elem_of_map_to_list). eauto.
  - intros [p Hp]. exists (p, i). split; [done|]. by apply elem_of_map_to_list.
Qed.
Lemma find_Some {A} (f : A -> bool) l : (exists x, x ∈ l /\ f x = true) ->
  exists x, List.find f l = Some x /\ x ∈ l /\ f x = true.
Proof.
  intros (x & Hx & Hf). destruct (List.find f l) as [y|] eqn:E.
  - apply List.find_some in E as [? ?]. exists y. by rewrite list_elem_of_In.
  - pose proof (List.find_none _ _ E x) as Hn. rewrite <- list_elem_of_In in Hn.
    by rewrite (Hn Hx) in Hf.
Qed.

Lemma get_local_wf me peers : wf me peers -> get_local_peer peers = peers !! me.
Proof.
  intros [Hf [i Hi]]. unfold get_local_peer.
  destruct (find_Some local (iter peers)) as (x & -> & Hin & Hl).
  { exists i. split; [apply elem_of_iter; eauto|]. apply (Hf _ _ Hi). done. }
  apply elem_of_iter in Hin as [p Hp]. destruct (Hf _ _ Hp) as [_ [Hpm _]].
  by rewrite <- (Hpm Hl).
Qed.

Lemma wf_set_local_name me peers nm : wf me peers -> wf me (keep peers (set_local_name nm peers)).
Proof.
  intros Hw. unfold set_local_name. change (List.find local (iter peers)) with (get_local_peer peers).
  rewrite (get_local_wf me) by done. destruct (proj2 Hw) as [i Hi]. rewrite Hi. cbn.
  destruct (proj1 Hw _ _ Hi) as [-> _]. by apply (wf_update me peers me i (set_name nm)).
Qed.
Lemma wf_update_entry me peers p f :
  wf me peers -> (forall i, peer_id (f i) = peer_id i /\ local (f i) = local i) ->
  wf me (keep peers (update_entry f p peers)).
Proof.
  intros Hw Hf. unfold update_entry. destruct (peers !! p) as [i|] eqn:E; [|done].
  by apply wf_update.
Qed.

Lemma wf_run_op me peers op : wf me peers -> remote_op op -> wf me (run_op peers op).
Proof.
  destruct op; intros Hw Hr; cbn [run_op];
    eauto using wf_upsert, wf_remove, wf_clear, wf_set_local_name; by apply wf_update_entry.
Qed.
Lemma wf_run ops me peers : wf me peers -> Forall remote_op ops -> wf me (foldl run_op peers ops).
Proof.
  intros Hw HF. revert peers Hw. induction HF as [|op ops Ho HF IH]; intros peers Hw; [done|].
  cbn. by apply IH, wf_run_op.
Qed.
Lemma wf_new now me nm : wf me (PeerManager_new now me nm).
Proof.
  unfold PeerManager_new. split; [|by rewrite lookup_singleton_eq]. by apply map_Forall_singleton.
Qed.

(** the local node. Whatever sequence of operations the network and the
  orchestrator run on a fresh manager (entries of [PeerInfo::new] only), the
  local node stays: exactly one entry is local, it is the one of the local
  peer id, [get_local_peer] returns it in every iteration order, and every
  entry is filed under its own id. *)
Theorem local_peer_invariant now me nm ops :
  Forall remote_op ops ->
  let peers := foldl run_op (PeerManager_new now me nm) ops in
  exists i, peers !! me = Some i /\ local i = true /\ get_local_peer peers = Some i /\
    map_Forall (fun p j => peer_id j = p /\ (local j = true <-> p = me)) peers.
Proof.
  intros Hops peers. assert (wf me peers) as Hw by (apply wf_run; [apply wf_new|done]).
  destruct (proj2 Hw) as [i Hi]. exists i. rewrite (get_local_wf me) by done.
  split; [done|]. split; [|split; [done|apply Hw]]. by apply (proj1 Hw _ _ Hi).
Qed.

(** upserting. The answer says whether the peer was known; the stored entry
  keeps what the node learned by itself (times, latency, models, the local
  flag, and the name when the new one is empty) and takes the new addresses
  and sessions even when they are empty; no other entry changes. *)
Theorem upsert_peer_spec i peers :
  let '(existed, peers') := upsert_peer i peers in
  (existed = true <-> is_Some (peers !! peer_id i)) /\
  (forall p, p <> peer_id i -> peers' !! p = peers !! p) /\
  exists j, peers' !! peer_id i = Some j /\ peer_id j = peer_id i /\
    addresses j = addresses i /\ sessions j = sessions i /\
    match peers !! peer_id i with
    | None => j = i
    | Some old =>
        name j = (if decide (name i = []) then name old else name i) /\
        local j = local old /\ connected_at j = connected_at old /\ last_active j = last_active old /\
        profile j = profile old /\ supported_models j = supported_models old
    end.
Proof.
  unfold upsert_peer. split; [by rewrite bool_decide_eq_true|].
  split; [intros p Hp; by rewrite lookup_insert_ne|].
  exists (merge (peers !! peer_id i) i). rewrite lookup_insert_eq.
  by destruct (peers !! peer_id i).
Qed.

(** removal and reset. [remove_peer] returns and deletes a known remote
  peer, and does nothing on an unknown or the local one; [clear] keeps
  exactly the local entries. *)
Theorem remove_clear_spec p peers :
  (match peers !! p with
   | Some i => if local i then remove_peer p peers = (None, peers)
               else remove_peer p peers = (Some i, delete p peers)
   | None => remove_peer p peers = (None, peers)
   end) /\
  (forall q j, clear peers !! q = Some j <-> peers !! q = Some j /\ local j = true).
Proof.
  split.
  - unfold remove_peer. destruct (peers !! p) as [i|]; [|done]. by destruct (local i).
  - intros q j. unfold clear. by rewrite map_lookup_filter_Some.
Qed.
End peer_info.
Arguments PeerInfo : clear implicits.

(** ** The capability trait

    [Peer_Management_Capability] as its clients see it, and what an
    implementation promises: a view of the entries by peer id and the effect
    of every operation on that view.  The network handlers are verified against
    this interface; [PeerManager] implements it. *)
Class Peer_Management_Capability (PeerId Multiaddr S : Type) := {
    Get_All_Peers : S -> list (PeerInfo PeerId Multiaddr);
    Get_Local_Peer : S -> result Peer_Management_Error (PeerInfo PeerId Multiaddr);
    Get_Peer_By_Name : bytes -> S -> result Peer_Management_Error (PeerInfo PeerId Multiaddr);
    Upsert_Peer : PeerInfo PeerId Multiaddr -> S -> bool * S;
    Set_Local_Name : bytes -> S -> result Peer_Management_Error unit * S;
    Remove_Peer : PeerId -> S -> result Peer_Management_Error (PeerInfo PeerId Multiaddr) * S;
    Update_Profile : Z -> PeerId -> PeerProfile -> S -> result Peer_Management_Error unit * S;
    Update_Supported_Models :
      Z -> PeerId -> list SupportedModel -> S -> result Peer_Management_Error unit * S;
    Update_Sessions :
      Z -> PeerId -> list SessionSummary -> S -> result Peer_Management_Error unit * S;
    Clear : S -> S;
}.

Class Peer_Management_Laws {PeerId : Type} (to_string : PeerId -> bytes) (Multiaddr S : Type)
      `{Countable PeerId} `{!Peer_Management_Capability PeerId Multiaddr S} := {
    view : S -> gmap PeerId (PeerInfo PeerId Multiaddr);
    view_local me s : wf me (view s) -> exists i, view s !! me = Some i /\ Get_Local_Peer s = Ok i;
    view_by_name nm s :
      match Get_Peer_By_Name nm s with
      | Ok i => (exists p, view s !! p = Some i) /\ display_name to_string i = nm
      | Err _ => forall p i, view s !! p = Some i -> display_name to_string i <> nm
      end;
    view_set_local_name nm me s :
      wf me (view s) -> (Set_Local_Name nm s).1 = Ok tt /\ view (Set_Local_Name nm s).2 = alter (set_name nm) me (view s);
    view_upsert i s : view (Upsert_Peer i s).2 = <[peer_id i := merge (view s !! peer_id i) i]> (view s);
    view_remove p s :
      view (Remove_Peer p s).2
      = match view s !! p with
        | Some i => if local i then view s else delete p (view s)
        | None => view s
        end;
    view_profile now p pr s :
      view (Update_Profile now p pr s).2 = alter (update_profile_info now pr) p (view s);
    view_models now p ms s :
      view (Update_Supported_Models now p ms s).2 = alter (update_supported_models_info now ms) p (view s);
    view_sessions now p ss s :
      view (Update_Sessions now p ss s).2 = alter (update_sessions_info now ss) p (view s);
    view_clear s : view (Clear s) = filter (fun '(_, i) => local i = true) (view s);
    view_all s i : i ∈ Get_All_Peers s <-> exists p, view s !! p = Some i;
}.

Section implementation.
Context {PeerId Multiaddr : Type} `{Countable PeerId} (to_string : PeerId -> bytes).
Context (iter : gmap PeerId (PeerInfo PeerId Multiaddr) -> list (PeerInfo PeerId Multiaddr)).
Context (iter_perm : forall m, iter m ≡ₚ (map_to_list m).*2).

Definition with_state {A} (s : A) (r : result Peer_Management_Error A)
    : result Peer_Management_Error unit * A :=
  match r with Ok s' => (Ok tt, s') | Err e => (Err e, s) end.

Definition PeerManager_capability
    : Peer_Management_Capability PeerId Multiaddr (gmap PeerId (PeerInfo PeerId Multiaddr)) := {|
  Get_All_Peers := get_all_peers iter;
  Get_Local_Peer s := ok_or (PeerNotFound (as_bytes "local")) (get_local_peer iter s);
  Get_Peer_By_Name nm s := ok_or (PeerNotFound nm) (get_peer_by_name to_string iter nm s);
  Upsert_Peer := upsert_peer;
  Set_Local_Name nm s := with_state s (set_local_name iter nm s);
  Remove_Peer p s :=
    let (r, s) := remove_peer p s in (ok_or (PeerNotFound (to_string p)) r, s);
  Update_Profile now p pr s := with_state s (update_profile to_string now p pr s);
  Update_Supported_Models now p ms s := with_state s (update_supported_models to_string now p ms s);
  Update_Sessions now p ss s := with_state s (update_sessions to_string now p ss s);
  Clear := clear;
  |}.

Lemma with_state_update f p (s : gmap PeerId (PeerInfo PeerId Multiaddr)) :
  (with_state s (update_entry to_string f p s)).2 = alter f p s.
Proof.
  unfold update_entry. destruct (s !! p) as [i|] eqn:E; cbn.
  - apply map_eq. intros q. destruct (decide (q = p)) as [->|].
    + by rewrite lookup_insert_eq, lookup_alter_eq, E.
    + by rewrite lookup_insert_ne, lookup_alter_ne.
  - symmetry. by apply alter_id'.
Qed.
Lemma view_remove_impl p (s : gmap PeerId (PeerInfo PeerId Multiaddr)) :
  (let (r, s') := remove_peer p s in (ok_or (@PeerNotFound (to_string p)) r, s')).2
  = match s !! p with Some i => if local i then s else delete p s | None => s end.
Proof. unfold remove_peer. destruct (s !! p) as [i|]; [|done]. by destruct (local i). Qed.

Lemma view_by_name_impl nm (s : gmap PeerId (PeerInfo PeerId Multiaddr)) :
  match ok_or (PeerNotFound nm) (get_peer_by_name to_string iter nm s) with
  | Ok i => (exists p, s !! p = Some i) /\ display_name to_string i = nm
  | Err _ => forall p i, s !! p = Some i -> display_name to_string i <> nm
  end.
Proof using iter_perm.
  unfold get_peer_by_name. destruct (List.find _ (iter s)) as [i|] eqn:E; cbn.
  - apply List.find_some in E as [Hin%list_elem_of_In Hn%bool_decide_eq_true]. split; [|done].
    by apply (elem_of_iter iter iter_perm) in Hin.
  - intros p i Hp. apply (bool_decide_eq_false_1 _), (List.find_none _ _ E i), list_elem_of_In.
    apply (elem_of_iter iter iter_perm). eauto.
Qed.
Lemma view_set_local_name_impl nm me (s : gmap PeerId (PeerInfo PeerId Multiaddr)) :
  wf me s ->
  (with_state s (set_local_name iter nm s)).1 = Ok tt /\
  (with_state s (set_local_name iter nm s)).2 = alter (set_name nm) me s.
Proof using iter_perm.
  intros Hw. unfold set_local_name. change (List.find local (iter s)) with (get_local_peer iter s).
  rewrite (get_local_wf iter iter_perm me) by done. destruct (proj2 Hw) as [i Hi]. rewrite Hi. cbn. split; [done|].
  destruct (proj1 Hw _ _ Hi) as [-> _]. apply map_eq. intros q. destruct (decide (q = me)) as [->|].
  - by rewrite lookup_insert_eq, lookup_alter_eq, Hi.
  - by rewrite lookup_insert_ne, lookup_alter_ne.
Qed.
Definition PeerManager_laws :
  @Peer_Management_Laws PeerId to_string Multiaddr (gmap PeerId (PeerInfo PeerId Multiaddr)) _ _
    PeerManager_capability.
Proof using H iter_perm.
  refine (@Build_Peer_Management_Laws PeerId to_string Multiaddr _ _ _ PeerManager_capability (fun s => s)
    _ _ _ _ _ _ _ _ _ _); try done.
  - intros me s Hw. exists (default (new_local 0 me []) (s !! me)). cbn.
    rewrite (get_local_wf iter iter_perm me) by done. destruct (proj2 Hw) as [i Hi]. by rewrite Hi.
  - apply view_by_name_impl.
  - intros nm me s. apply view_set_local_name_impl.
  - intros p s. apply view_remove_impl.
  - intros now p pr s. apply with_state_update.
  - intros now p ms s. apply with_state_update.
  - intros now p ss s. apply with_state_update.
  - intros s i. by apply elem_of_iter.
Defined.

(** [PeerManager] implements the capability. For every iteration order of
  its map, each operation of the trait has exactly the effect the interface
  promises on the map itself: the network handlers can rely on the laws. *)
Theorem PeerManager_implements :
  exists L : @Peer_Management_Laws PeerId to_string Multiaddr (gmap PeerId (PeerInfo PeerId Multiaddr)) _ _
      PeerManager_capability,
    forall s, @view _ _ _ _ _ _ _ L s = s.
Proof using H iter_perm. by exists PeerManager_laws. Qed.
End implementation.
Lemma PeerManager_implements_witness :
  let cap := PeerManager_capability (PeerId:=N) (Multiaddr:=N) (fun _ => []) (fun m => (map_to_list m).*2) in
  exists L : @Peer_Management_Laws N (fun _ => []) N _ _ _ cap, forall s, @view _ _ _ _ _ _ _ L s = s.
Proof.
  exact (PeerManager_implements (fun _ => []) (fun m => (map_to_list m).*2)
    (fun m => Permutation_refl _)).
Defined.

Lemma local_peer_invariant_witness :
  let iter := fun m : gmap N (PeerInfo N N) => (map_to_list m).*2 in
  let ops := [Op_upsert (new 5 2%N [7%N]); Op_clear; Op_remove 1%N] in
  Forall remote_op ops /\
  exists i, foldl (run_op (fun _ => []) iter) (PeerManager_new 0 1%N [x61]) ops !! 1%N = Some i /\
    local i = true.
Proof.
  intros iter ops. assert (Forall remote_op ops) as H by (repeat constructor). split; [exact H|].
  destruct (local_peer_invariant (fun _ => []) iter (fun m => Permutation_refl _) 0 1%N [x61] ops H)
    as (i & Hi & Hl & _). exists i. split; [exact Hi|exact Hl].
Defined.

(** ** The table as a function of the history

    What a reader of the history expects an entry to be, told without the
    operations of the manager.  A history is read from its last operation
    back. *)
Section history.
Context {PeerId Multiaddr : Type} `{Countable PeerId} (to_string : PeerId -> bytes).
Context (iter : gmap PeerId (PeerInfo PeerId Multiaddr) -> list (PeerInfo PeerId Multiaddr)).
Context (iter_perm : forall m, iter m ≡ₚ (map_to_list m).*2).
Variables (me : PeerId) (started : Z) (my_name : bytes).
Notation op := (peer_op (PeerId:=PeerId) (Multiaddr:=Multiaddr)).

(** The present life of [p]: what it was first entered as, and the operations
    since. A remote peer's ends when it is removed or the table cleared. *)
Fixpoint life (p : PeerId) (hist : list op) : option (PeerInfo PeerId Multiaddr * list op) :=
  match hist with
  | [] => if decide (p = me) then Some (new_local started me my_name, []) else None
  | o :: hist =>
      let alive := (fun '(first, later) => (first, o :: later)) <$> life p hist in
      match o with
      | Op_upsert i => if decide (peer_id i = p) then Some (default (i, []) alive) else alive
      | Op_remove q => if decide (q = p /\ p <> me) then None else alive
      | Op_clear => if decide (p <> me) then None else alive
      | _ => alive
      end
  end.
(** The newest value [sel] finds, or the first one. *)
Definition newest {A} (sel : op -> option A) (later : list op) (first : A) : A := default first (head (omap sel later)).
Definition names (p : PeerId) (o : op) : option bytes :=
  match o with
  | Op_upsert i => if decide (peer_id i = p /\ name i <> []) then Some (name i) else None
  | Op_set_local_name nm => if decide (p = me) then Some nm else None
  | _ => None
  end.
Definition announced {A} (get : PeerInfo PeerId Multiaddr -> A) (p : PeerId) (o : op) : option A :=
  match o with Op_upsert i => if decide (peer_id i = p) then Some (get i) else None | _ => None end.
Definition session_lists (p : PeerId) (o : op) : option (list SessionSummary) :=
  match o with Op_sessions _ q ss => if decide (q = p) then Some ss else None | _ => announced sessions p o end.
Definition model_lists (p : PeerId) (o : op) : option (list SupportedModel) :=
  match o with Op_models _ q ms => if decide (q = p) then Some ms else None | _ => None end.
Definition measured (p : PeerId) (o : op) : option PeerProfile :=
  match o with
  | Op_profile _ q pr => if decide (q = p /\ latency_ms pr <> None) then Some pr else None
  | _ => None
  end.
Definition update_times (p : PeerId) (o : op) : option Z :=
  match o with
  | Op_profile now q _ | Op_models now q _ | Op_sessions now q _ => if decide (q = p) then Some now else None
  | _ => None
  end.
Definition as_told (p : PeerId) (l : PeerInfo PeerId Multiaddr * list op) : PeerInfo PeerId Multiaddr :=
  let (first, later) := l in
  {| peer_id := p;
     name := newest (names p) later (name first);
     addresses := newest (announced addresses p) later (addresses first);
     local := bool_decide (p = me);
     connected_at := connected_at first;
     last_active := newest (update_times p) later (last_active first);
     profile := newest (measured p) later (profile first);
     supported_models := newest (model_lists p) later (supported_models first);
     sessions := newest (session_lists p) later (sessions first) |}.
Definition entry_told (p : PeerId) (hist : list op) : option (PeerInfo PeerId Multiaddr) := as_told p <$> life p hist.

Lemma newest_cons {A} (sel : op -> option A) o later first :
  newest sel (o :: later) first = default (newest sel later first) (sel o).
Proof. unfold newest. cbn [omap list_omap]. by destruct (sel o). Qed.
Lemma life_me hist : is_Some (life me hist).
Proof.
  induction hist as [|o hist [[f l] IH]]; cbn [life]; [by rewrite decide_True|]. rewrite IH.
  destruct o; repeat case_decide; cbn; eauto; tauto.
Qed.
Definition told (m : gmap PeerId (PeerInfo PeerId Multiaddr)) (hist : list op) : Prop := forall p, m !! p = entry_told p hist.


Lemma told_upsert i m hist : told m hist -> local i = false -> told (upsert_peer i m).2 (Op_upsert i :: hist).
Proof.
  intros Ht Hl p. specialize (Ht p) as Hp. unfold upsert_peer. cbn [snd]. unfold entry_told in *. cbn [life].
  destruct (decide (peer_id i = p)) as [<-|Hne].
  - rewrite lookup_insert_eq, Hp. destruct (life (peer_id i) hist) as [[first later]|] eqn:E; cbn.
    + rewrite !newest_cons. cbn. rewrite !(decide_True (P := peer_id i = peer_id i)) by done. cbn. do 2 f_equal.
      repeat case_decide; cbn; tauto.
    + destruct i as [q nm ad lo ca la pr ms ss]. cbn in *. subst lo. do 2 f_equal. symmetry. apply bool_decide_eq_false.
      intros ->. destruct (life_me hist) as [? ?]. congruence.
  - rewrite lookup_insert_ne, Hp by done. destruct (life p hist) as [[first later]|]; cbn; [|done].
    rewrite !newest_cons. cbn. rewrite !(decide_False (P := peer_id i = p)) by done.
    rewrite decide_False by tauto. done.
Qed.
Lemma told_wf m hist : told m hist -> wf me m.
Proof.
  intros Ht. split.
  - intros p i Hi. rewrite Ht in Hi. unfold entry_told in Hi. destruct (life p hist) as [[first later]|]; [|done].
    injection Hi as <-. cbn. by rewrite bool_decide_eq_true.
  - rewrite Ht. unfold entry_told. destruct (life_me hist) as [l ->]. by eexists.
Qed.
(** An operation that ends no life, and changes the entry of [q] by [f]. *)
Lemma told_alter o f q m hist : told m hist ->
  (forall p, life p (o :: hist) = (fun '(first, later) => (first, o :: later)) <$> life p hist) ->
  (forall p first later, as_told p (first, o :: later) = (if decide (q = p) then f else id) (as_told p (first, later))) ->
  told (alter f q m) (o :: hist).
Proof.
  intros Ht Hl Hf p. unfold entry_told. rewrite Hl. specialize (Ht p). unfold entry_told in Ht.
  destruct (decide (q = p)) as [->|Hne].
  - rewrite lookup_alter_eq, Ht. destruct (life p hist) as [[first later]|]; cbn [fmap option_fmap option_map]; [|done].
    by rewrite Hf, decide_True.
  - rewrite lookup_alter_ne, Ht by done. destruct (life p hist) as [[first later]|]; cbn [fmap option_fmap option_map]; [|done].
    by rewrite Hf, decide_False.
Qed.
Lemma keep_update f q (m : gmap PeerId (PeerInfo PeerId Multiaddr)) : keep m (update_entry to_string f q m) = alter f q m.
Proof. rewrite <- (with_state_update to_string). by destruct (update_entry _ _ _ _). Qed.
Lemma told_run o m hist : told m hist -> remote_op o -> told (run_op to_string iter m o) (o :: hist).
Proof using iter_perm.
  intros Ht Hr. pose proof (told_wf m hist Ht) as Hw. destruct o as [i|q|nm|now q pr|now q ms|now q ss|]; cbn [run_op].
  - by apply told_upsert.
  - intros p. specialize (Ht p) as Hp. unfold entry_told in *. cbn [life]. unfold remove_peer.
    rewrite (Ht q). unfold entry_told. destruct (decide (q = p /\ p <> me)) as [[-> Hne]|Hn].
    + destruct (life p hist) as [[first later]|]; cbn; [|by rewrite Hp]. rewrite bool_decide_eq_false_2 by done. cbn. by rewrite lookup_delete_eq.
    + assert (m !! p = as_told p <$> ((fun '(first, later) => (first, Op_remove q :: later)) <$> life p hist)) as Hp'.
      { rewrite Hp. by destruct (life p hist) as [[first later]|]. }
      destruct (life q hist) as [[first later]|]; cbn; [|exact Hp']. case_bool_decide; cbn; [exact Hp'|].
      rewrite lookup_delete_ne; [exact Hp'|]. intros ->. tauto.
  - pose proof (view_set_local_name_impl iter iter_perm nm me m Hw) as [_ Hs].
    assert (keep m (set_local_name iter nm m) = alter (set_name nm) me m) as ->.
    { rewrite <- Hs. by destruct (set_local_name _ _ _). }
    apply told_alter; [done|done|]. intros p first later. cbn [as_told]. rewrite !newest_cons. cbn.
    repeat case_decide; try done; congruence.
  - unfold update_profile. rewrite keep_update. apply told_alter; [done|done|]. intros p first later. cbn [as_told].
    rewrite !newest_cons. cbn. destruct pr as [[v|]]; repeat case_decide; try done; naive_solver.
  - unfold update_supported_models. rewrite keep_update. apply told_alter; [done|done|]. intros p first later.
    cbn [as_told]. rewrite !newest_cons. cbn. by case_decide.
  - unfold update_sessions. rewrite keep_update. apply told_alter; [done|done|]. intros p first later.
    cbn [as_told]. rewrite !newest_cons. cbn. by case_decide.
  - intros p. specialize (Ht p) as Hp. unfold clear, entry_told in *. cbn [life].
    destruct (life p hist) as [[first later]|] eqn:E; cbn in *.
    + destruct (decide (p <> me)) as [Hne|Heq]; cbn.
      * apply map_lookup_filter_None. right. intros x Hx. rewrite Hp in Hx. injection Hx as <-. cbn. by rewrite bool_decide_eq_true.
      * apply map_lookup_filter_Some. rewrite Hp. cbn. split; [done|]. rewrite bool_decide_eq_true. by destruct (decide (p = me)).
    + case_decide; cbn; apply map_lookup_filter_None; by left.
Qed.
Lemma told_new : told (PeerManager_new started me my_name) [].
Proof.
  intros p. unfold PeerManager_new, entry_told. cbn [life]. case_decide as E; cbn.
  - subst. rewrite lookup_singleton_eq. unfold newest. cbn. by rewrite bool_decide_eq_true_2.
  - by rewrite lookup_singleton_ne.
Qed.
Lemma told_ops ops : Forall remote_op ops -> told (foldl (run_op to_string iter) (PeerManager_new started me my_name) ops) (rev ops).
Proof using iter_perm.
  induction ops as [|o ops IH] using rev_ind; intros Hops; [apply told_new|]. apply Forall_app in Hops as [Hops Ho].
  rewrite foldl_app, rev_app_distr. apply told_run; [by apply IH|by inversion Ho].
Qed.

(** C21: the peer table is its history. After any operations on a fresh manager
    (entries of [PeerInfo::new]), an entry is present exactly when its peer was
    entered since it was last removed or the table cleared, which never end the
    local node. It has the connection time of that first entry, the last name that was
    not empty, the last addresses, the last sessions (announced or updated), the
    last models updated, the last latency measured, and the time of its last
    update; it is local exactly for the local node. The answers are those the
    history gives: whether an upserted peer was there, the entry removed, an error
    for an update of an absent peer, the local entry, all of them, and one with a
    display name if there is one. *)
Theorem table_is_its_history ops :
  Forall remote_op ops ->
  let table := foldl (run_op to_string iter) (PeerManager_new started me my_name) ops in
  let told p := entry_told p (rev ops) in
  (forall p, table !! p = told p) /\
  (forall i, (upsert_peer i table).1 = bool_decide (is_Some (told (peer_id i)))) /\
  (forall p, (remove_peer p table).1 = if decide (p = me) then None else told p) /\
  (forall now p pr ms ss,
     let answered r := match told p with Some _ => exists t, r = Ok t | None => r = Err (PeerNotFound (to_string p)) end in
     answered (update_profile to_string now p pr table) /\ answered (update_supported_models to_string now p ms table) /\
     answered (update_sessions to_string now p ss table)) /\
  (forall nm, exists t, set_local_name iter nm table = Ok t) /\
  get_local_peer iter table = told me /\
  (forall i, i ∈ get_all_peers iter table <-> exists p, told p = Some i) /\
  (forall nm, match get_peer_by_name to_string iter nm table with
              | Some i => (exists p, told p = Some i) /\ display_name to_string i = nm
              | None => forall p i, told p = Some i -> display_name to_string i <> nm
              end).
Proof using iter_perm.
  intros Hops table told'. pose proof (told_ops ops Hops) as Ht. fold table in Ht.
  assert (forall p, table !! p = told' p) as Htab by exact Ht. pose proof (told_wf _ _ Ht) as Hw. split_and!.
  - exact Ht.
  - intros i. unfold upsert_peer. cbn [fst]. by rewrite Htab.
  - intros p. unfold remove_peer. destruct (table !! p) as [i|] eqn:E.
    + destruct (proj1 Hw p i E) as [_ Hl]. rewrite <- Htab, E. destruct (local i); case_decide; naive_solver.
    + rewrite <- Htab, E. by case_decide.
  - intros now p pr ms ss answered. unfold answered, update_profile, update_supported_models, update_sessions, update_entry.
    rewrite <- Htab. destruct (table !! p); split_and!; eauto.
  - intros nm. destruct (view_set_local_name_impl iter iter_perm nm me table Hw) as [Hs _].
    destruct (set_local_name _ _ _); [by eexists|done].
  - rewrite <- Htab. by apply get_local_wf.
  - intros i. unfold get_all_peers. rewrite (elem_of_iter iter iter_perm). by setoid_rewrite Htab.
  - intros nm. pose proof (view_by_name_impl to_string iter iter_perm nm table) as Hn.
    destruct (get_peer_by_name _ _ _ _); cbn in Hn; by setoid_rewrite Htab in Hn.
Qed.
End history.

(** A peer that is entered twice, the second time without a name and with a new
    address, measured, removed and entered again. *)
Lemma table_is_its_history_witness :
  let iter := fun m : gmap N (PeerInfo N N) => (map_to_list m).*2 in
  let named := mk_PeerInfo (PeerId:=N) (Multiaddr:=N) 2%N [x62] [7%N] false 5 5 PeerProfile_default [] [] in
  let ops := [Op_upsert named; Op_remove 1%N; Op_profile 6 2%N (mk_PeerProfile (Some 30)); Op_upsert (new 8 2%N [9%N])] in
  let table := foldl (run_op (fun _ => []) iter) (PeerManager_new 0 1%N [x61]) in
  table ops !! 2%N = Some (mk_PeerInfo 2%N [x62] [9%N] false 5 6 (mk_PeerProfile (Some 30)) [] []) /\
  table (ops ++ [Op_clear]) !! 2%N = None /\
  table (ops ++ [Op_remove 2%N; Op_upsert (new 9 2%N [])]) !! 2%N = Some (new 9 2%N []).
Proof.
  intros iter named ops table.
  assert (forall l, Forall remote_op l -> forall p, table l !! p = entry_told 1%N 0 [x61] p (rev l)) as H.
  { intros l Hl. apply (table_is_its_history (fun _ => []) iter (fun m => Permutation_refl _) 1%N 0 [x61] l Hl). }
  split_and!; rewrite H by (repeat constructor); reflexivity.
Defined.
