(* ===== verification/Network.v ===== *)
(** * The network service ([Src/Network])

    The managers of pending requests ([Request_Response/inbound.rs],
    [outbound.rs]), the command handler ([command_handler.rs]), the swarm event
    handlers ([swarm_events.rs]) and the local-info exchange ([mod.rs]).

    libp2p is outside: the swarm's calls are the effects a handler emits, in
    order, and the request id a [send_request] returns is an argument. [serde_json]
    is outside too: the printers and parsers of the models and sessions are
    parameters. A handler's [now] is the clock during the call. *)
From S2P Require Import Prelude RustStd Wire Codec Bitmap Peers.

(** ** [inbound.rs]: requests waiting for a reply of the orchestrator *)
Module Inbound.
Section inbound.
Context {PeerId Channel : Type}.

Record InboundRequest : Type := mk_InboundRequest {
  request_id : Z;
  from : PeerId;
  req_type : DataType;
  req_payload : bytes;
}.
(** [inbound_tx]: the queue of the orchestrator, or closed. *)
Record Inbound_Manager : Type := mk_Inbound_Manager {
  pending_replies : gmap Z Channel;
  inbound_tx : option (list InboundRequest);
  next_inbound_id : Z;
}.

Definition New : Inbound_Manager := mk_Inbound_Manager ∅ (Some []) 1.

(** The counter is a [u64]: the model does not wrap it, which would take 2^64
requests. *)
Definition Register_Inbound (peer : PeerId) (request : Network_Data) (channel : Channel)
  (m : Inbound_Manager) : Z * Inbound_Manager :=
  let rid := next_inbound_id m in
  let pending := <[rid := channel]> (pending_replies m) in
  let inbound := mk_InboundRequest rid peer (data_type request) (payload request) in
  match inbound_tx m with
  | Some q => (rid, mk_Inbound_Manager pending (Some (q ++ [inbound])) (rid + 1))
  | None => (rid, mk_Inbound_Manager (delete rid pending) None (rid + 1))
  end.
Definition Take_Reply_Channel (rid : Z) (m : Inbound_Manager) : option Channel * Inbound_Manager :=
  (pending_replies m !! rid,
  mk_Inbound_Manager (delete rid (pending_replies m)) (inbound_tx m) (next_inbound_id m)).
Definition Clear_All (m : Inbound_Manager) : Inbound_Manager :=
  mk_Inbound_Manager ∅ (inbound_tx m) (next_inbound_id m).

(** What happens to the manager: requests arrive, the orchestrator replies, the
service stops. *)
Inductive op : Type :=
  | Arrive (peer : PeerId) (request : Network_Data) (channel : Channel)
  | Reply (rid : Z)
  | Stop.
(** The state and the channels replied on so far, with their request ids. *)
Definition run_op (st : Inbound_Manager * list (Z * Channel)) (o : op) : Inbound_Manager * list (Z * Channel) :=
  let (m, out) := st in
  match o with
  | Arrive p r c => (snd (Register_Inbound p r c m), out)
  | Reply rid => let (c, m) := Take_Reply_Channel rid m in
               (m, match c with Some c => out ++ [(rid, c)] | None => out end)
  | Stop => (Clear_All m, out)
  end.
Definition run (ops : list op) : Inbound_Manager * list (Z * Channel) := foldl run_op (New, []) ops.
(** The [n]-th arrival is request [n], counting from one. *)
Definition arrivals (ops : list op) : list (PeerId * Network_Data * Channel) :=
  omap (fun o => match o with Arrive p r c => Some (p, r, c) | _ => None end) ops.
Definition request_of (rid : Z) (a : PeerId * Network_Data * Channel) : InboundRequest :=
  mk_InboundRequest rid a.1.1 (data_type a.1.2) (payload a.1.2).

Definition inv (arr : list (PeerId * Network_Data * Channel)) (m : Inbound_Manager) (out : list (Z * Channel)) : Prop :=
  next_inbound_id m = 1 + zlen arr /\
  inbound_tx m = Some (imap (fun k a => request_of (1 + Z.of_nat k) a) arr) /\
  (forall rid c, pending_replies m !! rid = Some c ->
   rid ∉ out.*1 /\ exists k a, rid = 1 + Z.of_nat k /\ arr !! k = Some a /\ a.2 = c) /\
  (forall rid c, (rid, c) ∈ out -> exists k a, rid = 1 + Z.of_nat k /\ arr !! k = Some a /\ a.2 = c) /\
  NoDup out.*1.

Lemma lookup_app_Some_l {A} (l k : list A) i x : l !! i = Some x -> (l ++ k) !! i = Some x.
Proof. intros E. rewrite lookup_app_l; [done|]. by eapply lookup_lt_Some. Qed.

Lemma inbound_inv_step arr m out o :
  inv arr m out ->
  let st := run_op (m, out) o in
  inv (arr ++ match o with Arrive p r c => [(p, r, c)] | _ => [] end) st.1 st.2.
Proof.
  intros (Hn & Hq & Hp & Ho & Hnd). destruct o as [p r c|rid|]; cbn [run_op].
  - unfold Register_Inbound. rewrite Hq. cbn [snd fst].
    assert (forall k a, arr !! k = Some a -> (k < length arr)%nat) as Hlt by (intros; by eapply lookup_lt_Some).
    split; [cbn [next_inbound_id]; rewrite Hn; zlens|]. split; [|split; [|split; [|done]]]; cbn [pending_replies inbound_tx].
    + rewrite Hn, imap_app. do 2 f_equal. unfold request_of, compose. cbn [imap fst snd].
      do 2 f_equal. unfold zlen. lia.
    + intros rid c' [[Hrid <-]|[Hne E]]%lookup_insert_Some.
      * rewrite Hn in Hrid. unfold zlen in Hrid. split.
        -- intros ((rid2 & c') & -> & Hin)%list_elem_of_fmap.
          apply Ho in Hin as (k & a & E & Ha & _). apply Hlt in Ha. cbn [fst] in *. lia.
        -- exists (length arr), (p, r, c). split; [lia|].
          by rewrite lookup_app_r, Nat.sub_diag by lia.
      * apply Hp in E as (? & k & a & ? & ? & ?). split; [done|]. eauto 10 using lookup_app_Some_l.
    + intros rid c' Hin. apply Ho in Hin as (k & a & ? & ? & ?). eauto 10 using lookup_app_Some_l.
  - rewrite app_nil_r. cbn [Take_Reply_Channel fst snd].
    destruct (pending_replies m !! rid) as [c|] eqn:E; cbn [fst snd].
    + pose proof (Hp _ _ E) as (Hfresh & Hk).
      split; [done|]. split; [done|]. split; [|split].
      * cbn. intros rid' c' [Hne E']%lookup_delete_Some. apply Hp in E' as [Hf' Hk']. split; [|done].
        rewrite fmap_app, not_elem_of_app. split; [done|]. cbn. by intros ->%list_elem_of_singleton.
      * intros rid' c' [Hin|Hin]%elem_of_app; [by apply Ho|].
        apply list_elem_of_singleton in Hin as [= -> ->]. done.
      * rewrite fmap_app. apply NoDup_app. split; [done|]. split; [|apply NoDup_singleton].
        intros x Hx ->%list_elem_of_singleton. done.
    + split; [done|]. split; [done|]. split; [|done]. cbn. rewrite delete_id by done. done.
  - rewrite app_nil_r. split; [done|]. split; [done|]. split; [|done]. cbn.
    intros rid c E. by apply lookup_empty_Some in E.
Qed.

Lemma inbound_inv_run ops : inv (arrivals ops) (run ops).1 (run ops).2.
Proof.
  unfold run, arrivals. induction ops as [|o ops IH] using rev_ind.
  - split; [done|]. split; [done|]. split; [intros rid c E; by apply (lookup_empty_Some rid c) in E|].
    split; [by intros rid c Hin%elem_of_nil|constructor].
  - rewrite foldl_snoc. destruct (foldl run_op (New, []) ops) as [m out].
    pose proof (inbound_inv_step _ m out o IH) as Hs. cbn [fst snd] in *.
    rewrite omap_app. by destruct o.
Qed.

(** inbound requests. While the orchestrator listens, it receives every
command and file request once, in order of arrival, numbered from one. A
reply goes out on the channel of the request that carried its number, and
on no channel twice, whatever the orchestrator replies to and however
often. *)
Theorem inbound_replies_exact ops :
  let (m, out) := run ops in
  inbound_tx m = Some (imap (fun k a => request_of (1 + Z.of_nat k) a) (arrivals ops)) /\
  NoDup out.*1 /\
  (forall rid c, (rid, c) ∈ out ->
   exists k a, rid = 1 + Z.of_nat k /\ arrivals ops !! k = Some a /\ a.2 = c).
Proof.
  pose proof (inbound_inv_run ops) as H. destruct (run ops) as [m out]. cbn [fst snd] in H.
  destruct H as (? & ? & _ & ? & ?). done.
Qed.
End inbound.
Arguments Inbound_Manager : clear implicits.
Arguments InboundRequest : clear implicits.
End Inbound.

(** ** [outbound.rs]: callers waiting for a response *)
Module Outbound.
Section outbound.
Context {OutboundRequestId Waiter : Type} `{Countable OutboundRequestId}.

Abbreviation Outbound_Manager := (gmap OutboundRequestId Waiter).
(** What a waiter receives: [Result<Network_Data, String>]. *)
Definition answer : Type := result bytes Network_Data.
Definition New : Outbound_Manager := ∅.

Definition Register_Outbound (oid : OutboundRequestId) (tx : Waiter) (m : Outbound_Manager) : Outbound_Manager :=
  <[oid := tx]> m.
Definition Route_Response (oid : OutboundRequestId) (response : Network_Data) (m : Outbound_Manager)
  : list (Waiter * answer) * Outbound_Manager :=
  match m !! oid with
  | Some tx => ([(tx, Ok response)], delete oid m)
  | None => ([], m)
  end.
Definition Route_Failure (oid : OutboundRequestId) (error : bytes) (m : Outbound_Manager)
  : list (Waiter * answer) * Outbound_Manager :=
  match m !! oid with
  | Some tx => ([(tx, Err error)], delete oid m)
  | None => ([], m)
  end.
Definition Clear_All (m : Outbound_Manager) : list (Waiter * answer) * Outbound_Manager :=
  (map (fun '(_, tx) => (tx, Err (as_bytes "Network_Service stopped"))) (map_to_list m), ∅).

Inductive op : Type :=
  | Send (oid : OutboundRequestId) (tx : Waiter)
  | Response (oid : OutboundRequestId) (r : Network_Data)
  | Failure (oid : OutboundRequestId) (e : bytes)
  | Stop.
Definition run_op (st : Outbound_Manager * list (Waiter * answer)) (o : op) :=
  let (m, out) := st in
  match o with
  | Send oid tx => (Register_Outbound oid tx m, out)
  | Response oid r => let (l, m) := Route_Response oid r m in (m, out ++ l)
  | Failure oid e => let (l, m) := Route_Failure oid e m in (m, out ++ l)
  | Stop => let (l, m) := Clear_All m in (m, out ++ l)
  end.
Definition run (ops : list op) : Outbound_Manager * list (Waiter * answer) := foldl run_op (New, []) ops.
Definition sent (ops : list op) : list (OutboundRequestId * Waiter) :=
  omap (fun o => match o with Send oid tx => Some (oid, tx) | _ => None end) ops.

Definition inv (s : list (OutboundRequestId * Waiter)) (st : Outbound_Manager * list (Waiter * answer)) : Prop :=
  st.2.*1 ++ (map_to_list st.1).*2 ≡ₚ s.*2 /\
  forall oid tx, st.1 !! oid = Some tx -> oid ∈ s.*1.

Lemma inv_route s m out oid tx a :
  inv s (m, out) -> m !! oid = Some tx -> inv s (delete oid m, out ++ [(tx, a)]).
Proof.
  intros [Hp Hd] E. cbn [fst snd] in *. split; cbn.
  - rewrite <- Hp, fmap_app, <- app_assoc. apply Permutation_app_head. cbn.
    rewrite <- (map_to_list_delete _ _ _ E). done.
  - intros oid' tx' [_ ?]%lookup_delete_Some. eauto.
Qed.

Lemma outbound_inv_step s st o :
  inv s st -> (forall oid tx, o = Send oid tx -> oid ∉ s.*1) ->
  inv (s ++ match o with Send oid tx => [(oid, tx)] | _ => [] end) (run_op st o).
Proof.
  destruct st as [m out]. intros Hi Hf. destruct o as [oid tx|oid r|oid e|]; cbn [run_op];
    rewrite ?app_nil_r.
  - destruct Hi as [Hp Hd]. cbn [fst snd] in *. unfold Register_Outbound.
    assert (m !! oid = None) as E.
    { destruct (m !! oid) eqn:E; [|done]. apply Hd in E. by apply (Hf oid tx eq_refl) in E. }
    split; cbn.
    + rewrite (map_to_list_insert _ _ _ E), fmap_app, <- Hp. cbn.
      by rewrite <- Permutation_middle, <- (Permutation_cons_append _ tx).
    + intros oid' tx' [[<- <-]|[_ ?]]%lookup_insert_Some; rewrite fmap_app, elem_of_app; [right; by left|left; eauto].
  - unfold Route_Response. destruct (m !! oid) eqn:E; [by apply inv_route|by rewrite app_nil_r].
  - unfold Route_Failure. destruct (m !! oid) eqn:E; [by apply inv_route|by rewrite app_nil_r].
  - destruct Hi as [Hp Hd]. cbn [fst snd Clear_All] in *. split; cbn.
    + rewrite map_to_list_empty, app_nil_r, fmap_app, <- Hp. apply Permutation_app_head.
      rewrite <- list_fmap_compose. apply Permutation_refl'. apply list_fmap_ext. by intros ? [? ?].
    + intros oid tx E. by apply lookup_empty_Some in E.
Qed.

Lemma outbound_inv_run ops : NoDup (sent ops).*1 -> inv (sent ops) (run ops).
Proof.
  unfold run, sent. induction ops as [|o ops IH] using rev_ind; intros Hnd.
  - split; [done|]. intros oid tx E. by apply (lookup_empty_Some oid tx) in E.
  - rewrite foldl_snoc. rewrite omap_app, fmap_app in Hnd. apply NoDup_app in Hnd as (Hnd & Hf & _).
    specialize (IH Hnd). rewrite omap_app.
    pose proof (outbound_inv_step _ _ o IH) as Hs.
    destruct o as [oid tx|oid r|oid e|]; apply Hs; intros oid' tx'; try done.
    intros [= <- <-] Hin. apply (Hf oid Hin). by left.
Qed.

(** C7: outbound requests. As long as libp2p does not reuse a request id,
every caller that waits for a response receives exactly one answer: when the
service stops, the answers given are, one for one, the callers registered;
before that, the callers not yet answered are exactly the pending ones. *)
Theorem outbound_answers_exact ops :
  NoDup (sent ops).*1 ->
  (run ops).2.*1 ++ (map_to_list (run ops).1).*2 ≡ₚ (sent ops).*2 /\
  (run (ops ++ [Stop])).2.*1 ≡ₚ (sent ops).*2.
Proof.
  intros Hnd. split; [apply (outbound_inv_run ops Hnd)|].
  assert (sent (ops ++ [Stop]) = sent ops) as E by (unfold sent; by rewrite omap_app, app_nil_r).
  assert (NoDup (sent (ops ++ [Stop])).*1) as Hnd' by by rewrite E.
  destruct (outbound_inv_run _ Hnd') as [Hp _]. rewrite E in Hp. rewrite <- Hp.
  unfold run. rewrite foldl_snoc. destruct (foldl _ _ _) as [m out]. cbn [run_op Clear_All fst snd].
  by rewrite map_to_list_empty, app_nil_r.
Qed.
End outbound.
Lemma outbound_answers_exact_witness :
  let ops := [Send 1%N 10%N; Send 2%N 20%N; Failure 1%N [x61]] in
  NoDup (sent ops).*1 /\ (run (ops ++ [Stop])).2.*1 ≡ₚ [10%N; 20%N].
Proof.
  intros ops. assert (NoDup (sent ops).*1) as H by (apply (bool_decide_unpack _); vm_compute; exact I).
  split; [exact H|]. exact (proj2 (outbound_answers_exact ops H)).
Defined.
End Outbound.

(** ** The service: commands and swarm events *)
Section service.
Context {PeerId Multiaddr Channel OutboundRequestId Waiter S : Type}.
Context `{Countable PeerId} `{Countable OutboundRequestId}.
Context (to_string : PeerId -> bytes).
Context `{!Peer_Management_Capability PeerId Multiaddr S} `{!Peer_Management_Laws to_string Multiaddr S}.
(** [serde_json] on the models and the sessions. *)
Context (models_to_json : list SupportedModel -> bytes) (models_from_json : bytes -> option (list SupportedModel)).
Context (sessions_to_json : list SessionSummary -> bytes) (sessions_from_json : bytes -> option (list SessionSummary)).

Record Network_Service : Type := mk_Network_Service {
  local_peer_id : PeerId;
  peer_handle : S;
  inbound_manager : Inbound.Inbound_Manager PeerId Channel;
  outbound_manager : gmap OutboundRequestId Waiter;
}.

(** The calls out of the service, in order. *)
Inductive effect : Type :=
  | Send_Request (peer : PeerId) (data : Network_Data)
  | Send_Response (channel : Channel) (data : Network_Data)
  | Answer (tx : Waiter) (a : result bytes Network_Data)
  | Dial_Addr (addr : Multiaddr)
  | Disconnect_Peer (peer : PeerId)
  | Kad_Put (key value : bytes)
  | Kad_Get (key : bytes)
  | Kad_Add_Address (peer : PeerId) (addr : Multiaddr)
  | Publish (e : Bus_Event).

Definition with_peers (s : S) (n : Network_Service) : Network_Service :=
  mk_Network_Service (local_peer_id n) s (inbound_manager n) (outbound_manager n).
Definition with_inbound m (n : Network_Service) : Network_Service :=
  mk_Network_Service (local_peer_id n) (peer_handle n) m (outbound_manager n).
Definition with_outbound m (n : Network_Service) : Network_Service :=
  mk_Network_Service (local_peer_id n) (peer_handle n) (inbound_manager n) m.
Definition answers (l : list (Waiter * result bytes Network_Data)) : list effect :=
  map (fun '(tx, a) => Answer tx a) l.

(** [SendData] carries the id the swarm returns for the request. *)
Inductive NodeCommand : Type :=
  | SendData (peer : PeerId) (data_type : DataType) (payload : bytes)
    (response_tx : option Waiter) (outbound_id : OutboundRequestId)
  | SendResponse (request_id : Z) (data_type : DataType) (payload : bytes)
  | PutRecord (key value : bytes)
  | GetRecord (key : bytes)
  | Dial (addr : Multiaddr)
  | Disconnect (peer : PeerId)
  | Stop.

Definition Handle_Command (cmd : NodeCommand) (n : Network_Service)
    : bool * Network_Service * list effect :=
  match cmd with
  | SendData peer ty payload response_tx outbound_id =>
      let n := match response_tx with
               | Some tx => with_outbound (Outbound.Register_Outbound outbound_id tx (outbound_manager n)) n
               | None => n
               end in
      (true, n, [Send_Request peer (mk_Network_Data ty payload)])
  | PutRecord key value => (true, n, [Kad_Put key value])
  | GetRecord key => (true, n, [Kad_Get key])
  | Dial addr => (true, n, [Dial_Addr addr])
  | Disconnect peer =>
      (true, with_peers (Remove_Peer peer (peer_handle n)).2 n, [Disconnect_Peer peer])
  | SendResponse rid ty payload =>
      let (c, m) := Inbound.Take_Reply_Channel rid (inbound_manager n) in
      (true, with_inbound m n,
       match c with Some c => [Send_Response c (mk_Network_Data ty payload)] | None => [] end)
  | Stop =>
      let remote := List.filter (fun i => negb (local i)) (Get_All_Peers (peer_handle n)) in
      let n := with_peers (Clear (peer_handle n)) n in
      let n := with_inbound (Inbound.Clear_All (inbound_manager n)) n in
      let (l, m) := Outbound.Clear_All (outbound_manager n) in
      (false, with_outbound m n, map (fun i => Disconnect_Peer (peer_id i)) remote ++ answers l)
  end.

(** [mod.rs]: the three-part info payload. *)
Definition bar : byte := "|"%byte.
Definition build_local_info_payload (me : PeerInfo PeerId Multiaddr) : bytes :=
  name me ++ [bar] ++ models_to_json (supported_models me) ++ [bar] ++ sessions_to_json (sessions me).

Definition jstr (b : bytes) : json := JStr (of_bytes b).
Definition models_display (ms : list SupportedModel) : json :=
  JArr (map (fun m => JObj [("file_name", JStr (file_name m));
                            ("layer_range", jstr (layer_range (layer_bitmap m)))])%string ms).
Definition sessions_display (ss : list SessionSummary) : json :=
  JArr (map (fun s => JObj [("session_id", JNum (session_id s)); ("model_id", JStr (session_model_id s));
                            ("occupied_slots", JNum (occupied_slots s));
                            ("total_slots", JNum (total_slots s))])%string ss).
Definition peer_event (ty : string) (p : PeerId) : effect :=
  Publish (State (JObj [("type", JStr ty); ("peer_id", jstr (to_string p))])%string).
Definition info_event (p : PeerId) (nm : bytes) (is_local : bool) ms ss : effect :=
  Publish (State (JObj [("type", JStr "peer_info_updated"); ("peer_id", jstr (to_string p));
    ("peer_name", jstr nm); ("is_local", JBool is_local);
    ("models", models_display ms); ("sessions", sessions_display ss)])%string).

(** [broadcast_local_info]: what it sends and publishes. *)
Definition broadcast_local_info (s : S) : list effect :=
  match Get_Local_Peer s with
  | Err _ => []
  | Ok me =>
      let info := build_local_info_payload me in
      map (fun p => Send_Request (peer_id p) (mk_Network_Data InfoType info))
        (List.filter (fun p => negb (bool_decide (peer_id p = peer_id me))) (Get_All_Peers s))
      ++ [info_event (peer_id me) (name me) true (supported_models me) (sessions me)]
  end.

(** An [Info] request. *)
Definition Handle_Info (now : Z) (peer : PeerId) (pl : bytes) (channel : Channel) (n : Network_Service)
    : Network_Service * list effect :=
  let parts := Split.splitn 3 bar (Utf8.lossy pl) in
  let nm := default [] (parts !! 0%nat) in
  let models_json := default (as_bytes "[]") (parts !! 1%nat) in
  let sessions_json := default (as_bytes "[]") (parts !! 2%nat) in
  let s := peer_handle n in
  let s := if decide (nm = []) then s
           else (Upsert_Peer (set_name nm (new now peer [])) s).2 in
  let models := default [] (models_from_json models_json) in
  let s := if decide (models = []) then s else (Update_Supported_Models now peer models s).2 in
  let sess := default [] (sessions_from_json sessions_json) in
  let s := if decide (sess = []) then s else (Update_Sessions now peer sess s).2 in
  (with_peers s n, [info_event peer nm false models sess;
                    Send_Response channel (mk_Network_Data InfoType (as_bytes "OK"))]).

Inductive request_response_event : Type :=
  | Request (peer : PeerId) (request : Network_Data) (channel : Channel)
  | Response (request_id : OutboundRequestId) (response : Network_Data)
  | OutboundFailure (request_id : OutboundRequestId) (error : bytes)
  | InboundFailure | ResponseSent.

Definition Handle_Request_Response_Event (now : Z) (ev : request_response_event) (n : Network_Service)
    : Network_Service * list effect :=
  match ev with
  | Request peer request channel =>
      match data_type request with
      | Data => (n, [Send_Response channel (mk_Network_Data Data (as_bytes "OK"))])
      | InfoType => Handle_Info now peer (payload request) channel n
      | Command | File =>
          (with_inbound (snd (Inbound.Register_Inbound peer request channel (inbound_manager n))) n, [])
      end
  | Response rid response =>
      let (l, m) := Outbound.Route_Response rid response (outbound_manager n) in
      (with_outbound m n, answers l)
  | OutboundFailure rid error =>
      let (l, m) := Outbound.Route_Failure rid (as_bytes "Outbound failure: " ++ error) (outbound_manager n) in
      (with_outbound m n, answers l)
  | InboundFailure | ResponseSent => (n, [])
  end.

Inductive ping_result : Type := Pong (millis : Z) | Timeout | Unsupported | OtherFailure.
Definition Handle_Ping_Event (now : Z) (peer : PeerId) (r : ping_result) (n : Network_Service) : Network_Service :=
  match r with
  | Pong ms => with_peers (Update_Profile now peer (mk_PeerProfile (Some (wrap 64 ms))) (peer_handle n)).2 n
  | Timeout => with_peers (Remove_Peer peer (peer_handle n)).2 n
  | Unsupported | OtherFailure => n
  end.

Inductive mdns_event : Type :=
  | Discovered (peers : list (PeerId * Multiaddr))
  | Expired (peers : list (PeerId * Multiaddr)).
Definition Handle_Mdns_Event (ev : mdns_event) (n : Network_Service) : list effect :=
  match ev with
  | Discovered peers =>
      concat (map (fun '(p, addr) =>
        if decide (p = local_peer_id n) then []
        else [Kad_Add_Address p addr; Dial_Addr addr; peer_event "peer_discovered" p]) peers)
  | Expired peers => map (fun '(p, _) => peer_event "peer_left" p) peers
  end.

Inductive swarm_event : Type :=
  | Mdns (ev : mdns_event)
  | RequestResponse (ev : request_response_event)
  | ConnectionEstablished (peer : PeerId) (remote_address : Multiaddr)
  | ConnectionClosed (peer : PeerId) (num_established : nat)
  | Ping (peer : PeerId) (r : ping_result)
  | OtherEvent.

Definition Handle_Swarm_Event (now : Z) (ev : swarm_event) (n : Network_Service)
    : Network_Service * list effect :=
  match ev with
  | Mdns ev => (n, Handle_Mdns_Event ev n)
  | RequestResponse ev => Handle_Request_Response_Event now ev n
  | ConnectionEstablished peer addr =>
      let s := (Upsert_Peer (new now peer [addr]) (peer_handle n)).2 in
      (with_peers s n,
       match Get_Local_Peer s with
       | Ok me => [Send_Request peer (mk_Network_Data InfoType (build_local_info_payload me))]
       | Err _ => []
       end ++ [peer_event "peer_connected" peer])
  | ConnectionClosed peer _ =>
      (with_peers (Remove_Peer peer (peer_handle n)).2 n, [peer_event "peer_disconnected" peer])
  | Ping peer r => (Handle_Ping_Event now peer r n, [])
  | OtherEvent => (n, [])
  end.

(** ** The peer table behind the handlers *)
Inductive input : Type :=
  | In_command (cmd : NodeCommand)
  | In_event (now : Z) (ev : swarm_event).
Definition handle (n : Network_Service) (i : input) : Network_Service :=
  match i with
  | In_command cmd => (Handle_Command cmd n).1.2
  | In_event now ev => (Handle_Swarm_Event now ev n).1
  end.

Lemma wf_alter me f p (m : gmap PeerId (PeerInfo PeerId Multiaddr)) :
  (forall i, peer_id (f i) = peer_id i /\ local (f i) = local i) -> wf me m -> wf me (alter f p m).
Proof.
  intros Hf Hw. destruct (m !! p) as [i|] eqn:E.
  - replace (alter f p m) with (<[p := f i]> m); [by eapply wf_update|].
    apply map_eq. intros q. destruct (decide (q = p)) as [->|].
    + by rewrite lookup_insert_eq, lookup_alter_eq, E.
    + by rewrite lookup_insert_ne, lookup_alter_ne.
  - rewrite alter_id; [done|]. intros ? E'. by rewrite E in E'.
Qed.
Lemma wf_view_upsert me i s : local i = false -> wf me (view s) -> wf me (view (Upsert_Peer i s).2).
Proof. intros Hi Hw. rewrite view_upsert. by apply (wf_upsert me (view s) i). Qed.
Lemma wf_view_remove me p s : wf me (view s) -> wf me (view (Remove_Peer p s).2).
Proof.
  intros Hw. rewrite view_remove. pose proof (wf_remove me (view s) p Hw) as Hr.
  unfold remove_peer in Hr. destruct (view s !! p) as [i|]; [|done]. by destruct (local i).
Qed.

Lemma wf_info me now peer pl c n :
  wf me (view (peer_handle n)) -> wf me (view (peer_handle (Handle_Info now peer pl c n).1)).
Proof.
  intros Hw. unfold Handle_Info. cbn [fst peer_handle with_peers].
  repeat match goal with
    | |- context [if decide ?P then _ else _] => destruct (decide P)
    end; rewrite ?view_sessions, ?view_models; repeat (apply wf_alter; [done|]);
    try (apply wf_view_upsert; [done|]); exact Hw.
Qed.

Lemma wf_handle me i n : wf me (view (peer_handle n)) ->
  wf me (view (peer_handle (handle n i))) /\ local_peer_id (handle n i) = local_peer_id n.
Proof.
  intros Hw. destruct i as [[]|now []]; cbn [handle Handle_Command Handle_Swarm_Event fst snd];
    try (split; [first [done | by apply wf_view_remove | by apply wf_view_upsert]|done]).
  - by destruct response_tx.
  - split; [|done]. cbn. rewrite view_clear. by apply wf_clear.
  - destruct ev as [peer request channel|rid response|rid error| |]; cbn [Handle_Request_Response_Event]; try done.
    + destruct (data_type request); try done. split; [by apply wf_info|done].
    + unfold Outbound.Route_Response. by destruct (outbound_manager n !! rid).
    + unfold Outbound.Route_Failure. by destruct (outbound_manager n !! rid).
  - destruct r; cbn [Handle_Ping_Event]; try done; (split; [|done]); cbn.
    + rewrite view_profile. by apply wf_alter.
    + by apply wf_view_remove.
Qed.

(** the local node survives the network. Under any sequence of commands
  and swarm events, on any implementation of the peer-management interface, the
  peer table keeps the local node, filed under the local id and the only
  local entry; and the service never changes its own id. *)
Theorem service_keeps_local_peer me ins n :
  wf me (view (peer_handle n)) ->
  wf me (view (peer_handle (foldl handle n ins))) /\
  local_peer_id (foldl handle n ins) = local_peer_id n.
Proof.
  revert n. induction ins as [|i ins IH]; intros n Hw; [done|]. cbn [foldl].
  destruct (wf_handle me i n Hw) as [Hw' <-]. by apply IH.
Qed.

(** The table after an info request, for its decoded parts. *)
Lemma info_view now sender pl channel n nm models sess :
  Split.splitn 3 bar (Utf8.lossy pl) = [nm; models_to_json models; sessions_to_json sess] ->
  nm <> [] -> models_from_json (models_to_json models) = Some models ->
  sessions_from_json (sessions_to_json sess) = Some sess ->
  view (peer_handle (Handle_Info now sender pl channel n).1)
  = (if decide (sess = []) then id else alter (update_sessions_info now sess) sender)
    ((if decide (models = []) then id else alter (update_supported_models_info now models) sender)
      (<[sender := merge (view (peer_handle n) !! sender) (set_name nm (new now sender []))]>
         (view (peer_handle n)))).
Proof.
  intros Hsp Hnm Hm Hs. unfold Handle_Info. rewrite Hsp. cbn [lookup list_lookup default from_option id].
  rewrite Hm, Hs, (decide_False (P:=nm = [])) by done.
  cbn [fst peer_handle with_peers default from_option id].
  destruct (decide (sess = [])), (decide (models = []));
    rewrite ?view_sessions, ?view_models, view_upsert; done.
Qed.

(** the info exchange. When a named node sends its info and neither its
  name nor the text of its models contains the separator, the receiver that
  knows the sender stores the sender's name, its models (an empty list leaves the
  old ones) and exactly its sessions, and no other entry changes. It also
  forgets every address it had for the sender. *)
Theorem info_exchange me now sender channel n old :
  name me <> [] -> bar ∉ name me -> bar ∉ models_to_json (supported_models me) ->
  Utf8.valid (build_local_info_payload me) = true ->
  models_from_json (models_to_json (supported_models me)) = Some (supported_models me) ->
  sessions_from_json (sessions_to_json (sessions me)) = Some (sessions me) ->
  view (peer_handle n) !! sender = Some old ->
  let n' := (Handle_Info now sender (build_local_info_payload me) channel n).1 in
  (forall p, p <> sender -> view (peer_handle n') !! p = view (peer_handle n) !! p) /\
  exists j, view (peer_handle n') !! sender = Some j /\
    name j = name me /\ sessions j = sessions me /\ addresses j = [] /\ profile j = profile old /\
    supported_models j = (if decide (supported_models me = []) then supported_models old else supported_models me).
Proof.
  intros Hne Hbn Hbm Hv Hmj Hsj Hold n'.
  assert (Split.splitn 3 bar (Utf8.lossy (build_local_info_payload me))
    = [name me; models_to_json (supported_models me); sessions_to_json (sessions me)]) as Hsp.
  { rewrite Utf8.lossy_valid by done. unfold build_local_info_payload. cbn [app].
    by rewrite !Split.splitn_step by done. }
  pose proof (info_view now sender _ channel n _ _ _ Hsp Hne Hmj Hsj) as E.
  fold n' in E. rewrite E, Hold. split.
  - intros p Hp. do 2 case_decide; cbn [id]; rewrite ?lookup_alter_ne, lookup_insert_ne by done; done.
  - destruct (decide (sessions me = [])) as [Hs0|], (decide (supported_models me = [])); cbn [id];
      rewrite ?lookup_alter_eq, lookup_insert_eq; cbn [fmap option_fmap option_map];
      (eexists; split; [reflexivity|]); cbn; rewrite ?decide_False by done; rewrite ?Hs0; done.
Qed.

(** connections and pings. An established connection files the peer with
  exactly the remote address of that connection and greets it with the local
  info; a successful ping records the latency of a known peer. A closed
  connection or a ping timeout removes a remote peer, also when other
  connections to it remain open ([num_established] is not consulted); the
  local node is never removed. *)
Theorem connection_events now peer addr k ms n :
  let s := peer_handle n in
  view (peer_handle (Handle_Swarm_Event now (ConnectionEstablished peer addr) n).1) !! peer
    = Some (merge (view s !! peer) (new now peer [addr])) /\
  view (peer_handle (Handle_Swarm_Event now (Ping peer (Pong ms)) n).1)
    = alter (update_profile_info now (mk_PeerProfile (Some (wrap 64 ms)))) peer (view s) /\
  (forall i, view s !! peer = Some i ->
    let kept := if local i then Some i else None in
    view (peer_handle (Handle_Swarm_Event now (ConnectionClosed peer k) n).1) !! peer = kept /\
    view (peer_handle (Handle_Swarm_Event now (Ping peer Timeout) n).1) !! peer = kept).
Proof.
  cbn. rewrite view_upsert, view_profile. cbn. rewrite lookup_insert_eq.
  split; [done|]. split; [done|]. intros i Hi. rewrite view_remove, Hi.
  destruct (local i); [by rewrite Hi|by rewrite lookup_delete_eq].
Qed.

(** stopping. [Stop] ends the loop, disconnects every remote peer of the
  table, keeps only local entries, drops the reply channels, and gives every
  pending caller exactly one answer, an error. *)
Theorem stop_releases_everything n :
  let '(continue, n', effects) := Handle_Command Stop n in
  continue = false /\
  (forall p i, view (peer_handle n) !! p = Some i -> local i = false -> Disconnect_Peer (peer_id i) ∈ effects) /\
  (forall p i, view (peer_handle n') !! p = Some i -> local i = true) /\
  Inbound.pending_replies (inbound_manager n') = ∅ /\ outbound_manager n' = ∅ /\
  omap (fun e => match e with Answer tx (Err _) => Some tx | _ => None end) effects
  = (map_to_list (outbound_manager n)).*2.
Proof.
  cbn. split; [done|]. split; [|split; [|split; [done|split; [done|]]]].
  - intros p i Hi Hl. apply elem_of_app. left. apply list_elem_of_In, List.in_map_iff.
    exists i. split; [done|]. apply List.filter_In. rewrite Hl. split; [|done].
    apply list_elem_of_In, view_all. eauto.
  - intros p i. rewrite view_clear. by intros [_ ?]%map_lookup_filter_Some.
  - rewrite omap_app. match goal with |- omap ?f ?a ++ _ = _ => assert (omap f a = []) as -> end.
    { induction (List.filter _ _) as [|x l IH]; [done|]. cbn. exact IH. }
    unfold answers. cbn [app]. induction (map_to_list (outbound_manager n)) as [|[o w] l IH]; [done|].
    cbn. by rewrite IH.
Qed.
End service.

(** A concrete node for the witnesses: peer 1 is local, peer 2 is connected. *)
Module Example_Node.
Abbreviation info := (PeerInfo N N).
Definition iter (m : gmap N info) : list info := (map_to_list m).*2.
#[global] Instance cap : Peer_Management_Capability N N (gmap N info) :=
  PeerManager_capability (fun _ => []) iter.
#[global] Instance laws : Peer_Management_Laws (fun _ : N => []) N (gmap N info) :=
  PeerManager_laws (fun _ => []) iter (fun m => Permutation_refl _).
Definition node : Network_Service (PeerId:=N) (Channel:=N) (OutboundRequestId:=N) (Waiter:=N) (S:=gmap N info) :=
  mk_Network_Service 1%N (<[2%N := new 5 2%N [9%N]]> (PeerManager_new 0 1%N (as_bytes "me")))
    Inbound.New ∅.
Definition no_models (ms : list SupportedModel) : bytes := as_bytes "[]".
Definition no_sessions (ss : list SessionSummary) : bytes := as_bytes "[]".
End Example_Node.

Lemma service_keeps_local_peer_witness :
  let n := Example_Node.node in
  let ins := [In_event 7 (ConnectionClosed 2%N 1); In_command Stop] in
  wf 1%N (view (peer_handle n)) /\
  local_peer_id (foldl (handle (fun _ => []) Example_Node.no_models (fun _ => Some [])
    Example_Node.no_sessions (fun _ => Some [])) n ins) = 1%N.
Proof.
  intros n ins.
  assert (wf 1%N (view (peer_handle n))) as Hw
    by (apply wf_insert; [apply wf_new|reflexivity|split; discriminate]).
  split; [exact Hw|].
  exact (proj2 (service_keeps_local_peer (fun _ => []) Example_Node.no_models (fun _ => Some [])
    Example_Node.no_sessions (fun _ => Some []) 1%N ins n Hw)).
Defined.
Lemma info_exchange_witness :
  let me := new_local (Multiaddr:=N) 0 2%N (as_bytes "bob") in
  let n := Example_Node.node in
  let n' := (Handle_Info (fun _ => []) (fun _ => Some []) (fun _ => Some []) 7 2%N
    (build_local_info_payload Example_Node.no_models Example_Node.no_sessions me) 4%N n).1 in
  exists j, view (peer_handle n') !! 2%N = Some j /\ name j = as_bytes "bob" /\ addresses j = [].
Proof.
  intros me n n'.
  assert (name me <> []) as H1 by discriminate.
  assert (bar ∉ name me) as H2 by (apply (bool_decide_unpack _); vm_compute; exact I).
  assert (bar ∉ Example_Node.no_models (supported_models me)) as H3
    by (apply (bool_decide_unpack _); vm_compute; exact I).
  assert (Utf8.valid (build_local_info_payload Example_Node.no_models Example_Node.no_sessions me) = true)
    as H4 by reflexivity.
  assert (view (peer_handle n) !! 2%N = Some (new 5 2%N [9%N])) as H5 by reflexivity.
  destruct (info_exchange (fun _ => []) Example_Node.no_models (fun _ => Some [])
    Example_Node.no_sessions (fun _ => Some []) me 7 2%N 4%N n _ H1 H2 H3 H4 eq_refl eq_refl H5)
    as (_ & j & Hj & Hn & _ & Ha & _).
  exists j. split; [exact Hj|]. split; [exact Hn|exact Ha].
Defined.
