(* ===== verification/Sessions.v ===== *)
(** * Chat sessions ([Src/Session_Manager])

    The slots of a session ([session.rs], [slot.rs]), the manager of sessions
    ([manager.rs]), the generation loop that answers one request and the task
    that serves the slots of a session ([session.rs], [spawn]).

    An unbounded channel is a name: [allocate_slot] makes the pair of prompt and
    token channels of a slot, both called by the same number. *)
From S2P Require Import Prelude RustStd Wire.

(** ** Slots *)
Record Slot : Type := mk_Slot { slot_index : nat; token_tx : nat }.
Inductive SlotState : Type := Vacant | Occupied (s : Slot).
Definition is_vacant (s : SlotState) : bool := match s with Vacant => true | Occupied _ => false end.

Record Session : Type := mk_Session {
    session_id : Z;
    model_id : string;
    max_slots : nat;
    slots : list SlotState;
    eos_token_id : Z;
    slot_notify : list (nat * nat); (** messages sent: slot and channels *)
}.
Definition Session_new (sid : Z) (model : string) (n : nat) (eos : Z) : Session :=
  mk_Session sid model n (repeat Vacant n) eos [].
Definition with_slots (l : list SlotState) (s : Session) : Session :=
  mk_Session (session_id s) (model_id s) (max_slots s) l (eos_token_id s) (slot_notify s).

(** The scan of [allocate], from index [i] on. *)
Fixpoint allocate_from (i : nat) (tx : nat) (l : list SlotState) : option (nat * list SlotState) :=
  match l with
  | [] => None
  | Vacant :: l => Some (i, Occupied (mk_Slot i tx) :: l)
  | Occupied s :: l =>
      match allocate_from (S i) tx l with
      | Some (k, l) => Some (k, Occupied s :: l)
      | None => None
      end
  end.
Definition allocate (tx : nat) (s : Session) : option nat * Session :=
  match allocate_from 0 tx (slots s) with
  | Some (i, l) => (Some i, with_slots l s)
  | None => (None, s)
  end.
Definition release (i : nat) (s : Session) : Session :=
  if (i <? length (slots s))%nat then with_slots (<[i := Vacant]> (slots s)) s else s.
Definition occupied_count (s : Session) : nat :=
  length (List.filter (fun x => negb (is_vacant x)) (slots s)).
Definition get_slot (i : nat) (s : Session) : option Slot :=
  match slots s !! i with Some (Occupied sl) => Some sl | _ => None end.

(** ** The manager *)
Inductive Session_Error : Type := SessionNotFound (id : Z) | SlotExhausted (id : Z).
Record SlotHandle : Type := mk_SlotHandle { h_session : Z; h_slot : nat; h_chan : nat }.
Record SessionInfo : Type := mk_SessionInfo {
  i_session_id : Z; i_model_id : string; i_total : nat; i_occupied : nat }.
Record SessionManager : Type := mk_SessionManager {
    sessions : gmap Z Session;
    mgr_max_slots : nat;
    counter : Z;
    next_chan : nat; (** the next channel name *)
}.
Definition SessionManager_new (n : nat) : SessionManager := mk_SessionManager ∅ n 1 0.

Definition info_of (s : Session) : SessionInfo :=
  mk_SessionInfo (session_id s) (model_id s) (max_slots s) (occupied_count s).
Section manager.
(** The iteration order of the session map. *)
Context (iter : gmap Z Session -> list Session).
Definition list_sessions (m : SessionManager) : list SessionInfo := map info_of (iter (sessions m)).
Definition publish_session_event (ty : string) (sid : option Z) (model : option string) (m : SessionManager) : Bus_Event :=
  State (JObj [("type", JStr ty);
    ("session_id", match sid with Some z => JNum z | None => JNull end);
    ("model_id", match model with Some s => JStr s | None => JNull end);
    ("sessions", JArr (map (fun s => JObj [("session_id", JNum (session_id s));
       ("model_id", JStr (model_id s)); ("occupied_slots", JNum (Z.of_nat (occupied_count s)));
       ("total_slots", JNum (Z.of_nat (max_slots s)))]) (iter (sessions m))))])%string.

Definition create_session (model : string) (m : SessionManager) : Z * SessionManager * list Bus_Event :=
  let sid := counter m in
  let session := Session_new sid model (mgr_max_slots m) 1 in
  let m := mk_SessionManager (<[sid := session]> (sessions m)) (mgr_max_slots m) (sid + 1) (next_chan m) in
  (sid, m, [publish_session_event "session_created" (Some sid) (Some model) m]).
Definition destroy_session (sid : Z) (m : SessionManager) : SessionManager * list Bus_Event :=
  let m := mk_SessionManager (delete sid (sessions m)) (mgr_max_slots m) (counter m) (next_chan m) in
  (m, [publish_session_event "session_destroyed" (Some sid) None m]).
End manager.

Definition allocate_slot (sid : Z) (m : SessionManager) : result Session_Error SlotHandle * SessionManager :=
  match sessions m !! sid with
  | None => (Err (SessionNotFound sid), m)
  | Some s =>
      let c := next_chan m in
      let (r, s) := allocate c s in
      let with_session s := mk_SessionManager (<[sid := s]> (sessions m)) (mgr_max_slots m) (counter m) (c + 1) in
      match r with
      | None => (Err (SlotExhausted sid), with_session s)
      | Some i =>
          let s := mk_Session (session_id s) (model_id s) (max_slots s) (slots s) (eos_token_id s)
                     (slot_notify s ++ [(i, c)]) in
          (Ok (mk_SlotHandle sid i c), with_session s)
      end
  end.
Definition close_slot (sid : Z) (i : nat) (m : SessionManager) : SessionManager :=
  match sessions m !! sid with
  | Some s => mk_SessionManager (<[sid := release i s]> (sessions m)) (mgr_max_slots m) (counter m) (next_chan m)
  | None => m
  end.

(** ** Slots: facts *)
Lemma allocate_from_spec i tx l :
  match allocate_from i tx l with
  | Some (k, l') => exists a b, k = (i + length a)%nat /\ l = a ++ Vacant :: b /\
      l' = a ++ Occupied (mk_Slot k tx) :: b /\ Forall (fun s => is_vacant s = false) a
  | None => Forall (fun s => is_vacant s = false) l
  end.
Proof.
  revert i. induction l as [|[|s] l IH]; intros i; cbn [allocate_from]; [constructor| |].
  - exists [], l. rewrite Nat.add_0_r. repeat split. constructor.
  - specialize (IH (S i)). destruct (allocate_from (S i) tx l) as [[k l']|]; [|by constructor].
    destruct IH as (a & b & -> & -> & -> & Ha). exists (Occupied s :: a), b.
    cbn [length]. rewrite Nat.add_succ_r. repeat split. by constructor.
Qed.

Lemma occupied_split a s b :
  length (List.filter (fun x => negb (is_vacant x)) (a ++ s :: b))
  = (length (List.filter (fun x => negb (is_vacant x)) a)
     + (if is_vacant s then 0 else 1)
     + length (List.filter (fun x => negb (is_vacant x)) b))%nat.
Proof.
  rewrite List.filter_app, length_app. cbn. destruct (is_vacant s); cbn; lia.
Qed.
Lemma occupied_all l :
  Forall (fun s => is_vacant s = false) l <->
  length (List.filter (fun x => negb (is_vacant x)) l) = length l.
Proof.
  split.
  - induction 1 as [|s l Hs _ IH]; [done|]. cbn. rewrite Hs. cbn. by rewrite IH.
  - induction l as [|s l IH]; [constructor|]. cbn. pose proof (List.filter_length_le (fun x => negb (is_vacant x)) l).
    destruct (is_vacant s) eqn:E; cbn; intros Hl; [lia|]. constructor; [done|]. apply IH. lia.
Qed.

(** slots. [allocate] hands out the lowest vacant slot, fills exactly that
    one and so raises the occupied count by one; it refuses exactly when every
    slot is taken. Releasing a slot makes it available again and never touches
    another one; an index out of range is ignored. *)
Theorem allocate_release_spec tx s i :
  (match allocate tx s with
   | (Some k, s') =>
       slots s !! k = Some Vacant /\ slots s' = <[k := Occupied (mk_Slot k tx)]> (slots s) /\
       (forall j, (j < k)%nat -> exists sl, slots s !! j = Some (Occupied sl)) /\
       occupied_count s' = S (occupied_count s)
   | (None, s') => s' = s /\ occupied_count s = length (slots s)
   end) /\
  slots (release i s) = <[i := Vacant]> (slots s) /\
  (occupied_count (release i s) <= occupied_count s)%nat.
Proof.
  split; [|split].
  - unfold allocate. pose proof (allocate_from_spec 0 tx (slots s)) as H.
    destruct (allocate_from 0 tx (slots s)) as [[k l]|]; [|split; [done|by apply occupied_all]].
    destruct H as (a & b & -> & E & -> & Ha). rewrite E. cbn [slots with_slots Nat.add].
    split; [by rewrite lookup_app_r, Nat.sub_diag by lia|].
    split; [by rewrite insert_app_r_alt, Nat.sub_diag by lia|]. split.
    + intros j Hj. rewrite lookup_app_l by done. destruct (lookup_lt_is_Some_2 a j Hj) as [x Hx].
      rewrite Hx. rewrite Forall_forall in Ha. specialize (Ha x (list_elem_of_lookup_2 _ _ _ Hx)).
      destruct x as [|sl]; [done|]. eauto.
    + unfold occupied_count. cbn [slots with_slots]. rewrite E, !occupied_split. cbn. lia.
  - unfold release. destruct (Nat.ltb_spec i (length (slots s))); [done|].
    by rewrite list_insert_ge by lia.
  - unfold release, occupied_count. destruct (Nat.ltb_spec i (length (slots s))) as [Hi|]; [|done].
    destruct (lookup_lt_is_Some_2 _ _ Hi) as [x Hx]. cbn [slots with_slots].
    rewrite <- (take_drop_middle _ _ _ Hx) at 2. rewrite insert_take_drop by done.
    rewrite !occupied_split. cbn. lia.
Qed.

(** ** The manager as the program drives it

    The orchestrator creates sessions and allocates slots; [destroy_session]
    and [close_slot] have no caller. *)
Inductive mgr_op : Type := Op_create (model : string) | Op_allocate (sid : Z).
Definition run_mgr (st : SessionManager * list SlotHandle) (o : mgr_op) : SessionManager * list SlotHandle :=
  let (m, hs) := st in
  match o with
  | Op_create model => ((create_session (fun _ => []) model m).1.2, hs)
  | Op_allocate sid =>
      let (r, m) := allocate_slot sid m in
      (m, match r with Ok h => hs ++ [h] | Err _ => hs end)
  end.
Definition handles_of (sid : Z) (hs : list SlotHandle) : list SlotHandle :=
  List.filter (fun h => h_session h =? sid) hs.

Definition mgr_inv (st : SessionManager * list SlotHandle) : Prop :=
  forall sid,
    (sid >= counter st.1 -> sessions st.1 !! sid = None /\ handles_of sid st.2 = []) /\
    (forall s, sessions st.1 !! sid = Some s ->
       length (slots s) = mgr_max_slots st.1 /\ occupied_count s = length (handles_of sid st.2)).

Lemma handles_of_snoc sid hs h :
  handles_of sid (hs ++ [h]) = handles_of sid hs ++ (if h_session h =? sid then [h] else []).
Proof. unfold handles_of. rewrite List.filter_app. by cbn; destruct (h_session h =? sid). Qed.

Lemma occupied_new n : length (List.filter (fun x => negb (is_vacant x)) (repeat Vacant n)) = O.
Proof. by induction n. Qed.

Lemma run_mgr_max st o : mgr_max_slots (run_mgr st o).1 = mgr_max_slots st.1.
Proof.
  destruct st as [m hs], o; [done|]. cbn. unfold allocate_slot.
  destruct (sessions m !! sid) as [s|]; [|done]. destruct (allocate _ s) as [[i|] s']; done.
Qed.
Lemma mgr_inv_step st o : mgr_inv st -> mgr_inv (run_mgr st o).
Proof.
  destruct st as [m hs]. intros Hi. destruct o as [model|sid]; cbn [run_mgr].
  - intros x. destruct (Hi x) as [Hfresh Hs]. cbn [fst snd create_session sessions counter mgr_max_slots] in *. split.
    + intros Hx. rewrite lookup_insert_ne by lia. apply Hfresh. lia.
    + intros s [[<- <-]|[Hne E]]%lookup_insert_Some; [|by apply Hs].
      destruct (Hi (counter m)) as [Hf _]. cbn [fst snd] in Hf. destruct Hf as [_ ->]; [lia|].
      unfold occupied_count. cbn [slots Session_new length]. by rewrite repeat_length, occupied_new.
  - unfold allocate_slot. destruct (sessions m !! sid) as [s|] eqn:Es; [|done].
    pose proof (allocate_release_spec (next_chan m) s 0) as [Ha _].
    destruct (Hi sid) as [_ Hs]. specialize (Hs s Es) as [Hlen Hocc]. cbn [fst snd] in *.
    assert (sid < counter m) as Hlt.
    { destruct (Z.lt_ge_cases sid (counter m)) as [|Hge]; [done|]. destruct (Hi sid) as [Hf _].
      destruct (Hf ltac:(cbn; lia)) as [E _]. cbn [fst] in E. by rewrite E in Es. }
    destruct (allocate (next_chan m) s) as [[i|] s'].
    + destruct Ha as (_ & Hsl & _ & Hocc'). intros x. destruct (Hi x) as [Hfx Hsx].
      cbn [fst snd sessions counter mgr_max_slots] in *. rewrite handles_of_snoc. cbn [h_session].
      destruct (Z.eqb_spec sid x) as [->|Hne].
      * split; [lia|]. intros s2 E. rewrite lookup_insert_eq in E. injection E as <-.
        unfold occupied_count in *. cbn [slots]. rewrite length_app, Hocc', Hocc, Hsl, length_insert. cbn. lia.
      * rewrite lookup_insert_ne, app_nil_r by done. by split.
    + destruct Ha as [-> _]. intros x. destruct (Hi x) as [Hfx Hsx].
      cbn [fst snd sessions counter mgr_max_slots] in *. split.
      * intros Hx. rewrite lookup_insert_ne by lia. auto.
      * intros s2 [[<- <-]|[Hne E]]%lookup_insert_Some; [done|by apply Hsx].
Qed.
Lemma mgr_inv_run n ops :
  let st := foldl run_mgr (SessionManager_new n, []) ops in
  mgr_inv st /\ mgr_max_slots st.1 = n.
Proof.
  induction ops as [|o ops [IH1 IH2]] using rev_ind; [|rewrite !foldl_snoc].
  - split; [|done]. intros sid. split; [|intros s E; by apply (lookup_empty_Some sid s) in E].
    intros _. split; [apply (lookup_empty sid)|done].
  - split; [by apply mgr_inv_step|]. by rewrite run_mgr_max.
Qed.

(** slots are never given back. In every run of the operations the program
    performs, a session hands out at most [max_slots] slots in its whole life:
    after that many clients, connected or gone, every further allocation on the
    session is refused with [SlotExhausted]. *)
Theorem session_serves_max_slots_ever n ops sid s :
  let '(m, hs) := foldl run_mgr (SessionManager_new n, []) ops in
  sessions m !! sid = Some s ->
  (length (handles_of sid hs) <= n)%nat /\
  (length (handles_of sid hs) = n -> (allocate_slot sid m).1 = Err (SlotExhausted sid)) /\
  ((length (handles_of sid hs) < n)%nat -> exists h, (allocate_slot sid m).1 = Ok h).
Proof.
  destruct (mgr_inv_run n ops) as [Hi Hn]. destruct (foldl _ _ ops) as [m hs]. cbn [fst] in Hn.
  intros Es. destruct (Hi sid) as [_ Hs]. specialize (Hs s Es) as [Hlen Hocc]. cbn [fst snd] in *.
  pose proof (List.filter_length_le (fun x => negb (is_vacant x)) (slots s)) as Hle.
  fold (occupied_count s) in Hle. rewrite Hlen, Hn, Hocc in Hle.
  pose proof (allocate_release_spec (next_chan m) s 0) as [Ha _]. unfold allocate_slot. rewrite Es.
  split; [done|]. destruct (allocate (next_chan m) s) as [[i|] s']; cbn [fst]; (split; [|eauto]).
  - destruct Ha as (Hv & _ & _ & _). intros Hfull. exfalso.
    assert (Forall (fun s => is_vacant s = false) (slots s)) as Hall
      by (apply occupied_all; fold (occupied_count s); lia).
    rewrite Forall_forall in Hall. by specialize (Hall _ (list_elem_of_lookup_2 _ _ _ Hv)).
  - done.
  - intros Hlt. destruct Ha as [_ Hfull]. lia.
Qed.
Lemma session_serves_max_slots_ever_witness :
  let '(m, hs) := foldl run_mgr (SessionManager_new 1, []) [Op_create "qwen3"; Op_allocate 1] in
  length (handles_of 1 hs) = 1%nat /\ (allocate_slot 1 m).1 = Err (SlotExhausted 1).
Proof.
  split; [reflexivity|].
  pose proof (session_serves_max_slots_ever 1 [Op_create "qwen3"; Op_allocate 1] 1
    (mk_Session 1 "qwen3" 1 [Occupied (mk_Slot 0 0)] 1 [(0%nat, 0%nat)])) as H.
  exact (proj1 (proj2 (H eq_refl)) eq_refl).
Defined.

(** ** Answering one request

    [Tensor] and the model calls are outside. [recv k] is the outcome of the
    [k]-th [local_recv_frame] from the ML thread followed by [bytes_to_tensor]:
    [None] when either fails. *)
Section generation.
Context {Messages Tensor : Type}.
Context (encode_messages : Messages -> option (list Z)).
Context (tensorize_bytes : list Z -> option bytes). (** [tensorize] then [tensor_to_bytes] *)
Context (sample : Tensor -> option Z).
Context (decode : Z -> option string).
Context (eos : Z).

Record SessionRequest : Type := mk_SessionRequest { messages : Messages; max_tokens : Z }.
Definition sentinel : string := String "000"%char "".

(** Frames to the ML thread: offset and data. [send_ok] tells whether the
  [k]-th send succeeds. *)
Definition frame : Type := Z * bytes.

(** The loop [for _ in 0..gen_limit]: texts for the slot, frames for the ML
  thread. *)
Fixpoint generate (n : nat) (recv : list (option Tensor)) (send_ok : list bool) (offset : Z)
    : list string * list frame :=
  match n, recv with
  | O, _ => ([], [])
  | S n, Some logits :: recv =>
      match sample logits with
      | None => ([], [])
      | Some token_id =>
          if token_id =? eos then ([], [])
          else
            let text := match decode token_id with Some t => [t] | None => [] end in
            match tensorize_bytes [token_id] with
            | None => (text, [])
            | Some next_data =>
                match send_ok with
                | true :: send_ok =>
                    let (ts, fs) := generate n recv send_ok (offset + 1) in
                    (text ++ ts, (offset, next_data) :: fs)
                | _ => (text, [])
                end
            end
      end
  | S _, _ => ([], [])
  end.

Definition gen_limit (max_tokens : Z) : nat := Z.to_nat (Z.min max_tokens 2048).

(** How the iteration ends: [continue] of the main loop, [break], or the end of
  the body. *)
Inductive outcome : Type := Skipped | Broke | Answered.
Definition handle_request (req : SessionRequest) (recv : list (option Tensor)) (send_ok : list bool)
    : outcome * list string * list frame :=
  match encode_messages (messages req) with
  | None => (Skipped, [], [])
  | Some token_ids =>
      match tensorize_bytes token_ids with
      | None => (Skipped, [], [])
      | Some data =>
          match send_ok with
          | true :: send_ok =>
              let offset := zlen token_ids in
              let (ts, fs) := generate (gen_limit (max_tokens req)) recv send_ok offset in
              (Answered, ts ++ [sentinel], (0, data) :: fs)
          | _ => (Broke, [], [])
          end
      end
  end.

Lemma generate_spec n recv send_ok offset :
  let '(ts, fs) := generate n recv send_ok offset in
  (length ts <= n)%nat /\ (length fs <= n)%nat /\ fs.*1 = seqZ offset (zlen fs) /\
  Forall (fun t => exists x, decode x = Some t /\ x <> eos) ts.
Proof.
  revert recv send_ok offset. induction n as [|n IH]; intros recv send_ok offset; [by repeat split|].
  cbn [generate]. destruct recv as [|[logits|] recv]; [repeat split; cbn; (lia || done)| |repeat split; cbn; (lia || done)].
  destruct (sample logits) as [x|]; [|repeat split; cbn; (lia || done)].
  destruct (Z.eqb_spec x eos) as [|Hx]; [repeat split; cbn; (lia || done)|].
  set (text := match decode x with Some t => [t] | None => [] end).
  assert (Forall (fun t => exists x, decode x = Some t /\ x <> eos) text /\ (length text <= 1)%nat) as [Ht Hl].
  { unfold text. destruct (decode x) eqn:E; split; cbn; [|lia|constructor|lia]. repeat constructor. eauto. }
  destruct (tensorize_bytes [x]) as [d|]; [|repeat split; cbn; (lia || done)].
  destruct send_ok as [|[] send_ok]; [repeat split; cbn; (lia || done)| |repeat split; cbn; (lia || done)].
  specialize (IH recv send_ok (offset + 1)). destruct (generate n recv send_ok (offset + 1)) as [ts fs].
  destruct IH as (H1 & H2 & H3 & H4). rewrite length_app, Forall_app, fmap_cons, H3. cbn [length fst].
  repeat split; try lia; try done. rewrite zlen_cons. pose proof (zlen_nonneg fs).
  rewrite (seqZ_cons offset (1 + zlen fs)) by lia. f_equal. f_equal; lia.
Qed.

(** one answer. A request whose messages encode and reach the ML thread is
  answered with at most [min max_tokens 2048] texts, each the decoding of a
  sampled token that is not the end-of-sequence token, followed by one sentinel; the
  ML thread is fed the prompt at offset zero and then one token per frame at
  consecutive offsets from the length of the prompt. A request that fails
  before that sends nothing at all, not even the sentinel its client waits
  for. *)
Theorem handle_request_spec req recv send_ok :
  0 <= max_tokens req ->
  let '(o, texts, frames) := handle_request req recv send_ok in
  match o with
  | Answered => exists ids data ts fs,
      encode_messages (messages req) = Some ids /\ tensorize_bytes ids = Some data /\
      texts = ts ++ [sentinel] /\ zlen ts <= Z.min (max_tokens req) 2048 /\
      Forall (fun t => exists x, decode x = Some t /\ x <> eos) ts /\
      frames = (0, data) :: fs /\ fs.*1 = seqZ (zlen ids) (zlen fs) /\
      zlen fs <= Z.min (max_tokens req) 2048
  | _ => texts = [] /\ frames = []
  end.
Proof.
  intros Hm. unfold handle_request. destruct (encode_messages (messages req)) as [ids|]; [|done].
  destruct (tensorize_bytes ids) as [data|] eqn:Ed; [|done].
  destruct send_ok as [|[] send_ok]; [done| |done].
  pose proof (generate_spec (gen_limit (max_tokens req)) recv send_ok (zlen ids)) as H.
  destruct (generate _ _ _ _) as [ts fs]. destruct H as (H1 & H2 & H3 & H4).
  assert (zlen ts <= Z.min (max_tokens req) 2048 /\ zlen fs <= Z.min (max_tokens req) 2048) as [? ?]
    by (unfold gen_limit, zlen in *; lia).
  exists ids, data, ts, fs. done.
Qed.
End generation.
Lemma handle_request_spec_witness :
  let step := handle_request (Messages:=unit) (Tensor:=Z) (fun _ => Some [5; 6]) (fun l => Some (map byte.of_Z l))
    Some (fun x => Some "t"%string) 0 (mk_SessionRequest tt 3) [Some 7; Some 0; Some 8] [true; true; true; true] in
  0 <= 3 /\ step = (Answered, ["t"%string; sentinel], [(0, [x05; x06]); (2, [x07])]) /\
  exists ts, ["t"%string; sentinel] = ts ++ [sentinel] /\ zlen ts <= Z.min 3 2048.
Proof.
  intros step. assert (0 <= 3) as H by lia. split; [exact H|]. split; [reflexivity|].
  destruct (handle_request_spec (Messages:=unit) (Tensor:=Z) (fun _ => Some [5; 6])
    (fun l => Some (map byte.of_Z l)) Some (fun x => Some "t"%string) 0 (mk_SessionRequest tt 3)
    [Some 7; Some 0; Some 8] [true; true; true; true] H) as (ids & d & ts & fs & _ & _ & Ht & Hl & _).
  exists ts. split; [exact Ht|exact Hl].
Defined.

(** ** The task of a session

    Slots are registered in order 0, 1, 2, ...; registration [k] carries its slot
    index and the channels called [k]. The world is the notifications not yet
    received, the prompt channels, and where the task stands: waiting for
    the first slot, at the top of the loop, blocked on the current prompt channel,
    or ended. [served] records, for every request taken, the registration it
    came from and the token channel its answer goes to. *)
Module Task.
Section task.
Context {Request : Type}.

Inductive position : Type := Starting | Looping | Blocked | Ended.
Record world : Type := mk_world {
  registered : nat;
  notifications : list (nat * nat); (** slot index, registration *)
  prompts : gmap nat (list Request * bool); (** queued requests; open *)
  pos : position;
  slot_id : nat;
  prompt_rx : nat;
  slot_tokens : gmap nat nat; (** slot index to token channel *)
  served : list (nat * Request * option nat);
}.
Definition initial : world := mk_world 0 [] ∅ Starting 0 0 ∅ [].

(** [while let Ok((new_id, new_rx, new_tx)) = slot_notify_rx.try_recv()] *)
Definition take_notification (w : world) (n : nat * nat) : world :=
  mk_world (registered w) [] (prompts w) (pos w) n.1 n.2 (<[n.1 := n.2]> (slot_tokens w)) (served w).
Definition drain (w : world) : world :=
  let w' := foldl take_notification w (notifications w) in
  mk_world (registered w') [] (prompts w') Blocked (slot_id w') (prompt_rx w') (slot_tokens w') (served w').

Inductive event : Type :=
  | Register (slot : nat)             (** [allocate_slot] on the session *)
  | Submit (k : nat) (r : Request)    (** the client of registration [k] *)
  | Close (k : nat)                   (** that client goes away *)
  | Run.                              (** the task makes one step *)

Definition with_pos (p : position) (w : world) : world :=
  mk_world (registered w) (notifications w) (prompts w) p (slot_id w) (prompt_rx w) (slot_tokens w) (served w).
Definition with_prompts ps (w : world) : world :=
  mk_world (registered w) (notifications w) ps (pos w) (slot_id w) (prompt_rx w) (slot_tokens w) (served w).

Definition run_task (w : world) : world :=
  match pos w with
  | Ended => w
  | Starting =>
    match notifications w with
    | [] => w
    | (s, k) :: rest =>
        mk_world (registered w) rest (prompts w) Looping s k (<[s := k]> (slot_tokens w)) (served w)
    end
  | Looping => drain w
  | Blocked =>
    match prompts w !! prompt_rx w with
    | Some (r :: q, o) =>
        mk_world (registered w) (notifications w) (<[prompt_rx w := (q, o)]> (prompts w)) Looping
          (slot_id w) (prompt_rx w) (slot_tokens w)
          (served w ++ [(prompt_rx w, r, slot_tokens w !! slot_id w)])
    | Some ([], true) => w
    | Some ([], false) | None => with_pos Ended w
    end
  end.

Definition step (w : world) (e : event) : world :=
  match e with
  | Register slot =>
    let k := registered w in
    mk_world (k + 1) (notifications w ++ [(slot, k)]) (<[k := ([], true)]> (prompts w))
      (pos w) (slot_id w) (prompt_rx w) (slot_tokens w) (served w)
  | Submit k r =>
    match prompts w !! k with
    | Some (q, true) => with_prompts (<[k := (q ++ [r], true)]> (prompts w)) w
    | _ => w
    end
  | Close k =>
    match prompts w !! k with
    | Some (q, _) => with_prompts (<[k := (q, false)]> (prompts w)) w
    | None => w
    end
  | Run => run_task w
  end.
Definition run (es : list event) : world := foldl step initial es.

Definition cur_ok (w : world) : Prop :=
  match pos w with
  | Starting => served w = []
  | _ => slot_tokens w !! slot_id w = Some (prompt_rx w) /\ (prompt_rx w < registered w)%nat /\
       Forall (fun n => (prompt_rx w < n.2)%nat) (notifications w) /\
       Forall (fun s => (s.1.1 <= prompt_rx w)%nat) (served w)
  end.
Definition inv (w : world) : Prop :=
  StronglySorted (fun a b => (a.2 < b.2)%nat) (notifications w) /\
  Forall (fun n => (n.2 < registered w)%nat) (notifications w) /\
  cur_ok w /\
  StronglySorted (fun a b => (a.1.1 <= b.1.1)%nat) (served w) /\
  Forall (fun s => s.2 = Some s.1.1) (served w).

Lemma sorted_snoc {A} (R : A -> A -> Prop) l x :
  StronglySorted R l -> Forall (fun y => R y x) l -> StronglySorted R (l ++ [x]).
Proof.
  induction 1 as [|y l Hs IH Hy]; intros Hx; cbn; [repeat constructor|].
  inversion_clear Hx. constructor; [by apply IH|]. apply Forall_app. split; [done|by constructor].
Qed.

Lemma drain_fold ns w :
  StronglySorted (fun a b => (a.2 < b.2)%nat) ns ->
  slot_tokens w !! slot_id w = Some (prompt_rx w) ->
  Forall (fun n => (prompt_rx w < n.2)%nat /\ (n.2 < registered w)%nat) ns ->
  (prompt_rx w < registered w)%nat ->
  let w' := foldl take_notification w ns in
  slot_tokens w' !! slot_id w' = Some (prompt_rx w') /\ (prompt_rx w <= prompt_rx w')%nat /\
  (prompt_rx w' < registered w)%nat /\ registered w' = registered w /\ served w' = served w.
Proof.
  revert w. induction ns as [|n ns IH]; intros w Hs Ht Hall Hr; [done|]. cbn [foldl].
  inversion_clear Hs as [|?? Hs' Hlt]. inversion_clear Hall as [|?? [H1 H2] Hall'].
  destruct (IH (take_notification w n)) as (A & B & C & D & E); cbn in *; try done.
  - by rewrite lookup_insert_eq.
  - rewrite Forall_forall in Hlt, Hall'. apply Forall_forall. intros z Hz. split; [by apply Hlt|by apply Hall'].
  - split; [done|]. split; [lia|done].
Qed.

Lemma task_inv_step w e : inv w -> inv (step w e).
Proof.
  intros (Hs & Hr & Hc & Hsv & Hch). destruct e as [slot|k r|k|]; cbn [step].
  - unfold inv, cur_ok in *. cbn [notifications registered served pos slot_id prompt_rx slot_tokens].
    split; [apply sorted_snoc; [done|]; eapply Forall_impl; [exact Hr|]; done|].
    split.
    { apply Forall_app. split; [|repeat constructor; cbn; lia]. eapply Forall_impl; [exact Hr|]. cbn; lia. }
    split; [|done]. destruct (pos w); [done|..]; destruct Hc as (? & ? & ? & ?);
      (split; [done|]; split; [lia|]; split; [|done]; apply Forall_app; split; [done|by repeat constructor]).
  - destruct (prompts w !! k) as [[q []]|]; done.
  - destruct (prompts w !! k) as [[q o]|]; done.
  - unfold run_task. destruct (pos w) eqn:Ep; unfold cur_ok in Hc; rewrite Ep in Hc.
    + destruct (notifications w) as [|[s k] rest] eqn:En; [unfold inv, cur_ok; rewrite Ep, En; done|].
      inversion_clear Hs as [|?? Hs' Hlt]. inversion_clear Hr as [|?? Hk Hr'].
      unfold inv, cur_ok; cbn. rewrite lookup_insert_eq, Hc. cbn in Hk.
      repeat split; try done; constructor.
    + destruct Hc as (Ht & Hlt & Hn & Hle). unfold drain.
      destruct (drain_fold (notifications w) w Hs Ht) as (A & B & C & D & E); [|done|].
      { rewrite Forall_forall in Hn, Hr. apply Forall_forall. intros z Hz. auto. }
      unfold inv, cur_ok; cbn. rewrite D, E. repeat split; try done; [constructor..|].
      eapply Forall_impl; [exact Hle|]. cbn; lia.
    + destruct Hc as (Ht & Hlt & Hn & Hle).
      destruct (prompts w !! prompt_rx w) as [[[|r q] o]|]; [destruct o|..];
        try (unfold inv, cur_ok, with_pos; cbn; rewrite ?Ep; done).
      unfold inv, cur_ok; cbn. rewrite Ht. repeat split; try done.
      * apply Forall_app. split; [done|by repeat constructor].
      * apply sorted_snoc; [done|]. exact Hle.
      * apply Forall_app. split; [done|by repeat constructor].
    + unfold inv, cur_ok. by rewrite Ep.
Qed.
Lemma task_inv_run es : inv (run es).
Proof.
  unfold run. assert (inv initial) as H by (repeat split; constructor). revert H. generalize initial.
  induction es as [|e es IH]; intros w H; [done|]. cbn. by apply IH, task_inv_step.
Qed.

(** C34: who is served. In every interleaving of registrations, requests,
disconnections and steps of the task, answers go to the token channel of
the registration the request came from, and the registrations of the
requests served never decrease: once a later slot has been served, no request
of an earlier slot ever is. *)
Theorem served_in_registration_order es :
  StronglySorted (fun a b => (a.1.1 <= b.1.1)%nat) (served (run es)) /\
  Forall (fun s => s.2 = Some s.1.1) (served (run es)).
Proof. apply task_inv_run. Qed.

(** a departing client ends the session. When the client being served has
gone and its queue is empty, the task ends at its next step, and from then on nothing
is served to anybody, whatever the other clients submit. *)
Theorem departed_client_ends_session w es :
  pos w = Blocked -> prompts w !! prompt_rx w = Some ([], false) ->
  served (foldl step (step w Run) es) = served w /\ pos (foldl step (step w Run) es) = Ended.
Proof.
  intros Hp Hq. assert (step w Run = with_pos Ended w) as -> by (cbn; unfold run_task; by rewrite Hp, Hq).
  assert (forall w', pos w' = Ended -> served (foldl step w' es) = served w' /\ pos (foldl step w' es) = Ended) as H.
  { clear. induction es as [|e es IH]; intros w' E; [done|]. cbn [foldl].
    assert (served (step w' e) = served w' /\ pos (step w' e) = Ended) as [E1 E2].
    { destruct e as [slot|k r|k|]; cbn [step]; [done|..].
      - by destruct (prompts w' !! k) as [[q []]|].
      - by destruct (prompts w' !! k) as [[q o]|].
      - unfold run_task. by rewrite E. }
    rewrite <- E1. by apply IH. }
  exact (H (with_pos Ended w) eq_refl).
Qed.
End task.
Lemma departed_client_ends_session_witness :
  let w := run (Request:=nat) [Register 0; Run; Run; Close 0] in
  pos w = Blocked /\ prompts w !! prompt_rx w = Some ([], false) /\
  served (foldl step (step w Run) [Register 1; Submit 1 7%nat; Run]) = [].
Proof.
  intros w. assert (pos w = Blocked) as H1 by reflexivity.
  assert (prompts w !! prompt_rx w = Some ([], false)) as H2 by reflexivity.
  split; [exact H1|]. split; [exact H2|].
  exact (proj1 (departed_client_ends_session w [Register 1; Submit 1 7%nat; Run] H1 H2)).
Defined.
End Task.
