(* ===== verification/Hub.v ===== *)
(** * Pairing the two ends of a stream ([Src/Network/Tensor_Stream/rendezvous.rs],
      [Src/Orchestrator/local_tensor_stream/mod.rs])

    Two components match a stream that is opened with a stream that is awaited.
    The rendezvous map of the network does it under one lock, so its operations
    are atomic functions. The hub of in-process streams holds two locks, one
    after the other, so each of its operations is two atomic steps and the
    interleavings matter. Streams and waiters are names; a [oneshot] sender that is
    dropped fails its receiver. *)
From S2P Require Import Prelude RustStd.

(** ** [rendezvous.rs] *)
Module Rendezvous.
Section rendezvous.
Context {Stream Waiter : Type}.

Record RendezvousMap : Type := mk_RendezvousMap {
    pending_inbound : gmap Z Stream;
    pending_accept : gmap Z Waiter;
    notifiers : gmap Z Waiter;
}.
Definition new : RendezvousMap := mk_RendezvousMap ∅ ∅ ∅.

Definition register_notify (id : Z) (tx : Waiter) (m : RendezvousMap) : RendezvousMap :=
  mk_RendezvousMap (pending_inbound m) (pending_accept m) (<[id := tx]> (notifiers m)).
(** Deliveries are returned. *)
Definition insert_inbound (id : Z) (s : Stream) (m : RendezvousMap) : RendezvousMap * list (Waiter * Stream) :=
  match notifiers m !! id with
  | Some tx => (mk_RendezvousMap (pending_inbound m) (pending_accept m) (delete id (notifiers m)), [(tx, s)])
  | None =>
      match pending_accept m !! id with
      | Some tx => (mk_RendezvousMap (pending_inbound m) (delete id (pending_accept m)) (notifiers m), [(tx, s)])
      | None => (mk_RendezvousMap (<[id := s]> (pending_inbound m)) (pending_accept m) (notifiers m), [])
      end
  end.
(** [w] is the receiver that is returned. *)
Definition register_accept (id : Z) (w : Waiter) (m : RendezvousMap) : RendezvousMap * list (Waiter * Stream) :=
  match pending_inbound m !! id with
  | Some s => (mk_RendezvousMap (delete id (pending_inbound m)) (pending_accept m) (notifiers m), [(w, s)])
  | None => (mk_RendezvousMap (pending_inbound m) (<[id := w]> (pending_accept m)) (notifiers m), [])
  end.

Inductive op : Type := Arrive (id : Z) (s : Stream) | Accept (id : Z) (w : Waiter) | Notify_me (id : Z) (w : Waiter).
Definition step (st : RendezvousMap * list (Waiter * Stream)) (o : op) : RendezvousMap * list (Waiter * Stream) :=
  let (m, out) := st in
  let (m, l) := match o with
                | Arrive id s => insert_inbound id s m
                | Accept id w => register_accept id w m
                | Notify_me id w => (register_notify id w m, [])
                end in
  (m, out ++ l).
Definition run (ops : list op) : RendezvousMap * list (Waiter * Stream) := foldl step (new, []) ops.
Definition arrivals (ops : list op) : list (Z * Stream) :=
  omap (fun o => match o with Arrive id s => Some (id, s) | _ => None end) ops.
Definition waits (ops : list op) : list (Z * Waiter) :=
  omap (fun o => match o with Accept id w => Some (id, w) | _ => None end) ops.
Definition no_notify (ops : list op) : Prop :=
  Forall (fun o => match o with Notify_me _ _ => False | _ => True end) ops.

(** Every arrival is stored or delivered to the waiter of its id, and every
    waiter without an arrival is still registered. *)
Definition inv (arr : list (Z * Stream)) (ws : list (Z * Waiter)) (m : RendezvousMap) (out : list (Waiter * Stream)) : Prop :=
  notifiers m = ∅ /\
  (forall id s, pending_inbound m !! id = Some s <-> (id, s) ∈ arr /\ id ∉ ws.*1) /\
  (forall id w, pending_accept m !! id = Some w <-> (id, w) ∈ ws /\ id ∉ arr.*1) /\
  (forall w s, (w, s) ∈ out <-> exists id, (id, w) ∈ ws /\ (id, s) ∈ arr).

Lemma not_fst {A} (l : list (Z * A)) id : id ∉ l.*1 <-> forall x, (id, x) ∉ l.
Proof.
  rewrite list_elem_of_fmap. split.
  - intros H x Hx. apply H. by exists (id, x).
  - intros H ([i x] & -> & Hx). by apply (H x).
Qed.
Lemma elem_snoc {A} (l : list (Z * A)) id x id' x' :
  (id', x') ∈ l ++ [(id, x)] <-> (id', x') ∈ l \/ (id' = id /\ x' = x).
Proof. rewrite elem_of_app, list_elem_of_singleton. naive_solver. Qed.
Lemma fst_snoc {A} (l : list (Z * A)) id x id' : id' ∉ (l ++ [(id, x)]).*1 <-> id' ∉ l.*1 /\ id' <> id.
Proof. rewrite fmap_app, not_elem_of_app. cbn. by rewrite list_elem_of_singleton. Qed.

Lemma inv_arrive arr ws m out id s :
  inv arr ws m out -> id ∉ arr.*1 -> NoDup ws.*1 ->
  let (m', l) := insert_inbound id s m in inv (arr ++ [(id, s)]) ws m' (out ++ l).
Proof.
  intros (Hn & Hi & Ha & Ho) Hf Hnd. unfold insert_inbound. rewrite Hn, lookup_empty.
  pose proof (proj1 (not_fst arr id) Hf) as Hf'.
  destruct (pending_accept m !! id) as [w|] eqn:E.
  - apply Ha in E as [Hw _].
    split; [done|]. cbn [pending_inbound pending_accept]. split; [|split].
    + intros id' s'. rewrite Hi, elem_snoc. split; [naive_solver|]. intros [[?|[-> ->]] Hid]; [done|].
      exfalso. by apply (proj1 (not_fst _ _) Hid w).
    + intros id' w'. rewrite lookup_delete_Some, Ha, fst_snoc. naive_solver.
    + intros w' s'. rewrite elem_of_app, Ho, list_elem_of_singleton. setoid_rewrite elem_snoc. split.
      * intros [(id' & ? & ?)|[= -> ->]]; eauto 10.
      * intros (id' & Hw' & [?|[-> ->]]); [eauto|]. right. f_equal.
        assert ((id, w') ∈ ws /\ (id, w) ∈ ws) as [H1 H2] by done. clear -H1 H2 Hnd.
        apply list_elem_of_lookup in H1 as [i Hi], H2 as [j Hj].
        assert (i = j) as -> by (eapply (NoDup_lookup ws.*1); rewrite ?list_lookup_fmap, ?Hi, ?Hj; done).
        congruence.
  - assert (id ∉ ws.*1) as Hw.
    { apply not_fst. intros w Hw. assert (pending_accept m !! id = Some w) by (by apply Ha). congruence. }
    split; [done|]. cbn [pending_inbound pending_accept]. rewrite app_nil_r. split; [|split].
    + intros id' s'. rewrite lookup_insert_Some, Hi, elem_snoc. naive_solver.
    + intros id' w'. rewrite Ha, fst_snoc. split; [|naive_solver]. intros [H1 H2]. split; [done|].
      split; [done|]. intros ->. by apply (proj1 (not_fst _ _) Hw w').
    + intros w' s'. rewrite Ho. setoid_rewrite elem_snoc. split; [naive_solver|].
      intros (id' & Hw' & [?|[-> ->]]); [eauto|]. exfalso. by apply (proj1 (not_fst _ _) Hw w').
Qed.

Lemma inv_accept arr ws m out id w :
  inv arr ws m out -> id ∉ ws.*1 -> NoDup arr.*1 ->
  let (m', l) := register_accept id w m in inv arr (ws ++ [(id, w)]) m' (out ++ l).
Proof.
  intros (Hn & Hi & Ha & Ho) Hf Hnd. unfold register_accept.
  pose proof (proj1 (not_fst ws id) Hf) as Hf'.
  destruct (pending_inbound m !! id) as [s|] eqn:E.
  - apply Hi in E as [Hs _].
    split; [done|]. cbn [pending_inbound pending_accept]. split; [|split].
    + intros id' s'. rewrite lookup_delete_Some, Hi, fst_snoc. naive_solver.
    + intros id' w'. rewrite Ha, elem_snoc. split; [naive_solver|]. intros [[?|[-> ->]] Hid]; [done|].
      exfalso. by apply (proj1 (not_fst _ _) Hid s).
    + intros w' s'. rewrite elem_of_app, Ho, list_elem_of_singleton. setoid_rewrite elem_snoc. split.
      * intros [(id' & ? & ?)|[= -> ->]]; eauto 10.
      * intros (id' & [?|[-> ->]] & Hs'); [eauto|]. right. f_equal.
        clear -Hs Hs' Hnd. apply list_elem_of_lookup in Hs as [i Hi], Hs' as [j Hj].
        assert (i = j) as -> by (eapply (NoDup_lookup arr.*1); rewrite ?list_lookup_fmap, ?Hi, ?Hj; done).
        congruence.
  - assert (id ∉ arr.*1) as Hs.
    { apply not_fst. intros s Hs. assert (pending_inbound m !! id = Some s) by (by apply Hi). congruence. }
    split; [done|]. cbn [pending_inbound pending_accept]. rewrite app_nil_r. split; [|split].
    + intros id' s'. rewrite Hi, fst_snoc. split; [|naive_solver]. intros [H1 H2]. split; [done|].
      split; [done|]. intros ->. by apply (proj1 (not_fst _ _) Hs s').
    + intros id' w'. rewrite lookup_insert_Some, Ha, elem_snoc. naive_solver.
    + intros w' s'. rewrite Ho. setoid_rewrite elem_snoc. split; [naive_solver|].
      intros (id' & [?|[-> ->]] & Hs'); [eauto|]. exfalso. by apply (proj1 (not_fst _ _) Hs s').
Qed.

Lemma rendezvous_inv_run ops :
  no_notify ops -> NoDup (arrivals ops).*1 -> NoDup (waits ops).*1 ->
  inv (arrivals ops) (waits ops) (run ops).1 (run ops).2.
Proof.
  unfold run, arrivals, waits. induction ops as [|o ops IH] using rev_ind; intros Hno Hna Hnw.
  - split; [done|]. cbn. repeat split; intros; try (by apply lookup_empty_Some in H);
      try (by destruct H as [H _]; apply not_elem_of_nil in H); try (by apply not_elem_of_nil in H);
      destruct H as (? & H & _); by apply not_elem_of_nil in H.
  - apply Forall_app in Hno as [Hno Ho]. rewrite omap_app, fmap_app in Hna. rewrite omap_app, fmap_app in Hnw.
    apply NoDup_app in Hna as (Hna & Hna' & _). apply NoDup_app in Hnw as (Hnw & Hnw' & _).
    specialize (IH Hno Hna Hnw). rewrite foldl_snoc, !omap_app.
    destruct (foldl step (new, []) ops) as [m out]. cbn [fst snd] in IH. inversion_clear Ho as [|?? Ho' _].
    destruct o as [id s|id w|]; [..|done]; cbn [omap list_omap option_bind] in *; rewrite ?app_nil_r; cbn [step].
    + pose proof (inv_arrive _ _ _ _ id s IH) as H. destruct (insert_inbound id s m).
      apply H; [|done]. intros Hin. apply (Hna' _ Hin). by left.
    + pose proof (inv_accept _ _ _ _ id w IH) as H. destruct (register_accept id w m).
      apply H; [|done]. intros Hin. apply (Hnw' _ Hin). by left.
Qed.

(** the rendezvous loses no stream. For any order of arrivals and accepts in which
    an id arrives at most once and is awaited at most once, a waiter
    receives a stream exactly when a stream with its id has arrived, before or
    after it began to wait; the other streams stay in store and the other
    waiters stay registered. *)
Theorem rendezvous_pairs ops :
  no_notify ops -> NoDup (arrivals ops).*1 -> NoDup (waits ops).*1 ->
  let (m, delivered) := run ops in
  (forall w s, (w, s) ∈ delivered <-> exists id, (id, w) ∈ waits ops /\ (id, s) ∈ arrivals ops) /\
  (forall id s, pending_inbound m !! id = Some s <-> (id, s) ∈ arrivals ops /\ id ∉ (waits ops).*1) /\
  (forall id w, pending_accept m !! id = Some w <-> (id, w) ∈ waits ops /\ id ∉ (arrivals ops).*1).
Proof.
  intros Hno Ha Hw. pose proof (rendezvous_inv_run ops Hno Ha Hw) as H.
  destruct (run ops) as [m out]. destruct H as (_ & ? & ? & ?). done.
Qed.
End rendezvous.
Lemma rendezvous_pairs_witness :
  let ops := [Accept 7 1%N; Arrive 8 20%N; Arrive 7 10%N; Accept 8 2%N] in
  no_notify ops /\ (1%N, 10%N) ∈ (run ops).2.
Proof.
  intros ops. assert (no_notify ops) as H1 by repeat constructor.
  assert (NoDup (arrivals ops).*1) as H2 by (apply (bool_decide_unpack _); vm_compute; exact I).
  assert (NoDup (waits ops).*1) as H3 by (apply (bool_decide_unpack _); vm_compute; exact I).
  split; [exact H1|]. destruct (rendezvous_pairs ops H1 H2 H3) as [H _]. apply H. exists 7.
  split; apply (bool_decide_unpack _); vm_compute; exact I.
Defined.
End Rendezvous.

(** ** [local_tensor_stream/mod.rs] *)
Module LocalStreamHub.
Section hub.
Context {Stream Waiter : Type}.

Record LocalStreamHub : Type := mk_LocalStreamHub {
    pending : gmap string Stream;
    notifiers : gmap string Waiter;
}.
Definition new : LocalStreamHub := mk_LocalStreamHub ∅ ∅.

(** The critical sections of [open]: the one on [notifiers], and, when nobody
    waits, the one on [pending]. *)
Definition open_notify (id : string) (h : LocalStreamHub) : option Waiter * LocalStreamHub :=
  match notifiers h !! id with
  | Some tx => (Some tx, mk_LocalStreamHub (pending h) (delete id (notifiers h)))
  | None => (None, h)
  end.
Definition open_store (id : string) (remote : Stream) (h : LocalStreamHub) : LocalStreamHub :=
  mk_LocalStreamHub (<[id := remote]> (pending h)) (notifiers h).
(** The critical sections of [accept_async]: the check of [pending], the
    registration, and the clean-up after the timeout. *)
Definition accept_check (id : string) (h : LocalStreamHub) : option Stream * LocalStreamHub :=
  match pending h !! id with
  | Some s => (Some s, mk_LocalStreamHub (delete id (pending h)) (notifiers h))
  | None => (None, h)
  end.
Definition accept_register (id : string) (tx : Waiter) (h : LocalStreamHub) : LocalStreamHub :=
  mk_LocalStreamHub (pending h) (<[id := tx]> (notifiers h)).
Definition accept_cleanup (id : string) (h : LocalStreamHub) : LocalStreamHub :=
  mk_LocalStreamHub (pending h) (delete id (notifiers h)).
(** One turn of the polling loop of [accept]. *)
Definition accept_poll (id : string) (h : LocalStreamHub) : option Stream * LocalStreamHub :=
  accept_check id h.

(** One opener and one acceptor of the same id, and where they stand. *)
Inductive opener : Type := Open_start | Open_unnoticed | Open_done.
Inductive acceptor : Type := Accept_start | Accept_unregistered | Accept_waiting | Accept_got (s : Stream) | Accept_timeout.
Record world : Type := mk_world { hub : LocalStreamHub; op : opener; ac : acceptor }.

Inductive thread : Set := O | A.
Definition thread_eq_dec : forall x y : thread, {x = y} + {x <> y}.
Proof. decide equality. Defined.
Section threads.
Context (id : string) (s : Stream) (w : Waiter).
Definition step (x : world) (t : thread) : world :=
  match t with
  | O =>
      match op x with
      | Open_start =>
          match open_notify id (hub x) with
          | (Some _, h) => mk_world h Open_done (Accept_got s)
          | (None, h) => mk_world h Open_unnoticed (ac x)
          end
      | Open_unnoticed => mk_world (open_store id s (hub x)) Open_done (ac x)
      | Open_done => x
      end
  | A =>
      match ac x with
      | Accept_start =>
          match accept_check id (hub x) with
          | (Some s, h) => mk_world h (op x) (Accept_got s)
          | (None, h) => mk_world h (op x) Accept_unregistered
          end
      | Accept_unregistered => mk_world (accept_register id w (hub x)) (op x) Accept_waiting
      | _ => x
      end
  end.
(** The timer of the acceptor fires. *)
Definition timeout (x : world) : world :=
  match ac x with
  | Accept_waiting => mk_world (accept_cleanup id (hub x)) (op x) Accept_timeout
  | _ => x
  end.
Definition start : world := mk_world new Open_start Accept_start.
Definition run (sched : list thread) : world := foldl step start sched.
End threads.

Definition atomic (sched : list thread) : Prop := sched = [O; O; A; A] \/ sched = [A; A; O; O].

Lemma schedules (sched : list thread) :
  sched ≡ₚ [O; O; A; A] ->
  sched ∈ [[O; O; A; A]; [O; A; O; A]; [O; A; A; O]; [A; O; O; A]; [A; O; A; O]; [A; A; O; O]].
Proof.
  intros HP. pose proof (Permutation_length HP) as Hl.
  pose proof (proj1 (Permutation_count_occ thread_eq_dec _ _) HP) as Hc.
  pose proof (Hc O) as HO. pose proof (Hc A) as HA. clear HP Hc.
  destruct sched as [|[] [|[] [|[] [|[] [|? ?]]]]]; try discriminate;
    repeat first [by left | right].
Qed.

Section outcomes.
Context (id : string) (s : Stream) (w : Waiter).
(** Both ends present, neither knowing of the other. *)
Definition lost : world := mk_world (mk_LocalStreamHub (<[id := s]> ∅) (<[id := w]> ∅)) Open_done Accept_waiting.
Ltac run_threads :=
  unfold run, start, new; cbn [foldl];
  repeat (unfold step at 1; cbn [op ac hub];
          unfold open_notify, accept_check, open_store, accept_register; cbn [pending notifiers];
          rewrite ?lookup_empty, ?lookup_insert_eq; cbn [pending notifiers hub op ac]).
Lemma run_open_first : run id s w [O; O; A; A]
  = mk_world (mk_LocalStreamHub (delete id (<[id := s]> ∅)) ∅) Open_done (Accept_got s).
Proof. run_threads. reflexivity. Qed.
Lemma run_accept_first : run id s w [A; A; O; O]
  = mk_world (mk_LocalStreamHub ∅ (delete id (<[id := w]> ∅))) Open_done (Accept_got s).
Proof. run_threads. reflexivity. Qed.
Lemma run_lost : Forall (fun sched => run id s w sched = lost)
  [[O; A; O; A]; [O; A; A; O]; [A; O; O; A]; [A; O; A; O]].
Proof. repeat constructor; run_threads; reflexivity. Qed.
Lemma lost_timeout :
  ac (timeout id lost) = Accept_timeout /\ (accept_poll id (hub (timeout id lost))).1 = Some s.
Proof.
  split; [reflexivity|]. unfold timeout, lost, accept_poll, accept_check, accept_cleanup.
  cbn [ac hub pending notifiers]. by rewrite lookup_insert_eq.
Qed.
Lemma lost_spec (P : Prop) :
  ac (timeout id lost) = Accept_timeout /\ (accept_poll id (hub (timeout id lost))).1 = Some s ->
  ~ P ->
  op lost = Open_done /\ (ac lost = Accept_got s <-> P) /\
  (~ P -> ac lost = Accept_waiting /\ pending (hub lost) !! id = Some s /\ notifiers (hub lost) !! id = Some w /\
     ac (timeout id lost) = Accept_timeout /\ (accept_poll id (hub (timeout id lost))).1 = Some s).
Proof.
  intros [T1 T2] HP. split; [reflexivity|]. split; [split; [discriminate|by intros ?%HP]|].
  intros _. split; [reflexivity|]. unfold lost at 1 2. cbn [hub pending notifiers].
  by rewrite !lookup_insert_eq.
Qed.
End outcomes.

(** C39: the hub can lose a wake-up. When one task opens a stream and another
    awaits it, the two are paired exactly when one of the two operations
    runs before the other one starts. In each of the four other interleavings
    of their critical sections the opener succeeds, its stream lies in [pending],
    the acceptor waits on a notifier nobody will fire, and its timeout fails it while the
    stream is there for a polling [accept] to take. *)
Theorem open_accept_race id (s : Stream) (w : Waiter) sched :
  sched ≡ₚ [O; O; A; A] ->
  let x := run id s w sched in
  op x = Open_done /\
  (ac x = Accept_got s <-> atomic sched) /\
  (~ atomic sched ->
     ac x = Accept_waiting /\ pending (hub x) !! id = Some s /\ notifiers (hub x) !! id = Some w /\
     ac (timeout id x) = Accept_timeout /\ (accept_poll id (hub (timeout id x))).1 = Some s).
Proof.
  intros HP%schedules x. unfold x, atomic. clear x.
  pose proof (run_lost id s w) as Hl. rewrite !Forall_cons in Hl. destruct Hl as (L1 & L2 & L3 & L4 & _).
  destruct (lost_timeout id s w) as [T1 T2].
  rewrite !elem_of_cons in HP. destruct HP as [->|[->|[->|[->|[->|[->|HP]]]]]].
  - rewrite run_open_first. split; [reflexivity|]. split; [by split; [left|]|]. intros H; exfalso; apply H; by left.
  - rewrite L1. apply lost_spec; [done|]. by intros [|].
  - rewrite L2. apply lost_spec; [done|]. by intros [|].
  - rewrite L3. apply lost_spec; [done|]. by intros [|].
  - rewrite L4. apply lost_spec; [done|]. by intros [|].
  - rewrite run_accept_first. split; [reflexivity|]. split; [by split; [right|]|]. intros H; exfalso; apply H; by right.
  - by apply not_elem_of_nil in HP.
Qed.
End hub.
Lemma open_accept_race_witness :
  [O; A; O; A] ≡ₚ [O; O; A; A] /\ ac (run (Waiter:=N) "ml-1" 5%N 6%N [O; A; O; A]) = Accept_waiting.
Proof.
  assert ([O; A; O; A] ≡ₚ [O; O; A; A]) as H by (repeat constructor).
  split; [exact H|].
  refine (proj1 (proj2 (proj2 (open_accept_race (Waiter:=N) "ml-1" 5%N 6%N [O; A; O; A] H)) _)).
  intros [|]; discriminate.
Defined.
End LocalStreamHub.
