(* ===== verification/KvCache.v ===== *)
(** * Tensors as bytes ([Src/ML_Engine/context.rs], [Src/ML_Engine/lua_tensor.rs])

    The KVCX file of an offloaded session and the tensor bytes exchanged with
    Lua and with other nodes.  candle is outside: [Candle] names the calls the
    code makes, and [Candle_Laws] what its documentation says of them.  An
    [f32] or [u32] element is its 32 bits. Error texts are shortened to the
    failing step. *)
From S2P Require Import Prelude RustStd Wire Cursor.

Inductive DType : Set := F32 | U32 | OtherDType.
Class Candle (T Dev : Type) : Type := {
    cpu : Dev;
    dims : T -> list Z;
    dtype : T -> DType;
    to_dtype_f32 : T -> result string T;
    to_device : T -> Dev -> result string T;
    reshape : T -> list Z -> result string T;
    (** [to_vec1], the bits of the elements *)
    to_vec1 : T -> result string (list Z);
    (** [Tensor::from_vec(data, shape, device)] *)
    from_vec : DType -> list Z -> list Z -> Dev -> result string T;
}.
Definition product (l : list Z) : Z := foldr Z.mul 1 l.

(** [to_vec1] wants a tensor of rank one, [from_vec] as many elements as the
    shape has; flattening loses nothing. *)
Class Candle_Laws (T Dev : Type) `{!Candle T Dev} : Prop := {
    to_dtype_dims t t' : to_dtype_f32 t = Ok t' -> dims t' = dims t;
    to_vec1_rank t l : to_vec1 t = Ok l -> dims t = [zlen l];
    to_vec1_words t l : to_vec1 t = Ok l -> Forall (in_range 32) l;
    from_vec_size d l s dev t : from_vec d l s dev = Ok t -> zlen l = product s;
    reshape_flat t : exists t' l,
      reshape t [product (dims t)] = Ok t' /\ to_vec1 t' = Ok l /\ zlen l = product (dims t) /\
      forall dev, from_vec (dtype t) l (dims t) dev = to_device t dev;
}.

Definition words_to_bytes (l : list Z) : bytes := concat (map (to_le_bytes 4) l).
(** [from_raw_parts(raw.as_ptr() as *const f32, n)] *)
Fixpoint bytes_to_words (n : nat) (b : bytes) : list Z :=
  match n with
  | O => []
  | S n => from_le_bytes (take 4 b) :: bytes_to_words n (drop 4 b)
  end.

Lemma words_roundtrip l : Forall (in_range 32) l -> bytes_to_words (length l) (words_to_bytes l) = l.
Proof.
  induction 1 as [|w l Hw Hl IH]; [done|]. cbn [length bytes_to_words words_to_bytes map concat].
  rewrite take_app_length', drop_app_length' by (symmetry; apply length_to_le_bytes).
  rewrite from_to_le_id by exact Hw. by f_equal.
Qed.
Lemma zlen_words l : zlen (words_to_bytes l) = 4 * zlen l.
Proof.
  induction l as [|w l IH]; [done|]. cbn [words_to_bytes map concat].
  change (concat _) with (words_to_bytes l). zlens.
Qed.
Lemma length_bytes_to_words n b : length (bytes_to_words n b) = n.
Proof. revert b. induction n as [|n IH]; intros b; cbn; [done|]. by rewrite IH. Qed.

(** ** The header of a KVCX file *)
Definition write_u32_le (buf : bytes) (v : Z) : bytes := buf ++ to_le_bytes 4 (wrap 32 v).
Definition write_u64_le (buf : bytes) (v : Z) : bytes := buf ++ to_le_bytes 8 v.
Definition KVCX_MAGIC : bytes := as_bytes "KVCX".
Definition KVCX_VERSION : Z := 1.
Definition eof (_ _ : Z) : string := "unexpected EOF".

Record kv_header : Type := mk_kv_header {
    kv_model_path : string;
    kv_start : Z;
    kv_end : Z;
    kv_rng_state : Z;
    kv_offset : Z;
    kv_eos : Z;
    kv_chat_template : option string;
}.
(** [model_path] is UTF-8: its lossy text is itself. *)
Definition serialize_header (h : kv_header) : bytes :=
  let buf := KVCX_MAGIC in
  let buf := write_u32_le buf KVCX_VERSION in
  let path := as_bytes (kv_model_path h) in
  let buf := write_u32_le buf (zlen path) ++ path in
  let buf := write_u32_le buf (kv_start h) in
  let buf := write_u32_le buf (kv_end h) in
  let buf := write_u64_le buf (kv_rng_state h) in
  let buf := write_u64_le buf (kv_offset h) in
  let buf := write_u32_le buf (kv_eos h) in
  let ct := as_bytes (default ""%string (kv_chat_template h)) in
  write_u32_le buf (zlen ct) ++ ct.

Definition check_kv (b : bool) (e : string) : cursor string unit := if b then mret tt else cfail e.
Definition template_of (ct_bytes : bytes) : cursor string (option string) :=
  match ct_bytes with
  | [] => mret None
  | _ => t ← cutf8 "invalid utf8 in chat_template"%string ct_bytes; mret (Some t)
  end.
Definition deserialize_header : cursor string kv_header :=
  magic ← read_bytes eof 4;
  _ ← check_kv (bool_decide (magic = KVCX_MAGIC)) "bad magic: not a KVCX file"%string;
  version ← cread_le eof 4;
  _ ← check_kv (version =? KVCX_VERSION) "unsupported version"%string;
  path_len ← cread_le eof 4;
  path_bytes ← read_bytes eof path_len;
  path ← cutf8 "invalid utf8 in model_path"%string path_bytes;
  start ← cread_le eof 4;
  end_ ← cread_le eof 4;
  rng ← cread_le eof 8;
  off ← cread_le eof 8;
  eos ← cread_le eof 4;
  ct_len ← cread_le eof 4;
  ct_bytes ← read_bytes eof ct_len;
  ct ← template_of ct_bytes;
  mret (mk_kv_header path start end_ rng off eos ct).

(** ** Tensors *)
(** Reading past the end of a slice through a raw pointer is undefined. *)
Inductive mem_fault : Type := Fail (e : string) | Panic | OutOfBounds.
(** [usize] arithmetic with ([chk]) and without overflow checks. *)
Definition usize (chk : bool) (z : Z) : result mem_fault Z :=
  if in_rangeb 64 z then Ok z else if chk then Err Panic else Ok (wrap 64 z).
Fixpoint usize_product (chk : bool) (acc : Z) (l : list Z) : result mem_fault Z :=
  match l with
  | [] => Ok acc
  | d :: l => acc ← usize chk (acc * d); usize_product chk acc l
  end.

Section tensors.
Context {T Dev : Type} `{!Candle T Dev}.

Definition serialize_tensor (buf : bytes) (t : T) : result string bytes :=
  t_f32 ← to_dtype_f32 t;
  flat ← to_vec1 t_f32;
  let buf := write_u32_le buf (zlen (dims t_f32)) in
  let buf := foldl write_u64_le buf (dims t_f32) in
  let buf := write_u64_le buf (zlen flat) in
  Ok (buf ++ words_to_bytes flat).

Definition clift {A} (m : result string A) : cursor string A :=
  match m with Ok a => mret a | Err e => cfail e end.
Definition deserialize_tensor : cursor string T :=
  ndim ← cread_le eof 4;
  shape ← crepeat (Z.to_nat ndim) (cread_le eof 8);
  data_len ← cread_le eof 8;
  raw ← read_bytes eof data_len;
  let elem_count := (length raw / 4)%nat in
  clift (from_vec F32 (bytes_to_words elem_count raw) shape cpu).

Fixpoint serialize_layers (buf : bytes) (kvs : list (T * T)) : result string bytes :=
  match kvs with
  | [] => Ok buf
  | (k, v) :: kvs =>
      buf ← serialize_tensor buf k;
      buf ← serialize_tensor buf v;
      serialize_layers buf kvs
  end.
Definition serialize_kv (h : kv_header) (kvs : list (T * T)) : result string bytes :=
  serialize_layers (write_u32_le (serialize_header h) (zlen kvs)) kvs.

Definition deserialize_pair : cursor string (T * T) :=
  k ← deserialize_tensor; v ← deserialize_tensor; mret (k, v).
Definition deserialize_kv : cursor string (kv_header * list (T * T)) :=
  h ← deserialize_header;
  num_layers ← cread_le eof 4;
  kvs ← crepeat (Z.to_nat num_layers) deserialize_pair;
  mret (h, kvs).

Definition tensor_to_bytes (t : T) : result string bytes :=
  let shape := dims t in
  if bool_decide (shape = []) || existsb (Z.eqb 0) shape then Err "empty shape"%string else
  let total := product shape in
  t_flat ← reshape t [total];
  dt ← match dtype t with
       | F32 => Ok x00
       | U32 => Ok x01
       | OtherDType => Err "unsupported dtype"%string
       end;
  let buf := dt :: to_le_bytes 8 (zlen shape) ++ concat (map (to_le_bytes 8) shape) in
  flat ← to_vec1 t_flat;
  Ok (buf ++ words_to_bytes flat).

Definition dim_at (data : bytes) (i : nat) : Z :=
  let start := 9 + Z.of_nat i * 8 in from_le_bytes (slice data start (start + 8)).
(** [Vec::with_capacity] panics beyond [isize::MAX] bytes. *)
Definition bytes_to_tensor (chk : bool) (data : bytes) (device : Dev) : result mem_fault T :=
  if zlen data <? 9 then Err (Fail "data too short for header") else
  let dt := slice data 0 1 in
  let ndim := from_le_bytes (slice data 1 9) in
  dims_size ← usize chk (ndim * 8);
  header_size ← usize chk (9 + dims_size);
  if zlen data <? header_size then Err (Fail "data too short for dims") else
  if isize_max <? ndim * 8 then Err Panic else
  let shape := map (dim_at data) (seq 0 (Z.to_nat ndim)) in
  let raw_data := drop (Z.to_nat header_size) data in
  elem_count ← usize_product chk 1 shape;
  expected_bytes ← usize chk (elem_count * 4);
  if negb (zlen raw_data =? expected_bytes) then Err (Fail "data size mismatch") else
  let build d :=
    if zlen raw_data <? elem_count * 4 then Err OutOfBounds
    else map_err Fail (from_vec d (bytes_to_words (Z.to_nat elem_count) raw_data) shape device) in
  if bool_decide (dt = [x00]) then build F32
  else if bool_decide (dt = [x01]) then build U32
  else Err (Fail "unknown dtype").
End tensors.

(** ** The header round trip *)
Definition header_wf (h : kv_header) : Prop :=
  Utf8.is_str (kv_model_path h) /\ in_range 32 (str_len (kv_model_path h)) /\
  in_range 64 (kv_rng_state h) /\ in_range 64 (kv_offset h) /\ in_range 32 (kv_eos h) /\
  Utf8.is_str (default ""%string (kv_chat_template h)) /\
  in_range 32 (str_len (default ""%string (kv_chat_template h))).
Definition stored_template (o : option string) : option string :=
  match o with Some EmptyString => None | ct => ct end.
(** Block numbers keep their low 32 bits; an empty template reads back as none. *)
Definition stored_header (h : kv_header) : kv_header :=
  mk_kv_header (kv_model_path h) (wrap 32 (kv_start h)) (wrap 32 (kv_end h)) (kv_rng_state h)
    (kv_offset h) (kv_eos h)
    (stored_template (kv_chat_template h)).

Lemma parses_check b e : b = true -> parses (check_kv b e) [] tt.
Proof. intros ->. apply parses_ret. Qed.
Lemma parses_template o :
  Utf8.is_str (default ""%string o) ->
  parses (template_of (as_bytes (default ""%string o))) []
    (stored_template o).
Proof.
  destruct o as [[|c s]|]; cbn [default]; intros Hs; [apply parses_ret| |apply parses_ret].
  change (parses (t ← cutf8 "invalid utf8 in chat_template"%string (as_bytes (String c s));
                  mret (Some t)) [] (Some (String c s))).
  pskip ltac:(by apply parses_utf8). apply parses_ret.
Qed.
Lemma parses_u32 {E} (short : Z -> Z -> E) v : parses (cread_le short 4) (to_le_bytes 4 (wrap 32 v)) (wrap 32 v).
Proof. apply parses_le. by apply wrap_range. Qed.
Lemma parses_header h : header_wf h -> parses deserialize_header (serialize_header h) (stored_header h).
Proof.
  intros (Hp & Hpl & Hr & Ho & He & Hc & Hcl). unfold str_len in *.
  unfold serialize_header, write_u32_le, write_u64_le, deserialize_header, stored_header.
  rewrite (wrap_id 32 (zlen (as_bytes (kv_model_path h)))), (wrap_id 32 (kv_eos h)),
    (wrap_id 32 (zlen (as_bytes (default _ _)))), <- !app_assoc by done.
  pstep ltac:(by apply (parses_bytes' _ 4 KVCX_MAGIC)).
  pskip ltac:(by apply parses_check). pstep ltac:(apply parses_u32).
  pskip ltac:(by apply parses_check). pstep pfield. pstep pfield.
  pskip ltac:(by apply parses_utf8).
  pstep ltac:(apply parses_u32). pstep ltac:(apply parses_u32). do 4 (pstep pfield).
  eapply parses_bind; [apply parses_bytes| |by rewrite app_nil_r].
  pskip ltac:(by apply parses_template). apply parses_ret.
Qed.

(** [rejects m b]: wherever [b] stands, [m] at its start fails. *)
Definition rejects {E A} (m : cursor E A) (b : bytes) : Prop :=
  forall pre post, zlen (pre ++ b ++ post) <= isize_max ->
    exists e, m (pre ++ b ++ post) (zlen pre) = Err (Failed e).
Lemma rejects_bind {E A B} (m : cursor E A) (f : A -> cursor E B) b1 b2 a :
  parses m b1 a -> rejects (f a) b2 -> rejects (m ≫= f) (b1 ++ b2).
Proof.
  intros Hp Hr pre post Hl. unfold mbind, cursor_bind. rewrite <- app_assoc in *.
  rewrite Hp by done. specialize (Hr (pre ++ b1) post). rewrite <- !app_assoc in Hr. by apply Hr.
Qed.
Lemma rejects_here {E A B} (m : cursor E A) (f : A -> cursor E B) b :
  rejects m b -> rejects (m ≫= f) b.
Proof. intros Hr pre post Hl. unfold mbind, cursor_bind. destruct (Hr pre post Hl) as [e ->]. eauto. Qed.
Lemma rejects_start {E A} (m : cursor E A) b :
  rejects m b -> zlen b <= isize_max -> exists e, m b 0 = Err (Failed e).
Proof. intros Hr Hb. specialize (Hr [] []). rewrite app_nil_r in Hr. by apply Hr. Qed.
Lemma rejects_app {E A} (m : cursor E A) b1 b2 : rejects m b1 -> rejects m (b1 ++ b2).
Proof. intros Hr pre post Hl. rewrite <- app_assoc in *. by apply Hr. Qed.

Section kv_theorems.
Context {T Dev : Type} `{!Candle T Dev} `{!Candle_Laws T Dev}.

(** an offloaded session without key/value tensors is stored faithfully
    up to the width of the file's fields. *)
Theorem empty_kv_roundtrip h b :
  header_wf h -> serialize_kv (T:=T) h [] = Ok b -> zlen b <= isize_max ->
  deserialize_kv (T:=T) b 0 = Ok ((stored_header h, []), zlen b).
Proof.
  intros Hh [= <-] Hl. unfold write_u32_le in *.
  assert (parses (deserialize_kv (T:=T)) (serialize_header h ++ to_le_bytes 4 (wrap 32 0)) (stored_header h, [])) as Hp.
  { eapply parses_bind; [by apply parses_header| |done].
    eapply parses_bind; [apply parses_u32| |by rewrite app_nil_r].
    eapply parses_bind; [apply parses_ret| |done]. apply parses_ret. }
  specialize (Hp [] []). rewrite app_nil_r in Hp. by apply Hp.
Qed.

(** A tensor that serialises has rank one, and its length field counts
    elements where the reader takes bytes. *)
Definition vector_encoding (l : list Z) : bytes :=
  to_le_bytes 4 1 ++ to_le_bytes 8 (zlen l) ++ to_le_bytes 8 (zlen l) ++ words_to_bytes l.
Lemma serialize_tensor_inv buf t b :
  serialize_tensor buf t = Ok b -> exists l, dims t = [zlen l] /\ b = buf ++ vector_encoding l.
Proof.
  unfold serialize_tensor. intros H. inv_ok. rename x into t', x0 into l.
  exists l. rewrite <- (to_dtype_dims t t') by done. erewrite to_vec1_rank by done. split; [done|].
  unfold vector_encoding, write_u64_le, write_u32_le. cbn [foldl]. by rewrite <- !app_assoc.
Qed.
Lemma serialize_tensor_extends buf t b : serialize_tensor (T:=T) buf t = Ok b -> exists r, b = buf ++ r.
Proof. intros (l & _ & ->)%serialize_tensor_inv. eauto. Qed.
Lemma serialize_layers_extends buf kvs b :
  serialize_layers (T:=T) buf kvs = Ok b -> exists r, b = buf ++ r.
Proof.
  revert buf. induction kvs as [|[k v] kvs IH]; intros buf; cbn [serialize_layers].
  { intros [= <-]. exists []. by rewrite app_nil_r. }
  intros (b1 & [r1 ->]%serialize_tensor_extends &
    (b2 & [r2 ->]%serialize_tensor_extends & [r3 ->]%IH)%result_bind_Ok)%result_bind_Ok.
  rewrite <- !app_assoc. eauto.
Qed.
Lemma rejects_vector l :
  l <> [] -> in_range 64 (zlen l) -> rejects (deserialize_tensor (T:=T)) (vector_encoding l).
Proof.
  intros Hl Hr. unfold deserialize_tensor, vector_encoding.
  eapply rejects_bind; [by apply parses_le|].
  eapply rejects_bind.
  { replace (to_le_bytes 8 (zlen l)) with (concat (map (to_le_bytes 8) [zlen l])) by apply app_nil_r.
    apply (parses_repeat _ (to_le_bytes 8) [zlen l]). constructor; [|done]. by apply parses_le. }
  eapply rejects_bind; [by apply parses_le|].
  rewrite <- (take_drop (length l) (words_to_bytes l)). pose proof (zlen_words l) as Hw.
  eapply rejects_bind; [apply parses_bytes'; unfold zlen in *; rewrite length_take; lia|].
  intros pre post _. destruct (from_vec _ _ _ _) as [t|e] eqn:Hv; [|eexists; done]. exfalso.
  apply from_vec_size in Hv. unfold zlen in *. rewrite length_bytes_to_words, length_take in Hv.
  cbn [product foldr] in Hv. destruct l; [done|]. cbn [length] in *.
  pose proof (Nat.Div0.div_le_mono). pose proof (Nat.div_lt (S (length l) `min` length (words_to_bytes (z :: l))) 4). lia.
Qed.

(** the cache of an offloaded session is never usable: saving fails
    unless the tensors are vectors (key/value tensors have four dimensions),
    and a file that was written with a non-empty tensor cannot be loaded. *)
Theorem saved_kv_is_unreadable h k v kvs :
  header_wf h -> in_range 32 (zlen ((k, v) :: kvs)) -> 0 < product (dims k) ->
  (length (dims k) <> 1%nat -> exists e, serialize_kv (T:=T) h ((k, v) :: kvs) = Err e) /\
  (forall b, serialize_kv h ((k, v) :: kvs) = Ok b -> zlen b <= isize_max ->
     exists e, deserialize_kv (T:=T) b 0 = Err (Failed e)).
Proof.
  intros Hh Hn Hk. unfold serialize_kv. cbn [serialize_layers]. split.
  - intros Hd. destruct (serialize_tensor _ k) as [b|e] eqn:E; [|by exists e].
    apply serialize_tensor_inv in E as (l & Hl & _). by rewrite Hl in Hd.
  - intros b H Hb. inv_ok. destruct (serialize_tensor_inv _ _ _ H) as (l & Hl & ->).
    destruct (serialize_tensor_inv _ _ _ H0) as (l' & _ & ->).
    apply serialize_layers_extends in H1 as [r ->]. unfold write_u32_le in *.
    rewrite wrap_id, <- !app_assoc in * by done. rewrite Hl in Hk.
    apply rejects_start; [|done].
    eapply rejects_bind; [by apply parses_header|]. eapply rejects_bind; [by apply parses_le|].
    apply rejects_here. unfold zlen. rewrite Nat2Z.id. cbn [length crepeat].
    apply rejects_here, rejects_here, rejects_app, rejects_vector.
    + intros ->. done.
    + rewrite !zlen_app in Hb. unfold vector_encoding in Hb. rewrite !zlen_app, zlen_words in Hb.
      unfold in_range, isize_max in *. rewrite !zlen_to_le_bytes in Hb.
      repeat match goal with H : context [zlen ?x] |- _ =>
        lazymatch goal with _ : 0 <= zlen x |- _ => fail | _ => pose proof (zlen_nonneg x) end end. lia.
Qed.

(** ** Tensor bytes *)
Lemma product_pos l : Forall (fun d => 0 < d) l -> 0 < product l.
Proof. induction 1 as [|d l Hd _ IH]; cbn; [done|]. change (foldr Z.mul 1 l) with (product l). nia. Qed.
Lemma usize_product_exact chk acc l :
  Forall (fun d => 0 < d) l -> 0 < acc -> acc * product l < 2 ^ 64 ->
  usize_product chk acc l = Ok (acc * product l).
Proof.
  intros Hl. revert acc. induction Hl as [|d l Hd Hl IH]; intros acc Ha Hp; cbn [usize_product].
  { cbn. by rewrite Z.mul_1_r. }
  change (product (d :: l)) with (d * product l) in *. pose proof (product_pos l Hl).
  unfold usize, in_rangeb. replace ((0 <=? acc * d) && (acc * d <? 2 ^ 64)) with true
    by (symmetry; apply andb_true_intro; split; [apply Z.leb_le|apply Z.ltb_lt]; nia).
  cbn -[usize_product]. rewrite IH by nia. f_equal. ring.
Qed.
Lemma usize_ok chk z : in_range 64 z -> usize chk z = Ok z.
Proof.
  unfold usize, in_range, in_rangeb. intros [H1 H2].
  by rewrite (proj2 (Z.leb_le _ _) H1), (proj2 (Z.ltb_lt _ _) H2).
Qed.
Definition encodes_dtype (d : DType) : option byte :=
  match d with F32 => Some x00 | U32 => Some x01 | OtherDType => None end.
Definition tensor_encoding (dt : byte) (shape l : list Z) : bytes :=
  [dt] ++ to_le_bytes 8 (zlen shape) ++ concat (map (to_le_bytes 8) shape) ++ words_to_bytes l.

Lemma le_product d l : Forall (fun d => 0 < d) l -> d ∈ l -> d <= product l.
Proof.
  induction 1 as [|x l Hx Hl IH]; intros Hd; [by apply not_elem_of_nil in Hd|].
  change (product (x :: l)) with (x * product l). pose proof (product_pos l Hl).
  apply elem_of_cons in Hd as [->|Hd]; [nia|]. specialize (IH Hd). nia.
Qed.
Lemma zlen_dims shape : zlen (concat (map (to_le_bytes 8) shape)) = 8 * zlen shape.
Proof. induction shape as [|d s IH]; [done|]. cbn [map concat]. zlens. Qed.
Lemma dim_at_encoding hd shape rest i d :
  zlen hd = 9 -> shape !! i = Some d -> in_range 64 d ->
  dim_at (hd ++ concat (map (to_le_bytes 8) shape) ++ rest) i = d.
Proof.
  intros Hh Hi Hd. apply list_elem_of_split_length in Hi as (l1 & l2 & -> & ->).
  unfold dim_at. rewrite map_app, concat_app. cbn [map concat].
  set (pre := hd ++ concat (map (to_le_bytes 8) l1)).
  replace (hd ++ _) with (pre ++ to_le_bytes 8 d ++ (concat (map (to_le_bytes 8) l2) ++ rest))
    by (unfold pre; by rewrite <- !app_assoc).
  replace (9 + Z.of_nat (length l1) * 8) with (zlen pre)
    by (unfold pre; rewrite zlen_app, zlen_dims; unfold zlen at 2; lia).
  replace (zlen pre + 8) with (zlen pre + zlen (to_le_bytes 8 d)) by (by rewrite zlen_to_le_bytes).
  rewrite slice_app. by apply from_to_le_id.
Qed.
Definition shape_fits (shape : list Z) : Prop :=
  0 < zlen shape < 2 ^ 32 /\ Forall (fun d => 0 < d) shape /\ product shape < 2 ^ 60.
Lemma dims_at_encoding hd shape rest :
  zlen hd = 9 -> shape_fits shape ->
  map (dim_at (hd ++ concat (map (to_le_bytes 8) shape) ++ rest)) (seq 0 (length shape)) = shape.
Proof.
  intros Hh (_ & Hpos & Hprod). apply list_eq. intros i. rewrite list_lookup_fmap.
  destruct (shape !! i) as [d|] eqn:Hi.
  - rewrite lookup_seq_lt by (apply lookup_lt_Some in Hi; lia). cbn. f_equal.
    apply dim_at_encoding; [done..|]. apply list_elem_of_lookup_2 in Hi.
    assert (0 < d) by exact (proj1 (Forall_forall _ _) Hpos d Hi). pose proof (le_product _ _ Hpos Hi).
    unfold in_range. lia.
  - apply lookup_ge_None in Hi. by rewrite lookup_seq_ge.
Qed.
Lemma bytes_to_tensor_encoding chk dt d shape l dev :
  encodes_dtype d = Some dt -> shape_fits shape -> zlen l = product shape -> Forall (in_range 32) l ->
  bytes_to_tensor chk (tensor_encoding dt shape l) dev = map_err Fail (from_vec (T:=T) d l shape dev).
Proof.
  intros Hd Hs Hl Hw. pose proof Hs as (Hn & Hpos & Hprod). pose proof (product_pos _ Hpos) as Hpp.
  unfold bytes_to_tensor, tensor_encoding.
  set (rest := concat _ ++ _).
  assert (zlen rest = 8 * zlen shape + 4 * product shape) as Hrest
    by (unfold rest; by rewrite zlen_app, zlen_dims, zlen_words, Hl).
  set (data := [dt] ++ _ ++ rest).
  assert (zlen data = 9 + zlen rest) as Hdata by (unfold data; zlens).
  assert (slice data 0 1 = [dt]) as Hdt by (apply (slice_app [] [dt])).
  assert (slice data 1 9 = to_le_bytes 8 (zlen shape)) as Hnd.
  { apply (slice_app [dt] (to_le_bytes 8 (zlen shape)) rest). }
  rewrite (proj2 (Z.ltb_ge _ _)) by lia. rewrite Hnd, from_to_le_id by (unfold in_range; lia).
  rewrite usize_ok by (unfold in_range; lia). cbn [mbind result_bind].
  rewrite usize_ok by (unfold in_range; lia). cbn [mbind result_bind].
  rewrite (proj2 (Z.ltb_ge (zlen data) _)) by lia.
  rewrite (proj2 (Z.ltb_ge isize_max _)) by (unfold isize_max; lia).
  replace (Z.to_nat (zlen shape)) with (length shape) by (unfold zlen; lia).
  assert (map (dim_at data) (seq 0 (length shape)) = shape) as ->.
  { unfold data, rest. rewrite app_assoc. apply dims_at_encoding; [zlens|done]. }
  rewrite usize_product_exact by (done || lia). cbn [mbind result_bind]. rewrite Z.mul_1_l.
  rewrite usize_ok by (unfold in_range; lia). cbn [mbind result_bind].
  assert (drop (Z.to_nat (9 + zlen shape * 8)) data = words_to_bytes l) as ->.
  { unfold data, rest. rewrite !app_assoc. apply drop_app_length'.
    pose proof (zlen_dims shape). unfold zlen in *. rewrite !length_app, length_to_le_bytes. cbn [length]. lia. }
  rewrite zlen_words, Hl. replace (4 * product shape) with (product shape * 4) by ring.
  rewrite Z.eqb_refl, Z.ltb_irrefl, Hdt. cbn [negb]. rewrite <- Hl.
  replace (Z.to_nat (zlen l)) with (length l) by (unfold zlen; lia). rewrite words_roundtrip by done.
  destruct d; [injection Hd as <-; done..|done].
Qed.

(** a tensor of 32-bit elements sent as bytes is rebuilt on the receiving
    device, on every build; empty tensors and other types are refused. *)
Theorem tensor_bytes_roundtrip t chk dev :
  shape_fits (dims t) ->
  match tensor_to_bytes t with
  | Ok b => dtype t <> OtherDType /\ bytes_to_tensor chk b dev = map_err Fail (to_device t dev)
  | Err e => dtype t = OtherDType /\ e = "unsupported dtype"%string
  end.
Proof.
  intros Hs. pose proof Hs as (Hn & Hpos & _). unfold tensor_to_bytes.
  assert (existsb (Z.eqb 0) (dims t) = false) as ->.
  { clear -Hpos. induction Hpos as [|d l Hd _ IH]; [done|]. cbn [existsb].
    rewrite (proj2 (Z.eqb_neq 0 d)) by lia. exact IH. }
  rewrite (bool_decide_false (dims t = [])) by (intros E; rewrite E in Hn; by destruct Hn). cbn [orb].
  destruct (reshape_flat t) as (t' & l & -> & Hl & Hsize & Hfrom). cbn [mbind result_bind]. rewrite Hl.
  pose proof (to_vec1_words _ _ Hl) as Hw.
  destruct (dtype t) eqn:Hd; cbn [mbind result_bind]; [..|done]; (split; [done|]);
    rewrite <- Hfrom; by apply bytes_to_tensor_encoding.
Qed.

(** with overflow checks the reader never leaves the slice; without them
    a 17-byte message that announces 2^62 elements passes every test and is
    read far beyond its end. *)
Theorem hostile_tensor_out_of_bounds (dev : Dev) :
  (forall data, bytes_to_tensor (T:=T) true data dev <> Err OutOfBounds) /\
  bytes_to_tensor (T:=T) false (x00 :: to_le_bytes 8 1 ++ to_le_bytes 8 (2 ^ 62)) dev = Err OutOfBounds.
Proof.
  split; [|reflexivity]. intros data. unfold bytes_to_tensor. intros H.
  assert (forall z, usize true z = Ok z \/ usize true z = Err Panic) as Hu
    by (intros z; unfold usize; destruct (in_rangeb 64 z); [by left|by right]).
  assert (forall l acc, usize_product true acc l <> Err OutOfBounds) as Hup.
  { induction l as [|d l IH]; intros acc; cbn [usize_product]; [done|].
    destruct (Hu (acc * d)) as [-> | ->]; [apply IH|done]. }
  case_match; [done|]. destruct (Hu (from_le_bytes (slice data 1 9) * 8)) as [E|E]; rewrite E in H; [|done].
  cbn [mbind result_bind] in H. destruct (Hu (9 + from_le_bytes (slice data 1 9) * 8)) as [E'|E']; rewrite E' in H; [|done].
  cbn [mbind result_bind] in H. do 2 (case_match; [done|]).
  destruct (usize_product _ _ _) as [n|e] eqn:Hn; cbn [mbind result_bind] in H; [|injection H as ->; by apply Hup in Hn].
  destruct (Hu (n * 4)) as [E2|E2]; rewrite E2 in H; [|done]. cbn [mbind result_bind] in H.
  destruct (Z.eqb_spec (zlen (drop (Z.to_nat (9 + from_le_bytes (slice data 1 9) * 8)) data)) (n * 4)) as [Hz|]; [|done].
  rewrite Hz, Z.ltb_irrefl in H. cbn [negb] in H.
  repeat (case_match; try done); destruct (from_vec _ _ _ _); done.
Qed.
End kv_theorems.

(** ** A concrete tensor library *)
Module Plain.
Record tensor : Type := mk_tensor { shape : list nat; elem : DType; data : list Z }.
Definition size (t : tensor) : nat := foldr Nat.mul 1%nat (shape t).
Definition words (t : tensor) : list Z :=
  map (wrap 32) (take (size t) (data t ++ repeat 0 (size t))).
Definition sizes (t : tensor) : list Z := map Z.of_nat (shape t).
Definition build (d : DType) (l s : list Z) : result string tensor :=
  if forallb (Z.leb 0) s && (zlen l =? product s)
  then Ok (mk_tensor (map Z.to_nat s) d l) else Err "shape mismatch"%string.
#[global] Instance plain_candle : Candle tensor unit := {
    cpu := tt;
    dims := sizes;
    dtype := elem;
    to_dtype_f32 t := Ok (mk_tensor (shape t) F32 (words t));
    to_device t _ := Ok (mk_tensor (shape t) (elem t) (words t));
    reshape t s := build (elem t) (words t) s;
    to_vec1 t := match shape t with [_] => Ok (words t) | _ => Err "unexpected rank"%string end;
    from_vec d l s _ := build d l s;
}.

Lemma product_sizes t : product (sizes t) = Z.of_nat (size t).
Proof. unfold sizes, size. induction (shape t) as [|d s IH]; cbn; [done|]. rewrite Nat2Z.inj_mul. by rewrite <- IH. Qed.
Lemma zlen_words_plain t : zlen (words t) = Z.of_nat (size t).
Proof. unfold words, zlen. rewrite length_map, length_take, length_app, repeat_length. lia. Qed.
Lemma words_range t : Forall (in_range 32) (words t).
Proof. unfold words. apply Forall_fmap, Forall_true. intros z. by apply wrap_range. Qed.
Lemma words_normal s d t : foldr Nat.mul 1%nat s = size t -> words (mk_tensor s d (words t)) = words t.
Proof.
  intros Hs. unfold words at 1, size. cbn [shape data]. rewrite Hs.
  rewrite take_app_length' by (pose proof (zlen_words_plain t); unfold zlen in *; lia).
  rewrite <- (map_id (words t)) at 2. apply map_ext_Forall.
  eapply Forall_impl; [apply words_range|]. intros z. apply wrap_id.
Qed.
#[global] Instance plain_laws : Candle_Laws tensor unit.
Proof.
  split; cbn.
  - by intros t t' [= <-].
  - intros t l. destruct (shape t) as [|n [|]] eqn:Hs; [done| |done]. intros [= <-].
    rewrite zlen_words_plain. unfold sizes, size. rewrite Hs. cbn. by rewrite Nat.mul_1_r.
  - intros t l. destruct (shape t) as [|n [|]]; [done| |done]. intros [= <-]. apply words_range.
  - intros d l s dev t. unfold build. destruct (Z.eqb_spec (zlen l) (product s)); [done|].
    by rewrite andb_false_r.
  - intros t. exists (mk_tensor [size t] (elem t) (words t)), (words t).
    rewrite product_sizes. unfold build. cbn [forallb product foldr].
    rewrite Z.mul_1_r, zlen_words_plain, Z.eqb_refl, (proj2 (Z.leb_le 0 _)) by lia. cbn [andb map].
    rewrite Nat2Z.id. repeat split.
    + f_equal. apply words_normal. cbn. lia.
    + intros _. change (foldr Z.mul 1 (sizes t)) with (product (sizes t)).
      rewrite product_sizes, Z.eqb_refl, andb_true_r. unfold sizes.
      replace (forallb (Z.leb 0) (map Z.of_nat (shape t))) with true.
      * rewrite map_map. f_equal. f_equal. rewrite <- map_id. apply map_ext, Nat2Z.id.
      * induction (shape t) as [|n s IH]; [done|]. cbn [map forallb]. rewrite <- IH.
        by rewrite (proj2 (Z.leb_le 0 _)) by lia.
Qed.
Definition layer : tensor := mk_tensor [1; 2; 1; 2]%nat F32 [1; 2; 3; 4].
Definition flat : tensor := mk_tensor [4]%nat F32 [1; 2; 3; 4].
Definition header : kv_header := mk_kv_header "m.gguf" 1 4 42 7 2 (Some ""%string).
End Plain.

Lemma empty_kv_roundtrip_witness :
  exists b, serialize_kv (T:=Plain.tensor) (Dev:=unit) Plain.header [] = Ok b /\
    deserialize_kv (T:=Plain.tensor) (Dev:=unit) b 0 = Ok ((stored_header Plain.header, []), zlen b).
Proof.
  eexists. split; [reflexivity|].
  apply empty_kv_roundtrip; [|reflexivity|vm_compute; discriminate].
  repeat split; vm_compute; congruence.
Defined.
Lemma saved_kv_is_unreadable_witness :
  (exists e, serialize_kv (Dev:=unit) Plain.header [(Plain.layer, Plain.layer)] = Err e) /\
  exists b e, serialize_kv (Dev:=unit) Plain.header [(Plain.flat, Plain.flat)] = Ok b /\
    deserialize_kv (T:=Plain.tensor) (Dev:=unit) b 0 = Err (Failed e).
Proof.
  split.
  - apply saved_kv_is_unreadable; [repeat split; vm_compute; congruence|vm_compute; split; congruence|reflexivity|discriminate].
  - destruct (serialize_kv (Dev:=unit) Plain.header [(Plain.flat, Plain.flat)]) as [b|] eqn:E; [|discriminate E].
    exists b. destruct (proj2 (saved_kv_is_unreadable (Dev:=unit) Plain.header Plain.flat Plain.flat []
      ltac:(repeat split; vm_compute; congruence) ltac:(vm_compute; split; congruence) eq_refl) b E) as [e He];
      [injection E as <-; vm_compute; discriminate|]. eauto.
Defined.
Lemma tensor_bytes_roundtrip_witness :
  exists b, tensor_to_bytes (Dev:=unit) Plain.layer = Ok b /\
    bytes_to_tensor false b tt = Ok Plain.layer.
Proof.
  assert (shape_fits (dims (Dev:=unit) Plain.layer)) as Hs by (repeat split; try reflexivity; repeat constructor).
  pose proof (tensor_bytes_roundtrip Plain.layer false tt Hs) as H.
  destruct (tensor_to_bytes (Dev:=unit) Plain.layer) as [b|] eqn:E; [|discriminate E].
  exists b. split; [reflexivity|]. etransitivity; [exact (proj2 H)|reflexivity].
Defined.
