(* ===== verification/ChatTemplate.v ===== *)
(** * Chat templates ([Src/ML_Engine/context.rs])

    The rewriting of Python string calls into template filters and the
    fallback prompt.  Rendering itself ([minijinja]) is a parameter.  Offsets
    are byte offsets; every cut of the code is next to an ASCII character or
    after a whole one, so no slice panics. *)
From S2P Require Import Prelude RustStd.

Definition lit (s : string) : bytes := as_bytes s.
Definition SPLIT : bytes := lit ".split(".

(** [find_matching_paren]: [depth - 1] in the code is never below zero. *)
Fixpoint find_paren (i depth : nat) (in_single in_double : bool) (s : bytes) : option nat :=
  match s with
  | [] => None
  | c :: s =>
      if decide (c = "'"%byte) then
        find_paren (S i) depth (if in_double then in_single else negb in_single) in_double s
      else if decide (c = x22) then
        find_paren (S i) depth in_single (if in_single then in_double else negb in_double) s
      else if negb in_single && negb in_double then
        if decide (c = "("%byte) then find_paren (S i) (S depth) in_single in_double s
        else if decide (c = ")"%byte) then
          match depth with
          | O | 1%nat => Some i
          | S depth => find_paren (S i) depth in_single in_double s
          end
        else find_paren (S i) depth in_single in_double s
      else find_paren (S i) depth in_single in_double s
  end.
Definition find_matching_paren (s : bytes) : option nat := find_paren 0 1 false false s.

(** [rest.chars().next().map_or(0, |c| c.len_utf8())] *)
Definition first_char_len (s : bytes) : nat :=
  match s with
  | [] => 0
  | b :: _ => if bz b <? 0x80 then 1 else if bz b <? 0xE0 then 2 else if bz b <? 0xF0 then 3 else 4
  end.

(** One round of the loop, from [i]: the text pushed and the text from the
    next [i] on. *)
Definition rewrite_round (t : bytes) : bytes * bytes :=
  match Str.find SPLIT t with
  | Some pos =>
      let after := drop (pos + length SPLIT) t in
      match find_matching_paren after with
      | Some e =>
          let args := take (S e) after in
          let rest := drop (S e) after in
          if Str.starts_with (lit "[0]") rest then
            (take pos t ++ lit " | split(" ++ args ++ lit " | first", drop 3 rest)
          else if Str.starts_with (lit "[-1]") rest then
            (take pos t ++ lit " | split(" ++ args ++ lit " | last", drop 4 rest)
          else
            let n := first_char_len rest in
            (take pos t ++ SPLIT ++ args ++ take n rest, drop n rest)
      | None => (t, [])
      end
  | None => (t, [])
  end.
Fixpoint rewrite_loop (fuel : nat) (t : bytes) : bytes :=
  match fuel, t with
  | O, _ | _, [] => []
  | S fuel, _ => let '(out, t) := rewrite_round t in out ++ rewrite_loop fuel t
  end.
Definition rewrite_split_index (template : bytes) : bytes :=
  rewrite_loop (length template) template.

Definition METHODS : list bytes :=
  [lit "startswith"; lit "endswith"; lit "split"; lit "lstrip"; lit "rstrip"; lit "strip"].
Definition pat (m : bytes) : bytes := lit "." ++ m ++ lit "(".
Definition repl (m : bytes) : bytes := lit " | " ++ m ++ lit "(".
Definition rewrite_python_str_methods (template : bytes) : bytes :=
  foldl (fun out m => Str.replace (pat m) (repl m) out) (rewrite_split_index template) METHODS.

Record Message : Type := mk_message { role : bytes; content : bytes }.
Definition fallback_qwen3_template (messages : list Message) : bytes :=
  foldl (fun r m => r ++ lit "<|im_start|>" ++ role m ++ [x0a] ++ content m ++ lit "<|im_end|>" ++ [x0a])
    [] messages ++ lit "<|im_start|>assistant" ++ [x0a].
Section apply.
(** Template text after rewriting, and messages. *)
Variable minijinja : bytes -> list Message -> result string bytes.
Definition render_with_minijinja (tmpl : bytes) (messages : list Message) : result string bytes :=
  minijinja (rewrite_python_str_methods tmpl) messages.
Definition apply_chat_template (chat_template : option bytes) (messages : list Message) : bytes :=
  match chat_template with
  | Some tmpl =>
      match render_with_minijinja tmpl messages with
      | Ok r => r
      | Err _ => fallback_qwen3_template messages
      end
  | None => fallback_qwen3_template messages
  end.
End apply.

Ltac decides := apply (bool_decide_unpack _); vm_compute; exact I.

(** ** The loop *)
Lemma find_paren_lt i d sq dq s e : find_paren i d sq dq s = Some e -> (i <= e < i + length s)%nat.
Proof.
  revert i d sq dq. induction s as [|c s IH]; intros i d sq dq; [done|]. cbn [find_paren length].
  repeat case_match; intros Hf; try (apply IH in Hf; lia); injection Hf as <-; lia.
Qed.
Lemma rewrite_round_shorter t out t' :
  t <> [] -> rewrite_round t = (out, t') -> (length t' < length t)%nat.
Proof.
  intros Ht. assert (0 < length t)%nat by (destruct t; cbn; done || lia).
  unfold rewrite_round. destruct (Str.find SPLIT t) as [pos|] eqn:Hp; [|by intros [= _ <-]].
  apply Str.find_le in Hp. change (length SPLIT) with 7%nat in *.
  destruct (find_matching_paren _) as [e|]; [|by intros [= _ <-]].
  repeat case_match; intros [= _ <-]; rewrite !length_drop; lia.
Qed.
Lemma rewrite_loop_fuel f1 f2 t :
  (length t <= f1)%nat -> (length t <= f2)%nat -> rewrite_loop f1 t = rewrite_loop f2 t.
Proof.
  revert f2 t. induction f1 as [|f1 IH]; intros f2 t H1 H2.
  { destruct t; [by destruct f2|cbn in H1; lia]. }
  destruct t as [|c t]; [by destruct f2|]. destruct f2 as [|f2]; [cbn in H2; lia|]. cbn [rewrite_loop].
  destruct (rewrite_round (c :: t)) as [out t'] eqn:E.
  apply rewrite_round_shorter in E; [|done]. f_equal. apply IH; cbn [length] in *; lia.
Qed.
(** The loop terminates and satisfies its equation. *)
Lemma rewrite_split_index_eq t :
  t <> [] -> rewrite_split_index t = fst (rewrite_round t) ++ rewrite_split_index (snd (rewrite_round t)).
Proof.
  intros Ht. destruct (rewrite_round t) as [out t'] eqn:E. cbn [fst snd].
  unfold rewrite_split_index. rewrite (rewrite_loop_fuel _ (S (length t))) by lia.
  destruct t as [|c t]; [done|]. cbn [rewrite_loop]. rewrite E. f_equal.
  apply rewrite_round_shorter in E; [|done]. apply rewrite_loop_fuel; [|done]. cbn [length] in *. lia.
Qed.

Definition split_free (t : bytes) : Prop := Str.contains SPLIT t = false.
(** [args] closes the parenthesis opened before it. *)
Definition balanced (args : bytes) : Prop :=
  forall rest, find_matching_paren (args ++ lit ")" ++ rest) = Some (length args).

Lemma rewrite_round_split a args rest :
  split_free a -> balanced args ->
  rewrite_round (a ++ SPLIT ++ args ++ lit ")" ++ rest) =
    if Str.starts_with (lit "[0]") rest then
      (a ++ lit " | split(" ++ (args ++ lit ")") ++ lit " | first", drop 3 rest)
    else if Str.starts_with (lit "[-1]") rest then
      (a ++ lit " | split(" ++ (args ++ lit ")") ++ lit " | last", drop 4 rest)
    else (a ++ SPLIT ++ (args ++ lit ")") ++ take (first_char_len rest) rest, drop (first_char_len rest) rest).
Proof.
  intros Ha Hb. unfold rewrite_round.
  assert (Str.find SPLIT (a ++ SPLIT ++ args ++ lit ")" ++ rest) = Some (length a)) as ->.
  { by apply (Str.find_first "."%byte (lit "split(")); [decides|]. }
  rewrite take_app_length, app_assoc, drop_app_length' by (by rewrite length_app). rewrite Hb.
  assert (take (S (length args)) (args ++ lit ")" ++ rest) = args ++ lit ")") as ->.
  { rewrite app_assoc. apply take_app_length'. rewrite length_app. cbn. lia. }
  assert (drop (S (length args)) (args ++ lit ")" ++ rest) = rest) as ->; [|done].
  rewrite app_assoc. apply drop_app_length'. rewrite length_app. cbn. lia.
Qed.

(** what the rewriting of indexed splits does: text without a split is
    kept; the first split with a closed argument list becomes a filter when
    indexed by 0 or -1, and is otherwise kept together with one more
    character. *)
Theorem rewrite_split_index_spec a args rest :
  split_free a -> balanced args ->
  rewrite_split_index a = a /\
  rewrite_split_index (a ++ SPLIT ++ args ++ lit ")" ++ lit "[0]" ++ rest) =
    a ++ lit " | split(" ++ args ++ lit ") | first" ++ rewrite_split_index rest /\
  rewrite_split_index (a ++ SPLIT ++ args ++ lit ")" ++ lit "[-1]" ++ rest) =
    a ++ lit " | split(" ++ args ++ lit ") | last" ++ rewrite_split_index rest /\
  (Str.starts_with (lit "[0]") rest = false -> Str.starts_with (lit "[-1]") rest = false ->
   rewrite_split_index (a ++ SPLIT ++ args ++ lit ")" ++ rest) =
     a ++ SPLIT ++ args ++ lit ")" ++ take (first_char_len rest) rest ++
     rewrite_split_index (drop (first_char_len rest) rest)).
Proof.
  intros Ha Hb.
  assert (forall k, a ++ SPLIT ++ k <> []) as Hne by (intros k; by destruct a).
  split_and!.
  - destruct a as [|c a]; [done|]. rewrite rewrite_split_index_eq by done.
    unfold rewrite_round. rewrite (proj2 (Str.find_at_None _ _) Ha). cbn [fst snd]. apply app_nil_r.
  - rewrite rewrite_split_index_eq, rewrite_round_split, Str.starts_with_app by done.
    cbn [fst snd]. change (drop 3 (lit "[0]" ++ rest)) with rest. by rewrite <- !app_assoc.
  - rewrite rewrite_split_index_eq, rewrite_round_split by done.
    change (Str.starts_with (lit "[0]") (lit "[-1]" ++ rest)) with false. rewrite Str.starts_with_app.
    cbn [fst snd]. change (drop 4 (lit "[-1]" ++ rest)) with rest. by rewrite <- !app_assoc.
  - intros H0 H1. rewrite rewrite_split_index_eq, rewrite_round_split, H0, H1 by done. cbn [fst snd].
    by rewrite <- !app_assoc.
Qed.

(** ** Method calls *)
Definition plain_method (m : bytes) : Prop := ("."%byte ∉ m) /\ (" "%byte ∉ m).
Lemma pat_repl m : plain_method m ->
  (" "%byte ∉ pat m) /\ ("."%byte ∉ repl m) /\ ("."%byte ∉ m ++ lit "(").
Proof.
  intros [Hd Hs]. unfold pat, repl. rewrite !not_elem_of_app.
  repeat split; done || decides.
Qed.
Lemma foldl_replace_absent ms l m :
  Forall plain_method ms -> plain_method m ->
  m ∈ ms \/ Str.contains (pat m) l = false ->
  Str.contains (pat m) (foldl (fun out m => Str.replace (pat m) (repl m) out) l ms) = false.
Proof.
  intros Hms Hm. revert l. induction Hms as [|m' ms Hm' Hms IH]; intros l H; cbn [foldl].
  { destruct H as [H|H]; [by apply not_elem_of_nil in H|done]. }
  apply IH. destruct (pat_repl m Hm) as (H1 & _ & H3), (pat_repl m' Hm') as (_ & H2 & _).
  rewrite elem_of_cons in H. destruct H as [[->|H]|H]; [|by left|]; right.
  - by apply (Str.replace_removes "."%byte (m' ++ lit "(") " "%byte).
  - by apply (Str.replace_keeps_absent "."%byte (m ++ lit "(") (pat m') " "%byte).
Qed.

(** after the rewriting, no call of a supported Python string method is
    left in the template. *)
Theorem no_python_method_left template m :
  m ∈ METHODS -> Str.contains (pat m) (rewrite_python_str_methods template) = false.
Proof.
  intros Hm. assert (Forall plain_method METHODS) as HF.
  { unfold METHODS. repeat constructor; decides. }
  apply foldl_replace_absent; [done| |by left]. by apply (proj1 (Forall_forall _ _) HF).
Qed.

(** An indexed split is rewritten, a split that follows another one is not. *)
Lemma rewrite_split_index_spec_witness :
  rewrite_split_index (lit "x.split('</t>')[-1] y") = lit "x | split('</t>') | last y" /\
  rewrite_split_index (lit "x.split('a').split('b')[0]") = lit "x.split('a').split('b')[0]".
Proof.
  split.
  - apply (rewrite_split_index_spec (lit "x") (lit "'</t>'") (lit " y")); [reflexivity|by intros rest].
  - apply (rewrite_split_index_spec (lit "x") (lit "'a'") (lit ".split('b')[0]"));
      [reflexivity|by intros rest|reflexivity..].
Defined.
Lemma no_python_method_left_witness :
  rewrite_python_str_methods (lit "{{ m.strip().startswith('a') }}") = lit "{{ m | strip() | startswith('a') }}" /\
  Str.contains (pat (lit "strip")) (rewrite_python_str_methods (lit "{{ m.strip() }}")) = false.
Proof. split; [reflexivity|]. apply no_python_method_left. decides. Defined.
