(* ===== verification/MlSession.v ===== *)
(** * Model sessions ([Src/ML_Engine/context.rs])

    [MlSession]: loading, inference, sampling and offloading of one model.
    Tensors are candle's ([KvCache.Candle]); the weights, their loading from a
    file ([GGUF_Load_Model]) and the forward pass are parameters. An operation
    on [&mut self] returns the new state with its result, so what a failing
    operation leaves behind is part of its meaning. *)
From S2P Require Import Prelude RustStd Cursor KvCache.

(** ** Floats

    The [f64] values of the sampler: not a number, or [mant * 2^expo] with
    [mant >= 0]. A sum or a quotient is rounded to 53 bits, ties to even; the
    values met (probabilities and their sums) never leave the normal range. *)
Module F64.
Inductive f64 : Type := Fin (mant expo : Z) | NaN.

(** The 53-bit float nearest to [n / d] ([0 <= n], [0 < d]). *)
Definition scale (n d e : Z) : Z * Z := (n * 2 ^ Z.max 0 (- e), d * 2 ^ Z.max 0 e).
Definition exponent (n d : Z) : Z :=
  let k := Z.log2 n - Z.log2 d in
  let '(n', d') := scale n d k in if d' <=? n' then k else k - 1.
Definition round_div (n d : Z) : Z :=
  let q := n / d in
  let r := n mod d in
  if (d <? 2 * r) || ((d =? 2 * r) && Z.odd q) then q + 1 else q.
Definition round (n d : Z) : f64 :=
  if n =? 0 then Fin 0 0 else
  let e := exponent n d - 52 in
  let '(n', d') := scale n d e in Fin (round_div n' d') e.
Definition add (x y : f64) : f64 :=
  match x, y with
  | Fin m1 e1, Fin m2 e2 =>
      let e := Z.min e1 e2 in
      let n := m1 * 2 ^ (e1 - e) + m2 * 2 ^ (e2 - e) in
      round (n * 2 ^ Z.max 0 e) (2 ^ Z.max 0 (- e))
  | _, _ => NaN
  end.
(** [x > y]: false on a NaN *)
Definition gtb (x y : f64) : bool :=
  match x, y with
  | Fin m1 e1, Fin m2 e2 =>
      let e := Z.min e1 e2 in m2 * 2 ^ (e2 - e) <? m1 * 2 ^ (e1 - e)
  | _, _ => false
  end.
Definition half : f64 := Fin 1 (-1).

Lemma round_div_le n d B : 0 < d -> n <= B * d -> round_div n d <= B.
Proof.
  intros Hd Hn. unfold round_div. pose proof (Z.div_mod n d). pose proof (Z.mod_pos_bound n d Hd).
  destruct (_ || _) eqn:E; [|nia].
  apply orb_prop in E as [E|[E _]%andb_prop]; [apply Z.ltb_lt in E|apply Z.eqb_eq in E]; nia.
Qed.
Lemma gtb_scale m1 e1 m2 e2 e :
  e <= e1 -> e <= e2 -> gtb (Fin m1 e1) (Fin m2 e2) = (m2 * 2 ^ (e2 - e) <? m1 * 2 ^ (e1 - e)).
Proof.
  intros H1 H2. cbn. set (f := Z.min e1 e2).
  replace (e1 - e) with ((e1 - f) + (f - e)) by lia. replace (e2 - e) with ((e2 - f) + (f - e)) by lia.
  rewrite !Z.pow_add_r, !Z.mul_assoc by lia.
  assert (0 < 2 ^ (f - e)) by (apply Z.pow_pos_nonneg; lia).
  apply eq_true_iff_eq. rewrite !Z.ltb_lt. nia.
Qed.
Lemma round_half n d : 0 <= n -> 0 < d -> 2 * n <= d ->
  exists m e, round n d = Fin m e /\ gtb (round n d) half = false.
Proof.
  intros Hn Hd H. unfold round. destruct (Z.eqb_spec n 0) as [->|Hn0]; [by exists 0, 0|].
  set (e := exponent n d - 52). assert (e <= -52) as He.
  { unfold e, exponent. pose proof (Z.log2_le_mono n d). destruct (scale _ _ _). case_match; lia. }
  destruct (scale n d e) as [n' d'] eqn:Hs. exists (round_div n' d'), e. split; [done|].
  unfold half. rewrite (gtb_scale _ _ _ _ e), Z.sub_diag, Z.mul_1_l, Z.mul_1_r by lia.
  apply Z.ltb_ge. unfold scale in Hs. injection Hs as <- <-.
  rewrite Z.max_r, (Z.max_l 0 e), Z.mul_1_r by lia. apply round_div_le; [done|].
  replace (- e) with (1 + (-1 - e)) by lia. rewrite Z.pow_add_r by lia.
  assert (0 < 2 ^ (-1 - e)) by (apply Z.pow_pos_nonneg; lia). nia.
Qed.
Lemma gtb_half c m e : gtb c half = true -> gtb (Fin m e) half = false -> gtb c (Fin m e) = true.
Proof.
  destruct c as [m' e'|]; [|done]. unfold half. set (f := Z.min (-1) (Z.min e e')).
  rewrite !(gtb_scale _ _ _ _ f) by lia. rewrite !Z.ltb_lt, Z.ltb_ge. lia.
Qed.
End F64.
Import F64.

(** ** Sampling *)
(** The linear congruential step, and [(state >> 33) as f64 / u32::MAX as f64]. *)
Definition next_rng (s : Z) : Z := wrap 64 (wrap 64 (s * 6364136223846793005) + 1442695040888963407).
Definition random_of (s : Z) : f64 := F64.round (Z.shiftr s 33) (2 ^ 32 - 1).
(** The loop over [probs_vec]: the first index whose cumulated probability
    exceeds [random]. *)
Fixpoint pick (random cumulative : f64) (i : Z) (probs : list f64) : option Z :=
  match probs with
  | [] => None
  | p :: probs =>
      let cumulative := add cumulative p in
      if gtb cumulative random then Some i else pick random cumulative (i + 1) probs
  end.
(** [(probs_vec.len() - 1) as u32] panics on an empty vector with overflow
    checks; a vocabulary has fewer than 2^32 tokens. *)
Definition choose (random : f64) (probs : list f64) : Z :=
  default (zlen probs - 1) (pick random (Fin 0 0) 0 probs).
(** The cumulated probability after the first [n] tokens. *)
Definition cumulated (n : nat) (probs : list f64) : f64 := foldl add (Fin 0 0) (take n probs).

Lemma pick_le random cumulative i probs n :
  (n < length probs)%nat -> gtb (foldl add cumulative (take (S n) probs)) random = true ->
  exists j, pick random cumulative i probs = Some j /\ i <= j <= i + Z.of_nat n.
Proof.
  revert cumulative i n. induction probs as [|p probs IH]; intros c i n Hn H; [cbn in Hn; lia|].
  cbn [pick]. destruct (gtb (add c p) random) eqn:E; [exists i; split; [done|lia]|].
  destruct n as [|n]; [cbn [take foldl] in H; rewrite ?take_0 in H; cbn [foldl] in H; by rewrite E in H|]. cbn [take foldl] in H.
  apply (IH _ (i + 1)) in H as (j & -> & Hj); [|cbn in Hn; lia]. exists j. split; [done|lia].
Qed.
Lemma random_below_half s : in_range 64 s ->
  exists m e, random_of s = Fin m e /\ gtb (random_of s) half = false.
Proof.
  intros Hs. unfold random_of. rewrite Z.shiftr_div_pow2 by done.
  assert (0 <= s / 2 ^ 33 < 2 ^ 31) as Hb.
  { unfold in_range in Hs. split; [apply Z.div_pos; lia|apply Z.div_lt_upper_bound; lia]. }
  apply round_half; lia.
Qed.

Lemma choose_le_half s probs n :
  (n < length probs)%nat -> gtb (cumulated (S n) probs) half = true ->
  0 <= choose (random_of (next_rng s)) probs <= Z.of_nat n.
Proof.
  intros Hn Hc. destruct (random_below_half (next_rng s)) as (m & e & Hr & Hh); [by apply wrap_range|].
  rewrite Hr in *. unfold choose.
  destruct (pick_le (Fin m e) (Fin 0 0) 0 probs n Hn) as (j & -> & Hj); [by apply gtb_half|].
  cbn. lia.
Qed.
(** ** Models, as a session sees them *)
(** The functions of [gguf_model.rs] a session calls; [Qwen3] and [GgufLoad] implement them. *)
Class SessionModel (M T : Type) : Type := {
    run_pass : M -> T -> Z -> M * result string T;
    clear_caches : M -> M;
    extract_caches : M -> result string (list (T * T));
    restore_caches : M -> list (T * T) -> M * result string unit;
}.
(** What becomes of a loaded model. *)
Inductive grown {M T : Type} `{!SessionModel M T} (m0 : M) : M -> Prop :=
  | grown_here : grown m0 m0
  | grown_pass m x offset : grown m0 m -> grown m0 (run_pass m x offset).1
  | grown_clear m : grown m0 m -> grown m0 (clear_caches m)
  | grown_restore m kvs : grown m0 m -> grown m0 (restore_caches m kvs).1.
(** Its caches are all that changes: restored into the model as it was loaded
    they give the model back. *)
Class SessionModel_Laws (M T : Type) `{!SessionModel M T} : Type := {
    fresh : M -> Prop;
    restores m0 m kvs : fresh m0 -> grown m0 m -> extract_caches m = Ok kvs -> restore_caches m0 kvs = (m, Ok tt);
}.

(** ** The session *)
Record MlContext (M T Dev Tok : Type) : Type := mk_ctx {
    model : option M;
    tokenizer : option Tok;
    offset : Z;
    rng_state : Z;
    eos_token_id : Z;
    chat_template : option string;
    device : Dev;
    offloaded_kv : option (list (T * T));
    offloaded_model_path : option string;
    offloaded_layer_start : Z;
    offloaded_layer_end : Z;
}.
Arguments mk_ctx {M T Dev Tok} _ _ _ _ _ _ _ _ _ _ _.
Arguments model {M T Dev Tok} _.
Arguments tokenizer {M T Dev Tok} _.
Arguments offset {M T Dev Tok} _.
Arguments rng_state {M T Dev Tok} _.
Arguments eos_token_id {M T Dev Tok} _.
Arguments chat_template {M T Dev Tok} _.
Arguments device {M T Dev Tok} _.
Arguments offloaded_kv {M T Dev Tok} _.
Arguments offloaded_model_path {M T Dev Tok} _.
Arguments offloaded_layer_start {M T Dev Tok} _.
Arguments offloaded_layer_end {M T Dev Tok} _.

(** [Parse_Device_Str] ([device.rs]) *)
Definition Parse_Device_Str {Dev} (cpu : Dev) (new_cuda : Z -> result string Dev) (s : bytes)
    : result string Dev :=
  let s := Str.to_lowercase (Str.trim s) in
  if decide (s = as_bytes "cpu") then Ok cpu
  else if decide (s = as_bytes "cuda" \/ s = as_bytes "cuda:0") then new_cuda 0
  else if Str.starts_with (as_bytes "cuda:") s then
    match Num.parse_uint 64 (drop 5 s) with
    | Ok idx => new_cuda idx
    | Err _ => Err "invalid cuda device index"%string
    end
  else Err "unknown device"%string.

Section session.
Context {T Dev M Tok : Type} `{!Candle T Dev} `{!SessionModel M T}.
Notation Ctx := (MlContext M T Dev Tok).
(** Loading of the weights: layers [start..end] of a file, on a device. *)
Variable GGUF_Load_Model : Z -> Z -> string -> Dev -> result string M.
Variable synchronize : Dev -> result string unit.
Variable from_gguf_file : string -> result string Tok.
(** [eos_token_id] and [chat_template] of [GGUF_Analyze] *)
Variable GGUF_Analyze : string -> result string (Z * option string).

Definition set_model (c : Ctx) (m : option M) : Ctx :=
  mk_ctx m (tokenizer c) (offset c) (rng_state c) (eos_token_id c) (chat_template c) (device c)
    (offloaded_kv c) (offloaded_model_path c) (offloaded_layer_start c) (offloaded_layer_end c).
Definition set_kv (c : Ctx) (kv : option (list (T * T))) : Ctx :=
  mk_ctx (model c) (tokenizer c) (offset c) (rng_state c) (eos_token_id c) (chat_template c) (device c)
    kv (offloaded_model_path c) (offloaded_layer_start c) (offloaded_layer_end c).
Definition set_offset (c : Ctx) (o : Z) : Ctx :=
  mk_ctx (model c) (tokenizer c) o (rng_state c) (eos_token_id c) (chat_template c) (device c)
    (offloaded_kv c) (offloaded_model_path c) (offloaded_layer_start c) (offloaded_layer_end c).
Definition set_reload (c : Ctx) (p : option string) (s e : Z) : Ctx :=
  mk_ctx (model c) (tokenizer c) (offset c) (rng_state c) (eos_token_id c) (chat_template c) (device c)
    (offloaded_kv c) p s e.
Definition set_tokenizer (c : Ctx) (t : option Tok) (eos : Z) (ct : option string) : Ctx :=
  mk_ctx (model c) t (offset c) (rng_state c) eos ct (device c)
    (offloaded_kv c) (offloaded_model_path c) (offloaded_layer_start c) (offloaded_layer_end c).

Definition MlSession_new (dev : Dev) (default_seed : Z) : Ctx :=
  mk_ctx None None 0 default_seed 151645 None dev None None 0 0.
Definition load_model (c : Ctx) (path : string) (start end_ : Z) : Ctx * result string unit :=
  match GGUF_Load_Model start end_ path (device c) with
  | Err e => (c, Err ("Failed to load model: " +:+ e)%string)
  | Ok m => (set_reload (set_offset (set_model c (Some m)) 0) (Some path) start end_, Ok tt)
  end.
(** [eos_token_id] and [chat_template] are set before [tokenizer]. *)
Definition load_tokenizer (c : Ctx) (path : string) : Ctx * result string unit :=
  match from_gguf_file path with
  | Err e => (c, Err ("Failed to load tokenizer from " +:+ path +:+ ": " +:+ e)%string)
  | Ok t =>
      match GGUF_Analyze path with
      | Err e => (c, Err ("Failed to analyze model for eos token: " +:+ e)%string)
      | Ok (eos, ct) => (set_tokenizer c (Some t) eos ct, Ok tt)
      end
  end.
Definition unload (c : Ctx) : Ctx :=
  set_tokenizer (set_offset (set_model c None) 0) None 151645 (chat_template c).
Definition forward (c : Ctx) (t : T) (off : option Z) : Ctx * result string T :=
  match model c with
  | None => (c, Err "forward: no model loaded. Call load_model() first."%string)
  | Some m =>
      let o := default (offset c) off in
      let seq_len := default 1 (dims t !! 1%nat) in
      let '(m, out) := run_pass m t o in
      let c := set_model c (Some m) in
      match out with
      | Err e => (c, Err ("Forward failed: " +:+ e)%string)
      | Ok output =>
          match synchronize (device c) with
          | Err e => (c, Err ("Device sync failed: " +:+ e)%string)
          | Ok _ =>
              (match off with None => set_offset c (wrap 64 (offset c + seq_len)) | Some _ => c end,
               Ok output)
          end
      end
  end.
Definition reset_kv_cache (c : Ctx) : Ctx :=
  match model c with
  | Some m => set_model c (Some (clear_caches m))
  | None => c
  end.
Definition set_seed (c : Ctx) (seed : Z) : Ctx :=
  mk_ctx (model c) (tokenizer c) (offset c) seed (eos_token_id c) (chat_template c) (device c)
    (offloaded_kv c) (offloaded_model_path c) (offloaded_layer_start c) (offloaded_layer_end c).

(** An error with more text before it *)
Definition prefixed {A} (what : string) (r : result string A) : result string A := map_err (fun e => what +:+ e)%string r.
(** *** Caches *)
Fixpoint try_map {A B} (f : A -> result string B) (l : list A) : result string (list B) :=
  match l with
  | [] => Ok []
  | a :: l => b ← f a; bs ← try_map f l; Ok (b :: bs)
  end.
(** [k] and [v]: what comes before the text of an error. *)
Definition pair_to_device (k v : string) (d : Dev) (kv : T * T) : result string (T * T) :=
  k ← prefixed k (to_device kv.1 d);
  v ← prefixed v (to_device kv.2 d);
  Ok (k, v).
Definition to_cpu : T * T -> result string (T * T) := pair_to_device "k to_device cpu: " "v to_device cpu: " cpu.

(** *** Offloading *)
Definition offload_to_cpu (c : Ctx) : Ctx * result string unit :=
  match model c with
  | None => (c, Err "offload_to_cpu: no model loaded"%string)
  | Some m =>
      match offloaded_model_path c with
      | None => (c, Err "offload_to_cpu: missing model path (call load_model first)"%string)
      | Some _ =>
          match (kvs ← extract_caches m; try_map to_cpu kvs) with
          | Err e => (c, Err e)
          | Ok kvs_cpu => (set_kv (set_model c None) (Some kvs_cpu), Ok tt)
          end
      end
  end.
(** An error drops the new model. *)
Definition reload (failed k v : string) (dev : Dev) (start end_ : Z) (path : string) (kvs : list (T * T)) : result string M :=
  m ← prefixed failed (GGUF_Load_Model start end_ path dev);
  kvs_device ← try_map (pair_to_device k v dev) kvs;
  let (m, r) := restore_caches m kvs_device in
  _ ← r; Ok m.
Definition reload_for_cuda : Dev -> Z -> Z -> string -> list (T * T) -> result string M :=
  reload "offload_to_cuda: reload model failed: " "k to_device gpu: " "v to_device gpu: ".
Definition offload_to_cuda (c : Ctx) : Ctx * result string unit :=
  match model c with
  | Some _ => (c, Err "offload_to_cuda: model is already loaded"%string)
  | None =>
      match offloaded_kv c with
      | None => (c, Err "offload_to_cuda: no offloaded KV cache"%string)
      | Some kvs =>
          (* [self.ctx.offloaded_kv.take()] *)
          let c := set_kv c None in
          match offloaded_model_path c with
          | None => (c, Err "offload_to_cuda: no offloaded model path"%string)
          | Some path =>
              let start := offloaded_layer_start c in
              let end_ := offloaded_layer_end c in
              match reload_for_cuda (device c) start end_ path kvs with
              | Err e => (c, Err e)
              | Ok m => (set_reload (set_model c (Some m)) (Some path) start end_, Ok tt)
              end
          end
      end
  end.

(** [offload_save] writes one file of the cache directory; the answer of
    [std::fs::write] is the parameter [write]. *)
Definition offload_save (write : string -> bytes -> result string unit) (file_path : string) (c : Ctx)
    : Ctx * result string unit :=
  let kvs :=
    match offloaded_kv c with
    | Some kvs => Ok kvs
    | None =>
        match model c with
        | None => Err "offload_save: no model loaded and no offloaded KV"%string
        | Some m => kvs_raw ← extract_caches m; try_map to_cpu kvs_raw
        end
    end in
  match kvs with
  | Err e => (c, Err e)
  | Ok kvs =>
      match (path ← ok_or "offload_save: missing model path"%string (offloaded_model_path c);
             buf ← serialize_kv (T:=T) (Dev:=Dev)
                     (mk_kv_header path (offloaded_layer_start c) (offloaded_layer_end c) (rng_state c)
                        (offset c) (eos_token_id c) (chat_template c)) kvs;
             write file_path buf) with
      | Err e => (c, Err e)
      | Ok _ =>
          (match model c with
           | Some _ => set_kv (set_model c None) (Some kvs)
           | None => c
           end, Ok tt)
      end
  end.

Definition offload_load (read : string -> result string bytes) (parse_device : bytes -> result string Dev)
    (file_path : string) (device_str : bytes) : result (fault string) Ctx :=
  data ← map_err Failed (read file_path);
  '((h, kvs), _) ← deserialize_kv (T:=T) (Dev:=Dev) data 0;
  target_device ← map_err Failed (parse_device device_str);
  m ← map_err Failed (reload "offload_load: load model failed: " "k to_device: " "v to_device: " target_device (kv_start h) (kv_end h) (kv_model_path h) kvs);
  Ok (mk_ctx (Some m) None (kv_offset h) (kv_rng_state h) (kv_eos h) (kv_chat_template h)
        target_device None None 0 0).

(** *** Tokens *)
Definition tensorize (tensor_new : list Z -> Dev -> result string T) (unsqueeze : T -> Z -> result string T)
    (c : Ctx) (token_ids : list Z) : result string T :=
  match token_ids with
  | [] => Err "tensorize: token_ids is empty"%string
  | _ => prefixed "Tensorize failed: " (t ← tensor_new token_ids (device c); unsqueeze t 0)
  end.
Definition encode_messages (apply_chat_template : option string -> list (string * string) -> string)
    (encode_with_options : Tok -> string -> result string (list Z)) (c : Ctx)
    (messages : list (string * string)) : result string (list Z) :=
  match tokenizer c with
  | None => Err "encode_messages: no tokenizer loaded."%string
  | Some t =>
      prefixed "Encode messages failed: "
        (encode_with_options t (apply_chat_template (chat_template c) messages))
  end.
Definition decode (tok_decode : Tok -> list Z -> result string string) (c : Ctx) (token_id : Z)
    : result string string :=
  match tokenizer c with
  | None => Err "decode: no tokenizer loaded. Call load_tokenizer() first."%string
  | Some t =>
      prefixed "Decode failed: " (tok_decode t (if token_id =? eos_token_id c then [] else [token_id]))
  end.

(** *** [sample] *)
Section sample.
Context {Temp : Type} (le_zero : Temp -> bool).
Variable get : T -> Z -> result string T.
Variable squeeze : T -> Z -> result string T.
Variable argmax : T -> result string T.
Variable to_scalar : T -> result string Z.
Variable div_scalar : T -> Temp -> result string T.
Variable softmax : T -> result string T.
(** [to_vec1::<f32>], each element as [f64] *)
Variable to_f64s : T -> result string (list f64).
Definition failing {A} (what : string) (r : result string A) : result (fault string) A :=
  map_err (fun e => Failed (what +:+ e)%string) r.
(** [{:?}] of a shape *)
Definition show_dims (l : list Z) : string :=
  ("[" +:+ String.concat ", " (map (fun d => of_bytes (Num.print_dec d)) l) +:+ "]")%string.
Definition extract_last_logits (logits : T) : result (fault string) T :=
  match dims logits with
  | [_; seq_len; _] =>
      t ← failing "get batch 0 failed: " (get logits 0);
      if seq_len =? 0 then Err Panicked else failing "get last position failed: " (get t (seq_len - 1))
  | [_; _] => failing "squeeze failed: " (squeeze logits 0)
  | [_] => Ok logits
  | l => Err (Failed ("Unsupported logits shape: " +:+ show_dims l)%string)
  end.
Definition probabilities (logits : T) (temperature : Temp) : result string (list f64) :=
  scaled ← prefixed "temperature scaling failed: " (div_scalar logits temperature);
  probs ← prefixed "softmax failed: " (softmax scaled);
  prefixed "probs → vec failed: " (to_f64s probs).
Definition sample (c : Ctx) (logits : T) (temperature : Temp) : Ctx * result (fault string) Z :=
  match extract_last_logits logits with
  | Err e => (c, Err e)
  | Ok last_logits =>
      if le_zero temperature
      then (c, t ← failing "argmax failed: " (argmax last_logits); failing "to_scalar failed: " (to_scalar t)) else
      match probabilities last_logits temperature with
      | Err e => (c, Err (Failed e))
      | Ok probs =>
          let c := set_seed c (next_rng (rng_state c)) in
          let random := random_of (rng_state c) in
          match probs with
          | [] => (c, Err Panicked)
          | _ => (c, Ok (choose random probs))
          end
      end
  end.

(** the sampler never leaves the lower half of the distribution: at a
    positive temperature, for every state of its generator, it answers a
    token no later than the first one at which the cumulated probability
    exceeds one half. *)
Theorem upper_half_never_sampled c logits last_logits temperature probs n :
  extract_last_logits logits = Ok last_logits -> le_zero temperature = false ->
  probabilities last_logits temperature = Ok probs ->
  (n < length probs)%nat -> gtb (cumulated (S n) probs) half = true ->
  exists token, sample c logits temperature = (set_seed c (next_rng (rng_state c)), Ok token) /\
    0 <= token <= Z.of_nat n.
Proof.
  intros Hl Ht Hp Hn Hc. unfold sample. rewrite Hl, Ht, Hp.
  destruct probs as [|p probs]; [cbn in Hn; lia|]. eexists; split; [done|]. by apply choose_le_half.
Qed.
End sample.

(** *** Properties of offloading *)
(** Moving to the CPU and back to [dev] loses nothing. *)
Definition returns (dev : Dev) (t : T) : Prop :=
  forall t', to_device t cpu = Ok t' -> to_device t' dev = Ok t.
Lemma pair_back k v dev kv kv' :
  returns dev kv.1 -> returns dev kv.2 -> to_cpu kv = Ok kv' -> pair_to_device k v dev kv' = Ok kv.
Proof.
  destruct kv as [k0 v0]. unfold to_cpu, pair_to_device. cbn [fst snd]. intros Hk Hv.
  destruct (to_device k0 cpu) as [k'|] eqn:Hk'; cbn [prefixed map_err mbind result_bind]; [|done].
  destruct (to_device v0 cpu) as [v'|] eqn:Hv'; cbn [prefixed map_err mbind result_bind]; [|done]. intros [= <-]. cbn [fst snd].
  rewrite (Hk _ Hk'). cbn [prefixed map_err mbind result_bind]. by rewrite (Hv _ Hv').
Qed.
Lemma try_map_back k v dev kvs kvs' :
  Forall (fun kv => returns dev kv.1 /\ returns dev kv.2) kvs ->
  try_map to_cpu kvs = Ok kvs' -> try_map (pair_to_device k v dev) kvs' = Ok kvs.
Proof.
  intros H. revert kvs'. induction H as [|kv kvs [Hk Hv] _ IH]; intros kvs'; cbn [try_map].
  { by intros [= <-]. }
  intros (kv' & Hkv & (l & Hl & [= <-])%result_bind_Ok)%result_bind_Ok. cbn [try_map].
  rewrite (pair_back k v dev kv) by done. cbn [mbind result_bind]. by rewrite (IH _ Hl).
Qed.

(** What is done with a session that was created empty. *)
Inductive session_op : Type :=
  | Op_load_model (path : string) (start end_ : Z) | Op_load_tokenizer (path : string) | Op_unload
  | Op_forward (t : T) (off : option Z) | Op_reset_kv_cache | Op_set_seed (seed : Z)
  | Op_offload_to_cpu | Op_offload_to_cuda | Op_offload_save (file_path : string).
Variable write : string -> bytes -> result string unit.
Definition session_step (c : Ctx) (o : session_op) : Ctx :=
  match o with
  | Op_load_model path start end_ => (load_model c path start end_).1
  | Op_load_tokenizer path => (load_tokenizer c path).1
  | Op_unload => unload c
  | Op_forward t off => (forward c t off).1
  | Op_reset_kv_cache => reset_kv_cache c
  | Op_set_seed seed => set_seed c seed
  | Op_offload_to_cpu => (offload_to_cpu c).1
  | Op_offload_to_cuda => (offload_to_cuda c).1
  | Op_offload_save f => (offload_save write f c).1
  end.
Definition session_run (ops : list session_op) (c : Ctx) : Ctx := foldl session_step c ops.

(** The model of a session is what became of the one it would load again. *)
Definition tracks (c : Ctx) : Prop := forall m, model c = Some m -> exists path m0,
  offloaded_model_path c = Some path /\
  GGUF_Load_Model (offloaded_layer_start c) (offloaded_layer_end c) path (device c) = Ok m0 /\ grown m0 m.
Lemma tracks_same c c' :
  tracks c -> model c' = model c \/ model c' = None -> offloaded_model_path c' = offloaded_model_path c ->
  offloaded_layer_start c' = offloaded_layer_start c -> offloaded_layer_end c' = offloaded_layer_end c ->
  device c' = device c -> tracks c'.
Proof.
  intros Ht Hm Hp Hs He Hd m Hm'. rewrite Hp, Hs, He, Hd. destruct Hm as [Hm|Hm]; [|congruence]. apply Ht. congruence.
Qed.
Lemma tracks_grown c m m' : tracks c -> model c = Some m -> (forall m0, grown m0 m -> grown m0 m') -> tracks (set_model c (Some m')).
Proof. intros Ht Hm Hg m1 [= <-]. destruct (Ht _ Hm) as (path & m0 & Hp & Hl & H). exists path, m0. auto. Qed.
Ltac same_session Ht := apply (tracks_same _ _ Ht); first [by left|by right|reflexivity].
Lemma forward_tracks c t off : tracks c -> tracks (forward c t off).1.
Proof.
  intros Ht. unfold forward. destruct (model c) as [m|] eqn:Hm; [|done].
  destruct (run_pass m t _) as [m' r] eqn:Hf.
  assert (tracks (set_model c (Some m'))) as Ht'.
  { eapply (tracks_grown c m m' Ht Hm). intros m0 Hg. pose proof (grown_pass m0 m t (default (offset c) off) Hg) as Hg'. by rewrite Hf in Hg'. }
  destruct r as [out|]; [|done]. destruct (synchronize _); [|done]. destruct off; [done|]. same_session Ht'.
Qed.
Lemma reload_grown failed k v dev s e path kvs m :
  reload failed k v dev s e path kvs = Ok m -> exists m0, GGUF_Load_Model s e path dev = Ok m0 /\ grown m0 m.
Proof.
  unfold reload. destruct (GGUF_Load_Model s e path dev) as [m0|] eqn:Hl; cbn [prefixed map_err mbind result_bind]; [|done].
  intros (kvs' & _ & H)%result_bind_Ok. destruct (restore_caches m0 kvs') as [m' [[]|]] eqn:Hr; [|done]. injection H as <-.
  exists m0. split; [done|]. pose proof (grown_restore m0 m0 kvs' (grown_here m0)) as Hg. by rewrite Hr in Hg.
Qed.
Lemma to_cuda_tracks c : tracks c -> tracks (offload_to_cuda c).1.
Proof.
  intros Ht. unfold offload_to_cuda. destruct (model c) as [m|] eqn:Hm; [done|]. destruct (offloaded_kv c) as [kvs|]; [|done].
  destruct (offloaded_model_path _) as [path|] eqn:Hp; [|same_session Ht].
  destruct (reload_for_cuda _ _ _ path kvs) as [m|] eqn:Hr; [|same_session Ht].
  apply reload_grown in Hr as (m0 & Hl & Hg). intros m' [= <-]. by exists path, m0.
Qed.
Lemma session_tracks c o : tracks c -> tracks (session_step c o).
Proof.
  intros Ht. destruct o as [path s e|path| |t off| |seed| | |f]; cbn [session_step].
  - unfold load_model. destruct (GGUF_Load_Model s e path (device c)) as [m|] eqn:Hl; [|done].
    intros m' [= <-]. exists path, m. split_and!; [done|exact Hl|constructor].
  - unfold load_tokenizer. destruct (from_gguf_file path); [|done]. destruct (GGUF_Analyze path) as [[eos ct]|]; [|done]. same_session Ht.
  - same_session Ht.
  - by apply forward_tracks.
  - unfold reset_kv_cache. destruct (model c) as [m|] eqn:Hm; [|done]. eapply (tracks_grown c m _ Ht Hm). intros m0. apply grown_clear.
  - same_session Ht.
  - unfold offload_to_cpu. destruct (model c) as [m|] eqn:Hm; [|done]. destruct (offloaded_model_path c) eqn:Hp; [|done].
    destruct (_ ≫= _); [|done]. same_session Ht.
  - by apply to_cuda_tracks.
  - unfold offload_save. destruct (match offloaded_kv c with Some _ => _ | None => _ end); [|done].
    destruct (_ ≫= _); [|done]. destruct (model c); [same_session Ht|done].
Qed.

Context `{!SessionModel_Laws M T}.
(** C17: offloading is invisible. Whatever was done with a session since it was
    created - models loaded and replaced, passes made, caches cleared, parked and
    restored - when parking its model on the CPU succeeds, restoring it gives the
    session as it was, with the same model, so everything that follows answers the
    same; only the parked copy is gone. When parking fails nothing has changed. It
    takes that moving a cache to the CPU and back loses nothing, and that loading
    gives the model it gave before. *)
Theorem offload_roundtrip ops dev seed c c1 r :
  (forall s e path d m, GGUF_Load_Model s e path d = Ok m -> fresh m) ->
  c = session_run ops (MlSession_new dev seed) ->
  (forall m kvs, model c = Some m -> extract_caches m = Ok kvs ->
     Forall (fun kv => returns (device c) kv.1 /\ returns (device c) kv.2) kvs) ->
  offload_to_cpu c = (c1, r) ->
  match r with
  | Ok _ => model c1 = None /\ offload_to_cuda c1 = (set_kv c None, Ok tt)
  | Err _ => c1 = c
  end.
Proof.
  intros Hfresh Hc Hback. assert (tracks c) as Ht.
  { subst c. unfold session_run. clear Hback. assert (tracks (MlSession_new dev seed)) as H0 by done.
    revert H0. generalize (MlSession_new dev seed). induction ops as [|o ops IH]; intros c Ht; [done|]. by apply IH, session_tracks. }
  unfold offload_to_cpu. destruct (model c) as [m|] eqn:Hm; [|by intros [= <- <-]].
  destruct (Ht m Hm) as (path & m0 & Hp & Hl & Hg). rewrite Hp.
  destruct (extract_caches m) as [kvs|] eqn:He; cbn [mbind result_bind]; [|by intros [= <- <-]].
  destruct (try_map to_cpu kvs) as [kvs'|] eqn:Hk; [|by intros [= <- <-]]. intros [= <- <-]. split; [done|].
  unfold offload_to_cuda. cbn [model offloaded_kv set_kv set_model offloaded_model_path]. rewrite Hp. unfold reload_for_cuda, reload.
  cbn [set_kv set_model device offloaded_layer_start offloaded_layer_end offloaded_model_path]. rewrite Hl.
  cbn [prefixed map_err mbind result_bind]. rewrite (try_map_back _ _ _ _ _ (Hback m kvs eq_refl He) Hk). cbn [mbind result_bind].
  rewrite (restores m0 m kvs (Hfresh _ _ _ _ _ Hl) Hg He). destruct c; cbn in *. by subst.
Qed.

(** when reloading the weights fails, the parked caches are lost: every
    later attempt to restore or to save the session fails. *)
Theorem failed_reload_loses_cache c kvs path e :
  model c = None -> offloaded_kv c = Some kvs -> offloaded_model_path c = Some path ->
  reload_for_cuda (device c) (offloaded_layer_start c) (offloaded_layer_end c) path kvs = Err e ->
  exists c', offload_to_cuda c = (c', Err e) /\ c' = set_kv c None /\
    offload_to_cuda c' = (c', Err "offload_to_cuda: no offloaded KV cache"%string) /\
    forall f,
      offload_save write f c' = (c', Err "offload_save: no model loaded and no offloaded KV"%string).
Proof.
  intros Hm Hk Hp Hr. exists (set_kv c None). unfold offload_to_cuda. rewrite Hm, Hk.
  cbn [offloaded_model_path set_kv device offloaded_layer_start offloaded_layer_end offloaded_kv model].
  rewrite Hp, Hr, Hm. repeat split. intros f. unfold offload_save. cbn [offloaded_kv model set_kv]. by rewrite Hm.
Qed.

(** Parked caches outlive the model they belong to: another model can be loaded
    over them, and when it is unloaded they are restored into it, at offset 0. *)
Lemma parked_cache_outlives_model c kvs path start end_ m0 kvs' m1 :
  offloaded_kv c = Some kvs -> GGUF_Load_Model start end_ path (device c) = Ok m0 ->
  try_map (pair_to_device "k to_device gpu: " "v to_device gpu: " (device c)) kvs = Ok kvs' ->
  restore_caches m0 kvs' = (m1, Ok tt) ->
  let c' := session_run [Op_load_model path start end_; Op_unload; Op_offload_to_cuda] c in
  model c' = Some m1 /\ offset c' = 0.
Proof.
  intros Hk Hl Hd Hr. cbn [session_run foldl session_step]. unfold load_model. rewrite Hl. cbn [fst].
  unfold offload_to_cuda. cbn [model unload set_tokenizer set_offset set_model set_reload offloaded_kv set_kv offloaded_model_path].
  rewrite Hk. unfold reload_for_cuda, reload. cbn. rewrite Hl. cbn. rewrite Hd. cbn. by rewrite Hr.
Qed.
(** A session that was loaded from a file cannot be offloaded again. *)
Lemma loaded_session_cannot_offload read parse_device f d c :
  offload_load read parse_device f d = Ok c ->
  offload_to_cpu c = (c, Err "offload_to_cpu: missing model path (call load_model first)"%string).
Proof.
  unfold offload_load. intros H. inv_ok. destruct x0 as [[h kvs] off]. inv_ok. done.
Qed.
End session.

(** ** A concrete session *)
Module Example_Session.
Import Plain.
(** A model of some layers; a pass appends its input to every cache. *)
Record layered : Type := mk_layered { layers_path : string; layers_kv : list (option (tensor * tensor)) }.
Definition append (c : option (tensor * tensor)) (kv : tensor * tensor) : option (tensor * tensor) :=
  match c with
  | None => Some kv
  | Some (k, v) => Some (mk_tensor (shape k) F32 (words k ++ words kv.1), mk_tensor (shape v) F32 (words v ++ words kv.2))
  end.
Definition fill (m : layered) (kvs : list (tensor * tensor)) : layered * result string unit :=
  if decide (length kvs = length (layers_kv m)) then (mk_layered (layers_path m) (zip_with append (layers_kv m) kvs), Ok tt)
  else (m, Err "layer count mismatch"%string).
#[export] Instance layered_model : SessionModel layered tensor := {|
    run_pass m x _ := (mk_layered (layers_path m) (map (fun c => append c (x, x)) (layers_kv m)), Ok x);
    clear_caches m := mk_layered (layers_path m) (map (fun _ => None) (layers_kv m));
    extract_caches m := try_map (ok_or "KV cache is empty"%string) (layers_kv m);
    restore_caches := fill;
|}.
Definition same_layers (m m' : layered) : Prop := layers_path m' = layers_path m /\ length (layers_kv m') = length (layers_kv m).
Lemma grown_same m0 m : grown m0 m -> same_layers m0 m.
Proof.
  induction 1 as [|m x o _ [H1 H2]|m _ [H1 H2]|m kvs _ [H1 H2]]; [done|split; cbn; [done|by rewrite length_map]..|].
  cbn. unfold fill. case_decide as E; split; cbn; [done|rewrite length_zip_with; lia|done|done].
Qed.
#[export] Instance layered_laws : SessionModel_Laws layered tensor.
Proof.
  refine {| fresh := fun m => Forall (fun c => c = None) (layers_kv m) |}.
  intros m0 m kvs Hf [Hp Hl]%grown_same He. cbn in *. assert (layers_kv m = map Some kvs) as Hm.
  { clear -He. revert kvs He. induction (layers_kv m) as [|[kv|] l IH]; intros kvs; cbn [try_map ok_or mbind result_bind]; [by intros [= <-]| |done].
    intros (ps & Hl & [= <-])%result_bind_Ok. cbn. by rewrite (IH _ Hl). }
  unfold fill. rewrite Hm, length_map in Hl. rewrite decide_True by done. f_equal. destruct m as [p l], m0 as [p0 l0]. cbn in *. subst.
  f_equal. clear -Hf Hl. revert kvs Hl. induction Hf as [|c l0 -> _ IH]; intros [|kv kvs] Hl; try done. cbn. f_equal. apply IH. by injection Hl.
Defined.
Definition load (s e : Z) (p : string) (_ : unit) : result string layered :=
  if decide (p = "m.gguf"%string)
  then Ok (mk_layered p (repeat None (Z.to_nat (e - s + 1)))) else Err "Model file not found"%string.
Definition ops : list (session_op (T:=tensor)) := [Op_load_model "m.gguf" 1 2; Op_set_seed 42; Op_forward layer None].
Definition run (c : MlContext layered tensor unit unit) : MlContext layered tensor unit unit :=
  session_run load (fun _ => Ok tt) (fun _ => Err ""%string) (fun _ => Err ""%string) (fun _ _ => Ok tt) ops c.
Definition ctx : MlContext layered tensor unit unit := run (MlSession_new tt 0).
Definition lost : MlContext layered tensor unit unit :=
  mk_ctx None None 7 42 151645 None tt (Some [(layer, layer)]) (Some "gone.gguf"%string) 1 2.
End Example_Session.
Import Example_Session.

Lemma offload_roundtrip_witness :
  exists c1, offload_to_cpu ctx = (c1, Ok tt) /\ model c1 = None /\ offload_to_cuda load c1 = (ctx, Ok tt).
Proof.
  eexists. split; [reflexivity|].
  refine (offload_roundtrip load (fun _ => Ok tt) (fun _ => Err ""%string) (fun _ => Err ""%string) (fun _ _ => Ok tt)
    ops tt 0 ctx _ (Ok tt) _ eq_refl _ eq_refl).
  - intros s e path d m. unfold load. destruct (decide _); [|done]. intros [= <-]. apply List.Forall_forall. intros c Hc. by apply repeat_spec in Hc.
  - intros m kvs [= <-] He. vm_compute in He. injection He as <-. repeat constructor; intros t' [= <-]; reflexivity.
Defined.
Lemma failed_reload_loses_cache_witness :
  exists c', offload_to_cuda load lost = (c', Err "offload_to_cuda: reload model failed: Model file not found"%string) /\
    offload_to_cuda load c' = (c', Err "offload_to_cuda: no offloaded KV cache"%string).
Proof.
  destruct (failed_reload_loses_cache load (fun _ _ => Ok tt) lost [(Plain.layer, Plain.layer)] "gone.gguf" _
    eq_refl eq_refl eq_refl eq_refl) as (c' & H1 & _ & H2 & _). eauto.
Defined.
Lemma upper_half_never_sampled_witness :
  exists token, sample (fun _ : unit => false) (fun t _ => Ok t) (fun t _ => Ok t) (fun t => Ok t) (fun _ => Ok 0)
    (fun t _ => Ok t) (fun t => Ok t) (fun _ => Ok [Fin 3 (-3); Fin 3 (-3); Fin 1 (-2)]) ctx Plain.flat tt =
    (set_seed ctx (next_rng 42), Ok token) /\ 0 <= token <= 1.
Proof.
  eapply (upper_half_never_sampled _ _ _ _ _ _ _ _ ctx Plain.flat Plain.flat tt _ 1); try reflexivity. cbn. lia.
Defined.
