(* ===== verification/Gguf.v ===== *)
(** * GGUF models ([Src/ML_Engine/gguf_model_manager.rs], [gguf_model.rs])

    Analysis of a model's header, selection of the tensors of a layer,
    splitting into a range of layers, layer bitmaps and file resolution.  The
    reader and writer of GGUF files are candle's: [Content] is what it reads,
    the class [Gguf] the conversions and sizes the code asks of it.

    Layer numbers: 0 is the embedding, [1..N] the blocks [blk.0 .. blk.N-1],
    [N+1] the output. *)
From S2P Require Import Prelude RustStd Wire Bitmap.

(** ** What candle reads *)
Inductive Value : Type :=
  | U8 (v : Z) | I8 (v : Z) | U16 (v : Z) | I16 (v : Z) | U32 (v : Z) | I32 (v : Z)
  | U64 (v : Z) | I64 (v : Z)
  | F32V (bits : Z) | F64V (bits : Z)
  | BoolV (b : bool)
  | Str (s : string)
  | Arr (l : list Value).
Inductive GgmlDType : Set :=
  DF32 | DF16 | Q4_0 | Q4_1 | Q5_0 | Q5_1 | Q8_0 | Q8_1 | Q2K | Q3K | Q4K | Q5K | Q6K | DOther.
Record TensorInfo : Type := mk_info { ti_dims : list Z; ggml_dtype : GgmlDType; ti_offset : Z }.
Record Content : Type := mk_content {
    metadata : gmap string Value;
    tensor_infos : gmap string TensorInfo;
    tensor_data_offset : Z;
}.

(** Conversions of a value (the bits of a float), block geometry of a tensor
    type and its name, formatting of floats, and the tag of a value. *)
Class Gguf : Type := {
    to_u32 : Value -> option Z;
    to_u64 : Value -> option Z;
    to_str : Value -> option string;
    to_f32 : Value -> option Z;
    to_f64 : Value -> option Z;
    block_size : GgmlDType -> Z;
    type_size : GgmlDType -> Z;
    dtype_name : GgmlDType -> string;
    fmt_f32 : Z -> string;
    fmt_f64 : Z -> string;
    value_type : Value -> Z;
}.
Class Gguf_Laws `{!Gguf} : Prop := {
    to_u32_U32 v : to_u32 (U32 v) = Some v;
    to_str_Str s : to_str (Str s) = Some s;
}.

Definition sw (p s : string) : bool := Str.starts_with (as_bytes p) (as_bytes s).
Definition fmt_uint (z : Z) : string := of_bytes (Num.print_dec z).
Definition fmt_int (z : Z) : string := if z <? 0 then ("-" +:+ fmt_uint (- z))%string else fmt_uint z.
Section gguf.
Context `{!Gguf}.

(** ** Metadata *)
Definition Get_Metadata_Usize (md : gmap string Value) (key : string) : option Z :=
  v ← md !! key;
  match to_u32 v with Some x => Some x | None => to_u64 v end.
Definition Get_Metadata_String (md : gmap string Value) (key : string) : option string :=
  v ← md !! key; to_str v.
(** An [f64]: a single-precision value widened, or a double. *)
Inductive real : Set := Widened (bits : Z) | Double (bits : Z).
Definition Get_Metadata_F64 (md : gmap string Value) (key : string) : option real :=
  v ← md !! key;
  match to_f32 v with Some x => Some (Widened x) | None => Double <$> to_f64 v end.
Definition Value_To_Display_String (v : Value) : string :=
  match v with
  | U8 v | U16 v | U32 v | U64 v => fmt_uint v
  | I8 v | I16 v | I32 v | I64 v => fmt_int v
  | F32V b => fmt_f32 b
  | F64V b => fmt_f64 b
  | BoolV b => if b then "true" else "false"
  | Str s => s
  | Arr l => ("[array, len=" +:+ fmt_uint (zlen l) +:+ "]")%string
  end.
Definition elem_count (i : TensorInfo) : Z := foldr Z.mul 1 (ti_dims i).
Definition Calc_Tensor_Size_Bytes (info : TensorInfo) : Z :=
  if block_size (ggml_dtype info) =? 0 then 0
  else elem_count info * type_size (ggml_dtype info) / block_size (ggml_dtype info).

(** ** Analysis *)
Record Tensor_Detail : Type := mk_detail { td_name : string; td_shape : list Z; td_dtype : string; size_bytes : Z }.
Record Layer_Info : Type := mk_layer { layer_index : nat; tensors : list Tensor_Detail; total_size_bytes : Z }.
Record Model_Arch_Info : Type := mk_arch {
    architecture : string; num_layers : Z; embedding_length : Z; head_count : Z; head_count_kv : Z;
    head_dim : Z; feed_forward_length : Z; context_length : Z; rms_norm_eps : real; rope_freq_base : real;
    vocab_size : Z; eos_token_id : Z; chat_template : option string; layers : list Layer_Info;
    non_layer_tensors : list Tensor_Detail; metadata_raw : gmap string string; is_split : bool;
    split_start : Z; split_end : Z; model_id : option Z; layer_bitmap : option bitmap;
    weight_format : option string; num_shards : option Z;
}.

(** [blk.{N}.xxx] *)
Definition layer_of_name (n : string) : option nat :=
  if sw "blk." n then
    match Split.splitn 3 "."%byte (as_bytes n) with
    | _ :: p1 :: _ => match Num.parse_uint 64 p1 with Ok k => Some (Z.to_nat k) | Err _ => None end
    | _ => None
    end
  else None.
Definition detail_of (name : string) (info : TensorInfo) : Tensor_Detail :=
  mk_detail name (ti_dims info) (dtype_name (ggml_dtype info)) (Calc_Tensor_Size_Bytes info).
Definition group_tensor (acc : gmap nat (list Tensor_Detail) * list Tensor_Detail) (t : string * TensorInfo)
    : gmap nat (list Tensor_Detail) * list Tensor_Detail :=
  let detail := detail_of t.1 t.2 in
  match layer_of_name t.1 with
  | Some k => (<[k := default [] (acc.1 !! k) ++ [detail]]> acc.1, acc.2)
  | None => (acc.1, acc.2 ++ [detail])
  end.
Definition group_tensors (infos : gmap string TensorInfo) : gmap nat (list Tensor_Detail) * list Tensor_Detail :=
  foldl group_tensor (∅, []) (map_to_list infos).
Definition layer_info (m : gmap nat (list Tensor_Detail)) (i : nat) : Layer_Info :=
  let ts := Sort.sort_by td_name (default [] (m !! i)) in
  mk_layer i ts (foldr Z.add 0 (map size_bytes ts)).

(** The bits of 1e-6 and 10000.0 *)
Definition DEFAULT_EPS : real := Double 0x3EB0C6F7A0B5ED8D.
Definition DEFAULT_ROPE : real := Double 0x40C3880000000000.
Definition arch_key (a : string) (k : string) : string := (a +:+ k)%string.
Definition arch_of (md : gmap string Value) : string :=
  default "unknown"%string (Get_Metadata_String md "general.architecture").
Definition block_count (md : gmap string Value) : Z :=
  default 0 (Get_Metadata_Usize md (arch_key (arch_of md) ".block_count")).
Definition GGUF_Analyze_From_Content (content : Content) : Model_Arch_Info :=
  let md := metadata content in
  let arch := arch_of md in
  let usize k d := default d (Get_Metadata_Usize md (arch_key arch k)) in
  let embedding_length := usize ".embedding_length"%string 0 in
  let head_count := usize ".attention.head_count"%string 0 in
  let '(m, non_layer) := group_tensors (tensor_infos content) in
  let start := Get_Metadata_Usize md "pleiades.split.start" in
  let stop := Get_Metadata_Usize md "pleiades.split.end" in
  {| architecture := arch;
     num_layers := block_count md;
     embedding_length := embedding_length;
     head_count := head_count;
     head_count_kv := usize ".attention.head_count_kv"%string 0;
     head_dim := usize ".attention.key_length"%string (if 0 <? head_count then embedding_length / head_count else 0);
     feed_forward_length := usize ".feed_forward_length"%string 0;
     context_length := usize ".context_length"%string 2048;
     rms_norm_eps := default DEFAULT_EPS (Get_Metadata_F64 md (arch_key arch ".attention.layer_norm_rms_epsilon"));
     rope_freq_base := default DEFAULT_ROPE (Get_Metadata_F64 md (arch_key arch ".rope.freq_base"));
     vocab_size := usize ".vocab_size"%string (default 0 (Get_Metadata_Usize md "tokenizer.ggml.tokens"));
     eos_token_id := wrap 32 (default 0 (Get_Metadata_Usize md "tokenizer.ggml.eos_token_id"));
     chat_template := Get_Metadata_String md "tokenizer.chat_template";
     layers := map (layer_info m) (seq 0 (Z.to_nat (block_count md)));
     non_layer_tensors := Sort.sort_by td_name non_layer;
     metadata_raw := Value_To_Display_String <$> md;
     is_split := match start, stop with Some _, Some _ => true | _, _ => false end;
     split_start := default 0 start;
     split_end := default 0 stop;
     model_id := None;
     layer_bitmap := None;
     weight_format := Get_Metadata_String md "pleiades.weight_format";
     num_shards := Get_Metadata_Usize md "pleiades.num_shards" |}.

(** ** The tensors of a layer ([GGUF_Load_Layer]) *)
Definition EMBD : string := "token_embd.weight".
Definition NORM : string := "output_norm.weight".
Definition OUTPUT : string := "output.weight".
Definition blk_prefix (blk_idx : Z) : string := of_bytes (as_bytes "blk." ++ Num.print_dec blk_idx ++ as_bytes ".").
Definition names_of (c : Content) : list string := (map_to_list (tensor_infos c)).*1.
Definition has (c : Content) (n : string) : bool := bool_decide (is_Some (tensor_infos c !! n)).
Definition with_prefix (c : Content) (p : string) : list string := List.filter (sw p) (names_of c).
(** The names read by [content.tensor], or the error. *)
Definition layer_names (c : Content) (i : Z) : result string (list string) :=
  let n := block_count (metadata c) in
  if n + 1 <? i then Err "Invalid layer_index"%string
  else if i =? 0 then
    if has c EMBD then Ok [EMBD] else Err "No tensors found for layer 0 (embedding)"%string
  else if i <=? n then
    match with_prefix c (blk_prefix (i - 1)) with
    | [] => Err "No tensors found for layer"%string
    | l => Ok l
    end
  else
    match List.filter (has c) [NORM; OUTPUT] with
    | [] => Err "No tensors found for layer (output layer)"%string
    | l => Ok l
    end.

Section load.
Context {Q : Type} (tensor : string -> result string Q).
Fixpoint load_all (names : list string) (acc : gmap string Q) : result string (gmap string Q) :=
  match names with
  | [] => Ok acc
  | n :: names => q ← tensor n; load_all names (<[n := q]> acc)
  end.
Definition GGUF_Load_Layer (c : Content) (i : Z) : result string (Z * gmap string Q) :=
  names ← layer_names c i; ts ← load_all names ∅; Ok (i, ts).
End load.

(** ** Splitting ([GGUF_Split_Model]) *)
Definition select_layer (c : Content) (selected : list string) (layer_idx : Z) : list string :=
  let n := block_count (metadata c) in
  if layer_idx =? 0 then (if has c EMBD then selected ++ [EMBD] else selected)
  else if layer_idx <=? n then selected ++ with_prefix c (blk_prefix (layer_idx - 1))
  else if layer_idx =? n + 1 then
    let selected := selected ++ List.filter (has c) [NORM; OUTPUT] in
    if negb (has c OUTPUT) && has c EMBD && negb (bool_decide (EMBD ∈ selected))
    then selected ++ [EMBD] else selected
  else selected.
Definition layer_seq (s e : Z) : list Z := map (fun k => s + Z.of_nat k) (seq 0 (Z.to_nat (e - s + 1))).
Definition split_select (c : Content) (s e : Z) : result string (list string) :=
  if e <? s then Err "Invalid split range: split_start > split_end"%string
  else if block_count (metadata c) + 1 <? e then Err "Invalid split range: split_end exceeds max layer index"%string
  else
    match Sort.sort (foldl (select_layer c) [] (layer_seq s e)) with
    | [] => Err "No tensors selected for split range"%string
    | l => Ok l
    end.
Definition skip_keys (keep_tokenizer : bool) : list string :=
  if keep_tokenizer then ["pleiades.layer_bitmap"%string]
  else ["pleiades.layer_bitmap"; "tokenizer."; "chat_template"]%string.
Definition should_skip (keep_tokenizer : bool) (key : string) : bool :=
  existsb (fun p => sw p key) (skip_keys keep_tokenizer).
Definition mark_block (b : bitmap) (n : string) : bitmap :=
  match layer_of_name n with
  | Some k => if (k <? 256)%nat then or_bit b (k / 8) (k mod 8) else b
  | None => b
  end.
Definition split_bitmap (selected : list string) : bitmap := foldl mark_block zero_bitmap selected.
Definition split_metadata (c : Content) (s e : Z) (keep_tokenizer : bool) (selected : list string)
    : list (string * Value) :=
  let kept := List.filter (fun kv => negb (should_skip keep_tokenizer kv.1)) (map_to_list (metadata c)) in
  Sort.sort_by fst (kept ++ [("pleiades.layer_bitmap"%string, Str (of_bytes (Bitmap_To_Hex (split_bitmap selected))));
                        ("pleiades.split.start"%string, U32 (wrap 32 s));
                        ("pleiades.split.end"%string, U32 (wrap 32 e))]).
(** The file name, metadata and tensors handed to [gguf_file::write]. *)
Definition GGUF_Split_Model {Q} (tensor : string -> result string Q) (c : Content) (stem : bytes) (s e : Z)
    (keep_tokenizer : bool) : result string (bytes * list (string * Value) * list (string * Q)) :=
  selected ← split_select c s e;
  loaded ← (fix load l := match l with
            | [] => Ok []
            | n :: l => q ← tensor n; r ← load l; Ok ((n, q) :: r)
            end) selected;
  Ok (split_file_name stem s e, split_metadata c s e keep_tokenizer selected, loaded).

(** ** Conversion ([GGUF_Analyze_And_Convert]) *)
(** The bytes hashed into a model's identifier. *)
Definition model_id_input (c : Content) : bytes :=
  concat (map (fun n => as_bytes n ++
    concat (map (to_le_bytes 8) (default [] (ti_dims <$> tensor_infos c !! n)))) (Sort.sort (names_of c))).
Definition blocks_present (c : Content) : gmap nat (list Tensor_Detail) :=
  foldl (fun m n => match layer_of_name n with
                    | Some k => <[k := default [] (m !! k)]> m
                    | None => m end) ∅ (names_of c).
Definition convert_bitmap (c : Content) : bitmap :=
  Build_Layer_Bitmap (blocks_present c) (Z.to_nat (block_count (metadata c))).
Definition with_id (a : Model_Arch_Info) (id : option Z) (b : option bitmap) : Model_Arch_Info :=
  {| architecture := architecture a; num_layers := num_layers a; embedding_length := embedding_length a;
     head_count := head_count a; head_count_kv := head_count_kv a; head_dim := head_dim a;
     feed_forward_length := feed_forward_length a; context_length := context_length a;
     rms_norm_eps := rms_norm_eps a; rope_freq_base := rope_freq_base a; vocab_size := vocab_size a;
     eos_token_id := eos_token_id a; chat_template := chat_template a; layers := layers a;
     non_layer_tensors := non_layer_tensors a; metadata_raw := metadata_raw a; is_split := is_split a;
     split_start := split_start a; split_end := split_end a; model_id := id; layer_bitmap := b;
     weight_format := weight_format a; num_shards := num_shards a |}.
(** What a call decides: the file is left alone, or it is rewritten with an
    identifier and a bitmap and the original removed. [None]: a bitmap text
    that cuts a character makes [Parse_Bitmap_Hex] panic. *)
Inductive conversion : Type :=
  | Untouched (a : Model_Arch_Info)
  | Rewrite (a : Model_Arch_Info) (id : Z) (b : bitmap).
Definition parse_opt_bitmap (o : option string) : option (option bitmap) :=
  match o with
  | None => Some None
  | Some h => b ← Parse_Bitmap_Hex (as_bytes h); Some (Some b)
  end.
Definition GGUF_Analyze_And_Convert (xxhash32 : bytes -> Z) (c : Content) : option conversion :=
  let a := GGUF_Analyze_From_Content c in
  let md := metadata c in
  let id := Get_Metadata_Usize md "pleiades.model_id" in
  let hex := Get_Metadata_String md "pleiades.layer_bitmap" in
  if bool_decide (weight_format a = Some "safetensors"%string) then
    b ← parse_opt_bitmap hex; Some (Untouched (with_id a (wrap 32 <$> id) b))
  else
    match id, hex with
    | Some id, Some hex =>
        b ← Parse_Bitmap_Hex (as_bytes hex); Some (Untouched (with_id a (Some (wrap 32 id)) (Some b)))
    | _, _ =>
        let id := wrap 32 (xxhash32 (model_id_input c)) in
        let b := convert_bitmap c in
        Some (Rewrite (with_id a (Some id) (Some b)) id b)
    end.

(** ** Load ranges ([GGUF_Load_Model]) *)
Definition load_range (a : Model_Arch_Info) (start end_ : Z) : result string Z :=
  let max_layer_index := num_layers a + 1 in
  if end_ <? start then Err "Invalid layer range: start > end"%string
  else if is_split a then
    if (start <? split_start a) || (split_end a <? end_)
    then Err "Layer range exceeds split model range"%string else Ok end_
  else Ok (Z.min end_ max_layer_index).
(** The layers read: input head, blocks, output head. *)
Definition loaded_layers (a : Model_Arch_Info) (start end_ : Z) : bool * list Z * bool :=
  (start =? 0, layer_seq (Z.max start 1) (Z.min end_ (num_layers a)), end_ =? num_layers a + 1).
End gguf.

Definition Resolve_Model_Path (exists_ : string -> bool) (join : string -> string) (model_name : string)
    : option string :=
  let pgguf := join (model_name +:+ ".pgguf")%string in
  if exists_ pgguf then Some pgguf else
  let gguf := join (model_name +:+ ".gguf")%string in
  if exists_ gguf then Some gguf else None.

(** ** Lists and names *)
Lemma filter_In' {A} (f : A -> bool) l x : x ∈ List.filter f l <-> x ∈ l /\ f x = true.
Proof. rewrite !list_elem_of_In. apply filter_In. Qed.
Lemma NoDup_filter' {A} (f : A -> bool) (l : list A) : base.NoDup l -> base.NoDup (List.filter f l).
Proof.
  induction 1 as [|x l Hx Hl IH]; cbn; [constructor|]. case_match; [|done].
  constructor; [|done]. by intros [? _]%filter_In'.
Qed.
Lemma elem_of_names c n : n ∈ names_of c <-> is_Some (tensor_infos c !! n).
Proof.
  unfold names_of. rewrite list_elem_of_fmap. split.
  - intros ([m i] & -> & H%elem_of_map_to_list). by exists i.
  - intros [i H]. exists (n, i). split; [done|]. by apply elem_of_map_to_list.
Qed.
Lemma NoDup_names c : base.NoDup (names_of c).
Proof. apply NoDup_fst_map_to_list. Qed.
Lemma has_spec c n : has c n = true <-> n ∈ names_of c.
Proof. unfold has. by rewrite bool_decide_eq_true, elem_of_names. Qed.
Lemma elem_of_prefix c p n : n ∈ with_prefix c p <-> n ∈ names_of c /\ sw p n = true.
Proof. apply filter_In'. Qed.
Lemma sw_spec p n : sw p n = true <-> exists k, as_bytes n = as_bytes p ++ k.
Proof. apply Str.starts_with_spec. Qed.

(** A name lies in one block only. *)
Lemma blk_prefix_inj i j n :
  in_range 64 i -> in_range 64 j -> sw (blk_prefix i) n = true -> sw (blk_prefix j) n = true -> i = j.
Proof.
  rewrite !sw_spec. unfold blk_prefix. rewrite !as_of_bytes.
  intros Hi Hj (k & ->) (k' & E). rewrite <- !app_assoc in E. apply app_inv_head in E.
  apply (f_equal (Split.split "."%byte)) in E.
  change (as_bytes "." ++ k) with ("."%byte :: k) in E. change (as_bytes "." ++ k') with ("."%byte :: k') in E.
  assert (forall i, "."%byte ∉ Num.print_dec i) as Hd.
  { intros z Hz. pose proof (proj1 (Forall_forall _ _) (Num.print_dec_digits z) _ Hz) as Hx. by destruct Hx. }
  rewrite !Split.split_app in E by apply Hd. injection E as E.
  assert (Ok (E:=Num.int_error) i = Ok j) as [= ->]; [|done].
  by rewrite <- (Num.parse_print_dec 64 i), <- (Num.parse_print_dec 64 j), E.
Qed.
Lemma fixed_not_block i n : n ∈ [EMBD; NORM; OUTPUT] -> sw (blk_prefix i) n = false.
Proof. intros H. repeat (apply elem_of_cons in H as [->|H]; [done|]). by apply not_elem_of_nil in H. Qed.

(** ** Analysis is a partition *)
Section analysis.
Context `{!Gguf}.
Definition in_layer (o : option nat) (t : string * TensorInfo) : bool := bool_decide (layer_of_name t.1 = o).
Lemma filter_in_layer o t ts :
  List.filter (in_layer o) (t :: ts) =
    if decide (layer_of_name t.1 = o) then t :: List.filter (in_layer o) ts else List.filter (in_layer o) ts.
Proof. cbn [List.filter]. unfold in_layer at 1. by destruct (decide _); [rewrite bool_decide_true|rewrite bool_decide_false]. Qed.
Lemma group_spec ts m nl :
  (forall i, default [] ((foldl group_tensor (m, nl) ts).1 !! i)
     = default [] (m !! i) ++ map (fun t => detail_of t.1 t.2) (List.filter (in_layer (Some i)) ts)) /\
  (foldl group_tensor (m, nl) ts).2 = nl ++ map (fun t => detail_of t.1 t.2) (List.filter (in_layer None) ts).
Proof.
  revert m nl. induction ts as [|t ts IH]; intros m nl; cbn [foldl].
  { split; [intros i|]; cbn; by rewrite app_nil_r. }
  rewrite filter_in_layer. unfold group_tensor at 2 4. cbn [fst snd].
  destruct (layer_of_name t.1) as [k|] eqn:Hk.
  - destruct (IH (<[k:=default [] (m !! k) ++ [detail_of t.1 t.2]]> m) nl) as [IH1 IH2].
    rewrite decide_False by done. split; [|exact IH2]. intros i.
    rewrite IH1, filter_in_layer, Hk. destruct (decide (k = i)) as [->|Hne].
    + rewrite lookup_insert_eq, decide_True by done. cbn. by rewrite <- app_assoc.
    + rewrite lookup_insert_ne, decide_False by congruence. done.
  - destruct (IH m (nl ++ [detail_of t.1 t.2])) as [IH1 IH2]. rewrite decide_True by done. split.
    + intros i. by rewrite IH1, filter_in_layer, Hk, decide_False.
    + rewrite IH2. cbn. by rewrite <- app_assoc.
Qed.

Definition details_in (c : Content) (o : option nat) : list Tensor_Detail :=
  map (fun t => detail_of t.1 t.2) (List.filter (in_layer o) (map_to_list (tensor_infos c))).
(** the analysis files every tensor of the header under its block, or
    with the tensors outside the blocks, once and sorted by name, and the
    size of a block is the sum of its tensors' sizes. *)
Theorem analysis_partitions_tensors c i l :
  layers (GGUF_Analyze_From_Content c) !! i = Some l ->
  layer_index l = i /\ tensors l ≡ₚ details_in c (Some i) /\ Sorted (Sort.key_le td_name) (tensors l) /\
  total_size_bytes l = foldr Z.add 0 (map size_bytes (tensors l)) /\
  non_layer_tensors (GGUF_Analyze_From_Content c) ≡ₚ details_in c None.
Proof.
  unfold GGUF_Analyze_From_Content. destruct (group_tensors _) as [m nl] eqn:Hg. cbn [layers non_layer_tensors].
  destruct (group_spec (map_to_list (tensor_infos c)) ∅ []) as [H1 H2].
  unfold group_tensors in Hg. rewrite Hg in H1, H2. cbn [fst snd] in *.
  rewrite list_lookup_fmap. destruct (seq _ _ !! i) as [j|] eqn:Hj; [|done]. intros [= <-].
  apply lookup_seq in Hj as [-> _]. unfold layer_info. cbn [layer_index tensors total_size_bytes].
  split_and!; [done| |apply Sort.sort_by_sorted|done|].
  - by rewrite Sort.sort_by_perm, H1, lookup_empty.
  - by rewrite Sort.sort_by_perm, H2.
Qed.
End analysis.

(** ** Reading a written file back *)
Section split.
Context `{!Gguf}.
(** A reader inserts the pairs in file order: the last one of a key wins. *)
Definition read_metadata (pairs : list (string * Value)) : gmap string Value :=
  foldl (fun m kv => <[kv.1 := kv.2]> m) ∅ pairs.
(** [c'] is what is read from a file written with these pairs and the tensors
    of [c] with these names. *)
Record reads_back (c c' : Content) (pairs : list (string * Value)) (names : list string) : Prop := {
    rb_metadata : metadata c' = read_metadata pairs;
    rb_tensors n : is_Some (tensor_infos c' !! n) <-> n ∈ names;
}.

Definition of_key (k : string) (kv : string * Value) : bool := String.eqb kv.1 k.
Lemma read_metadata_lookup pairs k :
  read_metadata pairs !! k = snd <$> last (List.filter (of_key k) pairs).
Proof.
  induction pairs as [|[k' v] pairs IH] using rev_ind; [done|].
  unfold read_metadata in *. rewrite foldl_app, List.filter_app. cbn [foldl fst snd List.filter].
  unfold of_key at 2. cbn [fst]. destruct (String.eqb_spec k' k) as [->|Hne].
  - by rewrite lookup_insert_eq, last_snoc.
  - by rewrite lookup_insert_ne, IH, app_nil_r.
Qed.
Lemma kept_of_key (keep : string * Value -> bool) (m : gmap string Value) k :
  (forall v, keep (k, v) = true) ->
  snd <$> last (List.filter (of_key k) (List.filter keep (map_to_list m))) = m !! k.
Proof.
  intros Hk. set (l := List.filter _ _).
  assert (forall kv, kv ∈ l <-> kv.1 = k /\ m !! k = Some kv.2) as Hl.
  { intros [k' v]. unfold l. rewrite !filter_In', elem_of_map_to_list. unfold of_key. cbn [fst snd].
    rewrite String.eqb_eq. split; [by intros [[? ?] ->]|]. intros [-> ?]. repeat split; auto. }
  destruct (last l) as [[k' v]|] eqn:E.
  - apply last_Some_elem_of, Hl in E as [_ E]. by rewrite E.
  - apply last_None in E. destruct (m !! k) as [v|] eqn:Hv; [|done].
    assert ((k, v) ∈ l) as Hin by (by apply Hl). rewrite E in Hin. by apply not_elem_of_nil in Hin.
Qed.
Definition new_keys : list string :=
  ["pleiades.layer_bitmap"; "pleiades.split.start"; "pleiades.split.end"]%string.
Lemma split_metadata_old c s e keep selected k :
  k ∉ new_keys -> should_skip keep k = false ->
  read_metadata (split_metadata c s e keep selected) !! k = metadata c !! k.
Proof.
  intros Hk Hs. rewrite read_metadata_lookup. unfold split_metadata, of_key.
  rewrite (Sort.sort_by_stable fst k), List.filter_app. unfold new_keys in Hk.
  rewrite !not_elem_of_cons in Hk. destruct Hk as (H1 & H2 & H3 & _). cbn [List.filter fst].
  rewrite !(proj2 (String.eqb_neq _ _)) by done. rewrite app_nil_r.
  apply (kept_of_key _ (metadata c) k). intros v. cbn [fst]. by rewrite Hs.
Qed.
Lemma split_metadata_new c s e keep selected k v :
  List.filter (of_key k) [("pleiades.layer_bitmap"%string, Str (of_bytes (Bitmap_To_Hex (split_bitmap selected))));
                        ("pleiades.split.start"%string, U32 (wrap 32 s));
                        ("pleiades.split.end"%string, U32 (wrap 32 e))] = [(k, v)] ->
  read_metadata (split_metadata c s e keep selected) !! k = Some v.
Proof.
  intros Hv. rewrite read_metadata_lookup. unfold split_metadata.
  unfold of_key at 1. rewrite (Sort.sort_by_stable fst k), List.filter_app.
  change (fun a => String.eqb a.1 k) with (of_key k). by rewrite Hv, last_snoc.
Qed.

(** ** What a split selects *)
Lemma elem_of_layer_seq s e i : i ∈ layer_seq s e <-> s <= i <= e.
Proof.
  unfold layer_seq. rewrite list_elem_of_fmap. split.
  - intros (k & -> & Hk%elem_of_seq). lia.
  - intros Hi. exists (Z.to_nat (i - s)). rewrite elem_of_seq. lia.
Qed.
(** The names a layer contributes. *)
Definition wanted (c : Content) (i : Z) (n : string) : Prop :=
  let b := block_count (metadata c) in
  n ∈ names_of c /\
  ((i = 0 /\ n = EMBD) \/
   (0 < i <= b /\ sw (blk_prefix (i - 1)) n = true) \/
   (i = b + 1 /\ (n = NORM \/ n = OUTPUT \/ (n = EMBD /\ OUTPUT ∉ names_of c)))).
Lemma has_false c n : has c n = false <-> n ∉ names_of c.
Proof. rewrite <- has_spec. by destruct (has c n). Qed.
Lemma elem_of_select c sel i n :
  0 <= i -> 0 <= block_count (metadata c) -> n ∈ select_layer c sel i <-> n ∈ sel \/ wanted c i n.
Proof.
  intros Hi Hb. unfold select_layer, wanted.
  destruct (Z.eqb_spec i 0) as [->|H0].
  { destruct (has c EMBD) eqn:E; [apply has_spec in E|apply has_false in E]; rewrite ?elem_of_app, ?list_elem_of_singleton;
      split; [intros [?| ->]; [by left|right; split; [done|by left]]|
              intros [?|(? & [[_ ?]|[?|?]])]; [by left|by right|lia..]|
              by left|intros [?|(? & [[_ ->]|[?|?]])]; [done|done|lia..]]. }
  destruct (Z.leb_spec i (block_count (metadata c))) as [Hl|Hl].
  { rewrite elem_of_app, elem_of_prefix. split.
    - intros [?|[? ?]]; [by left|]. right. split; [done|]. right; left. split; [lia|done].
    - intros [?|(? & [?|[[? ?]|?]])]; [by left|lia|by right|lia]. }
  destruct (Z.eqb_spec i (block_count (metadata c) + 1)) as [->|Hn].
  2:{ split; [by left|]. intros [?|(? & ?)]; [done|lia]. }
  set (sel' := sel ++ List.filter (has c) [NORM; OUTPUT]).
  assert (n ∈ sel' <-> n ∈ sel \/ (n ∈ names_of c /\ (n = NORM \/ n = OUTPUT))) as Hsel.
  { unfold sel'. rewrite elem_of_app, filter_In', has_spec, !elem_of_cons, elem_of_nil. tauto. }
  assert (EMBD ∈ sel' <-> EMBD ∈ sel) as Hembd.
  { unfold sel'. rewrite elem_of_app, filter_In', !elem_of_cons, elem_of_nil. split; [|by left].
    intros [?|([?|[?|?]] & _)]; done. }
  destruct (has c OUTPUT) eqn:Ho; [apply has_spec in Ho|apply has_false in Ho]; cbn [negb andb].
  - rewrite Hsel. split; [intros [?|[? ?]]; [by left|right; split; [done|right; right; tauto]]|].
    intros [?|(? & [?|[?|(_ & [?|[?|[? ?]]])]])]; [by left|lia|lia|tauto|tauto|done].
  - destruct (has c EMBD) eqn:He; [apply has_spec in He|apply has_false in He]; cbn [andb].
    + case_bool_decide as Hin; cbn [negb].
      * rewrite Hsel. split; [intros [?|[? ?]]; [by left|right; split; [done|right; right; tauto]]|].
        intros [?|(? & [?|[?|(_ & [?|[?|[-> ?]]])]])]; [by left|lia|lia|tauto|tauto|]. left. by apply Hembd.
      * rewrite elem_of_app, Hsel, list_elem_of_singleton. split.
        -- intros [[?|[? ?]]| ->]; [by left|right; split; [done|right; right; tauto]|].
           right. split; [done|]. right; right. tauto.
        -- intros [?|(? & [?|[?|(_ & [?|[?|[-> ?]]])]])]; [by left; left|lia|lia|tauto|tauto|by right].
    + rewrite Hsel. split; [intros [?|[? ?]]; [by left|right; split; [done|right; right; tauto]]|].
      intros [?|(? & [?|[?|(_ & [?|[?|[-> ?]]])]])]; [by left|lia|lia|tauto|tauto|done].
Qed.
Lemma elem_of_selection c l n :
  0 <= block_count (metadata c) -> Forall (fun i => 0 <= i) l ->
  n ∈ foldl (select_layer c) [] l <-> exists i, i ∈ l /\ wanted c i n.
Proof.
  intros Hb Hl. induction l as [|i l IH] using rev_ind.
  { split; [intros Hn; by apply not_elem_of_nil in Hn|]. by intros (i & Hi%not_elem_of_nil & _). }
  apply Forall_app in Hl as [Hl Hi]. rewrite Forall_singleton in Hi.
  rewrite foldl_app. cbn [foldl]. rewrite elem_of_select, (IH Hl) by assumption. split.
  - intros [(j & Hj & Hw)|Hw]; [exists j|exists i]; (split; [|done]); apply elem_of_app; [by left|right].
    by apply list_elem_of_singleton.
  - intros (j & [Hj| ->%list_elem_of_singleton]%elem_of_app & Hw); [left; eauto|by right].
Qed.
Lemma wanted_disjoint c i j n :
  0 <= i -> j < i -> in_range 64 (block_count (metadata c)) -> wanted c i n -> wanted c j n ->
  n = EMBD /\ j = 0 /\ i = block_count (metadata c) + 1.
Proof.
  intros Hi Hj Hb (_ & [[? ?]|[[Hi1 Hp]|[Hi1 Hf]]]) (_ & [[Hj0 Hf']|[[Hj1 Hp']|[Hj1 Hf']]]);
    unfold in_range in Hb; try lia.
  - subst. by rewrite (fixed_not_block _ EMBD) in Hp by (repeat constructor).
  - apply (blk_prefix_inj _ (j - 1)) in Hp; [lia|unfold in_range; lia..|done].
  - subst. by destruct Hf as [?|[?|[? _]]].
  - assert (n ∈ [EMBD; NORM; OUTPUT]) as Hfix
      by (rewrite !elem_of_cons; destruct Hf as [?|[?|[? _]]]; tauto).
    by rewrite (fixed_not_block _ _ Hfix) in Hp'.
Qed.
Lemma select_NoDup c sel i :
  0 <= i -> in_range 64 (block_count (metadata c)) -> base.NoDup sel ->
  (forall n, n ∈ sel -> exists j, j < i /\ wanted c j n) -> base.NoDup (select_layer c sel i).
Proof.
  intros Hi Hb Hsel Hw.
  assert (forall l, base.NoDup l -> (forall n, n ∈ l -> wanted c i n /\ n <> EMBD) -> base.NoDup (sel ++ l)) as Happ.
  { intros l Hl Hwl. apply NoDup_app. split_and!; [done| |done]. intros n (j & Hj & Hjw)%Hw Hn.
    apply Hwl in Hn as [Hn1 Hn2]. by destruct (wanted_disjoint c i j n) as (? & _). }
  unfold select_layer. destruct (Z.eqb_spec i 0) as [->|H0].
  { destruct (has c EMBD); [|done]. apply NoDup_app. split_and!; [done| |apply NoDup_singleton].
    intros n (j & Hj & (_ & Hjw))%Hw _. unfold in_range in Hb. lia. }
  destruct (Z.leb_spec i (block_count (metadata c))) as [Hl|Hl].
  { apply Happ; [apply NoDup_filter', NoDup_names|]. intros n [? Hp]%elem_of_prefix.
    split; [split; [done|]; right; left; split; [lia|done]|]. intros ->.
    by rewrite (fixed_not_block _ EMBD) in Hp by (repeat constructor). }
  destruct (Z.eqb_spec i (block_count (metadata c) + 1)) as [->|Hn]; [|done].
  assert (base.NoDup (sel ++ List.filter (has c) [NORM; OUTPUT])) as Hnd.
  { apply Happ; [apply NoDup_filter', (bool_decide_unpack _); by vm_compute|].
    intros n [Hn ?%has_spec]%filter_In'. rewrite !elem_of_cons, elem_of_nil in Hn.
    split; [split; [done|]; right; right; tauto|]. by destruct Hn as [->|[->|?]]. }
  case_match eqn:Hc; [|done]. apply andb_prop in Hc as [_ Hc%negb_true_iff].
  apply bool_decide_eq_false in Hc. apply NoDup_app. split_and!; [done| |apply NoDup_singleton].
  by intros n ? ->%list_elem_of_singleton.
Qed.
Lemma selection_NoDup c s k :
  0 <= s -> in_range 64 (block_count (metadata c)) ->
  base.NoDup (foldl (select_layer c) [] (map (fun k => s + Z.of_nat k) (seq 0 k))).
Proof.
  intros Hs Hb. induction k as [|k IH]; [constructor|].
  rewrite seq_S, map_app, foldl_app. cbn [map foldl Nat.add]. apply select_NoDup; [lia|done|done|].
  intros n Hn. apply elem_of_selection in Hn as (j & Hj & Hw).
  - exists j. split; [|done]. apply list_elem_of_fmap in Hj as (m & -> & Hm%elem_of_seq). lia.
  - unfold in_range in Hb; lia.
  - apply Forall_fmap, Forall_true. intros m; cbn; lia.
Qed.

Lemma split_select_spec c s e sel :
  0 <= s -> in_range 64 (block_count (metadata c)) -> split_select c s e = Ok sel ->
  base.NoDup sel /\ s <= e <= block_count (metadata c) + 1 /\
  forall n, n ∈ sel <-> exists i, s <= i <= e /\ wanted c i n.
Proof.
  intros Hs Hb. unfold split_select. destruct (Z.ltb_spec e s); [done|].
  destruct (Z.ltb_spec (block_count (metadata c) + 1) e); [done|].
  destruct (Sort.sort _) as [|x l] eqn:E; [done|]. intros [= <-]. rewrite <- E.
  split_and!; [|lia..|].
  - unfold Sort.sort. rewrite Sort.sort_by_perm. by apply selection_NoDup.
  - intros n. unfold Sort.sort. rewrite Sort.sort_by_perm, elem_of_selection.
    + by setoid_rewrite elem_of_layer_seq.
    + unfold in_range in Hb; lia.
    + apply Forall_forall. intros i Hi%elem_of_layer_seq. lia.
Qed.

(** The architecture's keys survive the copy of the metadata. *)
Definition arch_kept (c : Content) (keep : bool) : Prop :=
  let k := arch_key (arch_of (metadata c)) ".block_count" in
  k ∉ new_keys /\ should_skip keep k = false.
Lemma split_block_count c c' s e keep sel :
  arch_kept c keep -> reads_back c c' (split_metadata c s e keep sel) sel ->
  arch_of (metadata c') = arch_of (metadata c) /\ block_count (metadata c') = block_count (metadata c).
Proof.
  intros [H1 H2] [Hm _].
  assert (arch_of (metadata c') = arch_of (metadata c)) as Ha.
  { unfold arch_of, Get_Metadata_String. rewrite Hm, split_metadata_old; [done| |by destruct keep].
    by apply (bool_decide_unpack _). }
  split; [done|]. unfold block_count, Get_Metadata_Usize. by rewrite Ha, Hm, split_metadata_old.
Qed.

Lemma split_layers_spec c c' s e keep sel :
  0 <= s -> in_range 64 (block_count (metadata c)) -> arch_kept c keep ->
  split_select c s e = Ok sel -> reads_back c c' (split_metadata c s e keep sel) sel ->
  base.NoDup sel /\
  (forall i, s <= i <= e ->
     match layer_names c i with
     | Ok l => exists l', layer_names c' i = Ok l' /\ l' ≡ₚ l
     | Err m => layer_names c' i = Err m
     end) /\
  (s <= block_count (metadata c) + 1 <= e -> OUTPUT ∉ names_of c -> EMBD ∈ names_of c ->
     layer_names c' 0 = Ok [EMBD]).
Proof.
  intros Hs Hb Hkeep Hsel Hrb. destruct (split_select_spec _ _ _ _ Hs Hb Hsel) as (Hnd & He & Hin).
  destruct (split_block_count _ _ _ _ _ _ Hkeep Hrb) as [_ Hbc]. unfold in_range in Hb.
  assert (forall n, n ∈ names_of c' <-> exists i, s <= i <= e /\ wanted c i n) as Hnames.
  { intros n. by rewrite elem_of_names, (rb_tensors _ _ _ _ Hrb), Hin. }
  assert (forall n i, s <= i <= e -> (n ∈ names_of c -> wanted c i n) -> has c' n = has c n) as Hhas.
  { intros n i Hi Hw. apply eq_true_iff_eq. rewrite !has_spec, Hnames. split; [by intros (j & _ & [? _])|eauto]. }
  split_and!; [done| |].
  - intros i Hi. unfold layer_names. rewrite Hbc. destruct (_ <? i); [done|].
    destruct (Z.eqb_spec i 0) as [->|H0].
    { rewrite (Hhas EMBD 0) by first [done|intros ?; split; [done|by left]].
      destruct (has c EMBD); [by eexists|done]. }
    destruct (Z.leb_spec i (block_count (metadata c))) as [Hl|Hl].
    + assert (with_prefix c' (blk_prefix (i - 1)) ≡ₚ with_prefix c (blk_prefix (i - 1))) as Hp.
      { apply NoDup_Permutation; [apply NoDup_filter', NoDup_names..|]. intros n.
        rewrite !elem_of_prefix, Hnames. split; [by intros [(j & _ & [? _]) ?]|]. intros [? ?]. split; [|done].
        exists i. split; [done|]. split; [done|]. right; left. split; [lia|done]. }
      destruct (with_prefix c (blk_prefix (i - 1))) as [|n l].
      * apply Permutation_nil_r in Hp. by rewrite Hp.
      * destruct (with_prefix c' (blk_prefix (i - 1))) as [|n' l']; [by apply Permutation_nil_l in Hp|].
        eexists. split; [done|exact Hp].
    + assert (i = block_count (metadata c) + 1) as -> by lia.
      assert (forall n, n = NORM \/ n = OUTPUT -> has c' n = has c n) as Hh.
      { intros n Hn. apply (Hhas n _ Hi). intros Hc. split; [done|]. right; right. split; [done|tauto]. }
      cbn [List.filter]. rewrite (Hh NORM), (Hh OUTPUT) by tauto.
      destruct (has c NORM), (has c OUTPUT); done || by eexists.
  - intros Hi Ho Hemb. unfold layer_names. rewrite Hbc, (proj2 (Z.ltb_ge _ 0)) by lia. cbn [Z.eqb].
    rewrite (Hhas EMBD _ Hi); [by rewrite (proj2 (has_spec c EMBD) Hemb)|].
    intros _. split; [done|]. right; right. tauto.
Qed.
(** C4: a split file serves its layers: no tensor is stored twice, loading any
    layer of its range finds exactly the tensors it finds in the whole model
    (or fails the same way), and when the output shares the embedding the
    file of the output layer holds the embedding too. *)
Theorem split_preserves_layers c c' s e keep sel :
  0 <= s -> in_range 64 (block_count (metadata c)) -> arch_kept c keep ->
  split_select c s e = Ok sel -> reads_back c c' (split_metadata c s e keep sel) sel ->
  base.NoDup sel /\
  (forall i, s <= i <= e ->
     match layer_names c i with
     | Ok l => exists l', layer_names c' i = Ok l' /\ l' ≡ₚ l
     | Err m => layer_names c' i = Err m
     end) /\
  (s <= block_count (metadata c) + 1 <= e -> OUTPUT ∉ names_of c -> EMBD ∈ names_of c ->
     layer_names c' 0 = Ok [EMBD]).
Proof. apply split_layers_spec. Qed.

(** ** What a split file says of itself *)
Lemma bit_zero i : bit_set zero_bitmap i = false.
Proof.
  pose proof (proj2 (build_spec (∅ : gmap nat unit) 0) i) as Hi. unfold Build_Layer_Bitmap in Hi. cbn [seq foldl] in Hi.
  rewrite Hi. apply bool_decide_false. lia.
Qed.
Lemma split_bitmap_spec sel :
  length (split_bitmap sel) = 32%nat /\
  forall i, bit_set (split_bitmap sel) i = true <-> (i < 256)%nat /\ exists n, n ∈ sel /\ layer_of_name n = Some i.
Proof.
  unfold split_bitmap. induction sel as [|n sel [IHl IH]] using rev_ind.
  { split; [done|]. intros i. cbn [foldl]. rewrite bit_zero. split; [done|]. by intros (_ & n & Hn%not_elem_of_nil & _). }
  rewrite foldl_app. cbn [foldl]. set (b := foldl _ _ _) in *.
  assert (forall i, (i < 256)%nat /\ (exists m, m ∈ sel ++ [n] /\ layer_of_name m = Some i) <->
    ((i < 256)%nat /\ exists m, m ∈ sel /\ layer_of_name m = Some i) \/ ((i < 256)%nat /\ layer_of_name n = Some i)) as Hsn.
  { intros i. setoid_rewrite elem_of_app. setoid_rewrite list_elem_of_singleton. naive_solver. }
  unfold mark_block. destruct (layer_of_name n) as [k|]; [|split; [done|]; intros i; rewrite Hsn, IH; naive_solver].
  destruct (Nat.ltb_spec k 256) as [Hk|Hk].
  - split; [by rewrite length_or_bit|]. intros i.
    rewrite Hsn, bit_set_or_bit, orb_true_iff, IH, Nat.eqb_eq by done. naive_solver.
  - split; [done|]. intros i. rewrite Hsn, IH. split; [by left|]. intros [?|[? [= ->]]]; [done|lia].
Qed.

Lemma split_range_read `{!Gguf_Laws} c c' s e keep sel :
  0 <= s -> e < 2 ^ 32 -> s <= e -> reads_back c c' (split_metadata c s e keep sel) sel ->
  let a := GGUF_Analyze_From_Content c' in is_split a = true /\ split_start a = s /\ split_end a = e.
Proof.
  intros Hs He Hse [Hm _] a.
  assert (Get_Metadata_Usize (metadata c') "pleiades.split.start" = Some s) as H1.
  { unfold Get_Metadata_Usize. rewrite Hm. erewrite split_metadata_new by reflexivity. cbn [mbind option_bind].
    rewrite to_u32_U32, wrap_id; [done|unfold in_range; lia]. }
  assert (Get_Metadata_Usize (metadata c') "pleiades.split.end" = Some e) as H2.
  { unfold Get_Metadata_Usize. rewrite Hm. erewrite split_metadata_new by reflexivity. cbn [mbind option_bind].
    rewrite to_u32_U32, wrap_id; [done|unfold in_range; lia]. }
  unfold a, GGUF_Analyze_From_Content. destruct (group_tensors _). cbn. by rewrite H1, H2.
Qed.
Lemma split_load_range `{!Gguf_Laws} c c' s e keep sel s' e' x :
  0 <= s -> e < 2 ^ 32 -> s <= e -> reads_back c c' (split_metadata c s e keep sel) sel ->
  load_range (GGUF_Analyze_From_Content c') s' e' = Ok x <-> s <= s' <= e' /\ e' <= e /\ x = e'.
Proof.
  intros Hs He Hse Hrb. destruct (split_range_read c c' s e keep sel Hs He Hse Hrb) as (Ha & Has & Hae).
  unfold load_range. rewrite Ha, Has, Hae.
  destruct (Z.ltb_spec e' s'); [split; [done|lia]|]. destruct (Z.ltb_spec s' s); [split; [done|lia]|].
  destruct (Z.ltb_spec e e'); [split; [done|lia]|]. cbn [orb]. split; [intros [= ->]; lia|]. by intros (? & ? & ->).
Qed.
(** a split file describes itself: read back, it is a split of exactly the
    requested range, only sub-ranges of it load, and its bitmap marks exactly
    the blocks (below 256) whose tensors it holds. *)
Theorem split_describes_itself `{!Gguf_Laws} c c' s e keep sel :
  0 <= s -> e < 2 ^ 32 -> in_range 64 (block_count (metadata c)) ->
  split_select c s e = Ok sel -> reads_back c c' (split_metadata c s e keep sel) sel ->
  let a := GGUF_Analyze_From_Content c' in
  is_split a = true /\ split_start a = s /\ split_end a = e /\
  (forall s' e' x, load_range a s' e' = Ok x <-> s <= s' <= e' /\ e' <= e /\ x = e') /\
  exists hex b, Get_Metadata_String (metadata c') "pleiades.layer_bitmap" = Some hex /\
    Parse_Bitmap_Hex (as_bytes hex) = Some b /\
    forall i, bit_set b i = true <-> (i < 256)%nat /\ exists n, n ∈ sel /\ layer_of_name n = Some i.
Proof.
  intros Hs He Hb Hsel Hrb a. destruct (split_select_spec _ _ _ _ Hs Hb Hsel) as (_ & Hse & _).
  assert (s <= e) as Hse' by lia. destruct (split_range_read c c' s e keep sel Hs He Hse' Hrb) as (? & ? & ?).
  split_and!; [done..| |].
  - intros s' e' x. by apply (split_load_range c c' s e keep sel).
  - destruct (split_bitmap_spec sel) as [Hlen Hbits].
    exists (of_bytes (Bitmap_To_Hex (split_bitmap sel))), (split_bitmap sel).
    unfold Get_Metadata_String. rewrite (rb_metadata _ _ _ _ Hrb). erewrite split_metadata_new by reflexivity.
    cbn [mbind option_bind]. rewrite to_str_Str, as_of_bytes, parse_hex by done. done.
Qed.
End split.

(** ** A concrete model *)
Module Example_Model.
#[global] Instance plain_gguf : Gguf := {
    to_u32 v := match v with U32 x => Some x | _ => None end;
    to_u64 v := match v with U64 x | U32 x | U16 x | U8 x => Some x | _ => None end;
    to_str v := match v with Str s => Some s | _ => None end;
    to_f32 v := match v with F32V b => Some b | _ => None end;
    to_f64 v := match v with F64V b => Some b | _ => None end;
    block_size d := match d with DF32 | DF16 => 1 | _ => 32 end;
    type_size d := match d with DF32 => 4 | DF16 => 2 | _ => 34 end;
    dtype_name d := match d with DF32 => "F32" | _ => "Q" end%string;
    fmt_f32 _ := "1.0"%string;
    fmt_f64 _ := "1.0"%string;
    value_type v := match v with U8 _ => 0 | I8 _ => 1 | U16 _ => 2 | I16 _ => 3 | U32 _ => 4 | I32 _ => 5
      | F32V _ => 6 | BoolV _ => 7 | Str _ => 8 | Arr _ => 9 | U64 _ => 10 | I64 _ => 11 | F64V _ => 12 end;
}.
#[global] Instance plain_gguf_laws : Gguf_Laws.
Proof. by split. Qed.
(** Two blocks, the output shares the embedding. *)
Definition md : gmap string Value :=
  list_to_map [("general.architecture", Str "qwen3"); ("qwen3.block_count", U32 2);
               ("tokenizer.ggml.model", Str "gpt2")]%string.
Definition t (off : Z) : TensorInfo := mk_info [2] DF32 off.
Definition whole : Content :=
  mk_content md (list_to_map [("blk.1.attn.weight", t 0); ("token_embd.weight", t 32);
    ("blk.0.attn.weight", t 64); ("output_norm.weight", t 96)]%string) 256.
Definition tail_names : list string := ["blk.1.attn.weight"; "output_norm.weight"; "token_embd.weight"]%string.
Definition tail : Content :=
  mk_content (read_metadata (split_metadata whole 2 3 false tail_names))
    (list_to_map (map (fun n => (n, t 0)) tail_names)) 512.
Lemma tail_read : reads_back whole tail (split_metadata whole 2 3 false tail_names) tail_names.
Proof.
  split; [done|]. intros n. unfold tail, tail_names. cbn [tensor_infos map].
  rewrite !elem_of_cons, elem_of_nil. cbn [list_to_map foldr fst snd].
  rewrite !lookup_insert_is_Some', lookup_empty.
  assert (is_Some (None : option TensorInfo) <-> False) as -> by (split; [apply is_Some_None|done]).
  naive_solver.
Qed.
End Example_Model.
Import Example_Model.

Lemma analysis_partitions_tensors_witness :
  exists l, layers (GGUF_Analyze_From_Content whole) !! 1%nat = Some l /\
    tensors l ≡ₚ details_in whole (Some 1%nat).
Proof.
  eexists. split; [by vm_compute|]. eapply (analysis_partitions_tensors whole 1). by vm_compute.
Defined.
Lemma split_preserves_layers_witness :
  split_select whole 2 3 = Ok tail_names /\ layer_names tail 0 = Ok [EMBD] /\
  exists l', layer_names tail 2 = Ok l' /\ l' ≡ₚ ["blk.1.attn.weight"%string].
Proof.
  assert (split_select whole 2 3 = Ok tail_names) as Hsel by (by vm_compute).
  assert (arch_kept whole false) as Hk by (split; [apply (bool_decide_unpack _)|]; by vm_compute).
  assert (in_range 64 (block_count (metadata whole))) as Hb by (vm_compute; split; congruence).
  destruct (split_preserves_layers whole tail 2 3 false tail_names ltac:(lia) Hb Hk Hsel tail_read)
    as (_ & H2 & H3). split; [done|]. split.
  - apply H3; [vm_compute; split; congruence|apply (bool_decide_unpack _); by vm_compute..].
  - apply (H2 2). lia.
Defined.
Lemma split_describes_itself_witness :
  split_select whole 2 3 = Ok tail_names /\ is_split (GGUF_Analyze_From_Content tail) = true /\
  split_end (GGUF_Analyze_From_Content tail) = 3.
Proof.
  assert (split_select whole 2 3 = Ok tail_names) as Hsel by (by vm_compute).
  assert (in_range 64 (block_count (metadata whole))) as Hb by (vm_compute; split; congruence).
  assert (0 <= 2) as H2 by lia. assert (3 < 2 ^ 32) as H3 by lia.
  pose proof (split_describes_itself whole tail 2 3 false tail_names H2 H3 Hb Hsel tail_read) as H.
  cbv zeta in H. split; [exact Hsel|]. split; [exact (proj1 H)|exact (proj1 (proj2 (proj2 H)))].
Defined.
