(* ===== verification/GgufWrite.v ===== *)
(** * Writing a PGGUF file ([streaming_write_pgguf] of [gguf_model_manager.rs])

    The converter writes the header with empty offset fields, seeks back to
    fill them in, and then copies the tensor data.  A writer is a file and a
    position; the disk does not fail. The one-pass reference writer
    [encode_pgguf] is what the seeks amount to. *)
From S2P Require Import Prelude RustStd Wire Bitmap Gguf.

(** ** A seekable writer *)
Record writer : Type := mk_writer { file : bytes; position : nat }.
Definition write_all (b : bytes) (w : writer) : writer :=
  mk_writer (take (position w) (file w) ++ b ++ drop (position w + length b) (file w)) (position w + length b).
Definition seek (p : nat) (w : writer) : writer := mk_writer (file w) p.
Definition u32_le (v : Z) : bytes := to_le_bytes 4 v.
Definition u64_le (v : Z) : bytes := to_le_bytes 8 v.
Definition write_gguf_string (s : string) (w : writer) : writer :=
  write_all (as_bytes s) (write_all (u64_le (zlen (as_bytes s))) w).
(** [vec![0u8; (32 - (n % 32)) % 32]] *)
Definition align_pad (n : Z) : Z := (32 - n mod 32) mod 32.

Fixpoint gguf_value_size (v : Value) : Z :=
  match v with
  | U8 _ | I8 _ | BoolV _ => 1
  | U16 _ | I16 _ => 2
  | U32 _ | I32 _ | F32V _ => 4
  | U64 _ | I64 _ | F64V _ => 8
  | Str s => 8 + zlen (as_bytes s)
  | Arr l => (fix go (size : Z) (l : list Value) : Z :=
                match l with [] => size | x :: l => go (size + gguf_value_size x) l end) 12 l
  end.

Section write.
Context `{!Gguf}.
Fixpoint write_gguf_value (v : Value) (w : writer) : writer :=
  match v with
  | U8 v | I8 v => write_all (to_le_bytes 1 v) w
  | U16 v | I16 v => write_all (to_le_bytes 2 v) w
  | U32 v | I32 v | F32V v => write_all (to_le_bytes 4 v) w
  | U64 v | I64 v | F64V v => write_all (to_le_bytes 8 v) w
  | BoolV b => write_all (to_le_bytes 1 (Z.b2z b)) w
  | Str s => write_gguf_string s w
  | Arr l =>
      let vt := match l with [] => 4 | x :: _ => value_type x end in
      (fix go (l : list Value) (w : writer) : writer :=
         match l with [] => w | x :: l => go l (write_gguf_value x w) end)
        l (write_all (u64_le (zlen l)) (write_all (u32_le vt) w))
  end.

(** Narrow integers are widened. *)
Definition normalize (v : Value) : Value :=
  match v with U8 x | U16 x => U32 x | I8 x | I16 x => I32 x | v => v end.
Definition pgguf_metadata (c : Content) (model_id : Z) (layer_bitmap : bitmap) : list (string * Value) :=
  Sort.sort_by fst (map (fun kv => (kv.1, normalize kv.2)) (map_to_list (metadata c)) ++
    [("pleiades.model_id"%string, U32 model_id);
     ("pleiades.layer_bitmap"%string, Str (of_bytes (Bitmap_To_Hex layer_bitmap)))]).
(** The tensors by name. *)
Definition pgguf_tensors (c : Content) : list (string * TensorInfo) :=
  Sort.sort_by fst (map_to_list (tensor_infos c)).
Definition dtype_u32 (d : GgmlDType) : option Z :=
  match d with
  | DF32 => Some 0 | DF16 => Some 1 | Q4_0 => Some 2 | Q4_1 => Some 3 | Q5_0 => Some 6 | Q5_1 => Some 7
  | Q8_0 => Some 8 | Q8_1 => Some 9 | Q2K => Some 10 | Q3K => Some 11 | Q4K => Some 12 | Q5K => Some 13
  | Q6K => Some 14 | DOther => None
  end.
Definition size_in_bytes (i : TensorInfo) : Z :=
  elem_count i / block_size (ggml_dtype i) * type_size (ggml_dtype i).

Definition write_meta (w : writer) (kv : string * Value) : writer :=
  write_gguf_value kv.2 (write_all (u32_le (value_type kv.2)) (write_gguf_string kv.1 w)).
Definition write_info (t : string * TensorInfo) (w : writer) : result string writer :=
  let w := write_gguf_string t.1 w in
  let w := write_all (u32_le (zlen (ti_dims t.2))) w in
  let w := foldl (fun w d => write_all (u64_le d) w) w (rev (ti_dims t.2)) in
  d ← ok_or "unsupported ggml dtype"%string (dtype_u32 (ggml_dtype t.2));
  Ok (write_all (u64_le 0) (write_all (u32_le d) w)).
Fixpoint write_infos (ts : list (string * TensorInfo)) (w : writer) : result string writer :=
  match ts with
  | [] => Ok w
  | t :: ts => w ← write_info t w; write_infos ts w
  end.
(** The recomputed positions of the offset fields, with the tensor sizes. *)
Definition meta_end (pos : Z) (md : list (string * Value)) : Z :=
  foldl (fun pos kv => pos + (8 + zlen (as_bytes kv.1)) + 4 + gguf_value_size kv.2) pos md.
Fixpoint offset_positions (pos : Z) (ts : list (string * TensorInfo)) : list (Z * Z) :=
  match ts with
  | [] => []
  | t :: ts =>
      let pos := pos + (8 + zlen (as_bytes t.1)) + 4 + zlen (ti_dims t.2) * 8 + 4 in
      (pos, size_in_bytes t.2) :: offset_positions (pos + 8) ts
  end.
Fixpoint fill_offsets (offset : Z) (ps : list (Z * Z)) (w : writer) : writer :=
  match ps with
  | [] => w
  | (off_pos, size) :: ps =>
      let w := write_all (u64_le offset) (seek (Z.to_nat off_pos) w) in
      fill_offsets (offset + (size + align_pad size)) ps w
  end.
(** The copy through an 8 MB buffer. *)
Definition CHUNK : nat := 8 * 1024 * 1024.
Fixpoint copy_loop (fuel : nat) (data : bytes) (w : writer) : writer :=
  match fuel, data with
  | O, _ | _, [] => w
  | S fuel, _ => copy_loop fuel (drop CHUNK data) (write_all (take CHUNK data) w)
  end.
Definition streaming_write_pgguf (src : bytes) (c : Content) (model_id : Z) (layer_bitmap : bitmap)
    : result string bytes :=
  let md := pgguf_metadata c model_id layer_bitmap in
  let ts := pgguf_tensors c in
  let w := mk_writer [] 0 in
  let w := write_all (u32_le 0x46554747) w in
  let w := write_all (u32_le 2) w in
  let w := write_all (u64_le (zlen ts)) w in
  let w := write_all (u64_le (zlen md)) w in
  let w := foldl write_meta w md in
  w ← write_infos ts w;
  let w := write_all (replicate (Z.to_nat (align_pad (Z.of_nat (position w)))) x00) w in
  let tensor_data_start := position w in
  let w := fill_offsets 0 (offset_positions (meta_end 24 md) ts) w in
  let w := seek tensor_data_start w in
  let data := drop (Z.to_nat (tensor_data_offset c)) src in
  Ok (file (copy_loop (length data) data w)).

(** ** The reference: one pass, offsets known *)
Definition enc_string (s : string) : bytes := u64_le (zlen (as_bytes s)) ++ as_bytes s.
Fixpoint enc_value (v : Value) : bytes :=
  match v with
  | U8 v | I8 v => to_le_bytes 1 v
  | U16 v | I16 v => to_le_bytes 2 v
  | U32 v | I32 v | F32V v => to_le_bytes 4 v
  | U64 v | I64 v | F64V v => to_le_bytes 8 v
  | BoolV b => to_le_bytes 1 (Z.b2z b)
  | Str s => enc_string s
  | Arr l => u32_le (match l with [] => 4 | x :: _ => value_type x end) ++ u64_le (zlen l) ++ concat (map enc_value l)
  end.
Definition enc_meta (kv : string * Value) : bytes :=
  enc_string kv.1 ++ u32_le (value_type kv.2) ++ enc_value kv.2.
Definition enc_info_head (t : string * TensorInfo) : bytes :=
  enc_string t.1 ++ u32_le (zlen (ti_dims t.2)) ++ concat (map u64_le (rev (ti_dims t.2))) ++
  u32_le (default 0 (dtype_u32 (ggml_dtype t.2))).
Fixpoint enc_infos (offset : Z) (ts : list (string * TensorInfo)) : bytes :=
  match ts with
  | [] => []
  | t :: ts => enc_info_head t ++ u64_le offset ++
               enc_infos (offset + (size_in_bytes t.2 + align_pad (size_in_bytes t.2))) ts
  end.
Definition enc_header (c : Content) (model_id : Z) (layer_bitmap : bitmap) : bytes :=
  let md := pgguf_metadata c model_id layer_bitmap in
  let ts := pgguf_tensors c in
  u32_le 0x46554747 ++ u32_le 2 ++ u64_le (zlen ts) ++ u64_le (zlen md) ++ concat (map enc_meta md).
Definition supported (c : Content) : bool :=
  forallb (fun t => if dtype_u32 (ggml_dtype t.2) then true else false) (pgguf_tensors c).
Definition encode_pgguf (src : bytes) (c : Content) (model_id : Z) (layer_bitmap : bitmap) : bytes :=
  let head := enc_header c model_id layer_bitmap ++ enc_infos 0 (pgguf_tensors c) in
  head ++ replicate (Z.to_nat (align_pad (zlen head))) x00 ++ drop (Z.to_nat (tensor_data_offset c)) src.

(** ** Appending *)
Definition at_end (f : bytes) : writer := mk_writer f (length f).
Lemma write_all_end b f : write_all b (at_end f) = at_end (f ++ b).
Proof.
  unfold write_all, at_end. cbn [file position].
  rewrite take_ge, drop_ge, app_nil_r, length_app by lia. done.
Qed.
Lemma write_string_end s f : write_gguf_string s (at_end f) = at_end (f ++ enc_string s).
Proof. unfold write_gguf_string, enc_string. by rewrite !write_all_end, app_assoc. Qed.
(** Induction on values through their arrays. *)
Lemma Value_ind' (P : Value -> Prop) :
  (forall v, match v with Arr _ => False | _ => True end -> P v) -> (forall l, Forall P l -> P (Arr l)) -> forall v, P v.
Proof.
  intros Hbase Harr. fix IH 1. intros v. specialize (Hbase v). destruct v; try exact (Hbase I).
  clear Hbase. apply Harr. induction l as [|x l IHl]; constructor; [apply IH|exact IHl].
Qed.
Lemma write_value_end v f : write_gguf_value v (at_end f) = at_end (f ++ enc_value v).
Proof.
  revert f. induction v as [v Hv|l IH] using Value_ind'; [destruct v; try done; intros f;
    first [apply write_all_end|apply write_string_end]|].
  intros f. cbn [write_gguf_value enc_value]. rewrite !write_all_end, !app_assoc.
  generalize ((f ++ u32_le match l with [] => 4 | x :: _ => value_type x end) ++ u64_le (zlen l)).
  induction IH as [|x l Hx Hl IHl]; intros g; [by rewrite app_nil_r|]. cbn [map concat].
  by rewrite Hx, IHl, app_assoc.
Qed.
Lemma write_metas_end md f : foldl write_meta (at_end f) md = at_end (f ++ concat (map enc_meta md)).
Proof.
  revert f. induction md as [|kv md IH]; intros f; cbn [foldl map concat]; [by rewrite app_nil_r|].
  unfold write_meta at 2. rewrite write_string_end, write_all_end, write_value_end, IH.
  unfold enc_meta. by rewrite <- !app_assoc.
Qed.
Definition placeholder (t : string * TensorInfo) : bytes := enc_info_head t ++ u64_le 0.
Lemma write_infos_end ts f :
  write_infos ts (at_end f) =
    if forallb (fun t => if dtype_u32 (ggml_dtype t.2) then true else false) ts
    then Ok (at_end (f ++ concat (map placeholder ts))) else Err "unsupported ggml dtype"%string.
Proof.
  revert f. induction ts as [|t ts IH]; intros f; cbn [write_infos forallb map concat]; [by rewrite app_nil_r|].
  unfold write_info. rewrite write_string_end, write_all_end.
  assert (forall l g, foldl (fun w d => write_all (u64_le d) w) (at_end g) l = at_end (g ++ concat (map u64_le l))) as ->.
  { intros l. induction l as [|d l IHl]; intros g; cbn [foldl map concat]; [by rewrite app_nil_r|].
    by rewrite write_all_end, IHl, app_assoc. }
  unfold placeholder at 1, enc_info_head. destruct (dtype_u32 _); [|done]. cbn [ok_or mbind result_bind andb].
  rewrite !write_all_end, IH. case_match; [|done]. do 2 f_equal. cbn [default]. by rewrite <- !app_assoc.
Qed.
Lemma copy_loop_end fuel data f :
  (length data <= fuel)%nat -> copy_loop fuel data (at_end f) = at_end (f ++ data).
Proof.
  revert data f. induction fuel as [|fuel IH]; intros data f Hl.
  { destruct data; [|cbn in Hl; lia]. by rewrite app_nil_r. }
  destruct data as [|b data]; [by rewrite app_nil_r|]. cbn [copy_loop]. rewrite write_all_end, IH.
  - by rewrite <- app_assoc, take_drop.
  - rewrite length_drop. assert (0 < CHUNK)%nat by (unfold CHUNK; lia). cbn [length] in *. lia.
Qed.

(** ** Sizes *)
Lemma value_size_exact v : gguf_value_size v = zlen (enc_value v).
Proof.
  induction v as [v Hv|l IH] using Value_ind'; [destruct v; try done; cbn; unfold enc_string, u64_le; zlens|].
  cbn [gguf_value_size enc_value]. unfold u32_le, u64_le. rewrite !zlen_app, !zlen_to_le_bytes.
  replace (Z.of_nat 4 + (Z.of_nat 8 + zlen (concat (map enc_value l)))) with (12 + zlen (concat (map enc_value l))) by lia.
  generalize 12. induction IH as [|x l Hx Hl IHl]; intros n; cbn [map concat]; [by rewrite Z.add_0_r|].
  rewrite IHl, Hx. zlens.
Qed.
Lemma zlen_enc_string s : zlen (enc_string s) = 8 + zlen (as_bytes s).
Proof. unfold enc_string, u64_le. zlens. Qed.
Lemma meta_end_exact md pos : meta_end pos md = pos + zlen (concat (map enc_meta md)).
Proof.
  revert pos. induction md as [|kv md IH]; intros pos; unfold meta_end in *; cbn [foldl map concat].
  { by rewrite Z.add_0_r. }
  rewrite IH. unfold enc_meta at 2. rewrite !zlen_app, zlen_enc_string, value_size_exact.
  unfold u32_le. rewrite zlen_to_le_bytes. lia.
Qed.
Lemma zlen_info_head t :
  zlen (enc_info_head t) = (8 + zlen (as_bytes t.1)) + 4 + zlen (ti_dims t.2) * 8 + 4.
Proof.
  unfold enc_info_head, u32_le. rewrite !zlen_app, zlen_enc_string, !zlen_to_le_bytes.
  assert (forall l, zlen (concat (map u64_le l)) = zlen l * 8) as ->.
  { intros l. induction l as [|d l IH]; [done|]. cbn [map concat]. unfold u64_le at 1. zlens. }
  unfold zlen. rewrite length_rev. lia.
Qed.

(** ** Seeking back *)
Lemma write_all_middle x y z b :
  length y = length b -> write_all b (seek (length x) (mk_writer (x ++ y ++ z) 0)) =
    mk_writer (x ++ b ++ z) (length x + length b).
Proof.
  intros Hl. unfold write_all, seek. cbn [file position].
  assert (drop (length x + length b) (x ++ y ++ z) = z) as ->.
  { rewrite app_assoc. apply drop_app_length'. rewrite length_app. lia. }
  by rewrite take_app_length.
Qed.
Lemma seek_position p w : seek p w = seek p (mk_writer (file w) 0).
Proof. done. Qed.
Lemma fill_offsets_exact ts offset x z w :
  file w = x ++ concat (map placeholder ts) ++ z ->
  file (fill_offsets offset (offset_positions (zlen x) ts) w) = x ++ enc_infos offset ts ++ z.
Proof.
  revert offset x w. induction ts as [|t ts IH]; intros offset x w Hw; cbn [offset_positions fill_offsets enc_infos map concat].
  { done. }
  replace (zlen x + (8 + zlen (as_bytes t.1)) + 4 + zlen (ti_dims t.2) * 8 + 4) with (zlen (x ++ enc_info_head t))
    by (rewrite zlen_app, zlen_info_head; lia).
  replace (zlen (x ++ enc_info_head t) + 8) with (zlen (x ++ enc_info_head t ++ u64_le offset))
    by (unfold u64_le; zlens).
  assert (file (write_all (u64_le offset) (seek (Z.to_nat (zlen (x ++ enc_info_head t))) w)) =
          (x ++ enc_info_head t ++ u64_le offset) ++ concat (map placeholder ts) ++ z) as Hf.
  { rewrite seek_position, Hw. cbn [map concat]. unfold placeholder at 1, zlen. rewrite Nat2Z.id.
    replace (x ++ ((enc_info_head t ++ u64_le 0) ++ concat (map placeholder ts)) ++ z)
      with ((x ++ enc_info_head t) ++ u64_le 0 ++ (concat (map placeholder ts) ++ z)) by (by rewrite <- !app_assoc).
    rewrite write_all_middle by (unfold u64_le; by rewrite !length_to_le_bytes).
    cbn [file]. by rewrite <- !app_assoc. }
  rewrite (IH _ _ _ Hf). by rewrite <- !app_assoc.
Qed.
Lemma length_enc_infos ts offset : length (enc_infos offset ts) = length (concat (map placeholder ts)).
Proof.
  revert offset. induction ts as [|t ts IH]; intros offset; [done|]. cbn [enc_infos map concat].
  unfold placeholder, u64_le at 1 2. rewrite !length_app, !length_to_le_bytes, IH. unfold placeholder. lia.
Qed.
Lemma zlen_enc_header c id b :
  zlen (enc_header c id b) = meta_end 24 (pgguf_metadata c id b).
Proof. rewrite meta_end_exact. unfold enc_header, u32_le, u64_le. zlens. Qed.

Lemma streaming_write_spec src c id b :
  streaming_write_pgguf src c id b =
    if supported c then Ok (encode_pgguf src c id b) else Err "unsupported ggml dtype"%string.
Proof.
  unfold streaming_write_pgguf, supported. change (mk_writer [] 0) with (at_end []).
  rewrite !write_all_end, write_metas_end, write_infos_end.
  destruct (forallb _ (pgguf_tensors c)); [|done]. cbn [mbind result_bind].
  set (hd := (((([] ++ _) ++ _) ++ _) ++ _) ++ _).
  assert (hd = enc_header c id b) as -> by (unfold hd, enc_header; by rewrite <- !app_assoc).
  rewrite write_all_end. cbn [position at_end]. rewrite <- zlen_enc_header.
  set (ph := concat (map placeholder (pgguf_tensors c))).
  set (pad := replicate _ x00). set (w := at_end _).
  assert (file (fill_offsets 0 (offset_positions (zlen (enc_header c id b)) (pgguf_tensors c)) w) =
          enc_header c id b ++ enc_infos 0 (pgguf_tensors c) ++ pad) as Hf.
  { apply fill_offsets_exact. unfold w, at_end. cbn [file]. by rewrite <- app_assoc. }
  unfold seek. rewrite Hf.
  assert (forall f p, p = length f -> mk_writer f p = at_end f) as Hend by (by intros f p ->).
  rewrite Hend by (unfold w, at_end; cbn [file position]; unfold ph; rewrite !length_app, length_enc_infos; lia).
  rewrite copy_loop_end by done. cbn [at_end file]. unfold encode_pgguf.
  assert (pad = replicate (Z.to_nat (align_pad (zlen (enc_header c id b ++ enc_infos 0 (pgguf_tensors c))))) x00) as <-.
  { unfold pad, zlen, ph. by rewrite !length_app, length_enc_infos. }
  by rewrite <- !app_assoc.
Qed.
(** C8: writing with placeholders and seeking back is one pass: for every
    model the converter either refuses a tensor type, or writes exactly the
    file of the reference writer; every recomputed position is the offset
    field it means. *)
Theorem streaming_write_is_one_pass src c id b :
  streaming_write_pgguf src c id b =
    if supported c then Ok (encode_pgguf src c id b) else Err "unsupported ggml dtype"%string.
Proof. apply streaming_write_spec. Qed.

(** *** Where the tensors are found *)
(** The data section of the source and of the converted file are the same
    bytes; a reader takes a tensor at its recorded offset. *)
Definition data_of (src : bytes) (c : Content) : bytes := drop (Z.to_nat (tensor_data_offset c)) src.
Definition read_at (data : bytes) (offset size : Z) : bytes :=
  take (Z.to_nat size) (drop (Z.to_nat offset) data).
Definition source_tensor (src : bytes) (c : Content) (i : TensorInfo) : bytes :=
  read_at (data_of src c) (ti_offset i) (size_in_bytes i).
Fixpoint new_offset (offset : Z) (ts : list (string * TensorInfo)) (n : string) : option Z :=
  match ts with
  | [] => None
  | t :: ts =>
      if String.eqb t.1 n then Some offset
      else new_offset (offset + (size_in_bytes t.2 + align_pad (size_in_bytes t.2))) ts n
  end.
Definition converted_tensor (src : bytes) (c : Content) (n : string) : option bytes :=
  o ← new_offset 0 (pgguf_tensors c) n;
  i ← tensor_infos c !! n;
  Some (read_at (data_of src c) o (size_in_bytes i)).

(** The source stores its tensors in this order, each padded to 32 bytes. *)
Fixpoint packed (offset : Z) (ts : list (string * TensorInfo)) : Prop :=
  match ts with
  | [] => True
  | t :: ts => ti_offset t.2 = offset /\ packed (offset + (size_in_bytes t.2 + align_pad (size_in_bytes t.2))) ts
  end.
Lemma new_offset_packed ts offset n i :
  base.NoDup ts.*1 -> packed offset ts -> (n, i) ∈ ts -> new_offset offset ts n = Some (ti_offset i).
Proof.
  revert offset. induction ts as [|[m j] ts IH]; intros offset Hnd Hp Hin; [by apply not_elem_of_nil in Hin|].
  cbn [new_offset fst snd packed] in *. inversion_clear Hnd as [|?? Hm Hnd']. destruct Hp as [Ho Hp].
  apply elem_of_cons in Hin as [[= -> ->]|Hin]; [by rewrite String.eqb_refl, Ho|].
  destruct (String.eqb_spec m n) as [->|]; [|by apply IH]. destruct Hm. apply list_elem_of_fmap. by exists (n, i).
Qed.
Lemma pgguf_tensors_spec c :
  pgguf_tensors c ≡ₚ map_to_list (tensor_infos c) /\ base.NoDup (pgguf_tensors c).*1.
Proof.
  unfold pgguf_tensors. split; [apply Sort.sort_by_perm|]. rewrite Sort.sort_by_perm. apply NoDup_fst_map_to_list.
Qed.

(** conversion keeps the tensors of a model that stores them in the order
    of their names; in any other model the tensor that comes first by name is
    replaced by whatever the file stores first. *)
Theorem conversion_and_order src c n i :
  tensor_infos c !! n = Some i ->
  (packed 0 (pgguf_tensors c) -> converted_tensor src c n = Some (source_tensor src c i)) /\
  (forall m j, head (pgguf_tensors c) = Some (n, i) -> tensor_infos c !! m = Some j -> ti_offset j = 0 ->
     size_in_bytes j = size_in_bytes i -> converted_tensor src c n = Some (source_tensor src c j)).
Proof.
  intros Hi. destruct (pgguf_tensors_spec c) as [Hperm Hnd]. unfold converted_tensor, source_tensor. split.
  - intros Hp. rewrite (new_offset_packed _ _ _ i Hnd Hp); [cbn [mbind option_bind]; by rewrite Hi|].
    rewrite Hperm. by apply elem_of_map_to_list.
  - intros m j Hh Hj Ho Hs. destruct (pgguf_tensors c) as [|t ts]; [done|]. injection Hh as ->.
    cbn [new_offset fst]. rewrite String.eqb_refl. cbn [mbind option_bind]. rewrite Hi. cbn [mbind option_bind].
    by rewrite Ho, Hs.
Qed.
End write.

(** The tensors of [whole] are stored as blk.1, embedding, blk.0, norm: after
    conversion blk.0 reads the bytes of blk.1. *)
Lemma conversion_and_order_witness :
  let src := replicate 256 x00 ++ replicate 32 x01 ++ replicate 32 x02 ++ replicate 32 x03 ++ replicate 32 x04 in
  converted_tensor src Example_Model.whole "blk.0.attn.weight" = Some (replicate 8 x01) /\
  source_tensor src Example_Model.whole (Example_Model.t 64) = replicate 8 x03.
Proof.
  intros src. split; [|by vm_compute].
  transitivity (Some (source_tensor src Example_Model.whole (Example_Model.t 0))); [|by vm_compute].
  apply (conversion_and_order src Example_Model.whole "blk.0.attn.weight" (Example_Model.t 64) ltac:(by vm_compute))
    with "blk.1.attn.weight"%string; by vm_compute.
Defined.
