(* ===== verification/GgufFiles.v ===== *)
(** * Model files on disk ([GGUF_Analyze_And_Convert] of [Src/ML_Engine/gguf_model_manager.rs])

    Opening a model file, and its conversion: the header decides ([Gguf]), the
    writer writes ([GgufWrite]), the original is removed. A file system maps paths
    to contents; only the model files matter and they do not fail, except for being
    absent. candle's header parser is the parameter [content_of]. *)
From S2P Require Import Prelude RustStd Wire Cursor Bitmap Gguf GgufWrite.

Abbreviation files_t := (gmap string bytes).
(** [Path::with_extension] of a path that ends in a file name. *)
Definition dot : byte := "."%byte.
Definition with_extension (path ext : string) : string :=
  let comps := Split.split "/"%byte (as_bytes path) in
  let file := default [] (last comps) in
  let stem := match rev (Split.split dot file) with
              | _ :: x :: rest => let s := Split.join dot (rev (x :: rest)) in if bool_decide (s = []) then file else s
              | _ => file
              end in
  of_bytes (Split.join "/"%byte (removelast comps ++ [stem ++ dot :: as_bytes ext])).

Section convert.
Context `{!Gguf}.
Context (content_of : bytes -> result string Content) (xxhash32 : bytes -> Z).
Definition open_content (files : files_t) (path : string) : result string (bytes * Content) :=
  src ← ok_or "open failed"%string (files !! path);
  c ← content_of src;
  Ok (src, c).
Definition GGUF_Analyze (files : files_t) (path : string) : result string Model_Arch_Info :=
  '(_, c) ← open_content files path; Ok (GGUF_Analyze_From_Content c).

(** What is in the file when the type of a tensor is refused. *)
Fixpoint infos_until (ts : list (string * TensorInfo)) : bytes :=
  match ts with
  | [] => []
  | t :: ts =>
      match dtype_u32 (ggml_dtype t.2) with
      | Some _ => placeholder t ++ infos_until ts
      | None => enc_string t.1 ++ u32_le (zlen (ti_dims t.2)) ++ concat (map u64_le (rev (ti_dims t.2)))
      end
  end.
Definition unfinished (c : Content) (id : Z) (b : bitmap) : bytes := enc_header c id b ++ infos_until (pgguf_tensors c).
(** The start of the data section of the new file. *)
Definition new_data_start (c : Content) (id : Z) (b : bitmap) : Z :=
  let head := enc_header c id b ++ enc_infos 0 (pgguf_tensors c) in zlen head + align_pad (zlen head).
(** [BufWriter]'s default capacity *)
Definition BUFFER : Z := 8192.
(** Creating the output truncates it. When it is the source itself, the reader
    then finds what the writer has flushed, the new header: less than a buffer of
    it is copied once and the next read is at the end; more than that is written at
    once and read again without end ([None]). *)
Definition write_converted (files : files_t) (src : bytes) (path out : string) (c : Content) (id : Z) (b : bitmap)
    : option (result string unit * files_t) :=
  if bool_decide (out = path) then
    if GgufWrite.supported c then
      if new_data_start c id b - tensor_data_offset c <? BUFFER then
        let head := enc_header c id b ++ enc_infos 0 (pgguf_tensors c) in
        let head := head ++ replicate (Z.to_nat (align_pad (zlen head))) x00 in
        Some (Ok tt, <[out := head ++ drop (Z.to_nat (tensor_data_offset c)) head]> files)
      else None
    else Some (Err "unsupported ggml dtype"%string, <[out := unfinished c id b]> files)
  else
    match streaming_write_pgguf src c id b with
    | Ok f => Some (Ok tt, <[out := f]> files)
    | Err e => Some (Err e, <[out := unfinished c id b]> files)
    end.
Definition Convert_File (files : files_t) (path : string)
    : option (result (fault string) (Model_Arch_Info * string) * files_t) :=
  match open_content files path with
  | Err e => Some (Err (Failed e), files)
  | Ok (src, c) =>
      match GGUF_Analyze_And_Convert xxhash32 c with
      | None => Some (Err Panicked, files)
      | Some (Untouched a) => Some (Ok (a, path), files)
      | Some (Rewrite a id b) =>
          let pgguf_path := with_extension path "pgguf" in
          '(r, files) ← write_converted files src path pgguf_path c id b;
          match r with
          | Err e => Some (Err (Failed e), files)
          | Ok _ => Some (Ok (a, pgguf_path), delete path files)
          end
      end
  end.

(** ** What conversion does to the disk *)
Definition has_id (c : Content) : bool :=
  bool_decide (is_Some (Get_Metadata_Usize (metadata c) "pleiades.model_id")) &&
  bool_decide (is_Some (Get_Metadata_String (metadata c) "pleiades.layer_bitmap")).
Definition raw (c : Content) : Prop :=
  Get_Metadata_String (metadata c) "pleiades.weight_format" <> Some "safetensors"%string /\ has_id c = false.
Lemma raw_rewrites c : raw c -> exists a id b, GGUF_Analyze_And_Convert xxhash32 c = Some (Rewrite a id b).
Proof.
  intros [Hw Hid]. unfold GGUF_Analyze_And_Convert.
  assert (weight_format (GGUF_Analyze_From_Content c) = Get_Metadata_String (metadata c) "pleiades.weight_format") as ->
    by (unfold GGUF_Analyze_From_Content; by destruct (group_tensors _)).
  rewrite bool_decide_false by done. unfold has_id in Hid.
  destruct (Get_Metadata_Usize _ _); [|by repeat eexists]. destruct (Get_Metadata_String _ "pleiades.layer_bitmap"); [|by repeat eexists].
  by rewrite !bool_decide_true in Hid.
Qed.
Lemma open_ok files path src c :
  files !! path = Some src -> content_of src = Ok c -> open_content files path = Ok (src, c).
Proof. intros Hf Hc. unfold open_content. rewrite Hf. cbn [ok_or mbind result_bind]. by rewrite Hc. Qed.
(** Parts split off a model without an identifier have none. *)
Lemma part_raw c c' s e keep sel :
  Get_Metadata_Usize (metadata c) "pleiades.model_id" = None ->
  Get_Metadata_String (metadata c) "pleiades.weight_format" <> Some "safetensors"%string ->
  reads_back c c' (split_metadata c s e keep sel) sel -> raw c'.
Proof.
  intros Hid Hw [Hm _].
  assert (forall k, k ∉ new_keys -> should_skip keep k = false -> metadata c' !! k = metadata c !! k) as Hk
    by (intros k H1 H2; by rewrite Hm, split_metadata_old).
  assert (metadata c' !! "pleiades.model_id"%string = metadata c !! "pleiades.model_id"%string) as H1
    by (apply Hk; [by apply (bool_decide_unpack _)|by destruct keep]).
  assert (metadata c' !! "pleiades.weight_format"%string = metadata c !! "pleiades.weight_format"%string) as H2
    by (apply Hk; [by apply (bool_decide_unpack _)|by destruct keep]).
  split.
  - unfold Get_Metadata_String in *. by rewrite H2.
  - unfold has_id, Get_Metadata_Usize in *. rewrite H1, Hid. by rewrite bool_decide_false by (by intros [? ?]).
Qed.

(** C9: conversion on disk. A file that is converted already, or holds packed
    safetensors, is left alone. A raw [.gguf] file is replaced by the converted
    file, and no other file changes; if a tensor type is refused, the original
    stays, next to an unfinished [.pgguf] file. But a file named [.pgguf] that has no
    identifier, such as any part split off a model that was not converted before,
    is its own output: the conversion reports success and the file is gone. *)
Theorem conversion_on_disk (files : files_t) path src c :
  files !! path = Some src -> content_of src = Ok c ->
  let out := with_extension path "pgguf" in
  (forall a, GGUF_Analyze_And_Convert xxhash32 c = Some (Untouched a) -> Convert_File files path = Some (Ok (a, path), files)) /\
  (raw c -> out <> path ->
   exists a id b, Convert_File files path =
     Some (if GgufWrite.supported c then (Ok (a, out), delete path (<[out := encode_pgguf src c id b]> files))
           else (Err (Failed "unsupported ggml dtype"%string), <[out := unfinished c id b]> files))) /\
  (raw c -> out = path -> GgufWrite.supported c = true ->
   (forall a id b, GGUF_Analyze_And_Convert xxhash32 c = Some (Rewrite a id b) -> new_data_start c id b - tensor_data_offset c < BUFFER) ->
   exists a, Convert_File files path = Some (Ok (a, path), delete path files)) /\
  (forall c0 s e keep sel, Get_Metadata_Usize (metadata c0) "pleiades.model_id" = None ->
   Get_Metadata_String (metadata c0) "pleiades.weight_format" <> Some "safetensors"%string ->
   reads_back c0 c (split_metadata c0 s e keep sel) sel -> raw c).
Proof.
  intros Hf Hc out. unfold Convert_File. rewrite (open_ok files path src c Hf Hc). split_and!.
  - by intros a ->.
  - intros (a & id & b & ->)%raw_rewrites Hne. exists a, id, b. fold out. unfold write_converted.
    rewrite bool_decide_false by done. rewrite streaming_write_spec. by destruct (GgufWrite.supported c).
  - intros (a & id & b & Hd)%raw_rewrites Heq Hsup Hsmall. rewrite Hd. exists a. fold out. rewrite Heq. unfold write_converted.
    rewrite bool_decide_true, Hsup, (proj2 (Z.ltb_lt _ _) (Hsmall a id b Hd)) by done. cbn [mbind option_bind].
    by rewrite delete_insert_eq.
  - intros c0 s e keep sel. apply part_raw.
Qed.
End convert.

(** ** Splitting a model that was not converted *)
Definition part_name : string := "models/m_split_2_3.pgguf".
Lemma conversion_on_disk_witness :
  let files : files_t := {[ part_name := [x01]; "models/m.gguf"%string := [x02] ]} in
  exists a, Convert_File (fun _ => Ok Example_Model.tail) (fun _ => 7) files part_name =
    Some (Ok (a, part_name), {[ "models/m.gguf"%string := [x02] ]}).
Proof.
  intros files.
  destruct (conversion_on_disk (fun _ => Ok Example_Model.tail) (fun _ => 7) files part_name [x01] Example_Model.tail
    ltac:(by vm_compute) eq_refl) as (_ & _ & Hlost & Hraw).
  assert (raw Example_Model.tail) as Hr
    by (apply (Hraw Example_Model.whole 2 3 false Example_Model.tail_names); [by vm_compute|by vm_compute|apply Example_Model.tail_read]).
  destruct Hlost as [a Ha]; [done|by vm_compute|by vm_compute| |].
  - intros a id b Hd. vm_compute in Hd. injection Hd as _ <- <-. by vm_compute.
  - exists a. rewrite Ha. by vm_compute.
Defined.
