(* ===== verification/Storage.v ===== *)
(** * Storage ([Src/Storage])

    The registry of the files of the storage directory, with a lock per file.
    The directory is a map from names to regular files (with their size) or
    other entries.  A lock is a number; its state is the readers holding it or
    the writer.  Everything under one hold of the registry's lock is one step;
    [Acquire_Read] and [Acquire_Write] are two steps, as in the code: finding
    the lock, then taking it.  The look-ups that release the registry between a
    read and a write check again under the write lock, and are one step here.
    Names are valid UTF-8, and links are what they point to. *)
From S2P Require Import Prelude RustStd Wire Bitmap Peers.

Inductive StorageError : Type := NotFound (msg : string) | InUse (msg : string) | Io (msg : string).
Record FileEntry : Type := mk_entry {
  entry_name : string;
  entry_size : Z;
  entry_model_id : option Z;
  entry_num_layers : option Z;
  entry_bitmap : option bitmap;
  entry_architecture : option string;
  entry_lock : nat;
}.
Inductive disk_entry : Type := Regular (size : Z) | Other (size : Z).
Abbreviation Disk := (gmap string disk_entry).
Inductive lock_state : Type := Free | Readers (n : nat) | Writer.
Record Store : Type := mk_store {
  files : gmap string FileEntry;
  disk : Disk;
  locks : gmap nat lock_state;
  next_lock : nat;
}.
(** A [ReadGuard] or a [WriteGuard]. *)
Record Guard : Type := mk_guard { guard_file : string; guard_lock : nat; guard_write : bool }.

Definition hidden (s : string) : bool := Str.starts_with (as_bytes ".") (as_bytes s).
Definition contains_str (p s : string) : bool := Str.contains (as_bytes p) (as_bytes s).
(** [base_dir.join(file_id)] of an accepted name. *)
Definition Resolve_Path (base_dir file_id : string) : result StorageError string :=
  if String.eqb file_id "" then Err (NotFound "empty file_id")
  else if contains_str "/" file_id || contains_str "\" file_id || contains_str ".." file_id
  then Err (Io ("invalid file_id: " +:+ file_id)%string)
  else if hidden file_id then Err (Io ("hidden file_id not allowed: " +:+ file_id)%string)
  else Ok (base_dir +:+ "/" +:+ file_id)%string.
Definition valid_id (file_id : string) : bool := is_ok (Resolve_Path "" file_id).
Definition Is_Model_File (file_name : string) : bool :=
  let lower := Str.to_lowercase (as_bytes file_name) in
  Str.ends_with (as_bytes ".gguf") lower || Str.ends_with (as_bytes ".pgguf") lower.

Definition with_files (m : gmap string FileEntry) (s : Store) : Store := mk_store m (disk s) (locks s) (next_lock s).
Definition with_disk (d : Disk) (s : Store) : Store := mk_store (files s) d (locks s) (next_lock s).
Definition with_locks (l : gmap nat lock_state) (s : Store) : Store := mk_store (files s) (disk s) l (next_lock s).
Definition plain_entry (name : string) (size : Z) (lock : nat) : FileEntry :=
  mk_entry name size None None None None lock.
(** A new entry with a new, free lock. *)
Definition insert_new (name : string) (e : nat -> FileEntry) (s : Store) : Store :=
  mk_store (<[name := e (next_lock s)]> (files s)) (disk s) (<[next_lock s := Free]> (locks s)) (S (next_lock s)).

(** [New]: every visible regular file of the directory. *)
Definition Storage_New (d : Disk) : Store :=
  foldl (fun s '(n, k) =>
    if hidden n then s else match k with Regular z => insert_new n (plain_entry n z) s | Other _ => s end)
    (mk_store ∅ d ∅ 0) (map_to_list d).

Definition Lazy_Discover (file_id : string) (s : Store) : result StorageError nat * Store :=
  match files s !! file_id with
  | Some e => (Ok (entry_lock e), s)
  | None =>
      match Resolve_Path "" file_id with
      | Err e => (Err e, s)
      | Ok _ =>
          match disk s !! file_id with
          | Some (Regular size) =>
              (Ok (next_lock s), insert_new file_id (plain_entry file_id size) s)
          | _ => (Err (NotFound ("file not found: " +:+ file_id)%string), s)
          end
      end
  end.
Definition Ensure_Entry (file_id : string) (s : Store) : nat * Store :=
  match files s !! file_id with
  | Some e => (entry_lock e, s)
  | None => (next_lock s, insert_new file_id (plain_entry file_id 0) s)
  end.

(** [read_owned], [write_owned], [try_write_owned]: [None] while it waits. *)
Definition take_read (l : nat) (s : Store) : option Store :=
  match default Free (locks s !! l) with
  | Free => Some (with_locks (<[l := Readers 1]> (locks s)) s)
  | Readers n => Some (with_locks (<[l := Readers (S n)]> (locks s)) s)
  | Writer => None
  end.
Definition take_write (l : nat) (s : Store) : option Store :=
  match default Free (locks s !! l) with
  | Free => Some (with_locks (<[l := Writer]> (locks s)) s)
  | _ => None
  end.
Definition is_free (l : nat) (s : Store) : bool :=
  match default Free (locks s !! l) with Free => true | _ => false end.

(** Finding the lock: the first half of [Acquire_Read] and [Acquire_Write]. *)
Definition Acquire_Read_find (file_id : string) (s : Store) : result StorageError nat * Store :=
  match Resolve_Path "" file_id with
  | Err e => (Err e, s)
  | Ok _ => Lazy_Discover file_id s
  end.
Definition Acquire_Write_find (file_id : string) (s : Store) : result StorageError nat * Store :=
  match Resolve_Path "" file_id with
  | Err e => (Err e, s)
  | Ok _ => let (l, s) := Ensure_Entry file_id s in (Ok l, s)
  end.
(** Taking it. *)
Definition Acquire_take (write : bool) (file_id : string) (l : nat) (s : Store) : option (Guard * Store) :=
  s ← (if write then take_write l s else take_read l s); Some (mk_guard file_id l write, s).

(** Dropping a guard. A write guard first refreshes the size, when the registry
    is not locked at that moment ([try_write]) and the file is there. *)
Definition refresh_size (file_id : string) (s : Store) : Store :=
  match disk s !! file_id with
  | Some (Regular size) | Some (Other size) =>
      with_files (alter (fun e => mk_entry (entry_name e) size (entry_model_id e) (entry_num_layers e)
        (entry_bitmap e) (entry_architecture e) (entry_lock e)) file_id (files s)) s
  | _ => s
  end.
Definition release_lock (l : nat) (s : Store) : Store :=
  match default Free (locks s !! l) with
  | Readers (S (S n)) => with_locks (<[l := Readers (S n)]> (locks s)) s
  | _ => with_locks (<[l := Free]> (locks s)) s
  end.
Definition drop_guard (try_write : bool) (g : Guard) (s : Store) : Store :=
  let s := if guard_write g && try_write then refresh_size (guard_file g) s else s in
  release_lock (guard_lock g) s.

(** [fs::remove_file]: an error other than [NotFound] on what is not a file. *)
Definition remove_file (file_id : string) (s : Store) : result StorageError unit * Store :=
  match disk s !! file_id with
  | Some (Regular _) => (Ok tt, with_disk (delete file_id (disk s)) s)
  | Some (Other _) => (Err (Io "remove_file failed"), s)
  | None => (Ok tt, s)
  end.
Definition Remove (file_id : string) (s : Store) : result StorageError unit * Store :=
  match Resolve_Path "" file_id with
  | Err e => (Err e, s)
  | Ok _ =>
      match files s !! file_id with
      | None =>
          match disk s !! file_id with
          | Some (Regular _) => remove_file file_id s
          | _ => (Ok tt, s)
          end
      | Some e =>
          if is_free (entry_lock e) s then
            match remove_file file_id s with
            | (Ok _, s) => (Ok tt, with_files (delete file_id (files s)) s)
            | (Err e, s) => (Err e, s)
            end
          else (Err (InUse ("file " +:+ file_id +:+ " is in use")%string), s)
      end
  end.
Definition Exists (file_id : string) (s : Store) : result StorageError bool * Store :=
  match Resolve_Path "" file_id with
  | Err e => (Err e, s)
  | Ok _ =>
      match files s !! file_id with
      | None => (Ok false, s)
      | Some _ =>
          match disk s !! file_id with
          | Some _ => (Ok true, s)
          | None => (Ok false, with_files (delete file_id (files s)) s)
          end
      end
  end.
Definition List_files (s : Store) : list FileEntry := (map_to_list (files s)).*2.

(** ** [Flush] *)
Record ModelInfo : Type := mk_info {
  mi_model_id : option Z; mi_num_layers : Z; mi_bitmap : option bitmap; mi_architecture : string }.
Section flush.
(** [analyze_model]: it may rewrite the directory (a raw model is converted
    and its file removed). *)
Variable analyze_model : string -> Disk -> result string ModelInfo * Disk.

Definition set_size (size : Z) (e : FileEntry) : FileEntry :=
  mk_entry (entry_name e) size (entry_model_id e) (entry_num_layers e) (entry_bitmap e) (entry_architecture e)
    (entry_lock e).
Definition set_info (i : ModelInfo) (e : FileEntry) : FileEntry :=
  mk_entry (entry_name e) (entry_size e) (mi_model_id i) (Some (wrap 32 (mi_num_layers i))) (mi_bitmap i)
    (Some (mi_architecture i)) (entry_lock e).
(** A file already registered. *)
Definition flush_known (name : string) (size : Z) (s : Store) : result StorageError unit * Store :=
  let s := with_files (alter (set_size size) name (files s)) s in
  if Is_Model_File name then
    match Resolve_Path "" name with
    | Err e => (Err e, s)
    | Ok _ =>
        match analyze_model name (disk s) with
        | (Ok i, d) => (Ok tt, with_files (alter (set_info i) name (files s)) (with_disk d s))
        | (Err _, d) => (Ok tt, with_disk d s)
        end
    end
  else (Ok tt, s).
(** A new one. *)
Definition flush_new (name : string) (size : Z) (s : Store) : result StorageError unit * Store :=
  if Is_Model_File name then
    match Resolve_Path "" name with
    | Err e => (Err e, s)
    | Ok _ =>
        match analyze_model name (disk s) with
        | (Ok i, d) => (Ok tt, insert_new name (fun l => set_info i (plain_entry name size l)) (with_disk d s))
        | (Err _, d) => (Ok tt, insert_new name (plain_entry name size) (with_disk d s))
        end
    end
  else (Ok tt, insert_new name (plain_entry name size) s).
Fixpoint flush_scan (names : list string) (seen : gset string) (discovered : Z) (s : Store)
    : result StorageError (gset string * Z) * Store :=
  match names with
  | [] => (Ok (seen, discovered), s)
  | name :: names =>
      if hidden name then flush_scan names seen discovered s else
      match disk s !! name with
      | None => (Err (Io "flush metadata failed"), s)
      | Some (Other _) => flush_scan names seen discovered s
      | Some (Regular size) =>
          match files s !! name with
          | Some _ =>
              match flush_known name size s with
              | (Err e, s) => (Err e, s)
              | (Ok _, s) => flush_scan names ({[name]} ∪ seen) discovered s
              end
          | None =>
              match flush_new name size s with
              | (Err e, s) => (Err e, s)
              | (Ok _, s) => flush_scan names ({[name]} ∪ seen) (discovered + 1) s
              end
          end
      end
  end.
Definition clean_one (name : string) (s : Store) : Z * Store :=
  match files s !! name with
  | Some e => if is_free (entry_lock e) s then (1, with_files (delete name (files s)) s) else (0, s)
  | None => (0, s)
  end.
Fixpoint clean_loop (zombies : list string) (cleaned : Z) (s : Store) : Z * Store :=
  match zombies with
  | [] => (cleaned, s)
  | z :: zombies => let (k, s) := clean_one z s in clean_loop zombies (cleaned + k) s
  end.
(** Both phases on the registry. The directory is read as it is when the scan
    starts. *)
Definition Flush_registry (s : Store) : result StorageError (Z * Z) * Store :=
  match flush_scan (map_to_list (disk s)).*1 ∅ 0 s with
  | (Err e, s) => (Err e, s)
  | (Ok (seen, discovered), s) =>
      let zombies := List.filter (fun k => negb (bool_decide (k ∈ seen))) (map_to_list (files s)).*1 in
      let (cleaned, s) := clean_loop zombies 0 s in
      (Ok (discovered, cleaned), s)
  end.
End flush.

(** [Sync_Models_To_Peer_Manager]: the models with an identifier and a bitmap
    become the local node's. *)
Definition models_of (s : Store) : list SupportedModel :=
  omap (fun e => id ← entry_model_id e; b ← entry_bitmap e; Some (mk_SupportedModel id (entry_name e) b))
    (List_files s).
Definition Sync_Models_To_Peer_Manager {PeerId Multiaddr P} `{!Peer_Management_Capability PeerId Multiaddr P}
    (to_string : PeerId -> bytes) (now : Z) (s : Store) (p : P) : P * list Bus_Event :=
  match Get_Local_Peer p with
  | Err _ => (p, [])
  | Ok local =>
      let models := models_of s in
      let p := (Update_Supported_Models now (peer_id local) models p).2 in
      (p, [State (JObj [("type", JStr "peer_info_updated"); ("peer_id", JStr (of_bytes (to_string (peer_id local))));
             ("peer_name", JStr (of_bytes (name local))); ("is_local", JBool true);
             ("models", JArr (map (fun m => JObj [("file_name", JStr (file_name m));
                                ("layer_range", JStr (of_bytes (layer_range (layer_bitmap m))))])%string models));
             ("sessions", JArr [])])%string])
  end.

(** The whole of [Flush]: the peer table is told when both phases went through. *)
Definition Flush {PeerId Multiaddr P} `{!Peer_Management_Capability PeerId Multiaddr P}
    (analyze_model : string -> Disk -> result string ModelInfo * Disk) (to_string : PeerId -> bytes) (now : Z)
    (s : Store) (p : P) : result StorageError (Z * Z) * (Store * P) * list Bus_Event :=
  match Flush_registry analyze_model s with
  | (Err e, s) => (Err e, (s, p), [])
  | (Ok n, s) => let (p, es) := Sync_Models_To_Peer_Manager to_string now s p in (Ok n, (s, p), es)
  end.

(** ** Names stay inside the directory *)
Lemma Resolve_Path_Ok base_dir file_id p :
  Resolve_Path base_dir file_id = Ok p ->
  p = (base_dir +:+ "/" +:+ file_id)%string /\ file_id <> ""%string /\
  ("/"%byte ∉ as_bytes file_id) /\ ("\"%byte ∉ as_bytes file_id) /\
  Str.contains (as_bytes "..") (as_bytes file_id) = false /\ hidden file_id = false.
Proof.
  unfold Resolve_Path, contains_str. destruct (String.eqb_spec file_id "") as [|Hne]; [done|].
  destruct (Str.contains (as_bytes "/") _) eqn:H1; [done|]. destruct (Str.contains (as_bytes "\") _) eqn:H2; [done|].
  destruct (Str.contains (as_bytes "..") _) eqn:H3; [done|]. cbn [orb]. destruct (hidden file_id); [done|].
  intros [= <-]. split_and!; try done.
  - intros Hin%Str.contains_single. change ["/"%byte] with (as_bytes "/") in Hin. congruence.
  - intros Hin%Str.contains_single. change ["\"%byte] with (as_bytes "\") in Hin. congruence.
Qed.
(** an accepted file name is a plain, visible entry of the storage
    directory: not empty, no separator, no dot-dot, no leading dot. *)
Theorem resolve_stays_inside base_dir file_id p :
  Resolve_Path base_dir file_id = Ok p ->
  p = (base_dir +:+ "/" +:+ file_id)%string /\ file_id <> ""%string /\
  ("/"%byte ∉ as_bytes file_id) /\ ("\"%byte ∉ as_bytes file_id) /\
  Str.contains (as_bytes "..") (as_bytes file_id) = false /\ hidden file_id = false.
Proof. apply Resolve_Path_Ok. Qed.

(** ** What a flush leaves *)
Definition visible (d : Disk) (k : string) (z : Z) : Prop := hidden k = false /\ d !! k = Some (Regular z).
(** The registry's locks are allocated and not shared. *)
Definition locks_wf (s : Store) : Prop :=
  (forall k e, files s !! k = Some e -> (entry_lock e < next_lock s)%nat) /\
  (forall k k' e e', files s !! k = Some e -> files s !! k' = Some e' -> entry_lock e = entry_lock e' -> k = k') /\
  (forall l, (next_lock s <= l)%nat -> locks s !! l = None).
Definition same_lock (o o' : option FileEntry) : Prop :=
  match o, o' with Some e, Some e' => entry_lock e = entry_lock e' | None, None => True | _, _ => False end.

Lemma locks_wf_files m s :
  (forall k, same_lock (files s !! k) (m !! k)) -> locks_wf s -> locks_wf (with_files m s).
Proof.
  intros Hm (H1 & H2 & H3). unfold locks_wf. cbn. split_and!; [| |exact H3].
  - intros k e Hk. specialize (Hm k). rewrite Hk in Hm. destruct (files s !! k) as [e0|] eqn:E; [|done].
    cbn in Hm. rewrite <- Hm. eauto.
  - intros k k' e e' Hk Hk' Hl. pose proof (Hm k) as Hk0. pose proof (Hm k') as Hk0'. rewrite Hk in Hk0. rewrite Hk' in Hk0'.
    destruct (files s !! k) as [e0|] eqn:E; [|done]. destruct (files s !! k') as [e0'|] eqn:E'; [|done].
    cbn in Hk0, Hk0'. apply (H2 k k' e0 e0' E E'). congruence.
Qed.
Lemma locks_wf_insert n f s :
  locks_wf s -> files s !! n = None -> entry_lock (f (next_lock s)) = next_lock s -> locks_wf (insert_new n f s).
Proof.
  intros (H1 & H2 & H3) Hn Hf. unfold locks_wf. cbn. split_and!.
  - intros k e [[<- <-]|[_ Hk]]%lookup_insert_Some; [lia|]. apply H1 in Hk. lia.
  - intros k k' e e' [[<- <-]|[Hk0 Hk]]%lookup_insert_Some [[<- <-]|[Hk0' Hk']]%lookup_insert_Some Hl; [done| | |eauto].
    + apply H1 in Hk'. lia.
    + apply H1 in Hk. lia.
  - intros l Hl. rewrite lookup_insert_ne by lia. apply H3. lia.
Qed.

Section flush_theorems.
Variable analyze_model : string -> Disk -> result string ModelInfo * Disk.
(** No model file of the directory awaits a conversion: analysing one only reads.
    (A raw model is rewritten, see [flush_converts_under_guard].) *)
Variable d0 : Disk.
Hypothesis analyze_reads : forall n z, visible d0 n z -> Is_Model_File n = true -> snd (analyze_model n d0) = d0.

(** The scan up to now: [names] visited, from [s] to [s']. *)
Record scanned (names : list string) (s s' : Store) : Prop := {
  sc_wf : locks_wf s';
  sc_disk : disk s' = disk s;
  sc_new k z : k ∈ names -> visible (disk s) k z -> exists e, files s' !! k = Some e /\ entry_size e = z;
  sc_old k : ~ (k ∈ names /\ exists z, visible (disk s) k z) -> files s' !! k = files s !! k;
  sc_lock k e : files s !! k = Some e -> exists e', files s' !! k = Some e' /\ entry_lock e' = entry_lock e;
  sc_locks l : (l < next_lock s)%nat -> locks s' !! l = locks s !! l;
}.
Lemma alter_same_lock (f : FileEntry -> FileEntry) (Hf : forall e, entry_lock (f e) = entry_lock e) n (m : gmap string FileEntry) k :
  same_lock (m !! k) (alter f n m !! k).
Proof.
  destruct (decide (n = k)) as [->|Hne].
  - rewrite lookup_alter_eq. destruct (m !! k); cbn; [by rewrite Hf|done].
  - rewrite lookup_alter_ne by done. destruct (m !! k); done.
Qed.
(** One visible file, known or new: whatever the analysis says, the entry gets
    the size of the file, and nothing else moves. *)
Definition visited (n : string) (z : Z) (s s' : Store) : Prop :=
  locks_wf s' /\ disk s' = disk s /\ (exists e, files s' !! n = Some e /\ entry_size e = z) /\
  (forall k, k <> n -> files s' !! k = files s !! k) /\
  (forall e, files s !! n = Some e -> exists e', files s' !! n = Some e' /\ entry_lock e' = entry_lock e) /\
  (forall l, (l < next_lock s)%nat -> locks s' !! l = locks s !! l) /\ (next_lock s <= next_lock s')%nat.
Lemma visited_alter f n z s e :
  files s !! n = Some e -> locks_wf s -> (forall e, entry_lock (f e) = entry_lock e) -> entry_size (f e) = z ->
  visited n z s (with_files (alter f n (files s)) s).
Proof.
  intros He Hwf Hf Hz. unfold visited. cbn [files disk locks next_lock with_files].
  split_and!; try done.
  - apply locks_wf_files; [|done]. intros k. by apply alter_same_lock.
  - rewrite lookup_alter_eq, He. cbn. eauto.
  - intros k Hk. by rewrite lookup_alter_ne.
  - intros e0 He0. rewrite lookup_alter_eq, He0. cbn. eauto.
Qed.
Lemma visited_insert f n z s :
  files s !! n = None -> locks_wf s -> entry_lock (f (next_lock s)) = next_lock s -> entry_size (f (next_lock s)) = z ->
  visited n z s (insert_new n f s).
Proof.
  intros He Hwf Hf Hz. unfold visited. cbn [files disk locks next_lock insert_new].
  split_and!; try done; try lia.
  - by apply locks_wf_insert.
  - rewrite lookup_insert_eq. eauto.
  - intros k Hk. by rewrite lookup_insert_ne.
  - intros e0 He0. congruence.
  - intros l Hl. rewrite lookup_insert_ne by lia. done.
Qed.
Lemma with_disk_id s : with_disk (disk s) s = s.
Proof. by destruct s. Qed.
Lemma alter_alter {A} (f g : A -> A) n (m : gmap string A) : alter g n (alter f n m) = alter (fun x => g (f x)) n m.
Proof.
  apply map_eq. intros k. destruct (decide (n = k)) as [->|Hne].
  - rewrite !lookup_alter_eq. by destruct (m !! k).
  - by rewrite !lookup_alter_ne.
Qed.
Lemma flush_known_visited n z s e : disk s = d0 -> visible d0 n z ->
  files s !! n = Some e -> locks_wf s -> (Is_Model_File n = true -> valid_id n = true) ->
  exists s', flush_known analyze_model n z s = (Ok tt, s') /\ visited n z s s'.
Proof.
  intros Hd0 Hv He Hwf Hid. unfold flush_known. destruct (Is_Model_File n) eqn:Hmf; [|eexists; split; [done|by eapply visited_alter]].
  unfold valid_id in Hid. destruct (Resolve_Path "" n); [|by specialize (Hid eq_refl)].
  pose proof (analyze_reads n z Hv Hmf) as Hd. cbn [disk with_files]. rewrite <- Hd0 in Hd.
  destruct (analyze_model n (disk s)) as [[i|e'] d]; cbn [snd] in Hd; subst d; eexists; (split; [done|]).
  - cbn [with_files with_disk files disk locks next_lock]. rewrite alter_alter.
    exact (visited_alter (fun x => set_info i (set_size z x)) n z s e He Hwf (fun _ => eq_refl) eq_refl).
  - exact (visited_alter (set_size z) n z s e He Hwf (fun _ => eq_refl) eq_refl).
Qed.
Lemma flush_new_visited n z s : disk s = d0 -> visible d0 n z ->
  files s !! n = None -> locks_wf s -> (Is_Model_File n = true -> valid_id n = true) ->
  exists s', flush_new analyze_model n z s = (Ok tt, s') /\ visited n z s s'.
Proof.
  intros Hd0 Hv He Hwf Hid. unfold flush_new. destruct (Is_Model_File n) eqn:Hmf; [|eexists; split; [done|by apply visited_insert]].
  unfold valid_id in Hid. destruct (Resolve_Path "" n); [|by specialize (Hid eq_refl)].
  pose proof (analyze_reads n z Hv Hmf) as Hd. rewrite <- Hd0 in Hd.
  destruct (analyze_model n (disk s)) as [[i|e'] d]; cbn [snd] in Hd; subst d; rewrite with_disk_id;
    eexists; (split; [done|by apply visited_insert]).
Qed.
Lemma scanned_visit n names z s s1 s2 :
  visible (disk s) n z -> visited n z s s1 -> scanned names s1 s2 -> scanned (n :: names) s s2.
Proof.
  intros Hv (Hwf & Hd & Hnew & Hother & Hlock & Hlocks & Hnext) [H1 H2 H3 H4 H5 H6].
  assert (forall k e, files s !! k = Some e -> exists e', files s2 !! k = Some e' /\ entry_lock e' = entry_lock e) as Hl.
  { intros k e He. destruct (decide (k = n)) as [->|Hne].
    - destruct (Hlock e He) as (e1 & He1 & Hle). destruct (H5 _ _ He1) as (e2 & ? & ?). exists e2. split; congruence.
    - apply H5. by rewrite Hother. }
  split.
  - done.
  - congruence.
  - intros k z' Hk Hvk. destruct (decide (k ∈ names)) as [Hin|Hn].
    { apply H3; [done|]. unfold visible in *. by rewrite Hd. }
    apply elem_of_cons in Hk as [->|?]; [|done]. destruct Hnew as (e & He & Hz). exists e. rewrite H4 by (by intros [? _]).
    split; [done|]. destruct Hv, Hvk. congruence.
  - intros k Hk. rewrite H4; [apply Hother|].
    + intros ->. apply Hk. split; [by left|]. by exists z.
    + intros [Hin (z' & Hvk)]. apply Hk. split; [by right|]. exists z'. unfold visible in *. by rewrite <- Hd.
  - exact Hl.
  - intros l Hlt. rewrite H6 by lia. by apply Hlocks.
Qed.
Lemma scanned_skip n names s s2 : (forall z, ~ visible (disk s) n z) -> scanned names s s2 -> scanned (n :: names) s s2.
Proof.
  intros Hv [H1 H2 H3 H4 H5 H6]. split; try done.
  - intros k z [->|Hk]%elem_of_cons Hvk; [by apply Hv in Hvk|eauto].
  - intros k Hk. apply H4. intros [? ?]. apply Hk. split; [by right|done].
Qed.
Definition models_named (names : list string) : Prop :=
  Forall (fun n => hidden n = false -> Is_Model_File n = true -> valid_id n = true) names.
Lemma flush_scan_spec names seen disc s : disk s = d0 ->
  locks_wf s -> (forall n, n ∈ names -> is_Some (disk s !! n)) -> models_named names ->
  exists seen' disc' s', flush_scan analyze_model names seen disc s = (Ok (seen', disc'), s') /\
    scanned names s s' /\
    forall k, k ∈ seen' <-> k ∈ seen \/ (k ∈ names /\ exists z, visible (disk s) k z).
Proof.
  revert seen disc s. induction names as [|n names IH]; intros seen disc s Hd0 Hwf Hd Hm; cbn [flush_scan].
  { exists seen, disc, s. split; [done|]. split; [|intros k; split; [by left|by intros [?|[?%not_elem_of_nil _]]]].
    split; try done; try (by intros ?? ?%not_elem_of_nil); eauto. }
  inversion_clear Hm as [|?? Hmn Hms].
  assert (forall m, m ∈ names -> is_Some (disk s !! m)) as Hd' by (intros m Hmm; apply Hd; by right).
  assert ((forall z, ~ visible (disk s) n z) ->
    exists seen' disc' s', flush_scan analyze_model names seen disc s = (Ok (seen', disc'), s') /\
    scanned (n :: names) s s' /\
    forall k, k ∈ seen' <-> k ∈ seen \/ (k ∈ n :: names /\ exists z, visible (disk s) k z)) as Hskip.
  { intros Hnv. destruct (IH seen disc s Hd0 Hwf Hd' Hms) as (se & di & s' & Heq & Hsc & Hse). exists se, di, s'.
    split; [done|]. split; [by apply scanned_skip|]. intros k. rewrite Hse, elem_of_cons. split; [tauto|].
    intros [?|[[->|?] [z Hz]]]; [tauto|by apply Hnv in Hz|eauto]. }
  destruct (hidden n) eqn:Hh; [apply Hskip; intros z [? _]; congruence|].
  destruct (disk s !! n) as [[z|z]|] eqn:Hn; [|apply Hskip; intros z' [_ ?]; congruence|].
  2:{ destruct (Hd n) as [? ?]; [by left|congruence]. }
  assert (visible (disk s) n z) as Hv by done.
  assert (forall s1 dd, visited n z s s1 ->
    exists seen' disc' s', flush_scan analyze_model names ({[n]} ∪ seen) dd s1 = (Ok (seen', disc'), s') /\
    scanned (n :: names) s s' /\
    forall k, k ∈ seen' <-> k ∈ seen \/ (k ∈ n :: names /\ exists z, visible (disk s) k z)) as Hgo.
  { intros s1 dd Hvis. pose proof Hvis as (Hwf1 & Hd1 & _).
    destruct (IH ({[n]} ∪ seen) dd s1) as (se & di & s' & Heq & Hsc & Hse); [congruence|done|by rewrite Hd1|done|].
    exists se, di, s'. split; [done|]. split; [by eapply scanned_visit|]. intros k. rewrite Hse, Hd1, elem_of_cons.
    rewrite elem_of_union, elem_of_singleton. split; [intros [[->|?]|[? ?]]; eauto|]. intros [?|[[->|?] ?]]; eauto. }
  destruct (files s !! n) as [e|] eqn:He.
  - destruct (flush_known_visited n z s e Hd0 ltac:(by rewrite <- Hd0) He Hwf (Hmn eq_refl)) as (s1 & -> & Hvis). by apply Hgo.
  - destruct (flush_new_visited n z s Hd0 ltac:(by rewrite <- Hd0) He Hwf (Hmn eq_refl)) as (s1 & -> & Hvis). by apply Hgo.
Qed.
Lemma clean_loop_spec zs c s c' s' :
  clean_loop zs c s = (c', s') ->
  disk s' = disk s /\ locks s' = locks s /\
  forall k, files s' !! k =
    match files s !! k with
    | Some e => if bool_decide (k ∈ zs) && is_free (entry_lock e) s then None else Some e
    | None => None
    end.
Proof.
  revert c s. induction zs as [|z zs IH]; intros c s; cbn [clean_loop].
  { intros [= <- <-]. split_and!; try done. intros k. destruct (files s !! k); [|done].
    by rewrite bool_decide_false by (by intros ?%not_elem_of_nil). }
  destruct (clean_one z s) as [n s1] eqn:E. intros H.
  assert (disk s1 = disk s /\ locks s1 = locks s /\ forall k, files s1 !! k =
    match files s !! k with
    | Some e => if bool_decide (k = z) && is_free (entry_lock e) s then None else Some e | None => None end)
    as (Hd1 & Hl1 & Hf1).
  { unfold clean_one in E. destruct (files s !! z) as [e|] eqn:He; [destruct (is_free (entry_lock e) s) eqn:Hfr|];
      injection E as <- <-; (split; [done|]; split; [done|]); intros k; (destruct (decide (k = z)) as [->|Hne];
      [rewrite (bool_decide_true (z = z)) by done|rewrite (bool_decide_false (k = z)) by done]); cbn [andb].
    - rewrite He, Hfr. apply lookup_delete_eq.
    - cbn [files with_files]. rewrite lookup_delete_ne by done. by destruct (files s !! k).
    - by rewrite He, Hfr.
    - by destruct (files s !! k).
    - by rewrite He.
    - by destruct (files s !! k). }
  destruct (IH _ _ H) as (Hd & Hl & Hf). split; [congruence|]. split; [congruence|]. intros k.
  assert (forall l, is_free l s1 = is_free l s) as Hfree by (intros l; unfold is_free; by rewrite Hl1).
  rewrite Hf, Hf1. destruct (files s !! k) as [e|]; [|done].
  destruct (decide (k = z)) as [->|Hne].
  - rewrite (bool_decide_true (z = z)), (bool_decide_true (z ∈ z :: zs)) by (done || by left).
    cbn [andb]. destruct (is_free (entry_lock e) s) eqn:Hfr; [done|]. by rewrite Hfree, Hfr, andb_false_r.
  - rewrite (bool_decide_false (k = z)) by done. cbn [andb]. rewrite Hfree.
    rewrite (bool_decide_ext (k ∈ z :: zs) (k ∈ zs)); [done|]. rewrite elem_of_cons. tauto.
Qed.

Lemma Flush_registry_spec s : disk s = d0 ->
  locks_wf s -> models_named (map_to_list (disk s)).*1 ->
  exists d c s', Flush_registry analyze_model s = (Ok (d, c), s') /\ disk s' = disk s /\
    (forall k z, visible (disk s) k z -> exists e, files s' !! k = Some e /\ entry_size e = z) /\
    (forall k, ~ (exists z, visible (disk s) k z) ->
       files s' !! k = match files s !! k with
                       | Some e => if is_free (entry_lock e) s then None else Some e
                       | None => None
                       end).
Proof.
  intros Hd0 Hwf Hm. unfold Flush_registry.
  assert (forall n, n ∈ (map_to_list (disk s)).*1 <-> is_Some (disk s !! n)) as Hdom.
  { intros n. rewrite list_elem_of_fmap. split.
    - intros ([m i] & -> & Hi%elem_of_map_to_list). by exists i.
    - intros [i Hi]. exists (n, i). split; [done|]. by apply elem_of_map_to_list. }
  destruct (flush_scan_spec (map_to_list (disk s)).*1 ∅ 0 s Hd0 Hwf) as (seen & disc & s1 & -> & Hsc & Hseen);
    [intros n Hn; by apply Hdom|done|].
  destruct (clean_loop _ 0 s1) as [c s2] eqn:Hc. apply clean_loop_spec in Hc as (Hd2 & Hl2 & Hf2).
  destruct Hsc as [H1 H2 H3 H4 H5 H6].
  assert (forall k, k ∈ seen <-> exists z, visible (disk s) k z) as Hs.
  { intros k. rewrite Hseen. split; [intros [Hk|[_ ?]]; [by apply not_elem_of_empty in Hk|done]|].
    intros [z Hz]. right. split; [apply Hdom; destruct Hz as [_ ?]; by eexists|by exists z]. }
  exists disc, c, s2. split; [done|]. split; [congruence|]. split.
  - intros k z Hv. destruct (H3 k z) as (e & He & Hz); [apply Hdom; destruct Hv; by eexists|done|].
    exists e. split; [|done]. rewrite Hf2, He, bool_decide_false; [done|].
    intros [_ Hk]%list_elem_of_In%filter_In. apply negb_true_iff, bool_decide_eq_false in Hk.
    apply Hk, Hs. by exists z.
  - intros k Hnv. rewrite Hf2, H4 by tauto. destruct (files s !! k) as [e|] eqn:He; [|done].
    assert (is_free (entry_lock e) s1 = is_free (entry_lock e) s) as ->.
    { unfold is_free. rewrite H6; [done|]. destruct Hwf as (Hlt & _). eauto. }
    rewrite bool_decide_true; [done|]. apply list_elem_of_In, filter_In. split.
    + apply list_elem_of_In, list_elem_of_fmap. exists (k, e). split; [done|]. apply elem_of_map_to_list.
      rewrite H4 by tauto. done.
    + apply negb_true_iff, bool_decide_eq_false. by rewrite Hs.
Qed.

End flush_theorems.

Section flush_peers.
Context {PeerId Multiaddr P : Type} `{Countable PeerId} `{!Peer_Management_Capability PeerId Multiaddr P}.
Context (to_string : PeerId -> bytes) `{!Peer_Management_Laws to_string Multiaddr P}.
(** C40: when no model file of the directory awaits a conversion, so that analysing
    it only reads, a flush makes the registry agree with the directory: every
    visible regular file is registered with its size, and of the other entries
    exactly those in use remain, untouched; then the local peer's models, and
    nothing else of the peer table, become those of the registry, with one event.
    (A name the resolver refuses aborts it when it ends like a model's.) *)
Theorem flush_reconciles analyze_model now s (p : P) :
  (forall n z, visible (disk s) n z -> Is_Model_File n = true -> (analyze_model n (disk s)).2 = disk s) ->
  locks_wf s -> models_named (map_to_list (disk s)).*1 ->
  exists d c s' p' es, Flush analyze_model to_string now s p = (Ok (d, c), (s', p'), es) /\ disk s' = disk s /\
    (forall k z, visible (disk s) k z -> exists e, files s' !! k = Some e /\ entry_size e = z) /\
    (forall k, ~ (exists z, visible (disk s) k z) ->
       files s' !! k = match files s !! k with
                       | Some e => if is_free (entry_lock e) s then None else Some e
                       | None => None
                       end) /\
    match Get_Local_Peer p with
    | Ok local => view p' = alter (update_supported_models_info now (models_of s')) (peer_id local) (view p) /\
        length es = 1%nat
    | Err _ => p' = p /\ es = []
    end.
Proof.
  intros Ha Hwf Hm. destruct (Flush_registry_spec analyze_model (disk s) Ha s eq_refl Hwf Hm) as (d & c & s' & Hf & H1 & H2 & H3).
  unfold Flush. rewrite Hf. unfold Sync_Models_To_Peer_Manager.
  destruct (Get_Local_Peer p) as [local|e]; do 5 eexists; (split; [reflexivity|]); split_and!; try done.
  apply view_models.
Qed.
End flush_peers.

(** ** Guards *)
(** Operations as they run when [Acquire_Read] and [Acquire_Write] are not
    interrupted; [Clean] is the clean-up of one registry entry by a flush,
    [Extern] any change of the directory from outside. *)
Inductive store_op : Type :=
| Op_Read (f : string) | Op_Write (f : string) | Op_Drop (i : nat) (try_write : bool)
| Op_Remove (f : string) | Op_Clean (f : string) | Op_Extern (d : Disk).
Definition acquire (write : bool) (f : string) (w : Store * list Guard) : Store * list Guard :=
  let (s, hs) := w in
  let (r, s) := if write then Acquire_Write_find f s else Acquire_Read_find f s in
  match r with
  | Err _ => (s, hs)
  | Ok l =>
      match Acquire_take write f l s with
      | Some (g, s) => (s, hs ++ [g])
      | None => (s, hs)
      end
  end.
Definition store_step (w : Store * list Guard) (o : store_op) : Store * list Guard :=
  let (s, hs) := w in
  match o with
  | Op_Read f => acquire false f w
  | Op_Write f => acquire true f w
  | Op_Drop i b => match hs !! i with Some g => (drop_guard b g s, delete i hs) | None => w end
  | Op_Remove f => ((Remove f s).2, hs)
  | Op_Clean f => ((clean_one f s).2, hs)
  | Op_Extern d => (with_disk d s, hs)
  end.
Definition store_run (s : Store) (ops : list store_op) : Store * list Guard := foldl store_step (s, []) ops.

Definition guards_for (f : string) (hs : list Guard) : list Guard :=
  List.filter (fun g => String.eqb (guard_file g) f) hs.
Definition guards_of (l : nat) (hs : list Guard) : list Guard :=
  List.filter (fun g => (guard_lock g =? l)%nat) hs.
Definition lock_ok (st : lock_state) (gs : list Guard) : Prop :=
  match st with
  | Free => gs = []
  | Readers n => Forall (fun g => guard_write g = false) gs /\ length gs = n /\ (0 < n)%nat
  | Writer => exists g, gs = [g]
  end.
Definition store_inv (w : Store * list Guard) : Prop :=
  locks_wf w.1 /\ (forall l, lock_ok (default Free (locks w.1 !! l)) (guards_of l w.2)) /\
  (forall g, g ∈ w.2 -> exists e, files w.1 !! guard_file g = Some e /\ entry_lock e = guard_lock g).

(** The registry may grow, locks stay. *)
Definition grows (s s' : Store) : Prop :=
  locks_wf s' /\ (forall k e, files s !! k = Some e -> exists e', files s' !! k = Some e' /\ entry_lock e' = entry_lock e) /\
  forall l, default Free (locks s' !! l) = default Free (locks s !! l).
Lemma grows_inv s s' hs : grows s s' -> store_inv (s, hs) -> store_inv (s', hs).
Proof.
  intros (Hwf & Hf & Hl) (_ & Hlock & Hg). split_and!; [done| |].
  - intros l. cbn [fst snd] in *. rewrite Hl. apply Hlock.
  - intros g Hin. destruct (Hg g Hin) as (e & He & <-). cbn [fst] in *. destruct (Hf _ _ He) as (e' & ? & ?). eauto.
Qed.
Lemma grows_refl s : locks_wf s -> grows s s.
Proof. intros. unfold grows. eauto. Qed.
Lemma grows_insert n f s :
  locks_wf s -> files s !! n = None -> entry_lock (f (next_lock s)) = next_lock s -> grows s (insert_new n f s).
Proof.
  intros Hwf Hn Hf. split; [by apply locks_wf_insert|]. split; cbn.
  - intros k e He. rewrite lookup_insert_ne by congruence. eauto.
  - intros l. destruct (decide (l = next_lock s)) as [->|]; [|by rewrite lookup_insert_ne].
    rewrite lookup_insert_eq. destruct Hwf as (_ & _ & H3). by rewrite H3.
Qed.
Lemma find_spec (write : bool) f s r s' :
  locks_wf s -> (if write then Acquire_Write_find f s else Acquire_Read_find f s) = (r, s') ->
  grows s s' /\ forall l, r = Ok l -> exists e, files s' !! f = Some e /\ entry_lock e = l.
Proof.
  intros Hwf. unfold Acquire_Write_find, Acquire_Read_find, Ensure_Entry, Lazy_Discover.
  pose proof (grows_refl s Hwf) as Hrefl.
  destruct write, (Resolve_Path "" f); try (intros [= <- <-]; split; [done|by intros]);
    destruct (files s !! f) as [e|] eqn:He; try (intros [= <- <-]; split; [done|intros l [= <-]; eauto]).
  - intros [= <- <-]. split; [by apply grows_insert|]. intros l [= <-]. cbn. rewrite lookup_insert_eq. eauto.
  - destruct (disk s !! f) as [[z|z]|]; try (intros [= <- <-]; split; [done|by intros]).
    intros [= <- <-]. split; [by apply grows_insert|]. intros l [= <-]. cbn. rewrite lookup_insert_eq. eauto.
Qed.
Lemma locks_wf_locks s l st : (l < next_lock s)%nat -> locks_wf s -> locks_wf (with_locks (<[l := st]> (locks s)) s).
Proof.
  intros Hl (H1 & H2 & H3). split_and!; cbn; [done..|]. intros l' Hl'. rewrite lookup_insert_ne by lia. by apply H3.
Qed.
Lemma acquire_inv write f w : store_inv w -> store_inv (acquire write f w).
Proof.
  destruct w as [s hs]. intros Hi. pose proof Hi as (Hwf & _). unfold acquire.
  destruct (if write then Acquire_Write_find f s else Acquire_Read_find f s) as [r s1] eqn:Hfind. apply find_spec in Hfind as [Hgr Hent]; [|done].
  apply (grows_inv _ _ _ Hgr) in Hi. destruct r as [l|]; [|done]. destruct (Hent l eq_refl) as (e & He & Hle).
  destruct (Acquire_take write f l s1) as [[g s2]|] eqn:Ht; [|done].
  destruct Hi as (Hwf1 & Hlock & Hg). cbn [fst snd] in *.
  assert (exists st, s2 = with_locks (<[l := st]> (locks s1)) s1 /\ g = mk_guard f l write /\
    lock_ok st (guards_of l hs ++ [g])) as (st & -> & -> & Hst).
  { specialize (Hlock l). unfold Acquire_take, take_write, take_read in Ht. destruct write;
      destruct (default Free (locks s1 !! l)) as [|n|]; cbn in Ht; try done; injection Ht as <- <-; eexists; (split; [done|]; split; [done|]).
    - cbn [lock_ok] in *. rewrite Hlock. by eexists.
    - cbn [lock_ok] in *. rewrite Hlock. split_and!; [by constructor|done|lia].
    - cbn [lock_ok] in *. destruct Hlock as (? & <- & ?). split_and!; [|rewrite length_app; cbn; lia|lia].
      apply Forall_app. split; [done|by constructor]. }
  split_and!; cbn [fst snd].
  - apply locks_wf_locks; [|done]. destruct Hwf1 as (H1 & _). subst l. eauto.
  - intros l'. unfold guards_of in *. rewrite List.filter_app. cbn [List.filter guard_lock].
    destruct (Nat.eqb_spec l l') as [<-|Hne]; cbn [locks with_locks].
    + by rewrite lookup_insert_eq.
    + rewrite lookup_insert_ne, app_nil_r by done. apply Hlock.
  - intros g [Hin|Hin]%elem_of_app; [by apply Hg|]. apply list_elem_of_singleton in Hin as ->. cbn. eauto.
Qed.
Lemma grows_resize z f s : locks_wf s -> grows s (with_files (alter (set_size z) f (files s)) s).
Proof.
  intros Hwf.
  assert (forall k, same_lock (files s !! k) (alter (set_size z) f (files s) !! k)) as Hs
    by (intros k; by apply alter_same_lock).
  split; [by apply locks_wf_files|]. split; [|done]. intros k e He. specialize (Hs k). rewrite He in Hs. cbn.
  destruct (alter _ f (files s) !! k) as [e'|] eqn:E; [|done]. by exists e'.
Qed.
Lemma refresh_grows f s : locks_wf s -> grows s (refresh_size f s).
Proof.
  intros Hwf. unfold refresh_size. destruct (disk s !! f) as [[z|z]|]; [..|by apply grows_refl].
  all: apply grows_resize; done.
Qed.
Lemma release_inv g s l1 l2 :
  store_inv (s, l1 ++ g :: l2) -> store_inv (release_lock (guard_lock g) s, l1 ++ l2).
Proof.
  intros (Hwf & Hlock & Hg). cbn [fst snd] in *.
  assert (guard_lock g < next_lock s)%nat as Hlt.
  { destruct (Hg g) as (e & He & <-); [rewrite elem_of_app; right; by left|]. destruct Hwf as (H1 & _). eauto. }
  assert (exists st, release_lock (guard_lock g) s = with_locks (<[guard_lock g := st]> (locks s)) s /\
    lock_ok st (guards_of (guard_lock g) (l1 ++ l2))) as (st & -> & Hst).
  { specialize (Hlock (guard_lock g)). unfold release_lock, guards_of in *. rewrite List.filter_app in *.
    cbn [List.filter] in Hlock. rewrite Nat.eqb_refl in Hlock.
    set (a := List.filter _ l1) in *. set (b := List.filter _ l2) in *.
    destruct (default Free (locks s !! guard_lock g)) as [|n|]; cbn [lock_ok] in Hlock.
    - by destruct a.
    - destruct Hlock as (HF & Hlen & Hn). rewrite Forall_app, Forall_cons in HF. rewrite length_app in Hlen. cbn in Hlen.
      destruct n as [|[|n]]; [lia| |]; (eexists; split; [done|]); cbn [lock_ok].
      + destruct a, b; cbn in *; done || lia.
      + split_and!; [apply Forall_app; tauto|rewrite length_app; lia|lia].
    - destruct Hlock as [g' Hlock]. eexists; split; [done|]. cbn. destruct a as [|x a]; [by destruct b|].
      injection Hlock as _ Hlock. by destruct a. }
  split_and!; cbn [fst snd].
  - by apply locks_wf_locks.
  - intros l. cbn [locks with_locks]. destruct (decide (guard_lock g = l)) as [<-|Hne]; [by rewrite lookup_insert_eq|].
    rewrite lookup_insert_ne by done. specialize (Hlock l). unfold guards_of in *. rewrite List.filter_app in *.
    cbn [List.filter] in Hlock. by rewrite (proj2 (Nat.eqb_neq _ _) Hne) in Hlock.
  - intros g' Hin. apply Hg. rewrite elem_of_app, elem_of_cons in *. tauto.
Qed.
Lemma delete_free_inv f e s hs :
  store_inv (s, hs) -> files s !! f = Some e -> is_free (entry_lock e) s = true ->
  store_inv (with_files (delete f (files s)) s, hs).
Proof.
  intros (Hwf & Hlock & Hg) He Hfree. cbn [fst snd] in *. split_and!; cbn [fst snd]; [|done|].
  - destruct Hwf as (H1 & H2 & H3). split_and!; cbn; [| |exact H3].
    + intros k e' [_ ?]%lookup_delete_Some. eauto.
    + intros k k' e1 e2 [_ ?]%lookup_delete_Some [_ ?]%lookup_delete_Some. eauto.
  - intros g Hin. destruct (Hg g Hin) as (e' & He' & Hl). exists e'. split; [|done]. cbn.
    rewrite lookup_delete_ne; [done|]. intros ->. specialize (Hlock (guard_lock g)). unfold is_free in Hfree.
    assert (e' = e) as -> by congruence. rewrite Hl in Hfree. destruct (default Free _); try done. cbn in Hlock.
    assert (g ∈ guards_of (guard_lock g) hs) as Hgi.
    { apply list_elem_of_In, filter_In. split; [by apply list_elem_of_In|apply Nat.eqb_refl]. }
    rewrite Hlock in Hgi. by apply not_elem_of_nil in Hgi.
Qed.
Lemma disk_inv d s hs : store_inv (s, hs) -> store_inv (with_disk d s, hs).
Proof. done. Qed.
Lemma store_inv_step w o : store_inv w -> store_inv (store_step w o).
Proof.
  destruct w as [s hs]. intros Hi. destruct o as [f|f|i b|f|f|d]; cbn [store_step].
  - by apply acquire_inv.
  - by apply acquire_inv.
  - destruct (hs !! i) as [g|] eqn:Hg; [|done]. rewrite delete_take_drop.
    rewrite <- (take_drop_middle _ _ _ Hg) in Hi. unfold drop_guard.
    destruct (guard_write g && b); [|by apply release_inv]. apply release_inv.
    eapply grows_inv; [|exact Hi]. apply refresh_grows. by destruct Hi.
  - unfold Remove. destruct (Resolve_Path "" f); [|done]. destruct (files s !! f) as [e|] eqn:He.
    + destruct (is_free (entry_lock e) s) eqn:Hfree; [|done]. unfold remove_file.
      destruct (disk s !! f) as [[z|z]|]; [|done|]; cbn [snd].
      * apply (delete_free_inv f e (with_disk (delete f (disk s)) s)); [by apply disk_inv|done|done].
      * by apply (delete_free_inv f e).
    + unfold remove_file. destruct (disk s !! f) as [[z|z]|]; done.
  - unfold clean_one. destruct (files s !! f) as [e|] eqn:He; [|done].
    destruct (is_free (entry_lock e) s) eqn:Hfree; [|done]. by apply (delete_free_inv f e).
  - done.
Qed.
Lemma store_inv_run s ops :
  locks_wf s -> (forall l, default Free (locks s !! l) = Free) -> store_inv (store_run s ops).
Proof.
  intros Hwf Hl. unfold store_run. assert (store_inv (s, [])) as Hi.
  { split_and!; [done| |by intros g ?%not_elem_of_nil]. intros l. cbn [fst snd]. by rewrite Hl. }
  revert Hi. generalize (s, @nil Guard). induction ops as [|o ops IH]; intros w Hi; [done|].
  apply IH. by apply store_inv_step.
Qed.

(** The order of the guards does not matter. *)
Lemma filter_perm {A} (p : A -> bool) (l k : list A) : l ≡ₚ k -> List.filter p l ≡ₚ List.filter p k.
Proof.
  induction 1 as [|x l k _ IH|x y l|l k m _ IH1 _ IH2]; cbn; [done|by case_match; rewrite IH| |by rewrite IH1].
  repeat case_match; try done. apply perm_swap.
Qed.
Lemma lock_ok_perm st gs gs' : gs ≡ₚ gs' -> lock_ok st gs -> lock_ok st gs'.
Proof.
  intros Hp. destruct st as [|n|]; cbn.
  - intros ->. by apply Permutation_nil in Hp.
  - intros (Hf & Hn & ?). split_and!; [by rewrite <- Hp|by rewrite <- Hp|done].
  - intros [g ->]. apply Permutation_singleton_l in Hp. by exists g.
Qed.
Lemma store_inv_perm s hs hs' : hs ≡ₚ hs' -> store_inv (s, hs) -> store_inv (s, hs').
Proof.
  intros Hp (Hwf & Hl & Hg). cbn [fst snd] in *. split_and!; cbn [fst snd]; [done| |].
  - intros l. eapply lock_ok_perm; [|apply Hl]. by apply filter_perm.
  - intros g Hin. apply Hg. by rewrite Hp.
Qed.
Lemma drop_guard_inv b g s hs : store_inv (s, g :: hs) -> store_inv (drop_guard b g s, hs).
Proof.
  intros Hi. unfold drop_guard. destruct (guard_write g && b); apply (release_inv g _ [] hs); [|done].
  eapply grows_inv; [|exact Hi]. apply refresh_grows. by destruct Hi.
Qed.

(** A flush keeps the guards. *)
Lemma grows_trans s1 s2 s3 : grows s1 s2 -> grows s2 s3 -> grows s1 s3.
Proof.
  intros (_ & Hf1 & Hl1) (Hw2 & Hf2 & Hl2). split_and!; [done| |].
  - intros k e He. destruct (Hf1 _ _ He) as (e1 & He1 & <-). destruct (Hf2 _ _ He1) as (e2 & He2 & <-). eauto.
  - intros l. by rewrite Hl2.
Qed.
Lemma grows_alter (f : FileEntry -> FileEntry) n s :
  (forall e, entry_lock (f e) = entry_lock e) -> locks_wf s -> grows s (with_files (alter f n (files s)) s).
Proof.
  intros Hf Hwf. assert (forall k, same_lock (files s !! k) (alter f n (files s) !! k)) as Hs by (intros k; by apply alter_same_lock).
  split; [by apply locks_wf_files|]. split; [|done]. intros k e He. specialize (Hs k). rewrite He in Hs. cbn.
  destruct (alter _ n (files s) !! k) as [e'|] eqn:E; [|done]. by exists e'.
Qed.
Lemma grows_disk d s : locks_wf s -> grows s (with_disk d s).
Proof. intros. by apply (grows_refl s). Qed.
Section flush_guards.
Variable analyze_model : string -> Disk -> result string ModelInfo * Disk.
Lemma flush_known_grows n z s : locks_wf s -> grows s (flush_known analyze_model n z s).2.
Proof.
  intros Hwf. unfold flush_known. set (s1 := with_files _ s). assert (grows s s1) as H1 by by apply grows_alter.
  pose proof (proj1 H1) as Hw1. destruct (Is_Model_File n); [|done]. destruct (Resolve_Path "" n); [|done].
  destruct (analyze_model n (disk s1)) as [[i|] d]; cbn [snd]; (eapply grows_trans; [exact H1|]); [|by apply grows_disk].
  apply (grows_alter (set_info i) n (with_disk d s1)); done.
Qed.
Lemma flush_new_grows n z s : locks_wf s -> files s !! n = None -> grows s (flush_new analyze_model n z s).2.
Proof.
  intros Hwf Hn. unfold flush_new. destruct (Is_Model_File n); [|by apply grows_insert]. destruct (Resolve_Path "" n); [|by apply grows_refl].
  destruct (analyze_model n (disk s)) as [[i|] d]; cbn [snd]; by apply (grows_insert n _ (with_disk d s)).
Qed.
Lemma flush_scan_grows names seen disc s : locks_wf s -> grows s (flush_scan analyze_model names seen disc s).2.
Proof.
  revert seen disc s. induction names as [|n names IH]; intros seen disc s Hwf; cbn [flush_scan]; [by apply grows_refl|].
  destruct (hidden n); [by apply IH|]. destruct (disk s !! n) as [[z|z]|]; [|by apply IH|by apply grows_refl].
  destruct (files s !! n) as [e|] eqn:He.
  - pose proof (flush_known_grows n z s Hwf) as Hg. destruct (flush_known analyze_model n z s) as [[u|] s']; cbn [snd] in *; [|done].
    eapply grows_trans; [exact Hg|]. apply IH. by destruct Hg.
  - pose proof (flush_new_grows n z s Hwf He) as Hg. destruct (flush_new analyze_model n z s) as [[u|] s']; cbn [snd] in *; [|done].
    eapply grows_trans; [exact Hg|]. apply IH. by destruct Hg.
Qed.
Lemma clean_loop_inv zs c s hs : store_inv (s, hs) -> store_inv ((clean_loop zs c s).2, hs).
Proof.
  revert c s. induction zs as [|z zs IH]; intros c s Hi; cbn [clean_loop]; [done|].
  destruct (clean_one z s) as [k s'] eqn:Hc. apply IH. pose proof (store_inv_step (s, hs) (Op_Clean z) Hi) as H'. cbn in H'.
  by rewrite Hc in H'.
Qed.
Lemma Flush_registry_inv s hs : store_inv (s, hs) -> store_inv ((Flush_registry analyze_model s).2, hs).
Proof.
  intros Hi. unfold Flush_registry. pose proof (flush_scan_grows (map_to_list (disk s)).*1 ∅ 0 s (proj1 Hi)) as Hg.
  destruct (flush_scan _ _ _ _ _) as [[[seen disc]|] s']; cbn [snd] in *; [|by eapply grows_inv].
  destruct (clean_loop _ _ s') as [c s2] eqn:Hc. cbn [snd].
  replace s2 with (clean_loop (List.filter (fun k => negb (bool_decide (k ∈ seen))) (map_to_list (files s')).*1) 0 s').2
    by by rewrite Hc. apply clean_loop_inv. by eapply grows_inv.
Qed.
End flush_guards.

(** What the invariant says of one file. *)
Definition excludes (f : string) (w : Store * list Guard) : Prop :=
  let gs := guards_for f w.2 in
  (Forall (fun g => guard_write g = false) gs \/ exists g, gs = [g]) /\
  (gs <> [] -> is_Some (files w.1 !! f) /\ Remove f w.1 = (Err (InUse ("file " +:+ f +:+ " is in use")%string), w.1)).
Lemma same_file_guards s hs f e :
  store_inv (s, hs) -> files s !! f = Some e -> guards_for f hs = guards_of (entry_lock e) hs.
Proof.
  intros (Hwf & _ & Hg) He. cbn [fst snd] in *. apply filter_ext_in. intros g Hin%list_elem_of_In.
  destruct (Hg g Hin) as (e' & He' & Hel). apply eq_true_iff_eq. rewrite String.eqb_eq, Nat.eqb_eq. split.
  - intros E. rewrite E in He'. congruence.
  - intros E. destruct Hwf as (_ & Hinj & _). apply (Hinj _ _ e' e He' He). congruence.
Qed.
Lemma store_inv_excludes w f : store_inv w -> valid_id f = true -> excludes f w.
Proof.
  intros Hi Hv. unfold excludes. set (gs := guards_for f w.2).
  destruct gs as [|g gs'] eqn:Hgs; [split; [left; constructor|done]|].
  assert (g ∈ w.2 /\ guard_file g = f) as [Hin Hf].
  { assert (g ∈ gs) as Hgi by (rewrite Hgs; by left).
    apply list_elem_of_In, filter_In in Hgi as [Hgi Hgf%String.eqb_eq]. split; [by apply list_elem_of_In|done]. }
  destruct w as [s hs]. pose proof Hi as (Hwf' & Hlock & Hg). cbn [fst snd] in *.
  destruct (Hg g Hin) as (e & He & Hel). rewrite Hf in He.
  pose proof (same_file_guards _ _ _ _ Hi He) as Heq. fold gs in Heq.
  specialize (Hlock (entry_lock e)). rewrite <- Heq, Hgs in Hlock. split.
  - destruct (default Free _) as [|n|]; cbn [lock_ok] in Hlock; [done|left; by destruct Hlock|by right].
  - intros _. split; [by eexists|]. unfold Remove, valid_id in *. destruct (Resolve_Path "" f); [|done].
    rewrite He. unfold is_free. by destruct (default Free _).
Qed.

(** C12: from a store whose locks are free on, as long as acquisitions are not
    interrupted and nobody asks whether a file exists, guards exclude each other: the
    guards held on a file are all readers or a single one, a guarded file stays
    registered, and its removal is refused. ([exclusion_broken]: without either
    condition two writers, or a reader and a writer, can hold a file.) *)
Theorem guards_exclude s ops f :
  locks_wf s -> (forall l, default Free (locks s !! l) = Free) -> valid_id f = true ->
  let w := store_run s ops in
  let gs := guards_for f w.2 in
  (Forall (fun g => guard_write g = false) gs \/ exists g, gs = [g]) /\
  (gs <> [] -> is_Some (files w.1 !! f) /\ Remove f w.1 = (Err (InUse ("file " +:+ f +:+ " is in use")%string), w.1)).
Proof. intros Hwf Hl Hv. apply store_inv_excludes; [by apply store_inv_run|done]. Qed.

Lemma acquire_write_new f s hs :
  valid_id f = true -> files s !! f = None ->
  acquire true f (s, hs) =
    (with_locks (<[next_lock s := Writer]> (<[next_lock s := Free]> (locks s)))
       (insert_new f (plain_entry f 0) s), hs ++ [mk_guard f (next_lock s) true]).
Proof.
  unfold valid_id, acquire, Acquire_Write_find, Ensure_Entry. intros Hv Hf.
  destruct (Resolve_Path "" f); [|done]. rewrite Hf. unfold Acquire_take, take_write. cbn [locks insert_new].
  by rewrite lookup_insert_eq.
Qed.

(** two ways to write a file twice at once. A writer that has not created
    its file yet loses its entry to a mere existence test, and a second writer
    is let in; and a reader that has found the lock of a file but not taken
    it yet keeps the lock of a removed entry, beside the writer of the new
    one. *)
Theorem exclusion_broken s f :
  locks_wf s -> valid_id f = true ->
  (files s !! f = None -> disk s !! f = None ->
   let w := acquire true f (s, []) in
   let w := ((Exists f w.1).2, w.2) in
   exists l, (acquire true f w).2 = [mk_guard f (next_lock s) true; mk_guard f l true]) /\
  (forall e z, files s !! f = Some e -> disk s !! f = Some (Regular z) -> default Free (locks s !! entry_lock e) = Free ->
   exists s1 s2 s3, Acquire_Read_find f s = (Ok (entry_lock e), s1) /\ Remove f s1 = (Ok tt, s2) /\
     (acquire true f (s2, [])).2 = [mk_guard f (next_lock s) true] /\
     Acquire_take false f (entry_lock e) (acquire true f (s2, [])).1 = Some (mk_guard f (entry_lock e) false, s3)).
Proof.
  intros Hwf Hv. split.
  - intros Hf Hd. rewrite acquire_write_new by done. cbn [app fst snd].
    set (s1 := with_locks _ _). assert (Exists f s1 = (Ok false, with_files (delete f (files s1)) s1)) as ->.
    { unfold Exists, valid_id in *. destruct (Resolve_Path "" f); [|done]. unfold s1. cbn. by rewrite lookup_insert_eq, Hd. }
    cbn [snd]. eexists. rewrite acquire_write_new; [done..|]. cbn. by rewrite lookup_delete_eq.
  - intros e z He Hd Hl. unfold valid_id in Hv.
    set (s2 := with_files (delete f (files s)) (with_disk (delete f (disk s)) s)).
    assert (acquire true f (s2, []) = (with_locks (<[next_lock s := Writer]> (<[next_lock s := Free]> (locks s)))
       (insert_new f (plain_entry f 0) s2), [mk_guard f (next_lock s) true])) as Hacq.
    { rewrite acquire_write_new; [done|by unfold valid_id|]. cbn. by rewrite lookup_delete_eq. }
    assert (entry_lock e < next_lock s)%nat as Hlt by (destruct Hwf as (H1 & _); eauto).
    eexists s, s2, _. split_and!.
    + unfold Acquire_Read_find, Lazy_Discover. destruct (Resolve_Path "" f); [|done]. by rewrite He.
    + unfold Remove. destruct (Resolve_Path "" f); [|done]. rewrite He. unfold is_free. rewrite Hl.
      unfold remove_file. by rewrite Hd.
    + by rewrite Hacq.
    + rewrite Hacq. cbn [fst]. unfold Acquire_take, take_read. cbn [locks with_locks].
      rewrite !lookup_insert_ne by lia. by rewrite Hl.
Qed.

(** a flush converts a raw model whoever holds it: the file is removed
    under the guard, and the registry keeps the name of the file that is gone
    while the converted file is not registered. *)
Theorem flush_converts_under_guard analyze_model s n m z e i :
  disk s = {[ n := Regular z ]} -> files s !! n = Some e -> files s !! m = None -> n <> m ->
  hidden n = false -> Is_Model_File n = true -> valid_id n = true ->
  analyze_model n (disk s) = (Ok i, {[ m := Regular z ]}) ->
  exists c s', Flush_registry analyze_model s = (Ok (0, c), s') /\ locks s' = locks s /\
    disk s' !! n = None /\ is_Some (files s' !! n) /\ is_Some (disk s' !! m) /\ files s' !! m = None.
Proof.
  intros Hd He Hm Hne Hh Hmod Hv Ha. unfold Flush_registry. rewrite Hd, map_to_list_singleton.
  cbn [fmap list_fmap fst flush_scan]. rewrite Hh, Hd, lookup_singleton_eq, He.
  unfold flush_known, valid_id in *. rewrite Hmod. destruct (Resolve_Path "" n); [|done]. cbn [disk with_files].
  rewrite Ha. set (s1 := with_files _ _). cbn [flush_scan].
  destruct (clean_loop _ 0 s1) as [c s2] eqn:Hc. apply clean_loop_spec in Hc as (Hd2 & Hl2 & Hf2).
  exists c, s2. split; [done|]. rewrite Hd2, Hl2. split; [done|].
  assert (disk s1 = {[ m := Regular z ]}) as -> by done. split_and!.
  - by rewrite lookup_singleton_ne.
  - rewrite Hf2. unfold s1 at 1. cbn [files with_files with_disk]. rewrite !lookup_alter_eq, He. cbn [fmap option_fmap option_map].
    rewrite bool_decide_false; [by eexists|]. intros [_ Hin]%list_elem_of_In%filter_In.
    apply negb_true_iff, bool_decide_eq_false in Hin. set_solver.
  - rewrite lookup_singleton_eq. by eexists.
  - rewrite Hf2. unfold s1 at 1. cbn [files with_files with_disk]. by rewrite !lookup_alter_ne, Hm.
Qed.

(** ** Concrete stores *)
Module Example_Store.
Definition dir : Disk := {[ "a.txt" := Regular 5; ".secret" := Regular 1; "sub" := Other 4096 ]}%string.
Definition store : Store := Storage_New dir.
Definition no_model (p : string) (d : Disk) : result string ModelInfo * Disk := (Err "not a model"%string, d).
(** An analysis that reads converted models and converts the others. *)
Definition analysis (p : string) (d : Disk) : result string ModelInfo * Disk :=
  (Ok (mk_info (Some 1) 2 None "qwen3"),
   if Str.ends_with (as_bytes ".pgguf") (as_bytes p) then d else <["m.pgguf"%string := Regular 9]> (delete p d)).
Definition raw : Store := Storage_New {[ "m.gguf"%string := Regular 9 ]}.
Definition convert (p : string) (d : Disk) : result string ModelInfo * Disk :=
  (Ok (mk_info (Some 1) 2 None "qwen3"), {[ "m.pgguf"%string := Regular 9 ]}).
#[export] Instance cap : Peer_Management_Capability N N (gmap N (PeerInfo N N)) :=
  PeerManager_capability (fun _ => []) (fun m => (map_to_list m).*2).
#[export] Instance laws : Peer_Management_Laws (fun _ : N => []) N (gmap N (PeerInfo N N)) :=
  PeerManager_laws (fun _ => []) (fun m => (map_to_list m).*2) (fun m => Permutation_refl _).
Definition peers : gmap N (PeerInfo N N) := PeerManager_new 0 1%N (as_bytes "me").
Lemma new_wf d : locks_wf (Storage_New d) /\ forall l, default Free (locks (Storage_New d) !! l) = Free.
Proof.
  unfold Storage_New. set (s0 := mk_store ∅ d ∅ 0).
  pose proof (NoDup_fst_map_to_list d) as Hnd. revert Hnd. generalize (map_to_list d). intros l Hnd.
  assert (locks_wf s0 /\ (forall i, default Free (locks s0 !! i) = Free) /\ forall k, k ∈ l.*1 -> files s0 !! k = None) as H0.
  { split_and!; [split_and!|..]; done. }
  revert H0. generalize s0. induction l as [|[n k] l IH]; intros s (Hwf & Hl & Hf); [done|]. cbn [foldl].
  inversion_clear Hnd as [|?? Hn Hnd']. apply (IH Hnd').
  assert (locks_wf s /\ (forall i, default Free (locks s !! i) = Free) /\ forall k, k ∈ l.*1 -> files s !! k = None) as Hskip.
  { split_and!; [done..|]. intros k' Hk'. apply Hf. by right. }
  destruct (hidden n); [exact Hskip|]. destruct k as [z|]; [|exact Hskip].
  assert (files s !! n = None) as Hfn by (apply Hf; by left).
  split_and!.
  - by apply locks_wf_insert.
  - intros i. destruct (grows_insert n (plain_entry n z) s Hwf Hfn eq_refl) as (_ & _ & ->). apply Hl.
  - intros k' Hk'. cbn. rewrite lookup_insert_ne; [apply Hf; by right|]. intros ->. done.
Qed.
End Example_Store.
Import Example_Store.

Lemma resolve_stays_inside_witness :
  Resolve_Path "/data" "m.gguf" = Ok "/data/m.gguf"%string /\ hidden "m.gguf" = false.
Proof. split; [reflexivity|]. apply (resolve_stays_inside "/data" "m.gguf" "/data/m.gguf" eq_refl). Defined.
Lemma flush_reconciles_witness :
  exists d c s' p' es, Flush analysis (fun _ => []) 9 (with_disk {[ "b.pgguf"%string := Regular 7 ]} store) peers
      = (Ok (d, c), (s', p'), es) /\
    exists e, files s' !! "b.pgguf"%string = Some e /\ entry_size e = 7.
Proof.
  destruct (flush_reconciles (fun _ => []) analysis 9
    (with_disk {[ "b.pgguf"%string := Regular 7 ]} store) peers) as (d & c & s' & p' & es & H1 & _ & H2 & _).
  - cbn [disk with_disk]. intros n z [_ [<- _]%lookup_singleton_Some] _. reflexivity.
  - apply (new_wf dir).
  - cbn [disk with_disk]. rewrite map_to_list_singleton. repeat constructor.
  - exists d, c, s', p', es. split; [exact H1|]. apply (H2 "b.pgguf"%string 7). split; [reflexivity|apply lookup_singleton_eq].
Defined.
Lemma guards_exclude_witness :
  let w := store_run store [Op_Read "a.txt"; Op_Read "a.txt"; Op_Write "a.txt"; Op_Drop 0 true] in
  guards_for "a.txt" w.2 = [mk_guard "a.txt" 0 false] /\
  Remove "a.txt" w.1 = (Err (InUse "file a.txt is in use"), w.1).
Proof.
  intros w. assert (guards_for "a.txt" w.2 = [mk_guard "a.txt" 0 false]) as Hg by (by vm_compute).
  split; [exact Hg|].
  apply (guards_exclude store [Op_Read "a.txt"; Op_Read "a.txt"; Op_Write "a.txt"; Op_Drop 0 true] "a.txt");
    [apply new_wf|apply new_wf|reflexivity|]. fold w. rewrite Hg. discriminate.
Defined.
Lemma exclusion_broken_witness :
  exists l, (acquire true "new" ((Exists "new" (acquire true "new" (store, [])).1).2, (acquire true "new" (store, [])).2)).2
    = [mk_guard "new" (next_lock store) true; mk_guard "new" l true].
Proof.
  apply (exclusion_broken store "new"); [apply new_wf|reflexivity|by vm_compute|by vm_compute].
Defined.
Lemma flush_converts_under_guard_witness :
  exists c s', Flush_registry convert (store_run raw [Op_Read "m.gguf"]).1 = (Ok (0, c), s') /\
    disk s' !! "m.gguf"%string = None /\ is_Some (files s' !! "m.gguf"%string).
Proof.
  set (s := (store_run raw [Op_Read "m.gguf"]).1).
  assert (exists e, files s !! "m.gguf"%string = Some e) as [e He] by (eexists; by vm_compute).
  destruct (flush_converts_under_guard convert s "m.gguf" "m.pgguf" 9 e (mk_info (Some 1) 2 None "qwen3"))
    as (c & s' & H1 & _ & H2 & H3 & _);
    [by vm_compute|exact He|by vm_compute|discriminate|by vm_compute..|reflexivity|].
  exists c, s'. split; [exact H1|]. split; [exact H2|exact H3].
Defined.
