(* ===== verification/Programs.v ===== *)
(** * The registry of Lua programs ([Src/VM/registry.rs])

    The programs found under [programs/builtin] and [programs/user], by the
    command each declares.  The file system is a tree; evaluating a script is
    Lua's: [globals] returns the [COMMAND] and [DESCRIPTION] globals a script
    leaves, or [None] when it does not evaluate.  The iteration orders of the
    hash maps are parameters. *)
From S2P Require Import Prelude RustStd.

Inductive fs_node : Type :=
  | File (content : option string)
  | Dir (entries : option (list (string * fs_node))).

Record ProgramEntry : Type := mk_ProgramEntry { path : string; command : string; description : string }.
Record ProgramRegistry : Type := mk_ProgramRegistry {
  builtin : gmap string ProgramEntry;
  user : gmap string ProgramEntry;
}.
Definition ProgramRegistry_default : ProgramRegistry := mk_ProgramRegistry ∅ ∅.

(** The file name split at its last dot: [Path::extension]; a name that only
    starts with a dot has none. *)
Fixpoint last_dot (i : nat) (b : bytes) : option nat :=
  match b with
  | [] => None
  | c :: b =>
      match last_dot (S i) b with
      | Some k => Some k
      | None => if decide (c = "."%byte) then Some i else None
      end
  end.
Definition extension (file_name : string) : option bytes :=
  match last_dot 0 (as_bytes file_name) with
  | None | Some 0%nat => None
  | Some k => Some (drop (S k) (as_bytes file_name))
  end.

Section registry.
Variable globals : string -> option (option string * option string).

Definition parse_script (path : string) (content : option string) : option ProgramEntry :=
  script ← content;
  g ← globals script;
  command ← fst g;
  Some (mk_ProgramEntry path command (default ""%string (snd g))).

(** [collect_scripts] on the entries of a directory, in the order [read_dir]
    returns them: a later script replaces an earlier one of the same command. *)
Fixpoint collect_node (name path : string) (n : fs_node) (m : gmap string ProgramEntry)
    : gmap string ProgramEntry :=
  match n with
  | Dir None => m
  | Dir (Some entries) =>
      (fix collect es m :=
         match es with
         | [] => m
         | (name, n) :: es => collect es (collect_node name (path +:+ "/" +:+ name)%string n m)
         end) entries m
  | File content =>
      if decide (extension name = Some (as_bytes "lua")) then
        match parse_script path content with
        | Some e => <[command e := e]> m
        | None => m
        end
      else m
  end.
Definition collect_scripts (path : string) (dir : option (list (string * fs_node))) :=
  collect_node "" path (Dir dir).
Definition scan_dir (path : string) (dir : option (list (string * fs_node))) : gmap string ProgramEntry :=
  collect_scripts path dir ∅.

Definition BUILTIN_DIR : string := "programs/builtin".
Definition USER_DIR : string := "programs/user".
(** [fs]: the two directories, as they are now. *)
Record Programs_Fs : Type := mk_fs {
  builtin_dir : option (list (string * fs_node));
  user_dir : option (list (string * fs_node));
}.
Definition ProgramRegistry_new (fs : Programs_Fs) : ProgramRegistry :=
  mk_ProgramRegistry (scan_dir BUILTIN_DIR (builtin_dir fs)) (scan_dir USER_DIR (user_dir fs)).
Definition reload_user (fs : Programs_Fs) (r : ProgramRegistry) : ProgramRegistry :=
  mk_ProgramRegistry (builtin r) (scan_dir USER_DIR (user_dir fs)).
End registry.

Section queries.
Variable iter : gmap string ProgramEntry -> list (string * ProgramEntry).
Hypothesis iter_perm : forall m, iter m ≡ₚ map_to_list m.

Definition get (c : string) (r : ProgramRegistry) : option ProgramEntry :=
  match user r !! c with Some e => Some e | None => builtin r !! c end.
Definition get_user (c : string) (r : ProgramRegistry) : option ProgramEntry := user r !! c.
(** [if !names.contains(&k) { names.push(k) }] *)
Definition push_new (names : list string) (k : string) : list string :=
  if decide (k ∈ names) then names else names ++ [k].
Definition command_names (r : ProgramRegistry) : list string :=
  foldl push_new (iter (builtin r)).*1 (iter (user r)).*1.
Definition builtin_entries (r : ProgramRegistry) : list ProgramEntry := (iter (builtin r)).*2.
Definition user_entries (r : ProgramRegistry) : list ProgramEntry := (iter (user r)).*2.

Lemma push_new_all ks names :
  NoDup names ->
  NoDup (foldl push_new names ks) /\ forall k, k ∈ foldl push_new names ks <-> k ∈ names \/ k ∈ ks.
Proof.
  revert names. induction ks as [|k ks IH]; intros names Hn; cbn [foldl].
  { split; [done|]. intros k. split; [by left|by intros [?|?%not_elem_of_nil]]. }
  assert (NoDup (push_new names k) /\ forall x, x ∈ push_new names k <-> x ∈ names \/ x = k) as [Hp Hx].
  { unfold push_new. case_decide as Hin; [split; [done|intros x; split; [by left|by intros [?| ->]]]|].
    split.
    - apply NoDup_app. split; [done|]. split; [|apply NoDup_singleton]. by intros x Hx ->%list_elem_of_singleton.
    - intros x. by rewrite elem_of_app, list_elem_of_singleton. }
  destruct (IH _ Hp) as [H1 H2]. split; [done|]. intros x. rewrite H2, Hx, elem_of_cons. tauto.
Qed.
Lemma elem_of_keys (m : gmap string ProgramEntry) k : k ∈ (iter m).*1 <-> is_Some (m !! k).
Proof.
  rewrite iter_perm, list_elem_of_fmap. split.
  - intros ([k' e] & -> & He%elem_of_map_to_list). by exists e.
  - intros [e He]. exists (k, e). split; [done|]. by apply elem_of_map_to_list.
Qed.

(** the command names are those [get] answers, each once, whatever order
    the maps iterate in. *)
Theorem command_names_exact r :
  NoDup (command_names r) /\ forall c, c ∈ command_names r <-> is_Some (get c r).
Proof using iter_perm.
  assert (NoDup (iter (builtin r)).*1) as Hb by (rewrite iter_perm; apply NoDup_fst_map_to_list).
  destruct (push_new_all (iter (user r)).*1 _ Hb) as [H1 H2]. split; [done|]. intros c.
  unfold command_names. rewrite H2, !elem_of_keys. unfold get. destruct (user r !! c) as [e|].
  - split; [by eexists|]. right. by eexists.
  - split; [|by left]. intros [?|[? ?]]; done.
Qed.
End queries.

(** ** What a scan finds *)
Section scan.
Variable globals : string -> option (option string * option string).

(** The scripts of a tree, in the order the scan meets them. *)
Fixpoint scripts (name path : string) (n : fs_node) : list ProgramEntry :=
  match n with
  | Dir None => []
  | Dir (Some entries) =>
      (fix go es := match es with
         | [] => []
         | (name, n) :: es => scripts name (path +:+ "/" +:+ name)%string n ++ go es
         end) entries
  | File content =>
      if decide (extension name = Some (as_bytes "lua")) then
        match parse_script globals path content with Some e => [e] | None => [] end
      else []
  end.
Definition insert_entry (m : gmap string ProgramEntry) (e : ProgramEntry) : gmap string ProgramEntry :=
  <[command e := e]> m.
Section node_ind.
Variable P : fs_node -> Prop.
Hypothesis HF : forall c, P (File c).
Hypothesis HN : P (Dir None).
Hypothesis HD : forall es, Forall (fun x => P (snd x)) es -> P (Dir (Some es)).
Fixpoint fs_node_ind' (n : fs_node) : P n :=
  match n with
  | File c => HF c
  | Dir None => HN
  | Dir (Some es) =>
      HD es ((fix go (es : list (string * fs_node)) : Forall (fun x => P (snd x)) es :=
                match es with
                | [] => @List.Forall_nil _ (fun x => P (snd x))
                | x :: es => @List.Forall_cons _ (fun x => P (snd x)) x es (fs_node_ind' (snd x)) (go es)
                end) es)
  end.
End node_ind.

Lemma collect_scripts_fold n name path m :
  collect_node globals name path n m = foldl insert_entry m (scripts name path n).
Proof.
  revert name path m. induction n as [c| |es IH] using fs_node_ind'; intros name path m; [|done|].
  - cbn. case_decide; [|done]. by destruct (parse_script globals path c).
  - cbn. revert m. induction IH as [|[a n] es Hn _ IHes]; intros m; [done|].
    cbn [snd] in Hn. rewrite foldl_app, <- Hn. apply IHes.
Qed.
Lemma fold_entries l m k :
  foldl insert_entry m l !! k =
  match list_find (fun e => command e = k) (rev l) with Some (_, e) => Some e | None => m !! k end.
Proof.
  revert m. induction l as [|e l IH] using rev_ind; intros m; [done|].
  rewrite foldl_app, rev_app_distr. cbn. unfold insert_entry at 1. case_decide as Hk.
  - subst k. by rewrite lookup_insert_eq.
  - rewrite lookup_insert_ne, IH by done. by destruct (list_find _ _) as [[i x]|].
Qed.

(** a reload. The builtin programs stay; the user programs are those of the
    directory now: every script that evaluates and sets [COMMAND] is filed
    under that command, a later one replacing an earlier one, and nothing else
    is. A user program hides the builtin one. *)
Theorem reload_spec fs r c :
  let r' := reload_user globals fs r in
  builtin r' = builtin r /\
  get_user c r' = snd <$> list_find (fun e => command e = c) (rev (scripts "" USER_DIR (Dir (user_dir fs)))) /\
  get c r' = match get_user c r' with Some e => Some e | None => builtin r !! c end /\
  (forall e, get_user c r' = Some e -> command e = c).
Proof.
  intros r'. split; [done|].
  assert (get_user c r' = snd <$> list_find (fun e => command e = c) (rev (scripts "" USER_DIR (Dir (user_dir fs))))) as Hg.
  { unfold get_user, r'. cbn [user reload_user]. unfold scan_dir, collect_scripts.
    rewrite collect_scripts_fold, fold_entries, lookup_empty. by destruct (list_find _ _) as [[? ?]|]. }
  split; [exact Hg|]. split; [done|]. intros e. rewrite Hg. intros ([i e'] & Hf & ->)%fmap_Some.
  by apply list_find_Some in Hf as (_ & ? & _).
Qed.
End scan.

Module Example_Programs.
(** A script is its command here. *)
Definition globals (s : string) : option (option string * option string) :=
  if String.eqb s "" then Some (None, None) else Some (Some s, None).
Definition fs : Programs_Fs := mk_fs
  (Some [("send.lua", File (Some "send"))])
  (Some [("a.lua", File (Some "hello")); ("old", Dir (Some [("b.lua", File (Some "hello")); ("c.txt", File (Some "no"))]));
         ("e.lua", File (Some ""))])%string.
Definition reg : ProgramRegistry := ProgramRegistry_new globals fs.
Definition iter : gmap string ProgramEntry -> list (string * ProgramEntry) := map_to_list.
Example scan_example : get_user "hello" reg = Some (mk_ProgramEntry "programs/user/old/b.lua" "hello" "").
Proof. reflexivity. Qed.
End Example_Programs.
Lemma command_names_exact_witness :
  "send"%string ∈ command_names Example_Programs.iter Example_Programs.reg.
Proof.
  apply (command_names_exact Example_Programs.iter (fun m => Permutation_refl _) Example_Programs.reg).
  eexists. vm_compute. reflexivity.
Defined.
