(* ===== verification/Orchestrator.v ===== *)
(** * The orchestrator core ([Src/Orchestrator/core.rs] and [core/])

    The handlers of the node's main loop: user commands
    ([branch_user.rs]), requests of other nodes ([branch_command.rs]), inbound
    streams ([branch_stream.rs]), job events ([branch_lifecycle.rs]) and the
    loop itself with its shutdown.

    A handler returns the new state and its calls out of the component, in
    order.  What it spawns ([tokio::spawn], [spawn_lua_script]) is an effect,
    and the spawned tasks are definitions of their own.  The peer table is any
    implementation of its interface.  Outside are serde_json (class
    [Serde_Json]), Lua, the answers of other nodes and of the HTTP server, and
    the texts of errors of other components (parameters). *)
From S2P Require Import Prelude RustStd Wire Codec Streams Bitmap Peers Sessions ChatTemplate Command Network Storage Programs.

(** ** Data *)
Inductive JobKind : Set := Generic | ReceiveFile.
Inductive JobResult : Type := Success | Cancelled | Failed (msg : string).
Inductive LifecycleEvent : Type := Done (job_id : Z) (res : JobResult).
Record JobHandle : Type := mk_JobHandle { kind : JobKind; cancelled : bool; job_inference_id : option Z }.
(** [Quit]'s reply channel is a name. *)
Inductive UserCommand : Type :=
  | Execute (command : string) (params : gmap string string)
  | Run (script model_path : string)
  | Cancel (job_id : Z)
  | Quit (reply : nat)
  | DisplayPeer
  | SetDevice (device : string)
  | DistributeModel (model_path : string) (peers : list (string * Z * Z))
  | CmdList
  | Send (file_path peer_id : string)
  | Profile (model_id : string)
  | Help
  | CmdFlush
  | SetName (name : string)
  | Reload
  | CmdSession (model_id : string)
  | SessionInference (command : string) (session_id : Z) (model_path : string)
  | Api (session_id : Z)
  | CmdExecRemote (peer command : string) (params : gmap string string)
  | CmdDial (addr : string).

Definition cmd_output (text : string) (completed : bool) : json :=
  JObj [("type", JStr "cmd_result"); ("text", JStr text); ("completed", JBool completed)]%string.

(** ** Texts *)
Definition dec (z : Z) : string := of_bytes (Num.print_dec z).
Definition hex8 (z : Z) : string := of_bytes (concat (map Num.print_hex2 (to_be_bytes 4 z))).
(** [{:<n}] and [{:>n}] pad to [n] characters. *)
Definition chars (s : string) : nat := length (List.filter (fun b => negb (Utf8.is_cont b)) (as_bytes s)).
Definition spaces (n : nat) : string := of_bytes (repeat " "%byte n).
Definition pad_right (n : nat) (s : string) : string := (s +:+ spaces (n - chars s))%string.
Definition pad_left (n : nat) (s : string) : string := (spaces (n - chars s) +:+ s)%string.
Definition newline : string := of_bytes [x0a].
Definition lines_text (l : list string) : string := String.concat newline l.
(** [{:.1}] of [size / unit], exact below 2^53 bytes: ties to even. *)
Definition tenths (size unit : Z) : Z :=
  let q := size * 10 / unit in
  let r := size * 10 mod unit in
  if (unit <? 2 * r) || ((unit =? 2 * r) && Z.odd q) then q + 1 else q.
Definition one_decimal (size unit : Z) : string :=
  (dec (tenths size unit / 10) +:+ "." +:+ dec (tenths size unit mod 10))%string.
Definition size_text (size : Z) : string :=
  if 1073741824 <=? size then (one_decimal size 1073741824 +:+ " GB")%string
  else if 1048576 <=? size then (one_decimal size 1048576 +:+ " MB")%string
  else if 1024 <=? size then (one_decimal size 1024 +:+ " KB")%string
  else (dec size +:+ " B")%string.
Definition show_storage_error (e : StorageError) : string :=
  match e with
  | NotFound msg => "NotFound: " +:+ msg
  | InUse msg => "InUse: " +:+ msg
  | Io msg => "Io: " +:+ msg
  end%string.
Definition show_peer_error (e : Peer_Management_Error) : string :=
  match e with
  | PeerNotFound who => "Peer not found: " +:+ of_bytes who
  | Internal msg => "Internal error: " +:+ of_bytes msg
  end%string.

(** ** serde_json

    [Value]: the parsed values; an object's fields in order. *)
Class Serde_Json (Value : Type) := {
    from_str : string -> option Value;
    as_object : Value -> option (list (string * Value));
    as_str : Value -> option string;
    value_text : Value -> string;
    map_text : gmap string string -> string;
}.
(** Printing a map of strings and parsing it back gives its entries, once each. *)
Class Serde_Laws (Value : Type) `{!Serde_Json Value} := {
    map_text_parses m :
      exists v l, from_str (map_text m) = Some v /\ as_object v = Some l /\
        map (fun '(k, v) => (k, as_str v)) l ≡ₚ map (fun '(k, s) => (k, Some s)) (map_to_list m);
    map_text_str m : Utf8.is_str (map_text m);
}.

(** ** The core *)
Section core.
Context {PeerId Multiaddr P Value : Type} `{Countable PeerId}.
Context (to_string : PeerId -> bytes).
Context `{!Peer_Management_Capability PeerId Multiaddr P} `{!Serde_Json Value}.
Context (models_to_json : list SupportedModel -> bytes) (sessions_to_json : list SessionSummary -> bytes).
(** Texts of errors and [Debug] texts. *)
Context (show_command_error : command_error -> string) (show_protocol : NetworkProtocol -> string)
  (debug_string : string -> string).
(** Unicode's case mapping. *)
Context (to_uppercase : string -> string).
(** The iteration orders of the hash maps. *)
Context (iter_sessions : gmap Z Session -> list Session).
Context (iter_programs : gmap string ProgramEntry -> list (string * ProgramEntry)).
(** Lua, the program directories as a reload finds them, and the model analysis of a flush. *)
Context (globals : string -> option (option string * option string)) (fs : Programs_Fs).
Context (analyze_model : string -> Disk -> result string ModelInfo * Disk).
(** Answers: a remote node's, the configuration file's, a dial's, the HTTP server's. *)
Context (remote : PeerId -> Network_Data -> result string Network_Data).
Context (Set_Peer_Name : string -> result string unit).
Context (parse_addr : string -> result string Multiaddr) (dial : Multiaddr -> result string unit).
Context (spawn_api_server : Z -> string -> result string Z).

Record Core : Type := mk_Core {
  registry : gmap Z JobHandle;
  shutting_down : bool;
  peer_manager : P;
  storage : Store;
  session_mgr : SessionManager;
  program_registry : ProgramRegistry;
  device_preference : string;
}.
Definition Core_new (p : P) (s : Store) : Core :=
  mk_Core ∅ false p s (SessionManager_new 4) (ProgramRegistry_new globals fs) "".
Definition with_registry m (c : Core) : Core :=
  mk_Core m (shutting_down c) (peer_manager c) (storage c) (session_mgr c) (program_registry c) (device_preference c).
Definition with_peer_manager p (c : Core) : Core :=
  mk_Core (registry c) (shutting_down c) p (storage c) (session_mgr c) (program_registry c) (device_preference c).
Definition with_storage s (c : Core) : Core :=
  mk_Core (registry c) (shutting_down c) (peer_manager c) s (session_mgr c) (program_registry c) (device_preference c).
Definition with_sessions m (c : Core) : Core :=
  mk_Core (registry c) (shutting_down c) (peer_manager c) (storage c) m (program_registry c) (device_preference c).
Definition with_programs r (c : Core) : Core :=
  mk_Core (registry c) (shutting_down c) (peer_manager c) (storage c) (session_mgr c) r (device_preference c).
Definition with_device d (c : Core) : Core :=
  mk_Core (registry c) (shutting_down c) (peer_manager c) (storage c) (session_mgr c) (program_registry c) d.

Inductive task : Type :=
  | Task_Flush
  | Task_Dial (addr : string)
  | Task_Session (model_id : string)
  | Task_Api (session_id : Z) (model_id : string)
  | Task_Receive_File (peer : PeerId) (stream : nat)
  | Task_Session_Stream (session_id : Z) (stream : nat).
Inductive core_effect : Type :=
  | Bus (e : Bus_Event)
  | Net (e : Network.effect (PeerId:=PeerId) (Multiaddr:=Multiaddr) (Channel:=nat) (Waiter:=nat))
  | Request (peer : PeerId) (d : Network_Data)
  | Response (request_id : Z) (d : Network_Data)
  | Dial_Call (addr : Multiaddr)
  | Persist_Name (nm : string)
  | Start_Lua (script : string) (params : gmap string string) (label : string)
  | Start_Task (t : task)
  | Reply_Quit (reply : nat).
Definition output (text : string) : core_effect := Bus (Output (cmd_output text true)).
Definition notify (l : NotifyLevel) (text : string) : core_effect := Bus (Notify l text).

(** *** Jobs *)
Definition register_job (job_id : Z) (k : JobKind) (c : Core) : Core :=
  with_registry (<[job_id := mk_JobHandle k false None]> (registry c)) c.
Definition cancel_handle (h : JobHandle) : JobHandle := mk_JobHandle (kind h) true (job_inference_id h).
Definition cancel_job (job_id : Z) (c : Core) : Core :=
  with_registry (alter cancel_handle job_id (registry c)) c.
Definition shutdown (c : Core) : Core :=
  mk_Core (cancel_handle <$> registry c) true (peer_manager c) (storage c) (session_mgr c)
    (program_registry c) (device_preference c).
Definition show_result (r : JobResult) : string :=
  match r with
  | Success => "Success"
  | Cancelled => "Cancelled"
  | Failed msg => "Failed(" +:+ debug_string msg +:+ ")"
  end%string.
Definition route_lifecycle (e : LifecycleEvent) (c : Core) : Core * list core_effect :=
  match e with
  | Done job_id res =>
      (with_registry (delete job_id (registry c)) c,
       [Bus (State (JObj [("type", JStr "job_completed"); ("job_id", JNum job_id);
                          ("result", JStr (show_result res))])%string)])
  end.
(** [JobExecutor::run]: the events it sends. *)
Definition JobExecutor_run (job_id : Z) : list LifecycleEvent := [Done job_id Success].

(** *** Texts of the handlers *)
Definition peer_line (i : PeerInfo PeerId Multiaddr) : string :=
  let latency := match latency_ms (profile i) with Some v => "Some(" +:+ dec v +:+ ")" | None => "None" end%string in
  let head := (of_bytes (display_name to_string i) +:+ " [latency=" +:+ latency +:+ "ms]")%string in
  match supported_models i with
  | [] => head
  | ms =>
      (head +:+ newline +:+ "  模型 (" +:+ dec (zlen ms) +:+ "):" +:+
       String.concat "" (map (fun m => newline +:+ "    " +:+ file_name m +:+ " (id=" +:+ hex8 (Peers.model_id m) +:+
         ") [layers: " +:+ of_bytes (layer_range (layer_bitmap m)) +:+ "]") ms))%string
  end.
Definition display_peers_text (p : P) : string :=
  match Get_All_Peers p with
  | [] => "当前无已知节点"
  | peers => lines_text (map peer_line peers)
  end.
Definition opt_json {A} (f : A -> json) (o : option A) : json := match o with Some a => f a | None => JNull end.
Definition file_line (e : FileEntry) : string :=
  let head := ("  " +:+ pad_right 40 (entry_name e) +:+ " " +:+ pad_left 8 (size_text (entry_size e)))%string in
  match entry_architecture e, entry_num_layers e, entry_model_id e with
  | Some arch, Some layers, Some id =>
      (head +:+ "  [" +:+ arch +:+ " " +:+ dec layers +:+ " layers, id=" +:+ hex8 id +:+ "]" +:+ newline)%string
  | _, _, _ => (head +:+ newline)%string
  end.
Definition file_json (e : FileEntry) : json :=
  JObj [("file_name", JStr (entry_name e)); ("size", JNum (entry_size e));
        ("architecture", opt_json JStr (entry_architecture e)); ("num_layers", opt_json JNum (entry_num_layers e));
        ("model_id", opt_json JNum (entry_model_id e));
        ("layer_bitmap", opt_json (fun b => JStr (of_bytes (Bitmap_To_Hex b))) (entry_bitmap e))]%string.
Definition list_output (entries : list FileEntry) : json :=
  let text := match entries with
              | [] => "存储为空（无文件）"%string
              | _ => ("共 " +:+ dec (zlen entries) +:+ " 个文件:" +:+ newline +:+ String.concat "" (map file_line entries))%string
              end in
  JObj [("type", JStr "cmd_result"); ("text", JStr text); ("completed", JBool true);
        ("entries", JArr (map file_json entries))]%string.
Definition BUILTIN_COMMANDS : list (string * string) := [
  ("api <session_id>", "启动 OpenAI 兼容 API Server"); ("run <model>", "启动本地推理");
  ("pipeline <model>", "启动分布式流水线推理"); ("cancel <job_id>", "取消指定作业");
  ("dp / display-peer", "查看节点列表"); ("set-device cpu|cuda|cuda:N", "切换计算设备");
  ("ls", "列出存储文件"); ("flush", "刷新存储索引"); ("reload", "重新加载用户 Lua 脚本");
  ("set-name <name>", "设置本地节点名称"); ("distribute <model> <peer:0-15> ...", "分发模型分片");
  ("send <file> <name>", "向节点发送文件（支持 name 或 peer_id）"); ("profile <model>", "启动 Profile");
  ("exec <cmd> [k=v ...]", "执行用户 Lua 脚本"); ("clear", "清空日志"); ("quit / exit", "退出程序");
  ("help", "显示此帮助")]%string.
Definition help_line (usage desc : string) : string := ("  " +:+ pad_right 38 usage +:+ " " +:+ desc)%string.
Definition program_line (e : ProgramEntry) : string := help_line (command e) (description e).
Definition help_text (r : ProgramRegistry) : string :=
  let user := user_entries iter_programs r in
  lines_text (("[内置命令]"%string :: map (fun '(u, d) => help_line u d) BUILTIN_COMMANDS
      ++ map program_line (builtin_entries iter_programs r))
    ++ [""; "[用户命令]"]%string ++ match user with [] => ["  (无)"%string] | _ => map program_line user end).

(** *** Flush and sessions: the spawned tasks *)
Definition do_flush (now : Z) (c : Core) : string * Core * list core_effect :=
  match Flush analyze_model to_string now (storage c) (peer_manager c) with
  | (Ok (added, removed), (s, p), es) =>
      (("flush 完成: 新增 " +:+ dec added +:+ " 个, 移除 " +:+ dec removed +:+ " 个")%string,
       with_peer_manager p (with_storage s c),
       map Bus es ++ map Net (broadcast_local_info to_string models_to_json sessions_to_json p))
  | (Err e, (s, p), es) =>
      (("flush 失败: " +:+ show_storage_error e)%string, with_peer_manager p (with_storage s c), map Bus es)
  end.
Definition flush_task (now : Z) (c : Core) : Core * list core_effect :=
  let '(text, c, es) := do_flush now c in (c, es ++ [output text]).
(** [Session]: the manager's lock is taken twice and the peer table's twice. *)
Definition session_create (model : string) (c : Core) : Z * Core * list core_effect :=
  let '(id, m, es) := create_session iter_sessions model (session_mgr c) in
  (id, with_sessions m c, map Bus es).
Definition summary (i : SessionInfo) : SessionSummary :=
  mk_SessionSummary (i_session_id i) (i_model_id i) (Z.of_nat (i_occupied i)) (Z.of_nat (i_total i)).
Definition session_snapshot (c : Core) : option (PeerId * list SessionSummary) :=
  match Get_Local_Peer (peer_manager c) with
  | Ok me => Some (peer_id me, map summary (list_sessions iter_sessions (session_mgr c)))
  | Err _ => None
  end.
Definition session_update (now : Z) (sn : option (PeerId * list SessionSummary)) (c : Core) : Core :=
  match sn with
  | Some (me, ss) => with_peer_manager (Update_Sessions now me ss (peer_manager c)).2 c
  | None => c
  end.
Definition session_finish (id : Z) (model : string) (c : Core) : list core_effect :=
  map Net (broadcast_local_info to_string models_to_json sessions_to_json (peer_manager c))
  ++ [notify Info ("Session " +:+ dec id +:+ " created (model: " +:+ model +:+ ")")%string].
Definition session_task (now : Z) (model : string) (c : Core) : Core * list core_effect :=
  let '(id, c, es) := session_create model c in
  let c := session_update now (session_snapshot c) c in
  (c, es ++ session_finish id model c).
(** The tasks of user commands; those of streams are [receive_file_task] and
    [session_stream_task] below. *)
Definition run_spawned (now : Z) (t : task) (c : Core) : Core * list core_effect :=
  match t with
  | Task_Receive_File _ _ | Task_Session_Stream _ _ => (c, [])
  | Task_Flush => flush_task now c
  | Task_Session model => session_task now model c
  | Task_Dial addr =>
      (c, match parse_addr addr with
          | Err e => [notify Error ("无效 Multiaddr: " +:+ e)%string]
          | Ok ma =>
              [Dial_Call ma;
               match dial ma with
               | Ok _ => notify Info ("dial " +:+ addr +:+ " 成功")%string
               | Err e => notify Error ("dial " +:+ addr +:+ " 失败: " +:+ e)%string
               end]
          end)
  | Task_Api sid model =>
      (c, [match spawn_api_server sid model with
           | Ok port => notify Info ("API server started for session " +:+ dec sid +:+ " on http://127.0.0.1:" +:+
                          dec port +:+ " (model: " +:+ model +:+ ")")%string
           | Err e => notify Error ("API server failed for session " +:+ dec sid +:+ ": " +:+ e)%string
           end])
  end.

(** *** B1: user commands *)
Definition model_of_session (sid : Z) (c : Core) : string :=
  match List.find (fun i => i_session_id i =? sid) (list_sessions iter_sessions (session_mgr c)) with
  | Some i => i_model_id i
  | None => "unknown"
  end.
Definition by_name (nm : string) (c : Core) : result Peer_Management_Error (PeerInfo PeerId Multiaddr) :=
  Get_Peer_By_Name (as_bytes nm) (peer_manager c).
Definition peer_text (i : PeerInfo PeerId Multiaddr) : string := of_bytes (to_string (peer_id i)).
(** The [peer] parameter of a script: a name becomes a peer id. *)
Definition resolve_peer_param (params : gmap string string) (c : Core) : gmap string string :=
  match params !! "peer"%string with
  | None => params
  | Some peer_val =>
      match by_name peer_val c with
      | Ok info => <["peer"%string := peer_text info]> params
      | Err _ => params
      end
  end.
Definition set_name_text (nm : string) (r : result Peer_Management_Error unit) : string :=
  match r with
  | Ok _ =>
      match Set_Peer_Name nm with
      | Err e => "名称已设置为 " +:+ nm +:+ "，但持久化失败: " +:+ e
      | Ok _ => "节点名称已设置为: " +:+ nm
      end
  | Err e => "设置名称失败: " +:+ show_peer_error e
  end%string.
Definition exec_remote (peer command : string) (params : gmap string string) (c : Core) : list core_effect :=
  match by_name peer c with
  | Err _ => [output ("未知节点: " +:+ peer)%string]
  | Ok info =>
      let d := mk_Network_Data Codec.Command (Serialize_Network_Command (ExecRemote command (map_text params))) in
      [Request (peer_id info) d;
       match remote (peer_id info) d with
       | Ok response =>
           output ("[" +:+ peer +:+ "] 远程执行完成: " +:+ of_bytes (Utf8.lossy (payload response)))%string
       | Err e => output ("[" +:+ peer +:+ "] 远程执行失败: " +:+ e)%string
       end]
  end.
Definition route_user (cmd : UserCommand) (c : Core) : Core * list core_effect :=
  match cmd with
  | Execute command params =>
      match get_user command (program_registry c) with
      | None => (c, [output ("未知命令: " +:+ command)%string])
      | Some entry => (c, [Start_Lua (path entry) (resolve_peer_param params c) command])
      end
  | Run _ _ => (c, [output "Run: not yet implemented"])
  | Cancel job_id => (cancel_job job_id c, [output ("Job #" +:+ dec job_id +:+ " 取消信号已发送")%string])
  | Quit reply => (shutdown c, [Reply_Quit reply])
  | DisplayPeer => (c, [output (display_peers_text (peer_manager c))])
  | SetName nm =>
      let (r, p) := Set_Local_Name (as_bytes nm) (peer_manager c) in
      (with_peer_manager p c,
       match r with Ok _ => [Persist_Name nm] | Err _ => [] end ++ [output (set_name_text nm r)])
  | Reload =>
      let c' := with_programs (reload_user globals fs (program_registry c)) c in
      let count c := dec (zlen (command_names iter_programs (program_registry c))) in
      (c', [output ("reload 完成: 重新扫描 user 脚本 (总命令数: " +:+ count c +:+ " → " +:+ count c' +:+ ")")%string])
  | SetDevice device => (with_device device c, [output ("设备已切换为: " +:+ to_uppercase device)%string])
  | DistributeModel _ _ => (c, [output "DistributeModel: not yet implemented"])
  | CmdList => (c, [Bus (Output (list_output (List_files (storage c))))])
  | CmdFlush => (c, [Start_Task Task_Flush])
  | CmdDial addr => (c, [Start_Task (Task_Dial addr)])
  | Send file_path peer =>
      match get "send" (program_registry c) with
      | None => (c, [output "send 脚本未找到"])
      | Some entry =>
          let target := match by_name peer c with Ok info => peer_text info | Err _ => peer end in
          (c, [Start_Lua (path entry) (<["peer" := target]> (<["file" := file_path]> ∅))%string
                 ("send " +:+ file_path +:+ " -> " +:+ peer)%string])
      end
  | Profile _ => (c, [output "Profile: 尚未实现"])
  | Help => (c, [Bus (Output (JObj [("type", JStr "help"); ("text", JStr (help_text (program_registry c)))]%string))])
  | CmdSession model => (c, [Start_Task (Task_Session model)])
  | SessionInference command sid model_path =>
      match get command (program_registry c) with
      | None => (c, [notify Error ("ML Thread: 脚本 '" +:+ command +:+ "' 未找到")%string])
      | Some entry =>
          (c, [Start_Lua (path entry) (<["model_path" := model_path]> (<["session_id" := dec sid]> ∅))%string
                 ("inference:" +:+ command +:+ " session " +:+ dec sid)%string])
      end
  | Api sid => (c, [Start_Task (Task_Api sid (model_of_session sid c))])
  | CmdExecRemote peer command params => (c, exec_remote peer command params c)
  end.

(** *** B2: requests of other nodes *)
Definition params_of (params_json : string) : gmap string string :=
  match from_str params_json with
  | None => ∅
  | Some v =>
      match as_object v with
      | None => ∅
      | Some obj =>
          foldl (fun m '(k, v) => <[k := match as_str v with Some s => s | None => value_text v end]> m) ∅ obj
      end
  end.
Definition reply (rid : Z) (text : string) : core_effect := Response rid (mk_Network_Data Codec.Command (as_bytes text)).
Abbreviation Inbound_Request := (Inbound.InboundRequest PeerId).
Definition route_inbound (req : Inbound_Request) (c : Core) : list core_effect :=
  let rid := Inbound.request_id req in
  match Inbound.req_type req with
  | Codec.Command =>
      match Parse_Network_Command (Inbound.req_payload req) with
      | Ok (ExecRemote command params_json) =>
          match get_user command (program_registry c) with
          | Some entry =>
              [Start_Lua (path entry) (params_of params_json)
                 ("rexec:" +:+ of_bytes (to_string (Inbound.from req)) +:+ ":" +:+ command)%string;
               reply rid "OK"]
          | None => [reply rid ("FAIL|未知命令: " +:+ command)%string]
          end
      | Ok other => [reply rid ("FAIL|未实现的协议: " +:+ show_protocol other)%string]
      | Err e => [reply rid ("FAIL|协议解析: " +:+ show_command_error e)%string]
      end
  | Codec.File =>
      [notify Info ("[route_inbound] File 入站暂未实现 (peer: " +:+ of_bytes (to_string (Inbound.from req)) +:+ ")")%string]
  | _ => []
  end.

(** *** B3: inbound streams *)
Definition route_stream (peer : PeerId) (session : option Z) (stream : nat) : list core_effect :=
  match session with
  | None => [Start_Task (Task_Receive_File peer stream)]
  | Some sid => [Start_Task (Task_Session_Stream sid stream)]
  end.
(** The task of an inbound file stream: the bytes that arrive before the stream
    ends, and how the transport cuts what follows the header. It returns [None] while
    the file is locked, and otherwise the store, the name and contents written, and the
    events. The guard is dropped when the task ends. *)
Definition receive_file_task (peer : PeerId) (stream : bytes) (cut : bytes -> list bytes) (s : Store)
    : option (Store * option (string * bytes) * list Bus_Event) :=
  match File_Stream.Read_File_Stream_Header stream with
  | Err _ => Some (s, None, [])
  | Ok ((file_name, file_size, _), rest) =>
      match Acquire_Write_find file_name s with
      | (Err _, s) => Some (s, None, [])
      | (Ok l, s) =>
          '(g, s) ← Acquire_take true file_name l s;
          match disk s !! file_name with
          | Some (Other _) => Some (drop_guard true g s, None, [])
          | _ =>
              '(r, data, _, evs) ← File_Stream.Receive_File_Data (cut rest) file_name file_size;
              let s := with_disk (<[file_name := Regular (zlen data)]> (disk s)) s in
              Some (drop_guard true g s, Some (file_name, data),
                evs ++ match r with
                       | Ok _ => [Notify Info ("接收文件完成: " +:+ file_name +:+ " (" +:+ dec file_size +:+
                                    " bytes) from " +:+ of_bytes (to_string peer))%string]
                       | Err _ => []
                       end)
          end
      end
  end.

(** The bridge of an inbound session stream: [tokens] are the messages of the
    slot's token channel, in order, before it closes; [writes] the outcomes of the
    writes to the stream; the prompt channel accepts [accepts] messages. *)
Definition bridge_request (prompt : string) : SessionRequest (Messages:=list Message) :=
  mk_SessionRequest [mk_message (as_bytes "user") (as_bytes prompt)] 256.
Fixpoint forward_tokens (tokens : list string) (writes : list bool) (out : bytes) : bytes * list bool * list string :=
  match tokens with
  | [] => (out, writes, [])
  | t :: tokens =>
      let ok := default true (head writes) in
      let written x := if ok then Session_Stream.write_session_frame out x else out in
      if String.eqb t sentinel then (written ""%string, tail writes, tokens)
      else if ok then forward_tokens tokens (tail writes) (written t) else (out, tail writes, tokens)
  end.
Fixpoint bridge_loop (fuel : nat) (stream : bytes) (accepts : nat) (tokens : list string) (writes : list bool)
    (reqs : list (SessionRequest (Messages:=list Message))) (out : bytes)
    : option (list (SessionRequest (Messages:=list Message)) * bytes) :=
  match fuel with
  | O => None
  | S fuel =>
      match Session_Stream.read_session_frame stream with
      | Err _ => Some (reqs, out)
      | Ok (prompt, stream) =>
          match accepts with
          | O => Some (reqs, out)
          | S accepts =>
              let '(out, writes, tokens) := forward_tokens tokens writes out in
              bridge_loop fuel stream accepts tokens writes (reqs ++ [bridge_request prompt]) out
          end
      end
  end.
(** A frame has at least the four bytes of its length. *)
Definition bridge (stream : bytes) (accepts : nat) (tokens : list string) (writes : list bool) :=
  bridge_loop (S (length stream)) stream accepts tokens writes [] [].
Definition session_stream_task (sid : Z) (stream : bytes) (accepts : nat) (tokens : list string) (writes : list bool)
    (m : SessionManager) : SessionManager * option (list (SessionRequest (Messages:=list Message)) * bytes) :=
  match allocate_slot sid m with
  | (Err _, m) => (m, Some ([], []))
  | (Ok _, m) => (m, bridge stream accepts tokens writes)
  end.

(** *** The main loop *)
Inductive select_event : Type :=
  | B1 (cmd : UserCommand)
  | B2 (req : Inbound_Request)
  | B3 (peer : PeerId) (session : option Z) (stream : nat)
  | B4 (e : LifecycleEvent)
  | B5_grace_expired.
(** A branch that is not enabled is not taken; its message stays in its channel.
    An inbound stream, a name here, has a session id or carries a file. *)
Definition enabled (c : Core) (e : select_event) : bool :=
  match e with
  | B1 _ | B2 _ | B3 _ _ _ => negb (shutting_down c)
  | B4 _ => true
  | B5_grace_expired => shutting_down c
  end.
Definition handle_event (c : Core) (e : select_event) : Core * list core_effect :=
  match e with
  | B1 cmd => route_user cmd c
  | B2 req => (c, route_inbound req c)
  | B3 peer sid stream => (c, route_stream peer sid stream)
  | B4 e => route_lifecycle e c
  | B5_grace_expired => (c, [])
  end.
Definition loop_exits (c : Core) : bool := shutting_down c && bool_decide (registry c = ∅).
(** [run] on the events that become ready, in order: the state, the effects,
    and whether the loop has ended. *)
Fixpoint run_core (events : list select_event) (c : Core) : Core * list core_effect * bool :=
  if loop_exits c then (c, [], true) else
  match events with
  | [] => (c, [], false)
  | e :: events =>
      if enabled c e then
        match e with
        | B5_grace_expired => (c, [], true)
        | _ =>
            let (c, es) := handle_event c e in
            let '(c, es', ended) := run_core events c in (c, es ++ es', ended)
        end
      else run_core events c
  end.

(** ** Requests of other nodes *)
(** a request of another node. A command is answered exactly once, under its
    own id, and last; it starts a program only when it asks for a registered user
    program, then exactly that one, with answer OK. Nothing else about the
    core changes; other data types neither start anything nor get an answer. *)
Theorem inbound_answered_once req c :
  match Inbound.req_type req with
  | Codec.Command =>
      exists started text, route_inbound req c = started ++ [reply (Inbound.request_id req) text] /\
        (started = [] \/
         exists command params_json entry,
           Parse_Network_Command (Inbound.req_payload req) = Ok (ExecRemote command params_json) /\
           user (program_registry c) !! command = Some entry /\ text = "OK"%string /\
           started = [Start_Lua (path entry) (params_of params_json)
             ("rexec:" +:+ of_bytes (to_string (Inbound.from req)) +:+ ":" +:+ command)%string])
  | _ => Forall (fun e => match e with Response _ _ | Start_Lua _ _ _ => False | _ => True end) (route_inbound req c)
  end.
Proof using Type.
  unfold route_inbound. destruct (Inbound.req_type req); [|repeat constructor..].
  destruct (Parse_Network_Command _) as [[| | |command params_json]|e] eqn:Hp;
    try (exists [], (default "" None); fail); try (eexists [], _; split; [reflexivity|by left]).
  unfold get_user. destruct (user (program_registry c) !! command) as [entry|] eqn:Hu;
    [|eexists [], _; split; [reflexivity|by left]].
  eexists [_], "OK"%string. split; [reflexivity|]. right. eauto 10.
Qed.

Lemma fold_insert_lookup {V A} (f : V -> A) (l : list (string * V)) (acc : gmap string A) k :
  NoDup l.*1 ->
  (forall v, (k, v) ∈ l -> foldl (fun m '(k, v) => <[k := f v]> m) acc l !! k = Some (f v)) /\
  (k ∉ l.*1 -> foldl (fun m '(k, v) => <[k := f v]> m) acc l !! k = acc !! k).
Proof.
  revert acc. induction l as [|[k' v'] l IH]; intros acc; cbn [fmap list_fmap fst foldl].
  { intros _. split; [by intros v ?%not_elem_of_nil|done]. }
  intros [Hn Hnd]%NoDup_cons. destruct (IH (<[k' := f v']> acc) Hnd) as [H1 H2]. split.
  - intros v [[= -> ->]|Hi]%elem_of_cons; [rewrite H2 by done; apply lookup_insert_eq|by apply H1].
  - intros [Hne Hk]%not_elem_of_cons. rewrite H2 by done. by rewrite lookup_insert_ne.
Qed.
Context `{!Serde_Laws Value}.
Lemma params_of_map_text m : params_of (map_text m) = m.
Proof using Serde_Laws0.
  destruct (map_text_parses m) as (v & l & Hv & Hl & Hperm). unfold params_of. rewrite Hv, Hl.
  assert (l.*1 ≡ₚ (map_to_list m).*1) as Hkeys.
  { apply (fmap_Permutation fst) in Hperm. change (map ?f ?l) with (f <$> l) in Hperm.
    rewrite <- !list_fmap_compose in Hperm. rewrite (list_fmap_ext _ fst l) in Hperm by by intros ? [].
    by rewrite (list_fmap_ext _ fst (map_to_list m)) in Hperm by by intros ? []. }
  assert (NoDup l.*1) as Hnd by (rewrite Hkeys; apply NoDup_fst_map_to_list).
  apply map_eq. intros k. destruct (fold_insert_lookup (fun v => match as_str v with Some s => s | None => value_text v end) l ∅ k Hnd)
    as [Hin Hout].
  destruct (m !! k) as [s|] eqn:E.
  - apply elem_of_map_to_list, (list_elem_of_fmap_2 (fun '(k, s) => (k, Some s))) in E.
    change (_ <$> _) with (map (fun '(k, s) => (k, Some s)) (map_to_list m)) in E. rewrite <- Hperm in E.
    apply list_elem_of_In, in_map_iff in E as ([k' w] & [= -> Hw] & Hi%list_elem_of_In).
    rewrite (Hin _ Hi). by rewrite Hw.
  - rewrite Hout; [done|]. rewrite Hkeys. intros ([k' s] & -> & Hi%elem_of_map_to_list)%list_elem_of_fmap. cbn in E. congruence.
Qed.

(** a script on another node. What [exec_remote] sends is, where it
    arrives, exactly one start of the named user program with the same
    parameters, answered with OK. When the JSON of the parameters holds the
    separator, the other node starts nothing and answers with a failure. *)
Theorem remote_exec_reaches_script peer info command params ca cb entry rid from :
  by_name peer ca = Ok info -> get_user command (program_registry cb) = Some entry ->
  Utf8.is_str command -> Command.bar ∉ as_bytes command ->
  exists d answer, exec_remote peer command params ca = [Request (peer_id info) d; answer] /\
    let effects := route_inbound (Inbound.mk_InboundRequest rid from (data_type d) (payload d)) cb in
    (Command.bar ∉ as_bytes (map_text params) ->
       effects = [Start_Lua (path entry) params ("rexec:" +:+ of_bytes (to_string from) +:+ ":" +:+ command)%string;
                  reply rid "OK"]) /\
    (Command.bar ∈ as_bytes (map_text params) -> exists text, effects = [reply rid ("FAIL|" +:+ text)%string]).
Proof using Serde_Laws0.
  intros Hn Hu Hstr Hbar. unfold exec_remote. rewrite Hn. eexists _, _. split; [reflexivity|]. cbn [data_type payload].
  unfold route_inbound. cbn [Inbound.req_type Inbound.req_payload Inbound.request_id Inbound.from].
  set (cmd := ExecRemote command (map_text params)).
  assert (Command.wf cmd) as Hwf by (split; [done|apply map_text_str]).
  assert (bar_free cmd <-> Command.bar ∉ as_bytes (map_text params)) as Hfree.
  { unfold bar_free, cmd. cbn [texts]. rewrite !Forall_cons, Forall_nil. split; [by intros (_ & ? & _)|by intros]. }
  split.
  - intros Hb. rewrite (parse_serialize cmd Hwf (proj2 Hfree Hb)). unfold cmd. rewrite Hu. by rewrite params_of_map_text.
  - intros Hb. destruct (parse_serialize_bar cmd Hwf) as (n & m & -> & _); [by intros Hbf%Hfree|]. by eexists.
Qed.

(** ** Jobs and the end of the loop *)
Lemma run_shutdown events c :
  shutting_down c = true ->
  let '(c', es, ended) := run_core events c in
  (exists evs, es = map Bus evs) /\ c' = with_registry (registry c') c /\ registry c' ⊆ registry c /\
  (ended = true <-> B5_grace_expired ∈ events \/
     forall j, j ∈ dom (registry c) -> exists r, B4 (Done j r) ∈ events).
Proof using Type.
  revert c. induction events as [|e events IH]; intros c Hs; cbn [run_core]; unfold loop_exits; rewrite Hs; cbn [andb].
  all: case_bool_decide as Hr; [split_and!; [by exists []|by destruct c|done|split; [|done]; right; rewrite Hr; intros j Hj; by rewrite dom_empty, elem_of_empty in Hj]|].
  { split_and!; [by exists []|by destruct c|done|]. split; [done|]. intros [Hin|Hall]; [by apply not_elem_of_nil in Hin|].
    apply map_choose in Hr as (j & h & Hj). destruct (Hall j) as [r Hin]; [by apply elem_of_dom|].
    by apply not_elem_of_nil in Hin. }
  assert (forall e, (forall j r, e <> B4 (Done j r)) -> e <> B5_grace_expired ->
    let '(c', es, ended) := run_core events c in
    (exists evs, es = map Bus evs) /\ c' = with_registry (registry c') c /\ registry c' ⊆ registry c /\
    (ended = true <-> B5_grace_expired ∈ e :: events \/
       forall j, j ∈ dom (registry c) -> exists r, B4 (Done j r) ∈ e :: events)) as Hskip.
  { intros e' H4 H5. specialize (IH c Hs). destruct (run_core events c) as [[c' es] ended].
    destruct IH as (H1 & H2 & H3 & ->). split_and!; [done..|]. rewrite elem_of_cons. split.
    - intros [?|Hall]; [left; by right|]. right. intros j Hj. destruct (Hall j Hj) as [r ?]. exists r. by right.
    - intros [[?|?]|Hall]; [congruence|by left|]. right. intros j Hj.
      destruct (Hall j Hj) as [r [Heq|?]%elem_of_cons]; [by apply eq_sym, H4 in Heq|eauto]. }
  destruct e as [cmd|req|peer sid st|[j r]|]; cbn [enabled]; rewrite ?Hs; cbn [negb];
    try (by apply Hskip).
  - clear Hskip. cbn [handle_event route_lifecycle]. specialize (IH (with_registry (delete j (registry c)) c) Hs).
    destruct (run_core events _) as [[c' es] ended]. destruct IH as ([evs ->] & H2 & H3 & ->). cbn [registry with_registry] in *.
    split_and!.
    + by exists (State (JObj [("type", JStr "job_completed"); ("job_id", JNum j); ("result", JStr (show_result r))])%string :: evs).
    + rewrite H2 at 1. done.
    + etrans; [exact H3|apply delete_subseteq].
    + rewrite elem_of_cons. split.
      * intros [?|Hall]; [by left; right|]. right. intros i Hi. destruct (decide (i = j)) as [->|Hne]; [exists r; by left|].
        destruct (Hall i) as [r' ?]; [by rewrite dom_delete, elem_of_difference, elem_of_singleton|]. exists r'. by right.
      * intros [[?|?]|Hall]; [done|by left|]. right. intros i Hi0. rewrite dom_delete, elem_of_difference, elem_of_singleton in Hi0. destruct Hi0 as [Hi Hne].
        destruct (Hall i Hi) as [r' [[= -> ->]|?]%elem_of_cons]; [done|eauto].
  - split_and!; [by exists []|by destruct c|done|]. split; [|done]. left. by left.
Qed.

(** C38: leaving. Once [Quit] is handled no user command, request or stream is
    taken any more: the only effects left are reports of finished jobs, and the
    rest of the node's state stays. Every job is told to stop. The loop ends when
    every job has reported or the grace period is over, and not before. *)
Theorem quit_drains r events c :
  shutting_down c = false ->
  let '(c', es, ended) := run_core (B1 (Quit r) :: events) c in
  (exists evs, es = Reply_Quit r :: map Bus evs) /\
  c' = with_registry (registry c') (shutdown c) /\ map_Forall (fun _ h => cancelled h = true) (registry c') /\
  (ended = true <-> B5_grace_expired ∈ events \/
     forall j, j ∈ dom (registry c) -> exists res, B4 (Done j res) ∈ events).
Proof using Type.
  intros Hs. cbn [run_core]. unfold loop_exits at 1. cbn [enabled]. rewrite Hs. cbn [andb negb handle_event route_user].
  pose proof (run_shutdown events (shutdown c) eq_refl) as Hrun.
  destruct (run_core events (shutdown c)) as [[c' es] ended]. destruct Hrun as ([evs ->] & H2 & H3 & ->).
  split_and!; [by exists evs|done| |].
  - intros j h Hj. eapply lookup_weaken in Hj; [|exact H3]. cbn [registry shutdown] in Hj.
    rewrite lookup_fmap in Hj. destruct (registry c !! j); [|done]. by injection Hj as <-.
  - cbn [registry shutdown]. by rewrite dom_fmap_L.
Qed.

Lemma route_user_registry cmd c : registry c = ∅ -> registry (route_user cmd c).1 = ∅.
Proof using Type.
  intros Hr. destruct cmd; cbn [route_user]; try done.
  - by destruct (get_user _ _).
  - cbn. by rewrite Hr.
  - cbn. by rewrite Hr, fmap_empty.
  - by destruct (get "send" _).
  - by destruct (Set_Local_Name _ _).
  - by destruct (get _ _).
Qed.
Lemma run_registry events c : registry c = ∅ -> registry (run_core events c).1.1 = ∅.
Proof using Type.
  revert c. induction events as [|e events IH]; intros c Hr; cbn [run_core]; destruct (loop_exits c); try done.
  destruct (enabled c e); [|by apply IH].
  assert (registry (handle_event c e).1 = ∅) as He.
  { destruct e as [cmd|req|peer sid st|[j r]|]; cbn [handle_event]; [by apply route_user_registry|done..| |done].
    cbn. by rewrite Hr, delete_empty. }
  destruct e; try done; destruct (handle_event c _) as [c1 es1]; cbn in He; specialize (IH _ He);
    by destruct (run_core events c1) as [[c2 es2] ended].
Qed.

(** no job ever. Nothing the loop handles registers a job, so whatever has
    happened, [Cancel] reports that the signal was sent and does nothing, and
    [Quit] ends the loop at its next turn without waiting. *)
Theorem jobs_never_registered p s events j r rest :
  let c := (run_core events (Core_new p s)).1.1 in
  registry c = ∅ /\
  route_user (Cancel j) c = (c, [output ("Job #" +:+ dec j +:+ " 取消信号已发送")%string]) /\
  (shutting_down c = false -> run_core (B1 (Quit r) :: rest) c = (shutdown c, [Reply_Quit r], true)).
Proof using Type.
  intros c. assert (registry c = ∅) as Hr by by apply run_registry. split; [done|]. split.
  - cbn [route_user]. unfold cancel_job. rewrite Hr, alter_empty. by rewrite <- Hr; destruct c.
  - intros Hs. cbn [run_core]. unfold loop_exits at 1. cbn [enabled]. rewrite Hs. cbn [andb negb handle_event route_user].
    assert (run_core rest (shutdown c) = (shutdown c, [], true)) as ->; [|done].
    destruct rest; cbn [run_core]; unfold loop_exits; cbn [shutting_down shutdown registry]; by rewrite Hr, fmap_empty.
Qed.

(** ** Sessions *)
Context (iter_sessions_perm : forall m, iter_sessions m ≡ₚ (map_to_list m).*2).
Context `{!Peer_Management_Laws to_string Multiaddr P}.
Definition advertised (me : PeerId) (c : Core) : option (list SessionSummary) :=
  Peers.sessions <$> view (peer_manager c) !! me.
Definition listed (c : Core) : list SessionSummary := map summary (list_sessions iter_sessions (session_mgr c)).

Lemma snapshot_local me c :
  Peers.wf me (view (peer_manager c)) -> session_snapshot c = Some (me, listed c).
Proof using Peer_Management_Laws0.
  intros Hw. unfold session_snapshot. destruct (view_local me (peer_manager c) Hw) as (i & Hi & ->).
  destruct (proj1 Hw me i Hi) as [-> _]. done.
Qed.
Lemma update_advertises now me ss c :
  Peers.wf me (view (peer_manager c)) ->
  advertised me (session_update now (Some (me, ss)) c) = Some ss.
Proof using Peer_Management_Laws0.
  intros [_ [i Hi]]. unfold advertised, session_update. cbn [peer_manager with_peer_manager].
  rewrite view_sessions, lookup_alter_eq, Hi. done.
Qed.
(** The sessions are filed under their ids, and the counter is ahead. *)
Definition ids_below (m : SessionManager) : Prop :=
  map_Forall (fun k s => Sessions.session_id s = k /\ k < counter m) (Sessions.sessions m).
Lemma elem_of_listed x c :
  x ∈ listed c <-> exists k s, Sessions.sessions (session_mgr c) !! k = Some s /\ x = summary (info_of s).
Proof using iter_sessions_perm.
  unfold listed, list_sessions. change (map ?f ?l) with (f <$> l). rewrite list_elem_of_fmap. split.
  - intros (i & -> & Hi). change (map ?f ?l) with (f <$> l) in Hi. apply list_elem_of_fmap in Hi as (s & -> & Hs).
    rewrite iter_sessions_perm in Hs. apply list_elem_of_fmap in Hs as ([k s'] & -> & Hk%elem_of_map_to_list). by exists k, s'.
  - intros (k & s & Hk & ->). exists (info_of s). split; [done|]. apply list_elem_of_fmap_2.
    rewrite iter_sessions_perm. apply list_elem_of_fmap. exists (k, s). split; [done|]. by apply elem_of_map_to_list.
Qed.
Definition new_summary (model : string) (c : Core) : SessionSummary :=
  summary (info_of (Session_new (counter (session_mgr c)) model (mgr_max_slots (session_mgr c)) 1)).
Lemma listed_create model c :
  new_summary model c ∈ listed (session_create model c).1.2.
Proof using iter_sessions_perm.
  apply elem_of_listed. do 2 eexists. split; [|reflexivity]. cbn. apply lookup_insert_eq.
Qed.
Lemma create_peers model c : peer_manager (session_create model c).1.2 = peer_manager c.
Proof. done. Qed.
Lemma session_task_state now model me c :
  Peers.wf me (view (peer_manager c)) ->
  let c1 := (session_create model c).1.2 in
  (session_task now model c).1 = session_update now (Some (me, listed c1)) c1.
Proof using Peer_Management_Laws0.
  intros Hw c1. unfold session_task. change (session_create model c) with
    (counter (session_mgr c), c1, (session_create model c).2). cbn [fst]. by rewrite (snapshot_local me).
Qed.

(** advertising sessions. After a session task that runs alone, the local node
    advertises exactly the sessions of the manager, the new one among them.
    When a second task runs between the first one's look at the manager and its
    update of the peer table, the first one's list is the last word: the second
    session exists and is not advertised. *)
Theorem session_advertised now model model' me c :
  Peers.wf me (view (peer_manager c)) -> ids_below (session_mgr c) ->
  (let c' := (session_task now model c).1 in
   advertised me c' = Some (listed c') /\ new_summary model c ∈ listed c') /\
  (let c1 := (session_create model c).1.2 in
   let snapshot := session_snapshot c1 in
   let c2 := (session_task now model' c1).1 in
   let c3 := session_update now snapshot c2 in
   new_summary model' c1 ∈ listed c3 /\
   exists ss, advertised me c3 = Some ss /\ Forall (fun x => Peers.session_id x <> Peers.session_id (new_summary model' c1)) ss).
Proof using Peer_Management_Laws0 iter_sessions_perm.
  intros Hw Hids. split.
  - intros c'. unfold c'. rewrite (session_task_state now model me c Hw). split; [|apply listed_create].
    rewrite update_advertises by done. done.
  - intros c1 snapshot c2 c3. assert (Peers.wf me (view (peer_manager c1))) as Hw1 by exact Hw.
    assert (c2 = session_update now (Some (me, listed (session_create model' c1).1.2)) (session_create model' c1).1.2) as Hc2
      by by apply session_task_state.
    assert (c3 = session_update now (Some (me, listed c1)) c2) as Hc3 by (unfold c3, snapshot; by rewrite (snapshot_local me)).
    assert (Peers.wf me (view (peer_manager c2))) as Hw2.
    { rewrite Hc2. unfold session_update. cbn [peer_manager with_peer_manager]. rewrite view_sessions.
      apply wf_alter; [done|exact Hw]. }
    split.
    { assert (listed c3 = listed (session_create model' c1).1.2) as -> by by rewrite Hc3, Hc2. apply listed_create. }
    exists (listed c1). rewrite Hc3, update_advertises by done. split; [done|].
    apply Forall_forall. intros x (k & s & Hk & ->)%elem_of_listed. cbn. unfold c1 in Hk. cbn in Hk.
    apply lookup_insert_Some in Hk as [[<- <-]|[_ Hk]]; [cbn; lia|]. apply Hids in Hk as [-> ?]. lia.
Qed.

(** ** Inbound streams *)
Lemma acquire_write_free fn s :
  locks_wf s -> valid_id fn = true -> (forall e, files s !! fn = Some e -> is_free (entry_lock e) s = true) ->
  exists l s1, Acquire_Write_find fn s = (Ok l, s1) /\
    Acquire_take true fn l s1 = Some (mk_guard fn l true, with_locks (<[l := Writer]> (locks s1)) s1) /\
    disk s1 = disk s /\ (exists e, files s1 !! fn = Some e /\ entry_lock e = l) /\
    (forall k, k <> fn -> files s1 !! k = files s !! k).
Proof.
  unfold valid_id, Acquire_Write_find, Ensure_Entry, Acquire_take, take_write. intros Hwf Hv Hfree.
  destruct (Resolve_Path "" fn); [|done]. destruct (files s !! fn) as [e|] eqn:He.
  - exists (entry_lock e), s. specialize (Hfree e eq_refl). unfold is_free in Hfree.
    destruct (default Free _) eqn:Hl; [|done..]. split_and!; eauto.
  - exists (next_lock s), (insert_new fn (plain_entry fn 0) s). cbn [locks insert_new files disk]. rewrite lookup_insert_eq. cbn.
    split_and!; [done..| |].
    + eexists. split; [apply lookup_insert_eq|done].
    + intros k Hk. by rewrite lookup_insert_ne.
Qed.

Lemma receive_file_spec peer fn size ck data (cut : bytes -> list bytes) s :
  (forall b, Chunked.delivers (cut b) /\ concat (cut b) = b) ->
  Utf8.is_str fn -> Utf8.is_str ck -> in_range 16 (str_len fn) -> in_range 16 (str_len ck) -> in_range 64 size ->
  let received := receive_file_task peer (File_Stream.Write_File_Stream_Header [] fn size ck ++ data) cut s in
  (valid_id fn = false -> received = Some (s, None, [])) /\
  (valid_id fn = true -> locks_wf s -> (forall e, files s !! fn = Some e -> is_free (entry_lock e) s = true) ->
   (forall z, disk s !! fn <> Some (Other z)) ->
   exists s' progress,
     received = Some (s', Some (fn, take (Z.to_nat size) data),
       progress ++ (if size <=? zlen data then
         [Notify Info ("接收文件完成: " +:+ fn +:+ " (" +:+ dec size +:+ " bytes) from " +:+ of_bytes (to_string peer))%string]
       else [])) /\
     File_Stream.reports size 0 (Z.min size (zlen data)) progress /\
     disk s' = <[fn := Regular (Z.min size (zlen data))]> (disk s) /\
     (exists e, files s' !! fn = Some e /\ entry_size e = Z.min size (zlen data) /\ is_free (entry_lock e) s' = true) /\
     forall k, k <> fn -> files s' !! k = files s !! k).
Proof.
  intros Hcut Hfn Hck Hl1 Hl2 Hsz received. unfold received, receive_file_task.
  rewrite File_Stream.read_header_app by done. split.
  { intros Hv. unfold Acquire_Write_find, valid_id in *. by destruct (Resolve_Path "" fn). }
  intros Hv Hwf Hfree Hdisk. destruct (acquire_write_free fn s Hwf Hv Hfree) as (l & s1 & -> & -> & Hd1 & (e & He & Hel) & Hother).
  cbn [mbind option_bind disk with_locks]. rewrite Hd1. destruct (Hcut data) as [Hdel Hcat]. unfold File_Stream.Receive_File_Data.
  destruct (File_Stream.receive_loop_spec (S (length (concat (cut data)))) fn size (cut data) [] size)
    as (r & rest & evs & -> & Hres & _ & Hrep); [done|lia|apply Hsz|]. rewrite Hcat in *.
  set (data' := take (Z.to_nat size) data).
  assert (zlen data' = Z.min size (zlen data)) as Hlen by (unfold data', zlen; rewrite length_take; destruct Hsz; lia).
  rewrite Z.sub_diag in Hrep. cbn [mbind option_bind app]. rewrite Hlen. eexists _, evs.
  assert (match disk s !! fn with Some (Other _) => False | _ => True end) as Hno
    by (destruct (disk s !! fn) as [[z|z]|] eqn:E; try done; by apply (Hdisk z)).
  split; [|split; [exact Hrep|]].
  { destruct (disk s !! fn) as [[z|z]|]; try done; rewrite Hres; destruct (Z.leb_spec size (zlen data)), (Z.ltb_spec (zlen data) size);
      try lia; reflexivity. }
  unfold drop_guard. cbn [guard_write guard_file guard_lock andb]. unfold refresh_size. cbn [disk with_disk with_locks].
  rewrite lookup_insert_eq. unfold release_lock.
  cbn [locks with_files with_disk with_locks files disk]. rewrite lookup_insert_eq. cbn [default from_option id].
  cbn [files with_files with_locks with_disk disk locks]. split; [done|]. split.
  - rewrite lookup_alter_eq, He. cbn. eexists. split; [done|]. cbn. split; [done|].
    unfold is_free. cbn. by rewrite Hel, lookup_insert_eq.
  - intros k Hk. rewrite lookup_alter_ne by done. by apply Hother.
Qed.
(** a file from another node. A name the storage refuses writes nothing and
    changes nothing. Otherwise, when nobody holds the file, it contains
    exactly what was announced, cut short if the sender stopped early; it
    alone changes, it is registered with its real size, its lock is free
    again, and its completion is reported if and only if it is complete. *)
Theorem inbound_file_received peer fn size ck data (cut : bytes -> list bytes) s :
  (forall b, Chunked.delivers (cut b) /\ concat (cut b) = b) ->
  Utf8.is_str fn -> Utf8.is_str ck -> in_range 16 (str_len fn) -> in_range 16 (str_len ck) -> in_range 64 size ->
  let received := receive_file_task peer (File_Stream.Write_File_Stream_Header [] fn size ck ++ data) cut s in
  (valid_id fn = false -> received = Some (s, None, [])) /\
  (valid_id fn = true -> locks_wf s -> (forall e, files s !! fn = Some e -> is_free (entry_lock e) s = true) ->
   (forall z, disk s !! fn <> Some (Other z)) ->
   exists s' progress,
     received = Some (s', Some (fn, take (Z.to_nat size) data),
       progress ++ (if size <=? zlen data then
         [Notify Info ("接收文件完成: " +:+ fn +:+ " (" +:+ dec size +:+ " bytes) from " +:+ of_bytes (to_string peer))%string]
       else [])) /\
     File_Stream.reports size 0 (Z.min size (zlen data)) progress /\
     disk s' = <[fn := Regular (Z.min size (zlen data))]> (disk s) /\
     (exists e, files s' !! fn = Some e /\ entry_size e = Z.min size (zlen data) /\ is_free (entry_lock e) s' = true) /\
     forall k, k <> fn -> files s' !! k = files s !! k).
Proof. apply receive_file_spec. Qed.

Definition round (answer : list string) : list string := answer ++ [sentinel].
Lemma frames_app out texts :
  foldl Session_Stream.write_session_frame out texts = out ++ foldl Session_Stream.write_session_frame [] texts.
Proof.
  revert out. induction texts as [|t ts IH]; intros out; cbn [foldl]; [by rewrite app_nil_r|].
  rewrite (IH (Session_Stream.write_session_frame out t)), (IH (Session_Stream.write_session_frame [] t)), app_assoc. f_equal.
  unfold Session_Stream.write_session_frame. by rewrite app_nil_l, !app_assoc.
Qed.
Lemma forward_round answer tokens out :
  sentinel ∉ answer ->
  forward_tokens (round answer ++ tokens) [] out = (foldl Session_Stream.write_session_frame out (answer ++ [""%string]), [], tokens).
Proof.
  unfold round. revert out. induction answer as [|t answer IH]; intros out Hn.
  - reflexivity.
  - apply not_elem_of_cons in Hn as [Hne Hn]. cbn [app forward_tokens]. rewrite (proj2 (String.eqb_neq _ _)) by congruence.
    cbn [head default from_option id tail foldl]. by apply IH.
Qed.
Lemma bridge_rounds fuel rounds accepts stream reqs out :
  Forall (fun '(p, a) => Utf8.is_str p /\ in_range 32 (str_len p) /\ sentinel ∉ a) rounds ->
  (length rounds <= accepts)%nat -> (length rounds < fuel)%nat -> stream = foldl Session_Stream.write_session_frame [] rounds.*1 ->
  bridge_loop fuel stream accepts (concat (round <$> rounds.*2)) [] reqs out =
    Some (reqs ++ (bridge_request <$> rounds.*1),
          foldl Session_Stream.write_session_frame out (concat ((fun a => a ++ [""%string]) <$> rounds.*2))).
Proof.
  revert fuel accepts stream reqs out. induction rounds as [|[p a] rounds IH]; intros fuel accepts stream reqs out HF Ha Hfu ->.
  - destruct fuel; [lia|]. cbn. by rewrite app_nil_r.
  - destruct fuel; [lia|]. apply Forall_cons in HF as [Hx HF']. cbn in Hx. destruct Hx as (Hp & Hl & Hs). cbn [length] in *. destruct accepts; [lia|].
    cbn [fmap list_fmap fst snd concat foldl bridge_loop].
    rewrite frames_app, Session_Stream.read_frame_app by done. rewrite forward_round by done.
    rewrite (IH fuel accepts _ _ _ HF') by (done || lia). rewrite <- app_assoc, <- foldl_app. done.
Qed.

(** C6: the bridge of a remote chat. As long as writes succeed, each prompt of
    the client becomes one user message of the session, in order, and the tokens
    of each answer reach the client in order, followed by an empty text that
    ends the round. The end is not marked otherwise: an answer with an empty token
    sends the same bytes as two answers. *)
Theorem bridge_serves_rounds rounds accepts :
  Forall (fun '(p, a) => Utf8.is_str p /\ in_range 32 (str_len p) /\ sentinel ∉ a) rounds ->
  (length rounds <= accepts)%nat ->
  bridge (foldl Session_Stream.write_session_frame [] rounds.*1) accepts (concat (round <$> rounds.*2)) [] =
    Some (bridge_request <$> rounds.*1,
          foldl Session_Stream.write_session_frame [] (concat ((fun a => a ++ [""%string]) <$> rounds.*2))) /\
  (forall a b tokens out, sentinel ∉ a -> sentinel ∉ b ->
     (forward_tokens (round (a ++ [""%string] ++ b)) [] out).1.1 =
     (let '(out, writes, tokens) := forward_tokens (round a ++ round b ++ tokens) [] out in (forward_tokens tokens writes out).1.1)).
Proof.
  intros HF Ha. split.
  - unfold bridge. rewrite (bridge_rounds _ rounds accepts _ [] [] HF Ha); [done| |done].
    clear. assert (length rounds <= length (foldl Session_Stream.write_session_frame [] rounds.*1))%nat; [|lia].
    induction rounds as [|[p a] rounds IH]; [done|]. cbn [fmap list_fmap fst foldl length]. rewrite frames_app, length_app.
    unfold Session_Stream.write_session_frame at 1. rewrite !length_app, length_to_be_bytes. cbn [length]. fold (fmap (M:=list) (@fst string (list string))). lia.
  - intros a b tokens out Ha' Hb'. rewrite forward_round by done. rewrite forward_round by done.
    rewrite <- (app_nil_r (round _)), forward_round.
    + cbn [fst]. by rewrite <- !app_assoc, !foldl_app.
    + rewrite !elem_of_app, list_elem_of_singleton. by intros [?|[?|?]].
Qed.
End core.

(** *** [spawn_lua_script] *)
(** The outcomes of the steps of a script's thread, with the texts of their
    errors: Lua's, the file system's and the runtime's. *)
Record Lua_Thread : Type := mk_lua_thread {
  runtime : result string unit;
  read_to_string : result string string;
  lua_new : result string unit;
  reg_base : result string unit;
  reg_logging : result string unit;
  reg_network : result string unit;
  reg_storage : result string unit;
  reg_ml : result string unit;
  reg_local_stream : result string unit;
  eval : result string unit;
  create_table : result string unit;
  set_param : string * string -> result string unit;
  has_execute : bool;
  call_execute : result string unit;
}.
Definition step_or {A} (text : string) (r : result string A) : result string unit :=
  match r with Ok _ => Ok tt | Err e => Err (text +:+ e)%string end.
Fixpoint set_params (t : Lua_Thread) (params : list (string * string)) : result string unit :=
  match params with
  | [] => Ok tt
  | (k, v) :: params =>
      _ ← step_or ("设置参数 " +:+ k +:+ " 失败: ")%string (set_param t (k, v)); set_params t params
  end.
Definition lua_thread (t : Lua_Thread) (params : list (string * string)) : result string unit :=
  _ ← step_or "读取脚本失败: " (read_to_string t);
  _ ← step_or "创建 Lua 实例失败: " (lua_new t);
  _ ← step_or "注册基础能力失败: " (reg_base t);
  _ ← step_or "注册日志能力失败: " (reg_logging t);
  _ ← step_or "注册 Network 能力失败: " (reg_network t);
  _ ← step_or "注册 Storage 能力失败: " (reg_storage t);
  _ ← step_or "注册 ML 能力失败: " (reg_ml t);
  _ ← step_or "注册 LocalStream 能力失败: " (reg_local_stream t);
  _ ← step_or "脚本语法错误: " (eval t);
  _ ← step_or "创建参数表失败: " (create_table t);
  _ ← set_params t params;
  if has_execute t then step_or "执行失败: " (call_execute t) else Err "脚本缺少 execute 函数"%string.
Definition spawn_lua_script (t : Lua_Thread) (params : list (string * string)) (label : string) : list Bus_Event :=
  let tag text := ("[" +:+ label +:+ "] " +:+ text)%string in
  match runtime t with
  | Err e => [Notify Error (tag ("创建 tokio runtime 失败: " +:+ e)%string)]
  | Ok _ =>
      [Output (cmd_output (tag (match lua_thread t params with Ok _ => "执行完成"%string | Err e => e end)) true)]
  end.

(** ** A concrete node for the witnesses: peer 1 is local, peer 2 is known *)
Module Example_Core.
(** A text encoding of parameter maps: the bits of their number. *)
Fixpoint bits (p : positive) : string :=
  match p with
  | xH => ""
  | xO p => String "0"%char (bits p)
  | xI p => String "1"%char (bits p)
  end.
Fixpoint unbits (s : string) : positive :=
  match s with
  | EmptyString => xH
  | String c s => if Ascii.eqb c "0"%char then xO (unbits s) else xI (unbits s)
  end.
Lemma unbits_bits p : unbits (bits p) = p.
Proof. induction p as [p IH|p IH|]; cbn; by rewrite ?IH. Qed.
Definition Value : Type := gmap string string + string.
#[export] Instance serde : Serde_Json Value := {|
  from_str t := inl <$> decode (unbits t);
  as_object v := match v with inl m => Some (map (fun '(k, s) => (k, inr s)) (map_to_list m)) | inr _ => None end;
  as_str v := match v with inl _ => None | inr s => Some s end;
  value_text v := match v with inl _ => "" | inr s => s end;
  map_text m := bits (encode m);
|}.
Lemma bits_digits p : Forall Num.is_digit (as_bytes (bits p)).
Proof. induction p as [p IH|p IH|]; cbn; constructor; try done; by split. Qed.
#[export] Instance serde_laws : Serde_Laws Value.
Proof.
  split.
  - intros m. exists (inl m), (map (fun '(k, s) => (k, inr s)) (map_to_list m)).
    cbn. rewrite unbits_bits, decode_encode. split; [done|]. split; [done|]. rewrite map_map.
    erewrite map_ext; [reflexivity|]. by intros [k s].
  - intros m. apply Utf8.valid_ascii, Num.is_digit_ascii, bits_digits.
Qed.
Definition ts (p : N) : bytes := Num.print_dec (Z.of_N p).
Definition iter (m : gmap N (PeerInfo N N)) : list (PeerInfo N N) := (map_to_list m).*2.
#[export] Instance cap : Peer_Management_Capability N N (gmap N (PeerInfo N N)) := PeerManager_capability ts iter.
#[export] Instance laws : Peer_Management_Laws ts N (gmap N (PeerInfo N N)) :=
  PeerManager_laws ts iter (fun m => Permutation_refl _).
Definition peers : gmap N (PeerInfo N N) :=
  <[2%N := set_name (as_bytes "bob") (new 5 2%N [])]> (PeerManager_new 0 1%N (as_bytes "me")).
Lemma peers_wf : Peers.wf 1%N (view peers).
Proof. apply wf_insert; [apply wf_new|reflexivity|split; discriminate]. Qed.
Definition store : Store := Storage_New {["m.txt"%string := Regular 3]}.
Abbreviation Node := (Core (P:=gmap N (PeerInfo N N))).
Definition node : Node := Core_new Example_Programs.globals Example_Programs.fs peers store.
Definition iter_s (m : gmap Z Session) : list Session := (map_to_list m).*2.
Definition silent (p : N) (d : Network_Data) : result string Network_Data := Err "no answer"%string.
Definition show_err (e : command_error) : string := "error".
Definition show_proto (p : NetworkProtocol) : string := "protocol".
Definition run (events : list (select_event (PeerId:=N))) (c : Node) :=
  run_core (Value:=Value) ts show_err show_proto (fun s => s) (fun s => s) iter_s Example_Programs.iter Example_Programs.globals
    Example_Programs.fs silent (fun _ => Ok tt) events c.
Definition busy : Node := register_job 7 Generic node.
Definition entry : ProgramEntry := mk_ProgramEntry "programs/user/old/b.lua" "hello" "".
End Example_Core.

Import Example_Core.
Lemma remote_exec_reaches_script_witness :
  exists d answer,
    exec_remote (Multiaddr:=N) (Value:=Value) silent "bob#2" "hello" ∅ node = [Request 2%N d; answer] /\
    route_inbound (Multiaddr:=N) (Value:=Value) ts show_err show_proto
      (Inbound.mk_InboundRequest 4 1%N (data_type d) (payload d)) node
    = [Start_Lua (path entry) ∅ "rexec:1:hello"; reply 4 "OK"].
Proof.
  destruct (remote_exec_reaches_script (Multiaddr:=N) (Value:=Value) ts show_err show_proto silent
    "bob#2" (set_name (as_bytes "bob") (new 5 2%N [])) "hello" ∅ node node entry 4 1%N)
    as (d & answer & H1 & H2 & _); [by vm_compute|by vm_compute|by vm_compute|apply (bool_decide_unpack _); by vm_compute|].
  exists d, answer. split; [exact H1|]. refine (H2 _). apply (bool_decide_unpack _). by vm_compute.
Defined.
Lemma quit_drains_witness :
  let '(c', es, ended) := run [B1 (Quit 3); B1 CmdFlush; B4 (Done 7 Success)] busy in
  ended = true /\ map_Forall (fun _ h => cancelled h = true) (registry c').
Proof.
  pose proof (quit_drains (Multiaddr:=N) (Value:=Value) ts show_err show_proto (fun s => s) (fun s => s)
    iter_s Example_Programs.iter Example_Programs.globals Example_Programs.fs silent (fun _ => Ok tt)
    3 [B1 CmdFlush; B4 (Done 7 Success)] busy eq_refl) as H.
  change (run_core _ _ _ _ _ _ _ _ _ _ _ _ _) with (run [B1 (Quit 3); B1 CmdFlush; B4 (Done 7 Success)] busy) in H.
  destruct (run _ _) as [[c' es] ended]. destruct H as (_ & _ & H1 & H2). split; [|exact H1].
  apply H2. right. intros j Hj. assert (j = 7) as -> by (cbn in Hj; rewrite dom_insert_L, dom_empty_L in Hj; set_solver).
  exists Success. right. by left.
Defined.
Lemma jobs_never_registered_witness :
  let c := (run [B1 (Cancel 7); B1 Help] node).1.1 in
  registry c = ∅ /\ run [B1 (Quit 3); B1 Help] c = (shutdown c, [Reply_Quit 3], true).
Proof.
  intros c. destruct (jobs_never_registered (Multiaddr:=N) (Value:=Value) ts show_err show_proto (fun s => s) (fun s => s) iter_s
    Example_Programs.iter Example_Programs.globals Example_Programs.fs silent (fun _ => Ok tt) peers store
    [B1 (Cancel 7); B1 Help] 7 3 [B1 Help]) as (H1 & _ & H2).
  split; [exact H1|]. apply H2. reflexivity.
Defined.
Lemma session_advertised_witness :
  let c' := (session_task ts (fun _ => []) (fun _ => []) iter_s 9 "qwen3" node).1 in
  advertised (Multiaddr:=N) ts 1%N c' = Some (listed iter_s c') /\ new_summary "qwen3" node ∈ listed iter_s c'.
Proof.
  apply (session_advertised ts (fun _ => []) (fun _ => []) iter_s (fun m => Permutation_refl _) 9 "qwen3" "other" 1%N node).
  - apply peers_wf.
  - apply map_Forall_empty.
Defined.
Lemma inbound_file_received_witness :
  exists s' progress, receive_file_task ts 2%N (File_Stream.Write_File_Stream_Header [] "new.bin" 2 "" ++ [x01; x02; x03])
      (fun b => match b with [] => [] | _ => [b] end) store = Some (s', Some ("new.bin"%string, [x01; x02]),
        progress ++ [Notify Info "接收文件完成: new.bin (2 bytes) from 2"%string]) /\
    disk s' = <["new.bin"%string := Regular 2]> (disk store).
Proof.
  destruct (inbound_file_received ts 2%N "new.bin" 2 "" [x01; x02; x03]
    (fun b => match b with [] => [] | _ => [b] end) store) as [_ H].
  - intros b. destruct b; split; try done; [constructor|by repeat constructor|cbn; by rewrite app_nil_r].
  - reflexivity.
  - reflexivity.
  - vm_compute. split; discriminate || reflexivity.
  - vm_compute. split; discriminate || reflexivity.
  - vm_compute. split; discriminate || reflexivity.
  - destruct H as (s' & progress & H1 & _ & H2 & _).
    + reflexivity.
    + apply Example_Store.new_wf.
    + intros e He. vm_compute in He. discriminate.
    + intros z. vm_compute. discriminate.
    + exists s', progress. split; [exact H1|exact H2].
Defined.
Lemma bridge_serves_rounds_witness :
  bridge (foldl Session_Stream.write_session_frame [] ["hi"; "bye"]%string) 2
    (concat (round <$> [["he"; "llo"]; ["b"]]%string)) []
  = Some (bridge_request <$> ["hi"; "bye"]%string,
      foldl Session_Stream.write_session_frame [] ["he"; "llo"; ""; "b"; ""]%string).
Proof.
  apply (bridge_serves_rounds [("hi", ["he"; "llo"]); ("bye", ["b"])]%string 2).
  - repeat constructor; try (vm_compute; congruence); apply (bool_decide_unpack _); by vm_compute.
  - reflexivity.
Defined.
