(* ===== verification/UserInput.v ===== *)
(** * Command lines ([Src/TUI/mod.rs], [Src/CLI/mod.rs])

    [parse_user_command], shared by the terminal interface and the command
    line, with its messages, [Parse_Peer_Assignment], and the read loop of the
    command line.  The property is a round trip with a printer of commands,
    [line_of], which is a reference and no code of the program.  Unicode's
    lower-casing is a parameter. *)
From S2P Require Import Prelude RustStd Wire Codec Bitmap Peers Sessions Command Network Programs Orchestrator.
Import Str.

Section parser.
Context (to_lowercase : bytes -> bytes).

(** ** The parser *)
Definition lit (s : string) : bytes := as_bytes s.
Definition is_lit (l : bytes) (s : string) : bool := bool_decide (l = lit s).
Definition is_empty (l : bytes) : bool := bool_decide (l = []).
Definition show_int_error (e : Num.int_error) : string :=
  match e with
  | Num.Empty => "cannot parse integer from empty string"
  | Num.InvalidDigit => "invalid digit found in string"
  | Num.PosOverflow => "number too large to fit in target type"
  end.
Definition Parse_Peer_Assignment (arg : bytes) : result string (string * Z * Z) :=
  match rsplitn2 ":"%byte arg with
  | [range_str; peer_id] =>
      match Split.split "-"%byte range_str with
      | [a; b] =>
          start ← map_err (fun e => "start 解析失败: " +:+ show_int_error e)%string (Num.parse_uint 64 a);
          end_ ← map_err (fun e => "end 解析失败: " +:+ show_int_error e)%string (Num.parse_uint 64 b);
          Ok (of_bytes peer_id, start, end_)
      | _ => Err "层范围格式错误，应为 start-end"%string
      end
  | _ => Err "缺少 ':' 分隔符"%string
  end.
Fixpoint parse_assignments (args : list bytes) : result string (list (string * Z * Z)) :=
  match args with
  | [] => Ok []
  | arg :: args =>
      a ← map_err (fun e => "解析 '" +:+ of_bytes arg +:+ "' 失败: " +:+ e)%string (Parse_Peer_Assignment arg);
      ps ← parse_assignments args; Ok (a :: ps)
  end.
Fixpoint parse_params (args : list bytes) (params : gmap string string) : result string (gmap string string) :=
  match args with
  | [] => Ok params
  | arg :: args =>
      '(k, v) ← ok_or ("参数格式无效: '" +:+ of_bytes arg +:+ "'")%string (split_once "="%byte arg);
      parse_params args (<[of_bytes k := of_bytes v]> params)
  end.
(** An argument that is the rest of the line. *)
Definition rest_arg (usage : string) (mk : string -> UserCommand) (rest : bytes) : result string (option UserCommand) :=
  let a := trim rest in if is_empty a then Err usage else Ok (Some (mk (of_bytes a))).
Definition parse_user_command (input : string) : result string (option UserCommand) :=
  let trimmed := trim (as_bytes input) in
  if is_empty trimmed then Ok None
  else if is_lit trimmed "quit" || is_lit trimmed "exit" then Ok None
  else if is_lit trimmed "clear" then Ok None
  else if is_lit trimmed "help" then Ok (Some Help)
  else match strip_prefix (lit "session create ") trimmed with
  | Some model => rest_arg "用法: session create <model_name>" CmdSession model
  | None =>
  if starts_with (lit "api ") trimmed || starts_with (lit "API ") trimmed then
    let sid_str := trim (default [] (match strip_prefix (lit "api ") trimmed with
                                     | Some r => Some r
                                     | None => strip_prefix (lit "API ") trimmed
                                     end)) in
    match Num.parse_uint 64 sid_str with
    | Ok session_id => Ok (Some (Api session_id))
    | Err _ => Err ("无效 session_id: '" +:+ of_bytes sid_str +:+ "'\n用法: api <session_id>")%string
    end
  else match strip_prefix (lit "session inference ") trimmed with
  | Some rest =>
      let with_id command sid_str model_path :=
        match Num.parse_uint 64 sid_str with
        | Ok session_id => Ok (Some (SessionInference command session_id (of_bytes model_path)))
        | Err _ => Err ("无效 session_id: '" +:+ of_bytes sid_str +:+ "'")%string
        end in
      match split_whitespace rest with
      | a0 :: a1 :: a2 :: _ => with_id (of_bytes a0) a1 a2
      | [a0; a1] => with_id "single_inf"%string a0 a1
      | _ => Err "用法: session inference [command] <session_id> <model_path>"%string
      end
  | None => match strip_prefix (lit "run ") trimmed with
  | Some p => rest_arg "用法: run <model_path>" (Run "") p
  | None => match strip_prefix (lit "cancel ") trimmed with
  | Some id_str =>
      match Num.parse_uint 64 (trim id_str) with
      | Ok id => Ok (Some (Cancel id))
      | Err _ => Err ("无效 Job ID: '" +:+ of_bytes (trim id_str) +:+ "'")%string
      end
  | None =>
  if is_lit trimmed "display-peer" || is_lit trimmed "dp" then Ok (Some DisplayPeer)
  else match strip_prefix (lit "set-device ") trimmed with
  | Some d =>
      let d := to_lowercase (trim d) in
      if negb (is_lit d "cpu") && negb (is_lit d "cuda") && negb (starts_with (lit "cuda:") d)
      then Err ("不支持的设备: '" +:+ of_bytes d +:+ "'\n用法: set-device cpu|cuda|cuda:N")%string
      else Ok (Some (SetDevice (of_bytes d)))
  | None =>
  if is_lit trimmed "ls" then Ok (Some CmdList)
  else if is_lit trimmed "flush" then Ok (Some CmdFlush)
  else if is_lit trimmed "reload" then Ok (Some Reload)
  else match strip_prefix (lit "set-name ") trimmed with
  | Some nm => rest_arg "名称不能为空" SetName nm
  | None => match strip_prefix (lit "send ") trimmed with
  | Some rest =>
      match split_whitespace rest with
      | [f; p] => Ok (Some (Send (of_bytes f) (of_bytes p)))
      | _ => Err "用法: send <file> <peer_id>"%string
      end
  | None => match strip_prefix (lit "distribute ") trimmed with
  | Some rest =>
      match split_whitespace rest with
      | model :: ((_ :: _) as args) => ps ← parse_assignments args; Ok (Some (DistributeModel (of_bytes model) ps))
      | _ => Err "用法: distribute <model_path> <peer_id:start-end> ..."%string
      end
  | None => match strip_prefix (lit "pipeline ") trimmed with
  | Some rest =>
      match split_whitespace rest with
      | model :: _ => Ok (Some (Execute "pipeline" {["model_path"%string := of_bytes model]}))
      | [] => Err "用法: pipeline <model_path>"%string
      end
  | None => match strip_prefix (lit "profile ") trimmed with
  | Some model_id => rest_arg "用法: profile <model_id>" Profile model_id
  | None => match strip_prefix (lit "dial ") trimmed with
  | Some addr => rest_arg "用法: dial <multiaddr>" CmdDial addr
  | None => match strip_prefix (lit "exec ") trimmed with
  | Some rest =>
      match split_whitespace rest with
      | command :: args => params ← parse_params args ∅; Ok (Some (Execute (of_bytes command) params))
      | [] => Err "用法: exec <command> [key=value ...]"%string
      end
  | None => match strip_prefix (lit "rexec ") trimmed with
  | Some rest =>
      match split_whitespace rest with
      | peer :: command :: args =>
          params ← parse_params args ∅; Ok (Some (CmdExecRemote (of_bytes peer) (of_bytes command) params))
      | _ => Err "用法: rexec <peer> <command> [key=value ...]"%string
      end
  | None => Err ("未知命令: '" +:+ of_bytes trimmed +:+ "'\n输入 help 查看可用命令")%string
  end end end end end end end end end end end end end.

(** ** The printer: the words of a command's line

    A command that no line gives has none. *)
Definition param_word (p : string * string) : bytes := lit p.1 ++ "="%byte :: lit p.2.
Definition assignment_word (a : string * Z * Z) : bytes :=
  lit a.1.1 ++ ":"%byte :: Num.print_dec a.1.2 ++ "-"%byte :: Num.print_dec a.2.
Definition line_of (c : UserCommand) (params : list (string * string)) : option (list bytes) :=
  match c with
  | Execute command _ => Some ([lit "exec"; lit command] ++ map param_word params)
  | Run "" model => Some [lit "run"; lit model]
  | Run _ _ | Quit _ => None
  | Cancel id => Some [lit "cancel"; Num.print_dec id]
  | DisplayPeer => Some [lit "display-peer"]
  | SetDevice d => Some [lit "set-device"; lit d]
  | DistributeModel model ps => Some ([lit "distribute"; lit model] ++ map assignment_word ps)
  | CmdList => Some [lit "ls"]
  | Send file peer => Some [lit "send"; lit file; lit peer]
  | Profile model => Some [lit "profile"; lit model]
  | Help => Some [lit "help"]
  | CmdFlush => Some [lit "flush"]
  | SetName nm => Some [lit "set-name"; lit nm]
  | Reload => Some [lit "reload"]
  | CmdSession model => Some [lit "session create"; lit model]
  | SessionInference command id model => Some [lit "session inference"; lit command; Num.print_dec id; lit model]
  | Api id => Some [lit "api"; Num.print_dec id]
  | CmdExecRemote peer command _ => Some ([lit "rexec"; lit peer; lit command] ++ map param_word params)
  | CmdDial addr => Some [lit "dial"; lit addr]
  end.
(** The texts a line can carry: words, trimmed texts, parameters without [=] in their names. *)
Definition word_ok (s : string) : bool := is_word (lit s).
Definition param_ok (p : string * string) : bool :=
  is_word (param_word p) && negb (bool_decide ("="%byte ∈ lit p.1)).
Definition typeable (c : UserCommand) (params : list (string * string)) : Prop :=
  match c with
  | Execute command ps => word_ok command = true /\ Forall (fun p => param_ok p = true) params /\ params ≡ₚ map_to_list ps
  | CmdExecRemote peer command ps =>
      word_ok peer = true /\ word_ok command = true /\ Forall (fun p => param_ok p = true) params /\ params ≡ₚ map_to_list ps
  | Run _ t | Profile t | SetName t | CmdSession t | CmdDial t => is_trimmed (lit t) = true
  | Cancel id | Api id => in_range 64 id
  | SetDevice d => is_trimmed (lit d) = true /\ to_lowercase (lit d) = lit d /\
      (d = "cpu"%string \/ d = "cuda"%string \/ starts_with (lit "cuda:") (lit d) = true)
  | DistributeModel model ps => word_ok model = true /\ ps <> [] /\
      Forall (fun p => is_word (assignment_word p) = true /\ in_range 64 p.1.2 /\ in_range 64 p.2) ps
  | Send file peer => word_ok file = true /\ word_ok peer = true
  | SessionInference command id model => word_ok command = true /\ in_range 64 id /\ word_ok model = true
  | _ => True
  end.

(** ** The read loop of the command line *)
Inductive read_result : Type := Eof | ReadErr | Line (line : string).
(** What the loop does with the command channel and its error output;
    [accepts] commands are taken before the receiver is gone. *)
Inductive cli_action : Type := SendCmd (cmd : UserCommand) | SendQuit | PrintErr (msg : string).
Fixpoint stdin_repl (input : list read_result) (accepts : nat) : list cli_action * bool :=
  match input with
  | [] => ([], false)
  | Eof :: _ => ([SendQuit], true)
  | ReadErr :: _ => ([], true)
  | Line l :: input =>
      let line := trim (as_bytes l) in
      if is_empty line then stdin_repl input accepts
      else if is_lit line "quit" || is_lit line "exit" then ([SendQuit], true)
      else match parse_user_command (of_bytes line) with
      | Ok (Some cmd) =>
          match accepts with
          | O => ([PrintErr "[CLI] Orchestrator 已关闭"%string], true)
          | S accepts => let (acts, ended) := stdin_repl input accepts in (SendCmd cmd :: acts, ended)
          end
      | Ok None => stdin_repl input accepts
      | Err msg => let (acts, ended) := stdin_repl input accepts in (PrintErr msg :: acts, ended)
      end
  end.

(** ** Proofs *)
Fixpoint mismatch (p q : bytes) : bool :=
  match p, q with
  | a :: p, b :: q => if Byte.eqb a b then mismatch p q else true
  | _, _ => false
  end.
Lemma mismatch_starts p q r : mismatch p q = true -> starts_with p (q ++ r) = false.
Proof.
  revert q. induction p as [|a p IH]; intros [|b q]; cbn; try done. destruct (Byte.eqb a b) eqn:E.
  - apply Byte.byte_dec_bl in E as ->. rewrite decide_True by done. apply IH.
  - intros _. rewrite decide_False; [done|]. intros ->. by rewrite Byte.byte_dec_lb in E.
Qed.
Lemma mismatch_strip p q r : mismatch p q = true -> strip_prefix p (q ++ r) = None.
Proof. intros Hm. unfold strip_prefix. by rewrite mismatch_starts. Qed.
Lemma mismatch_is s q r : mismatch (lit s) q = true -> is_lit (q ++ r) s = false.
Proof.
  intros Hm. apply bool_decide_eq_false. intros He. pose proof (mismatch_starts _ _ r Hm) as Hs.
  rewrite He in Hs. pose proof (starts_with_app (lit s) []) as Ha. rewrite app_nil_r in Ha. congruence.
Qed.
Lemma strip_same p r : strip_prefix p (p ++ r) = Some r.
Proof. unfold strip_prefix. by rewrite starts_with_app, drop_app_length. Qed.
(** Run the parser to the branch of a line that starts with the literal [q]. *)
Ltac skip_branch :=
  match goal with
  | |- context [is_lit (?q ++ ?r) ?s] => rewrite (mismatch_is s q r eq_refl)
  | |- context [strip_prefix ?p (?q ++ ?r)] => rewrite (mismatch_strip p q r eq_refl)
  | |- context [starts_with ?p (?q ++ ?r)] => rewrite (mismatch_starts p q r eq_refl)
  end.
Ltac to_branch Ht :=
  unfold parse_user_command; rewrite Ht;
  match goal with |- context [is_empty ?t] => change (is_empty t) with false end;
  repeat skip_branch; rewrite ?strip_same, ?starts_with_app; cbn [orb default from_option id].

(** Normalise the joined words of a line to its literal head and the rest. *)
Ltac at_words Ht :=
  match type of Ht with
  | _ = Split.join _ ([lit ?h; ?a] ++ ?l) => change ([lit h; a] ++ l) with (lit h :: a :: l) in Ht
  | _ = Split.join _ ([lit ?h; ?a; ?b] ++ ?l) => change ([lit h; a; b] ++ l) with (lit h :: a :: b :: l) in Ht
  | _ => idtac
  end;
  match type of Ht with
  | _ = Split.join _ (lit ?h :: ?w :: ?ws) =>
      let q := eval cbv in (h +:+ " ")%string in
      change (Split.join " "%byte (lit h :: w :: ws)) with (lit q ++ Split.join " "%byte (w :: ws)) in Ht
  end;
  to_branch Ht.

Lemma rest_arg_ok usage mk s : is_trimmed (lit s) = true -> rest_arg usage mk (lit s) = Ok (Some (mk s)).
Proof.
  intros Ht. unfold rest_arg. rewrite trim_id by done. apply is_trimmed_spec in Ht as [Hne _].
  unfold is_empty. rewrite bool_decide_eq_false_2 by done. unfold lit. by rewrite of_as_bytes.
Qed.
Lemma parse_params_ok l (m : gmap string string) :
  Forall (fun p => param_ok p = true) l -> parse_params (map param_word l) m = Ok (foldl (fun m '(k, v) => <[k := v]> m) m l).
Proof.
  intros HF. revert m. induction HF as [|[k v] l Hp HF IH]; intros m; [done|]. cbn [map parse_params foldl].
  unfold param_ok in Hp. apply andb_prop in Hp as [_ Hk%negb_true_iff%bool_decide_eq_false].
  cbn [fst] in Hk. assert (split_once "="%byte (param_word (k, v)) = Some (lit k, lit v)) as -> by by apply split_once_app.
  cbn [ok_or mbind result_bind]. unfold lit. by rewrite !of_as_bytes.
Qed.
Lemma fold_params (l : list (string * string)) (m : gmap string string) : l ≡ₚ map_to_list m -> foldl (fun m '(k, v) => <[k := v]> m) ∅ l = m.
Proof.
  intros Hp. assert (NoDup l.*1) as Hnd by (rewrite Hp; apply NoDup_fst_map_to_list).
  apply map_eq. intros k. destruct (fold_insert_lookup (fun v : string => v) l ∅ k Hnd) as [Hin Hout].
  destruct (m !! k) as [v|] eqn:E.
  - apply Hin. rewrite Hp. by apply elem_of_map_to_list.
  - rewrite Hout; [done|]. rewrite Hp. intros ([k' v] & -> & Hi%elem_of_map_to_list)%list_elem_of_fmap. cbn in E. congruence.
Qed.
Lemma print_dec_free c z : bz c < 48 \/ 57 < bz c -> c ∉ Num.print_dec z.
Proof. intros Hc Hi. apply (Z.lt_irrefl 0). assert (Num.is_digit c); [|unfold Num.is_digit in *; lia]. pose proof (Num.print_dec_digits z) as HF. rewrite List.Forall_forall in HF. by apply HF, list_elem_of_In. Qed.
Lemma white_no_digit : Forall (fun w => Forall (fun b => bz b < 48 \/ 57 < bz b) w /\ w <> []) white.
Proof. apply (bool_decide_unpack _). by vm_compute. Qed.
Lemma print_dec_word z : is_word (Num.print_dec z) = true.
Proof.
  apply is_word_spec. split; [apply Num.print_dec_nonempty|]. pose proof white_no_digit as HF. eapply Forall_impl; [exact HF|].
  intros w [Hw Hne]. apply not_true_iff_false. intros (a & b & He)%contains_spec. destruct w as [|c w]; [done|].
  apply Forall_cons in Hw as [Hc _]. apply (print_dec_free c z).
  - done.
  - rewrite He. apply elem_of_app. right. by left.
Qed.
Lemma assignment_ok a :
  in_range 64 a.1.2 -> in_range 64 a.2 -> Parse_Peer_Assignment (assignment_word a) = Ok a.
Proof.
  destruct a as [[p x] y]. cbn [fst snd]. intros Hx Hy. unfold Parse_Peer_Assignment, assignment_word. cbn [fst snd].
  rewrite rsplitn2_app.
  - rewrite Split.split_app by (apply print_dec_free; by left).
    rewrite Split.split_none by (apply print_dec_free; by left).
    rewrite !Num.parse_print_dec by done. cbn. unfold lit. by rewrite of_as_bytes.
  - rewrite elem_of_app, elem_of_cons. intros [Hi|[Hi|Hi]]; [|done|];
      (eapply print_dec_free; [|exact Hi]); by right.
Qed.
Lemma assignments_ok ps :
  Forall (fun p => is_word (assignment_word p) = true /\ in_range 64 p.1.2 /\ in_range 64 p.2) ps ->
  parse_assignments (map assignment_word ps) = Ok ps.
Proof.
  induction 1 as [|p ps (_ & H1 & H2) HF IH]; [done|]. cbn [map parse_assignments].
  rewrite assignment_ok by done. cbn [map_err mbind result_bind]. by rewrite IH.
Qed.
Lemma param_words l : Forall (fun p => param_ok p = true) l -> Forall (fun w => is_word w = true) (map param_word l).
Proof. intros HF. apply Forall_fmap. eapply Forall_impl; [exact HF|]. intros p [Hp _]%andb_prop. done. Qed.
Lemma words_ok ws : Forall (fun w => is_word w = true) ws -> split_whitespace (Split.join " "%byte ws) = ws.
Proof. apply split_whitespace_join. Qed.

Lemma parse_line input c params parts :
  typeable c params -> line_of c params = Some parts -> trim (as_bytes input) = Split.join " "%byte parts ->
  parse_user_command input = Ok (Some c).
Proof.
  intros Hc Hl Ht. destruct c; cbn [line_of typeable] in Hc, Hl; try done.
  all: try (injection Hl as <-; unfold parse_user_command; rewrite Ht; reflexivity).
  all: try (injection Hl as <-; at_words Ht; by apply rest_arg_ok).
  - injection Hl as <-. destruct Hc as (Hw & HF & Hp). at_words Ht.
    rewrite words_ok by (constructor; [done|by apply param_words]). cbn [map app].
    rewrite parse_params_ok by done. rewrite (fold_params _ _ Hp). cbn. unfold lit. by rewrite of_as_bytes.
  - destruct script; [|done]. injection Hl as <-. at_words Ht. by apply rest_arg_ok.
  - injection Hl as <-. at_words Ht. cbn [Split.join]. rewrite trim_id by apply word_trimmed, print_dec_word.
    by rewrite Num.parse_print_dec.
  - injection Hl as <-. destruct Hc as (Htr & Hlow & Hd). at_words Ht. cbn [Split.join]. rewrite trim_id, Hlow by done.
    unfold is_lit. unfold lit at 1 2 3 4 5. rewrite of_as_bytes.
    destruct Hd as [->|[->|Hs]]; [done..|]. change (as_bytes "cuda:") with (lit "cuda:"). change (as_bytes device) with (lit device).
    rewrite Hs. cbn [negb]. by rewrite andb_false_r.
  - injection Hl as <-. destruct Hc as (Hw & Hne & HF). at_words Ht.
    rewrite words_ok.
    + destruct peers as [|p ps]; [done|]. cbn [map]. pose proof (assignments_ok _ HF) as Ha. cbn [map] in Ha. rewrite Ha.
      cbn. unfold lit. by rewrite of_as_bytes.
    + constructor; [done|]. apply Forall_fmap. eapply Forall_impl; [exact HF|]. by intros p (? & _).
  - injection Hl as <-. destruct Hc as [Hw1 Hw2]. at_words Ht. rewrite words_ok by by repeat constructor.
    unfold lit. by rewrite !of_as_bytes.
  - injection Hl as <-. destruct Hc as (Hw1 & Hid & Hw2). at_words Ht.
    rewrite words_ok by (repeat constructor; try done; apply print_dec_word).
    rewrite Num.parse_print_dec by done. unfold lit. by rewrite !of_as_bytes.
  - injection Hl as <-. at_words Ht. cbn [Split.join]. rewrite trim_id by apply word_trimmed, print_dec_word.
    by rewrite Num.parse_print_dec.
  - injection Hl as <-. destruct Hc as (Hw1 & Hw2 & HF & Hp). at_words Ht.
    rewrite words_ok by (constructor; [done|]; constructor; [done|by apply param_words]).
    rewrite parse_params_ok by done. rewrite (fold_params _ _ Hp). cbn. unfold lit. by rewrite !of_as_bytes.
Qed.
(** What the parser returns has a line, for any parameters. *)
Lemma parsed_has_line input c params : parse_user_command input = Ok (Some c) -> line_of c params <> None.
Proof.
  assert (forall usage mk rest, (forall s, line_of (mk s) params <> None) -> rest_arg usage mk rest = Ok (Some c) -> line_of c params <> None) as Hrest.
  { intros usage mk rest Hmk. unfold rest_arg. case_match; [done|]. intros [= <-]. apply Hmk. }
  unfold parse_user_command. repeat case_match; try done;
    first [by intros [= <-]|by apply Hrest|idtac].
  all: match goal with |- context [mbind _ ?r] => destruct r; cbn; [by intros [= <-]|done] end.
Qed.
(** C35: typing commands. A command with texts that can be typed (words where the
    parser splits at white space, trimmed texts elsewhere, parameters without [=] in
    their names) is what the parser makes of its line, printed as words separated
    by spaces, whatever white space surrounds it and in whatever order the parameters
    are written. [Quit] and a [Run] with a script have no line, and no input at all
    parses to them. *)
Theorem typed_command_roundtrip c params :
  (forall input parts, typeable c params -> line_of c params = Some parts ->
     trim (as_bytes input) = Split.join " "%byte parts -> parse_user_command input = Ok (Some c)) /\
  (line_of c params = None <->
     match c with Quit _ => True | Run script _ => script <> ""%string | _ => False end) /\
  (line_of c params = None -> forall input, parse_user_command input <> Ok (Some c)).
Proof.
  split_and!.
  - intros input parts. apply parse_line.
  - destruct c; try done. by destruct script.
  - intros Hn input E. by apply (parsed_has_line _ _ params) in E.
Qed.
End parser.

(** ** From the keyboard of one node to a script of another *)
Section remote_script.
Context {PeerId Multiaddr P Value : Type} `{Countable PeerId}.
Context (to_string : PeerId -> bytes) (to_lowercase : bytes -> bytes) (to_uppercase : string -> string).
Context `{!Peer_Management_Capability PeerId Multiaddr P} `{!Serde_Json Value} `{!Serde_Laws Value}.
Context (show_command_error : command_error -> string) (show_protocol : NetworkProtocol -> string).
Context (iter_sessions : gmap Z Session -> list Session).
Context (iter_programs : gmap string ProgramEntry -> list (string * ProgramEntry)).
Context (globals : string -> option (option string * option string)) (fs : Programs_Fs).
Context (remote : PeerId -> Network_Data -> result string Network_Data).
Context (Set_Peer_Name : string -> result string unit).

(** C5: a typed [rexec], of a peer known by its name, and of a user program that is
    registered at that peer. When the name of the program is valid UTF-8 and
    neither it nor the text of the parameters has a [|] in it, which would separate
    the fields of the request, the line makes the node send one request, and the
    node that receives it starts exactly the named program with exactly the typed
    parameters, and answers OK. *)
Theorem typed_rexec_reaches_script peer command ps params input info (ca cb : Core (P:=P)) entry rid from :
  typeable to_lowercase (CmdExecRemote peer command ps) params ->
  trim (as_bytes input) = Split.join " "%byte ([lit "rexec"; lit peer; lit command] ++ map param_word params) ->
  by_name peer ca = Ok info -> get_user command (program_registry cb) = Some entry ->
  Utf8.is_str command -> Command.bar ∉ as_bytes command -> Command.bar ∉ as_bytes (map_text ps) ->
  exists cmd d answer,
    parse_user_command to_lowercase input = Ok (Some cmd) /\
    route_user to_string to_uppercase iter_sessions iter_programs globals fs remote Set_Peer_Name cmd ca
      = (ca, [Request (peer_id info) d; answer]) /\
    route_inbound (Multiaddr:=Multiaddr) to_string show_command_error show_protocol
      (Inbound.mk_InboundRequest rid from (data_type d) (payload d)) cb
      = [Start_Lua (path entry) ps ("rexec:" +:+ of_bytes (to_string from) +:+ ":" +:+ command)%string; reply rid "OK"].
Proof.
  intros Hty Hin Hn Hu Hstr Hbar Hjson.
  destruct (remote_exec_reaches_script to_string show_command_error show_protocol remote
    peer info command ps ca cb entry rid from Hn Hu Hstr Hbar) as (d & answer & Hr & Hroute & _).
  exists (CmdExecRemote peer command ps), d, answer. split; [|split].
  - by eapply parse_line.
  - cbn [route_user]. by rewrite Hr.
  - by apply Hroute.
Qed.
End remote_script.

(** ** The read loop *)
Section repl.
Context (to_lowercase : bytes -> bytes).
Definition stops (r : read_result) : bool :=
  match r with
  | Eof | ReadErr => true
  | Line l => is_lit (trim (as_bytes l)) "quit" || is_lit (trim (as_bytes l)) "exit"
  end.
Definition line_actions (r : read_result) : list cli_action :=
  match r with
  | Line l =>
      match parse_user_command to_lowercase (of_bytes (trim (as_bytes l))) with
      | Ok (Some cmd) => [SendCmd cmd]
      | Ok None => []
      | Err msg => [PrintErr msg]
      end
  | _ => []
  end.
Definition commands_of (acts : list cli_action) : nat :=
  length (List.filter (fun a => match a with SendCmd _ => true | _ => false end) acts).
Lemma repl_line l rest accepts :
  stops (Line l) = false -> (commands_of (line_actions (Line l)) <= accepts)%nat ->
  stdin_repl to_lowercase (Line l :: rest) accepts =
    (let '(acts, ended) := stdin_repl to_lowercase rest (accepts - commands_of (line_actions (Line l))) in
     (line_actions (Line l) ++ acts, ended)).
Proof.
  cbn [stops stdin_repl]. intros -> Ha. cbn [line_actions] in *.
  destruct (is_empty (trim (as_bytes l))) eqn:E.
  - apply bool_decide_eq_true in E. rewrite E. change (parse_user_command _ _) with (Ok (E:=string) (@None UserCommand)).
    cbn. rewrite Nat.sub_0_r. by destruct (stdin_repl _ _ _).
  - destruct (parse_user_command _ _) as [[c|]|m]; cbn in *.
    + destruct accepts as [|k]; [lia|]. by rewrite Nat.sub_succ, Nat.sub_0_r.
    + rewrite Nat.sub_0_r. by destruct (stdin_repl _ _ _).
    + by rewrite Nat.sub_0_r.
Qed.

(** The commands of the lines before the first [quit], [exit], end of input or
    failed read are sent in order, then the node is told to leave, except when
    reading fails: then the loop ends and nobody can stop the node from there. *)
Theorem repl_spec before stop rest accepts :
  Forall (fun r => stops r = false) before -> stops stop = true ->
  (commands_of (concat (map line_actions before)) <= accepts)%nat ->
  stdin_repl to_lowercase (before ++ stop :: rest) accepts =
    (concat (map line_actions before) ++ match stop with ReadErr => [] | _ => [SendQuit] end, true).
Proof.
  intros HF Hs. revert accepts. induction HF as [|r before Hr HF IH]; intros accepts Ha.
  - destruct stop as [| |l]; [done..|]. cbn [app stdin_repl map concat]. cbn [stops] in Hs. rewrite Hs.
    destruct (is_empty _) eqn:E; [|done]. apply bool_decide_eq_true in E. by rewrite E in Hs.
  - destruct r as [| |l]; [done..|]. cbn [map concat] in *. unfold commands_of in Ha. rewrite List.filter_app, length_app in Ha.
    fold (commands_of (line_actions (Line l))) in Ha. fold (commands_of (concat (map line_actions before))) in Ha.
    cbn [app]. rewrite repl_line by (done || lia). rewrite IH by lia. by rewrite app_assoc.
Qed.
End repl.

Module Example_Input.
Example rexec_parses : parse_user_command id "rexec bob#2 hello n=1" =
  Ok (Some (CmdExecRemote "bob#2" "hello" {["n" := "1"]}))%string.
Proof. by vm_compute. Qed.
End Example_Input.
Lemma typed_command_roundtrip_witness :
  parse_user_command id " distribute model.gguf 12D3:x:0-15 bob:16-31
" = Ok (Some (DistributeModel "model.gguf" [("12D3:x", 0, 15); ("bob", 16, 31)]))%string.
Proof.
  apply (proj1 (typed_command_roundtrip id _ [])) with (parts := [lit "distribute"; lit "model.gguf"; lit "12D3:x:0-15"; lit "bob:16-31"]).
  - split; [by vm_compute|]. split; [done|]. repeat constructor; by vm_compute.
  - by vm_compute.
  - by vm_compute.
Defined.

Import Example_Programs Example_Core.
Lemma typed_rexec_reaches_script_witness :
  exists cmd d answer,
    parse_user_command id "  rexec bob#2 hello " = Ok (Some cmd) /\
    route_user ts (fun s => s) iter_s Example_Programs.iter Example_Programs.globals Example_Programs.fs silent (fun _ => Ok tt) cmd node
      = (node, [Request 2%N d; answer]) /\
    route_inbound (Multiaddr:=N) (Value:=Value) ts show_err show_proto (Inbound.mk_InboundRequest 4 1%N (data_type d) (payload d)) node
      = [Start_Lua (path entry) ∅ "rexec:1:hello"; reply 4 "OK"].
Proof.
  apply (typed_rexec_reaches_script (Multiaddr:=N) (Value:=Value) ts id (fun s => s) show_err show_proto iter_s Example_Programs.iter
    Example_Programs.globals Example_Programs.fs silent (fun _ => Ok tt) "bob#2" "hello" ∅ []
    "  rexec bob#2 hello " (set_name (as_bytes "bob") (new 5 2%N [])) node node entry 4 1%N);
    [|by vm_compute..|apply (bool_decide_unpack _); by vm_compute|apply (bool_decide_unpack _); by vm_compute].
  split; [by vm_compute|]. split; [by vm_compute|]. split; [constructor|]. by rewrite map_to_list_empty.
Defined.
