(* ===== verification/Tui.v ===== *)
(** * The terminal interface ([Src/TUI])

    The application state ([app.rs]), the handlers of bus events, keys, mouse
    and commands and the main loop ([mod.rs]), and the texts the panels show
    ([network_panel.rs], [command_panel.rs], [job_panel.rs]).

    An operation that can panic returns an option.  A key press carries the
    UTF-8 encoding of its character.  Bus payloads are the values the
    publishers build, so the branch for unparsable text is not there.  Outside
    are the terminal itself (layout, colours), the clock, floating-point
    numbers (a type [F] with what is asked of it), the reader of a JSON array,
    and Unicode's case mapping. *)
From S2P Require Import Prelude RustStd Wire Json Codec Bitmap Peers Sessions Command Network Storage Programs Orchestrator UserInput.

(** ** Data *)
Inductive View_Mode : Set := View_Idle | Busy | Busy_Coordinator.
#[global] Instance View_Mode_eq_dec : EqDecision View_Mode.
Proof. solve_decision. Defined.
Inductive Transfer_Direction : Set := Dir_Send | Dir_Receive.
Inductive Job_State : Type :=
  | Job_Idle
  | File_Transfer (direction : Transfer_Direction) (file_name peer : string) (sent total : Z)
  | Inference (model_name : string) (device_count : Z) (layer_range phase : string).
Record ModelDisplay : Type := mk_ModelDisplay { md_file_name : string; md_layer_range : string }.
Record SessionDisplay : Type := mk_SessionDisplay { sd_session_id : Z; sd_model_id : string; slots : string }.
Record Peer_Display : Type := mk_Peer_Display {
  pd_name : string;
  pd_peer_id : string;
  is_local : bool;
  connected : bool;
  models : list ModelDisplay;
  pd_sessions : list SessionDisplay;
}.
Record Rect : Set := mk_Rect { rect_y : Z; rect_height : Z }.

Section tui.
Context {F : Type} (f_zero : F) (json_f64 : json -> option F) (one_decimal : F -> string).
Context (to_lowercase : bytes -> bytes) (to_uppercase : string -> string).
(** [serde_json::from_str::<Vec<Value>>]. *)
Context (from_str_array : string -> option (list json)).

Record Command_Output : Type := mk_Command_Output {
  output_text : string;
  token_count : Z;
  tok_per_sec : F;
  total_secs : F;
  completed : bool;
}.
Definition Command_Output_New : Command_Output := mk_Command_Output "" 0 f_zero f_zero false.

Record App : Type := mk_App {
  view_mode : View_Mode;
  device : string;
  logs : list string;
  log_scroll : Z;
  app_peers : list Peer_Display;
  job : Job_State;
  command_output : Command_Output;
  command_scroll : Z;
  input_buffer : bytes;
  cursor_position : nat;
  should_quit : bool;
  log_area : Rect;
  command_area : Rect;
}.
Definition App_New : App :=
  mk_App View_Idle "cpu" [] 0 [] Job_Idle Command_Output_New 0 [] 0 false (mk_Rect 0 0) (mk_Rect 0 0).
Definition with_logs l s (a : App) : App :=
  mk_App (view_mode a) (device a) l s (app_peers a) (job a) (command_output a) (command_scroll a)
    (input_buffer a) (cursor_position a) (should_quit a) (log_area a) (command_area a).
Definition with_app_peers ps (a : App) : App :=
  mk_App (view_mode a) (device a) (logs a) (log_scroll a) ps (job a) (command_output a) (command_scroll a)
    (input_buffer a) (cursor_position a) (should_quit a) (log_area a) (command_area a).
Definition with_job m j (a : App) : App :=
  mk_App m (device a) (logs a) (log_scroll a) (app_peers a) j (command_output a) (command_scroll a)
    (input_buffer a) (cursor_position a) (should_quit a) (log_area a) (command_area a).
Definition with_output o s (a : App) : App :=
  mk_App (view_mode a) (device a) (logs a) (log_scroll a) (app_peers a) (job a) o s
    (input_buffer a) (cursor_position a) (should_quit a) (log_area a) (command_area a).
Definition with_input b c (a : App) : App :=
  mk_App (view_mode a) (device a) (logs a) (log_scroll a) (app_peers a) (job a) (command_output a) (command_scroll a)
    b c (should_quit a) (log_area a) (command_area a).
Definition with_app_device d (a : App) : App :=
  mk_App (view_mode a) d (logs a) (log_scroll a) (app_peers a) (job a) (command_output a) (command_scroll a)
    (input_buffer a) (cursor_position a) (should_quit a) (log_area a) (command_area a).
Definition quit (a : App) : App :=
  mk_App (view_mode a) (device a) (logs a) (log_scroll a) (app_peers a) (job a) (command_output a) (command_scroll a)
    (input_buffer a) (cursor_position a) true (log_area a) (command_area a).

(** [Add_Log]; [now] is the formatted time. *)
Definition Add_Log (now msg : string) (a : App) : App :=
  let l := logs a ++ [("[" +:+ now +:+ "] " +:+ msg)%string] in
  with_logs l (if 50 <? zlen l then zlen l - 50 else log_scroll a) a.

(** *** The peer list *)
Definition peer_position (id : string) (ps : list Peer_Display) : option nat :=
  fst <$> list_find (fun p => pd_peer_id p = id) ps.
Definition Update_Peer (peer_id name : string) (local conn : bool) (a : App) : App :=
  match peer_position peer_id (app_peers a) with
  | Some pos =>
      let upd p := mk_Peer_Display (if String.eqb name "" then pd_name p else name) (pd_peer_id p) local conn (models p) (pd_sessions p) in
      let ps := alter upd pos (app_peers a) in
      with_app_peers
        (if local && negb (pos =? 0)%nat
         then match ps !! pos with Some p => p :: delete pos ps | None => ps end else ps) a
  | None =>
      let p := mk_Peer_Display name peer_id local conn [] [] in
      with_app_peers (if local then p :: app_peers a else app_peers a ++ [p]) a
  end.
Definition alter_peer (f : Peer_Display -> Peer_Display) (peer_id : string) (a : App) : App :=
  match peer_position peer_id (app_peers a) with
  | Some pos => with_app_peers (alter f pos (app_peers a)) a
  | None => a
  end.
Definition Update_Peer_Models (peer_id : string) (ms : list ModelDisplay) : App -> App :=
  alter_peer (fun p => mk_Peer_Display (pd_name p) (pd_peer_id p) (is_local p) (connected p) ms (pd_sessions p)) peer_id.
Definition Update_Peer_Sessions (peer_id : string) (ss : list SessionDisplay) : App -> App :=
  alter_peer (fun p => mk_Peer_Display (pd_name p) (pd_peer_id p) (is_local p) (connected p) (models p) ss) peer_id.
Definition Remove_Peer (peer_id : string) (a : App) : App :=
  with_app_peers (List.filter (fun p => negb (String.eqb (pd_peer_id p) peer_id)) (app_peers a)) a.

(** *** Scrolling *)
Definition Scroll_Up (a : App) : App := with_logs (logs a) (if 0 <? log_scroll a then log_scroll a - 1 else log_scroll a) a.
Definition Scroll_Down (a : App) : App :=
  with_logs (logs a) (if log_scroll a <? Z.max 0 (zlen (logs a) - 1) then log_scroll a + 1 else log_scroll a) a.
Definition Scroll_Command_Up (a : App) : App :=
  with_output (command_output a) (if 0 <? command_scroll a then command_scroll a - 1 else command_scroll a) a.
Definition Scroll_Command_Down (a : App) : App :=
  with_output (command_output a) (Z.min U64_MAX (command_scroll a + 1)) a.

(** *** The input line *)
(** [String::insert]: panics outside a character boundary. *)
Definition Input_Char (c : bytes) (a : App) : option App :=
  let i := cursor_position a in
  if Utf8.is_char_boundary (input_buffer a) (Z.of_nat i)
  then Some (with_input (take i (input_buffer a) ++ c ++ drop i (input_buffer a)) (i + length c) a)
  else None.
(** The offset of the last character of a text, 0 for the empty one. *)
Fixpoint lead_conts (l : bytes) : nat :=
  match l with b :: r => if Utf8.is_cont b then S (lead_conts r) else O | [] => O end.
Definition char_indices_last (l : bytes) : nat := (length l - S (lead_conts (rev l)))%nat.
Definition char_width (b : byte) : nat :=
  if bz b <? 0x80 then 1 else if bz b <? 0xE0 then 2 else if bz b <? 0xF0 then 3 else 4.
(** [String::remove] of the character at [i]. *)
Definition string_remove (i : nat) (l : bytes) : option bytes :=
  if Utf8.is_char_boundary l (Z.of_nat i)
  then b ← l !! i; Some (take i l ++ drop (i + char_width b) l)
  else None.
Definition Delete_Char (a : App) : option App :=
  if (cursor_position a =? 0)%nat then Some a
  else
    before ← Utf8.slice (input_buffer a) 0 (Z.of_nat (cursor_position a));
    let prev := char_indices_last before in
    b ← string_remove prev (input_buffer a);
    Some (with_input b prev a).
Definition Clear_Input (a : App) : App := with_input [] 0 a.
Definition Take_Input (a : App) : bytes * App := (input_buffer a, Clear_Input a).

(** ** Bus events *)
Definition parse_one_model (v : json) : option ModelDisplay :=
  file_name ← (x ← field v "file_name"; json_str x);
  Some (mk_ModelDisplay file_name (default "?" (x ← field v "layer_range"; json_str x))%string).
Definition parse_models_json (models_val : option json) : list ModelDisplay :=
  match models_val with
  | Some (JArr a) => omap parse_one_model a
  | Some (JStr s) => match from_str_array s with Some a => omap parse_one_model a | None => [] end
  | _ => []
  end.
Definition parse_one_session (v : json) : option SessionDisplay :=
  session_id ← (x ← field v "session_id"; json_u64 x);
  model_id ← (x ← field v "model_id"; json_str x);
  occupied ← (x ← field v "occupied_slots"; json_u64 x);
  total ← (x ← field v "total_slots"; json_u64 x);
  Some (mk_SessionDisplay session_id model_id (dec occupied +:+ "/" +:+ dec total)%string).
Definition parse_sessions_json (sessions_val : option json) : list SessionDisplay :=
  match sessions_val with
  | Some (JArr a) => omap parse_one_session a
  | _ => []
  end.
Definition type_is (v : json) (s : string) : bool := bool_decide (json_str (index v "type") = Some s).
Definition label_of (peer_id peer_name : string) : string := if String.eqb peer_name "" then peer_id else peer_name.
Definition set_phase (phase : string) (j : Job_State) : Job_State :=
  match j with Inference m d l _ => Inference m d l phase | _ => j end.
Definition handle_state (now : string) (a : App) (v : json) : App :=
  let peer_id := str_or v "peer_id" "?" in
  let peer_name := str_or v "peer_name" "" in
  let job_id := u64_or v "job_id" 0 in
  (if type_is v "peer_discovered" then
      Add_Log now ("发现节点: " +:+ label_of peer_id peer_name) (Update_Peer peer_id peer_name false false a)
  else if type_is v "peer_left" then Add_Log now ("节点离开: " +:+ peer_id) (Remove_Peer peer_id a)
  else if type_is v "peer_info_updated" then
      let is_local := default false (json_bool (index v "is_local")) in
      let a := Update_Peer peer_id peer_name is_local true a in
      let a := Update_Peer_Models peer_id (parse_models_json (field v "models")) a in
      let a := Update_Peer_Sessions peer_id (parse_sessions_json (field v "sessions")) a in
      if String.eqb peer_name "" then a else Add_Log now ("节点信息: " +:+ peer_name) a
  else if type_is v "peer_connected" then
      Add_Log now ("连接建立: " +:+ label_of peer_id peer_name) (Update_Peer peer_id peer_name false true a)
  else if type_is v "peer_disconnected" then
      Add_Log now ("连接断开: " +:+ label_of peer_id peer_name) (Update_Peer peer_id peer_name false false a)
  else if type_is v "job_created" then
      let kind := str_or v "kind" "?" in
      let model := str_or v "model" "" in
      Add_Log now (if String.eqb model "" then "Job #" +:+ dec job_id +:+ " 已创建 [" +:+ kind +:+ "]"
                   else "Job #" +:+ dec job_id +:+ " 已创建 [" +:+ kind +:+ "] 模型: " +:+ model) a
  else if type_is v "job_phase_changed" then
      let phase := str_or v "phase" "?" in
      let a := Add_Log now ("Job #" +:+ dec job_id +:+ " 阶段: " +:+ phase) a in
      with_job (view_mode a) (set_phase phase (job a)) a
  else if type_is v "job_completed" then
      let a := Add_Log now ("Job #" +:+ dec job_id +:+ " 完成: " +:+ str_or v "result" "?") a in
      if bool_decide (view_mode a = Busy_Coordinator) then a else with_job View_Idle Job_Idle a
  else if type_is v "inference_started" then
      let model := str_or v "model" "?" in
      let layers := str_or v "layers" "?" in
      Add_Log now ("推理开始: " +:+ model +:+ " [" +:+ layers +:+ "]")
        (with_job Busy (Inference model (u64_or v "devices" 1) layers "初始化") a)
  else if type_is v "inference_completed" then
      let tokens := u64_or v "tokens" 0 in
      let tps := default f_zero (json_f64 (index v "tok_per_sec")) in
      let secs := default f_zero (json_f64 (index v "total_secs")) in
      let a := with_output (mk_Command_Output (str_or v "text" "") tokens tps secs true) (command_scroll a) a in
      Add_Log now ("推理完成: " +:+ dec tokens +:+ " tokens, " +:+ one_decimal tps +:+ " tok/s, " +:+ one_decimal secs +:+ "s")
        (with_job (view_mode a) Job_Idle a)
  else if type_is v "device_changed" then
      let d := str_or v "device" "?" in
      with_app_device d (Add_Log now ("设备已切换: " +:+ to_uppercase d) a)
  else
    a)%string.
(** [str::lines().count()]: a final newline starts no line. *)
Definition text_lines (l : bytes) : list bytes :=
  let ps := Split.split x0a l in
  let strip_cr p := Bitmap.strip_suffix [x0d] p in
  match rev ps with
  | [] :: r => map strip_cr (rev r)
  | p :: r => map strip_cr (rev r) ++ [p]
  | [] => []
  end.
Definition handle_stream (a : App) (v : json) : App :=
  (if type_is v "token" then
      let o := command_output a in
      let text := (output_text o +:+ str_or v "text" "")%string in
      let o := mk_Command_Output text (token_count o + 1) (tok_per_sec o) (total_secs o) (completed o) in
      with_job Busy_Coordinator (job a) (with_output o (Z.max 0 (zlen (text_lines (as_bytes text)) - 1)) a)
  else if type_is v "file_progress" then
      let dir := if String.eqb (str_or v "dir" "send") "send" then Dir_Send else Dir_Receive in
      with_job (view_mode a)
        (File_Transfer dir (str_or v "name" "?") (str_or v "peer" "?") (u64_or v "sent" 0) (u64_or v "total" 0)) a
  else
    a)%string.
(** The layer ranges a file list carries are added to its text. [None]: the
    decoder of a bitmap panicked. *)
Definition entry_suffix (entry : json) : option string :=
  match json_str (index entry "file_name"), json_str (index entry "layer_bitmap") with
  | Some name, Some bitmap_str =>
      range ← bitmap_hex_to_layer_range (as_bytes bitmap_str);
      Some match range with
           | Some r => (newline +:+ "  " +:+ name +:+ " layers: " +:+ of_bytes r)%string
           | None => ""%string
           end
  | _, _ => Some ""%string
  end.
Definition handle_output (a : App) (v : json) : option App :=
  let o := command_output a in
  (if type_is v "cmd_result" then
      suffixes ← mapM entry_suffix (default [] (json_array (index v "entries")));
      let text := (str_or v "text" "" +:+ String.concat "" suffixes)%string in
      Some (with_output (mk_Command_Output text (token_count o) (tok_per_sec o) (total_secs o)
                           (default true (json_bool (index v "completed")))) 0 a)
  else if type_is v "help" then
      Some (with_output (mk_Command_Output (str_or v "text" "") (token_count o) (tok_per_sec o) (total_secs o) true)
              (command_scroll a) a)
  else
    Some a)%string.
Definition Handle_Bus_Event (now : string) (a : App) (event : Bus_Event) : option App :=
  match event with
  | Notify Error message => Some (Add_Log now ("[错误] " +:+ message)%string a)
  | Notify Warn message => Some (Add_Log now ("[警告] " +:+ message)%string a)
  | Notify Info message => Some (Add_Log now message a)
  | State payload => Some (handle_state now a payload)
  | Stream payload => Some (handle_stream a payload)
  | Output payload => handle_output a payload
  end.

(** ** Keys, mouse and commands *)
Definition command_label (cmd : UserCommand) : string :=
  match cmd with
  | Execute command _ => "执行脚本: " +:+ command
  | CmdExecRemote peer command _ => "远程执行: rexec " +:+ peer +:+ " " +:+ command
  | CmdSession model_id => "创建 Session: " +:+ model_id
  | Api session_id => "启动 API Server -> Session " +:+ dec session_id
  | SessionInference command session_id _ => "ML Thread (" +:+ command +:+ ") -> Session " +:+ dec session_id
  | Run _ model_path => "执行命令: run " +:+ model_path
  | Cancel job_id => "执行命令: cancel " +:+ dec job_id
  | DisplayPeer => "执行命令: display-peer"
  | SetDevice device => "执行命令: set-device " +:+ device
  | CmdList => "执行命令: ls"
  | CmdFlush => "执行命令: flush"
  | Reload => "执行命令: reload"
  | SetName name => "执行命令: set-name " +:+ name
  | Send file_path peer_id => "执行命令: send " +:+ file_path +:+ " → " +:+ peer_id
  | DistributeModel model_path _ => "执行命令: distribute " +:+ model_path
  | Profile model_id => "执行命令: profile " +:+ model_id
  | CmdDial addr => "执行命令: dial " +:+ addr
  | _ => ""
  end%string.
(** [alive]: the core still receives. The state and the command sent, if any. *)
Definition Handle_Command_Input (now now' : string) (alive : bool) (input : bytes) (a : App) : App * option UserCommand :=
  let trimmed := Str.trim input in
  if is_lit trimmed "quit" || is_lit trimmed "exit" then (quit a, None)
  else if is_lit trimmed "clear" then (with_logs [] 0 a, None)
  else
    let o := if is_lit trimmed "help"
             then mk_Command_Output "正在获取帮助信息..." 0 f_zero f_zero false else Command_Output_New in
    let a := with_output o 0 a in
    match parse_user_command to_lowercase (of_bytes trimmed) with
    | Ok (Some cmd) =>
        let a := if String.eqb (command_label cmd) "" then a else Add_Log now (command_label cmd) a in
        if alive then (a, Some cmd) else (quit (Add_Log now' "[错误] Orchestrator 已关闭" a), None)
    | Ok None => (a, None)
    | Err msg =>
        (with_output (mk_Command_Output msg (token_count (command_output a)) (tok_per_sec (command_output a))
           (total_secs (command_output a)) true) (command_scroll a) a, None)
    end.
Inductive KeyCode : Type :=
  | Enter | Esc | Backspace | Up | Down | PageUp | PageDown
  | Char (c : bytes)
  | OtherKey.
Definition Handle_Key_Event (now now' : string) (alive : bool) (key : KeyCode) (control : bool) (a : App)
    : option (App * option UserCommand) :=
  let only x := Some (x, None) in
  match key with
  | Char c =>
      if control && bool_decide (c = as_bytes "c") then only (quit a)
      else a ← Input_Char c a; only a
  | Enter =>
      let (input, a) := Take_Input a in
      if bool_decide (input = []) then only a else Some (Handle_Command_Input now now' alive input a)
  | Esc => only (Clear_Input a)
  | Backspace => a ← Delete_Char a; only a
  | Up => only (if control then Scroll_Command_Up a else Scroll_Up a)
  | Down => only (if control then Scroll_Command_Down a else Scroll_Down a)
  | PageUp => only (Nat.iter 5 Scroll_Command_Up a)
  | PageDown => only (Nat.iter 5 Scroll_Command_Down a)
  | OtherKey => only a
  end.
Inductive MouseEventKind : Set := ScrollUp | ScrollDown | OtherMouse.
Definition in_area (row : Z) (r : Rect) : bool := (rect_y r <=? row) && (row <? rect_y r + rect_height r).
Definition Handle_Mouse_Event (kind : MouseEventKind) (row : Z) (a : App) : App :=
  let in_log := in_area row (log_area a) in
  let in_command := in_area row (command_area a) in
  match kind with
  | ScrollUp => if in_command then Scroll_Command_Up a else if in_log then Scroll_Up a else a
  | ScrollDown => if in_command then Scroll_Command_Down a else if in_log then Scroll_Down a else a
  | OtherMouse => a
  end.

(** ** The panels *)
Definition Truncate_Peer_Id (peer_id : bytes) : option bytes :=
  let n := zlen peer_id in
  if 16 <? n then
    prefix ← Utf8.slice peer_id 0 8;
    suffix ← Utf8.slice peer_id (n - 4) n;
    Some (prefix ++ as_bytes "..." ++ suffix)
  else Some peer_id.
Definition peer_lines (p : Peer_Display) : option (list string) :=
  let id := as_bytes (pd_peer_id p) in
  let icon := if is_local p then "🏠" else if connected p then "●" else "○" in
  display_name ← (if String.eqb (pd_name p) "" then of_bytes <$> Truncate_Peer_Id id
                  else suffix ← (if 4 <=? zlen id then Utf8.slice id (zlen id - 4) (zlen id) else Some id);
                       Some (pd_name p +:+ "#" +:+ of_bytes suffix));
  let status := if is_local p then "本机" else if connected p then "已连接" else "已断开" in
  Some (("  " +:+ icon +:+ " " +:+ display_name +:+ " " +:+ status)
    :: map (fun m => "    " +:+ md_file_name m +:+ " [" +:+ md_layer_range m +:+ "]") (models p)
    ++ map (fun s => "    session " +:+ dec (sd_session_id s) +:+ " (" +:+ sd_model_id s +:+ ") [slots " +:+ slots s +:+ "]")
         (pd_sessions p))%string.
Definition network_lines (a : App) : option (list string) :=
  match app_peers a with
  | [] => Some ["  等待节点连接..."%string]
  | ps => lines ← mapM peer_lines ps; Some (concat lines)
  end.
Definition Estimate_Visual_Line_Count (text : bytes) (width : Z) : Z :=
  if width =? 0 then 1
  else match text_lines text with
       | [] => 1
       | ls => foldl (fun count line =>
                 let char_count := zlen (List.filter (fun b => negb (Utf8.is_cont b)) line) in
                 if char_count =? 0 then count + 1 else count + (char_count + width - 1) / width) 0 ls
       end.
Definition command_text (a : App) : string :=
  let o := command_output a in
  if String.eqb (output_text o) "" then "等待推理输出..."%string
  else if negb (completed o) then (output_text o +:+ "█")%string
  else output_text o.
(** [command_panel::Render] with a panel of [height] inner rows, the text [rows] high and [columns] wide. *)
Definition command_render (height columns rows : Z) (a : App) : App :=
  if height <? 2 then a
  else
    let total := Estimate_Visual_Line_Count (as_bytes (command_text a)) (Z.max 0 (columns - 1)) in
    with_output (command_output a) (Z.min (command_scroll a) (Z.max 0 (total - rows))) a.
Definition inference_line (model_name : string) (device_count : Z) (layer_range phase device : string) : string :=
  (if (1 <? device_count)%Z
   then "  " +:+ model_name +:+ " │ " +:+ dec device_count +:+ "台设备 │ " +:+ layer_range +:+ " │ " +:+
        to_uppercase device +:+ " │ 阶段: " +:+ phase
   else "  " +:+ model_name +:+ " │ " +:+ layer_range +:+ " │ " +:+ to_uppercase device +:+ " │ 阶段: " +:+ phase)%string.

(** ** The main loop

    One turn: whether drawing worked and the area it assigned, what the bus
    yields until it is drained, and the input event, if any. *)
Inductive bus_item : Type := Item (e : Bus_Event) | Lagged (n : Z) | Closed.
Inductive input_event : Type := Key (key : KeyCode) (control : bool) | Mouse (kind : MouseEventKind) (row : Z) | NoInput.
(** [drawn]: [None] when the terminal fails; the drawing itself may panic. *)
Record turn : Type := mk_turn { drawn : option (App -> option App); bus : list bus_item; event : input_event; alive : bool }.
Context (clock : string).
Fixpoint drain_bus (a : App) (items : list bus_item) : option App :=
  match items with
  | [] => Some a
  | Item e :: items => a ← Handle_Bus_Event clock a e; drain_bus a items
  | Lagged n :: items => drain_bus (Add_Log clock ("⚠ 丢失 " +:+ dec n +:+ " 条事件")%string a) items
  | Closed :: _ => Some (quit a)
  end.
Definition handled (t : turn) (a : App) : option (App * option UserCommand) :=
  match event t with
  | Key key control => Handle_Key_Event clock clock (alive t) key control a
  | Mouse kind row => Some (Handle_Mouse_Event kind row a, None)
  | NoInput => Some (a, None)
  end.
Inductive sent : Type := Sent (cmd : UserCommand) | Sent_Quit.
(** What is sent to the core, and whether the loop has ended; [None] when it panics. *)
Fixpoint TUI_Loop (turns : list turn) (a : App) : option (list sent * bool) :=
  match turns with
  | [] => Some ([], false)
  | t :: turns =>
      match drawn t with
      | None => Some ([], true)
      | Some draw =>
          a ← draw a;
          a ← drain_bus a (bus t);
          '(a, cmd) ← handled t a;
          let now := match cmd with Some c => [Sent c] | None => [] end in
          if should_quit a then Some (now ++ [Sent_Quit], true)
          else '(rest, ended) ← TUI_Loop turns a; Some (now ++ rest, ended)
      end
  end.

(** ** The input line is a stack of characters *)
Definition is_char (c : bytes) : bool :=
  Utf8.valid c && match c with b :: _ => (length c =? char_width b)%nat | [] => false end.
Lemma is_char_inv c :
  is_char c = true -> exists b r, c = b :: r /\ Utf8.is_cont b = false /\ Forall (fun x => Utf8.is_cont x = true) r /\
    length c = char_width b.
Proof.
  unfold is_char. intros [Hv Hc]%andb_prop. destruct c as [|b r]; [done|]. apply Nat.eqb_eq in Hc.
  exists b, r. split; [done|]. cbn [Utf8.valid] in Hv. unfold char_width in *. cbn [length] in Hc.
  assert (forall lo hi, Utf8.between lo hi b = true -> lo <= bz b <= hi) as Hbt.
  { intros lo hi. unfold Utf8.between. rewrite andb_true_iff, !Z.leb_le. done. }
  destruct (Z.ltb_spec (bz b) 0x80) as [Hb80|Hb80].
  { destruct r; [|done]. split; [|split; [constructor|done]]. unfold Utf8.is_cont, Utf8.between.
    apply andb_false_iff. left. apply Z.leb_gt. lia. }
  assert (forall x, 0xC0 <= x -> bz b = x -> Utf8.is_cont b = false) as Hnc.
  { intros x Hx Hb. unfold Utf8.is_cont, Utf8.between. apply andb_false_iff. right. apply Z.leb_gt. lia. }
  destruct (Utf8.between 0xC2 0xDF b) eqn:E2; [|destruct (Utf8.between 0xE0 0xEF b) eqn:E3;
    [|destruct (Utf8.between 0xF0 0xF4 b) eqn:E4; [|done]]].
  - apply Hbt in E2. rewrite (proj2 (Z.ltb_lt _ _)) in * by lia. destruct r as [|b1 [|? ?]]; try done. apply andb_prop in Hv as [Hc1 _].
    split; [apply (Hnc (bz b)); lia|]. split; [by repeat constructor|done].
  - apply Hbt in E3. rewrite (proj2 (Z.ltb_ge _ 0xE0)), (proj2 (Z.ltb_lt _ 0xF0)) in * by lia.
    destruct r as [|b1 [|b2 [|? ?]]]; try done. apply andb_prop in Hv as [[Hc1%Utf8.second_ok_cont Hc2]%andb_prop _].
    split; [apply (Hnc (bz b)); lia|]. split; [by repeat constructor|done].
  - apply Hbt in E4. rewrite (proj2 (Z.ltb_ge _ 0xE0)), (proj2 (Z.ltb_ge _ 0xF0)) in * by lia.
    destruct r as [|b1 [|b2 [|b3 [|? ?]]]]; try done.
    apply andb_prop in Hv as [[[Hc1%Utf8.second_ok_cont Hc2]%andb_prop Hc3]%andb_prop _].
    split; [apply (Hnc (bz b)); lia|]. split; [by repeat constructor|done].
Qed.
Lemma char_last l c : is_char c = true -> char_indices_last (l ++ c) = length l.
Proof.
  intros (b & r & -> & Hb & Hr & _)%is_char_inv. unfold char_indices_last. rewrite rev_app_distr. cbn [rev].
  assert (forall k x, Forall (fun x => Utf8.is_cont x = true) k -> lead_conts (k ++ b :: x) = length k) as Hl.
  { intros k x. induction 1 as [|y k Hy HF IH]; cbn; [by rewrite Hb|]. by rewrite Hy, IH. }
  rewrite <- app_assoc. cbn [app]. rewrite Hl by by apply Forall_rev. rewrite length_app, length_rev. cbn [length]. lia.
Qed.
Lemma boundary_end l : Utf8.is_char_boundary l (Z.of_nat (length l)) = true.
Proof. unfold Utf8.is_char_boundary. change (Z.of_nat (length l)) with (zlen l). rewrite Z.eqb_refl. by destruct (_ =? 0). Qed.
Lemma remove_last l c : is_char c = true -> string_remove (length l) (l ++ c) = Some l.
Proof.
  intros (b & r & -> & Hb & _ & Hw)%is_char_inv. unfold string_remove.
  assert ((l ++ b :: r) !! length l = Some b) as Hl by by rewrite lookup_app_r, Nat.sub_diag.
  assert (Utf8.is_char_boundary (l ++ b :: r) (Z.of_nat (length l)) = true) as ->.
  { unfold Utf8.is_char_boundary. rewrite Nat2Z.id, Hl, Hb, (proj2 (Z.leb_le _ _)) by lia.
    by repeat case_match. }
  rewrite Hl. cbn [mbind option_bind]. rewrite <- Hw, take_app_length, <- length_app, drop_all. by rewrite app_nil_r.
Qed.

Definition edits (a : App) (cs : list bytes) : Prop :=
  input_buffer a = concat cs /\ cursor_position a = length (concat cs) /\ Forall (fun c => is_char c = true) cs.
Definition same_input (a a' : App) : Prop :=
  input_buffer a' = input_buffer a /\ cursor_position a' = cursor_position a.
#[local] Hint Unfold same_input : core.
Lemma same_input_trans a b c : same_input a b -> same_input b c -> same_input a c.
Proof. unfold same_input. intros [-> ->] [-> ->]. done. Qed.
Lemma edits_same a a' cs : same_input a a' -> edits a cs -> edits a' cs.
Proof. unfold edits. by intros [-> ->]. Qed.
Lemma update_peer_input id nm l c a : same_input a (Update_Peer id nm l c a).
Proof. unfold Update_Peer. by destruct (peer_position id (app_peers a)). Qed.
Lemma alter_peer_input f id a : same_input a (alter_peer f id a).
Proof. unfold alter_peer. by destruct (peer_position id (app_peers a)). Qed.
Lemma add_log_input now msg a : same_input a (Add_Log now msg a).
Proof. done. Qed.
Lemma handle_state_input now a v : same_input a (handle_state now a v).
Proof.
  unfold handle_state.
  repeat match goal with |- same_input _ (if type_is v ?t then _ else _) => destruct (type_is v t) end; cbn beta zeta;
    try done; try apply update_peer_input.
  - destruct (String.eqb _ ""); (eapply same_input_trans; [apply update_peer_input|]);
      (eapply same_input_trans; [apply alter_peer_input|]); apply alter_peer_input.
  - by case_match.
Qed.
Lemma bus_event_input now a e a' : Handle_Bus_Event now a e = Some a' -> same_input a a'.
Proof.
  destruct e as [[]|v|v|v]; cbn [Handle_Bus_Event]; intros [= <-] || idtac; try done.
  - apply handle_state_input.
  - unfold handle_stream. by repeat case_match.
  - unfold handle_output. destruct (type_is v "cmd_result"); [|destruct (type_is v "help"); intros He; by injection He as <-].
    intros (s & _ & He)%bind_Some. by injection He as <-.
Qed.
Lemma command_input_input now now' al input a : same_input a (Handle_Command_Input now now' al input a).1.
Proof. unfold Handle_Command_Input. by repeat case_match. Qed.

(** What a key does to the characters typed so far. *)
Definition stack (key : KeyCode) (control : bool) (cs : list bytes) : list bytes :=
  match key with
  | Char c => if control && bool_decide (c = as_bytes "c") then cs else cs ++ [c]
  | Backspace => take (length cs - 1) cs
  | Enter | Esc => []
  | _ => cs
  end.
Definition key_ok (key : KeyCode) : Prop := match key with Char c => is_char c = true | _ => True end.
Lemma edits_clear a : edits (Clear_Input a) [].
Proof. done. Qed.
Lemma delete_char a cs : edits a cs -> exists a', Delete_Char a = Some a' /\ edits a' (take (length cs - 1) cs).
Proof.
  intros (Hb & Hc & HF). unfold Delete_Char. destruct cs as [|c cs _] using rev_ind.
  - rewrite Hc. cbn. by exists a.
  - apply Forall_app in HF as [HF Hch]. apply Forall_cons in Hch as [Hch _]. destruct (is_char_inv c Hch) as (b & r & Ec & _).
    rewrite concat_app in *. cbn [concat] in *. rewrite app_nil_r in *.
    assert (cursor_position a <> 0%nat) as Hne by (rewrite Hc, length_app, Ec; cbn; lia).
    apply Nat.eqb_neq in Hne as ->. rewrite Hc, Hb. unfold Utf8.slice at 1. rewrite boundary_end. cbn [andb].
    assert (0 <=? Z.of_nat (length (concat cs ++ c)) = true) as -> by (apply Z.leb_le; lia). cbn [andb].
    change (Utf8.is_char_boundary _ 0) with true. cbn [mbind option_bind andb]. rewrite Z.sub_0_r, Nat2Z.id, drop_0, firstn_all.
    rewrite char_last, remove_last by done. cbn [mbind option_bind]. eexists. split; [done|].
    rewrite length_app, Nat.add_sub, take_app_length. done.
Qed.

Lemma editor_step now now' al key control a cs :
  edits a cs -> key_ok key ->
  exists a' cmd, Handle_Key_Event now now' al key control a = Some (a', cmd) /\ edits a' (stack key control cs) /\
    match key with
    | Enter => cs <> [] -> (a', cmd) = Handle_Command_Input now now' al (concat cs) (Clear_Input a)
    | _ => cmd = None
    end.
Proof.
  intros He Hk. destruct key as [| | | | | | |c|]; cbn [Handle_Key_Event stack].
  - unfold Take_Input. destruct He as (Hb & _ & HF). case_bool_decide as Hn.
    + eexists _, None. split; [done|]. split; [apply edits_clear|]. intros Hcs. destruct cs as [|c cs]; [done|].
      apply Forall_cons in HF as [Hc _]. destruct (is_char_inv c Hc) as (b & r & -> & _). by rewrite Hb in Hn.
    + eexists _, _. split; [by rewrite <- surjective_pairing|]. split; [|intros _; by rewrite <- surjective_pairing, Hb].
      eapply edits_same; [apply command_input_input|apply edits_clear].
  - eexists _, None. split; [done|]. split; [apply edits_clear|done].
  - destruct (delete_char a cs He) as (a' & -> & Ha'). by exists a', None.
  - eexists _, None. split; [done|]. split; [|done]. by destruct control.
  - eexists _, None. split; [done|]. split; [|done]. by destruct control.
  - eexists _, None. by split.
  - eexists _, None. by split.
  - destruct (control && _); [by exists (quit a), None|]. destruct He as (Hb & Hc & HF).
    unfold Input_Char. rewrite Hb, Hc, boundary_end, firstn_all, drop_all, app_nil_r. cbn [mbind option_bind].
    eexists _, None. split; [done|]. split; [|done]. unfold edits. cbn [input_buffer cursor_position with_input].
    rewrite concat_app. cbn [concat]. rewrite app_nil_r, length_app. split; [done|]. split; [done|].
    apply Forall_app. by split; [|constructor].
  - by exists a, None.
Qed.
(** C36: the input line. Whatever bytes the characters take, the line behaves
    as a stack of them: a key that types appends, backspace drops the last
    character, escape and enter empty it. No key makes the editor panic,
    and enter hands over the text typed. *)
Theorem editor_is_a_stack now now' al key control a cs :
  edits a cs -> key_ok key ->
  exists a' cmd, Handle_Key_Event now now' al key control a = Some (a', cmd) /\ edits a' (stack key control cs) /\
    match key with
    | Enter => cs <> [] -> (a', cmd) = Handle_Command_Input now now' al (concat cs) (Clear_Input a)
    | _ => cmd = None
    end.
Proof. apply editor_step. Qed.

(** ** The main loop never panics and ends when told to *)
Definition entry_ok (entry : json) : Prop :=
  match json_str (index entry "layer_bitmap") with
  | Some hex => exists b, length b = 32%nat /\ as_bytes hex = Bitmap_To_Hex b
  | None => True
  end.
Definition event_ok (e : Bus_Event) : Prop :=
  match e with
  | Output v => Forall entry_ok (default [] (json_array (index v "entries")))
  | _ => True
  end.
Definition turn_ok (t : turn) : Prop :=
  (forall d a, drawn t = Some d -> exists a', d a = Some a' /\ same_input a a') /\
  Forall (fun i => match i with Item e => event_ok e | _ => True end) (bus t) /\
  match event t with Key key _ => key_ok key | _ => True end.
Definition ctrl_c (t : turn) : Prop := event t = Key (Char (as_bytes "c")) true.

Lemma entry_suffix_ok entry : entry_ok entry -> is_Some (entry_suffix entry).
Proof.
  unfold entry_ok, entry_suffix. destruct (json_str (index entry "file_name")); [|by eexists].
  destruct (json_str (index entry "layer_bitmap")) as [hex|]; [|by eexists].
  intros (b & Hl & ->). rewrite bitmap_hex_layers by done. cbn [mbind option_bind]. by eexists.
Qed.
Lemma list_output_ok entries :
  Forall (fun e => forall b, entry_bitmap e = Some b -> length b = 32%nat) entries -> event_ok (Output (list_output entries)).
Proof.
  intros HF. unfold event_ok, list_output. cbn. apply Forall_fmap. eapply Forall_impl; [exact HF|].
  intros e He. cbn beta in He. unfold entry_ok. cbn. destruct (entry_bitmap e) as [b|]; cbn; [|done]. cbn.
  exists b. split; [by apply He|]. apply as_of_bytes.
Qed.
Lemma bus_event_ok now a e : event_ok e -> exists a', Handle_Bus_Event now a e = Some a' /\ same_input a a'.
Proof.
  intros He. assert (is_Some (Handle_Bus_Event now a e)) as [a' Ha].
  { destruct e as [[]|v|v|v]; cbn [Handle_Bus_Event]; try by eexists. unfold handle_output.
    destruct (type_is v "cmd_result"); [|destruct (type_is v "help"); by eexists].
    destruct (mapM_is_Some_2 entry_suffix (default [] (json_array (index v "entries")))) as [l ->]; [|by eexists].
    eapply Forall_impl; [exact He|]. apply entry_suffix_ok. }
  exists a'. split; [done|]. by eapply bus_event_input.
Qed.
Lemma drain_ok items a :
  Forall (fun i => match i with Item e => event_ok e | _ => True end) items ->
  exists a', drain_bus a items = Some a' /\ same_input a a'.
Proof.
  intros HF. revert a. induction HF as [|i items Hi HF IH]; intros a; [by exists a|].
  destruct i as [e|n|]; cbn [drain_bus].
  - destruct (bus_event_ok clock a e Hi) as (a1 & -> & H1). cbn [mbind option_bind].
    destruct (IH a1) as (a2 & -> & H2). exists a2. split; [done|]. by eapply same_input_trans.
  - destruct (IH (Add_Log clock ("⚠ 丢失 " +:+ dec n +:+ " 条事件")%string a)) as (a2 & -> & H2). by exists a2.
  - by exists (quit a).
Qed.
Lemma handled_ok t a cs :
  match event t with Key key _ => key_ok key | _ => True end -> edits a cs ->
  exists a' cmd cs', handled t a = Some (a', cmd) /\ edits a' cs' /\ (ctrl_c t -> should_quit a' = true).
Proof.
  intros Hk He. unfold ctrl_c, handled. destruct (event t) as [key control|kind row|].
  - destruct (editor_step clock clock (alive t) key control a cs He Hk) as (a2 & cmd & Hh & He2 & _).
    exists a2, cmd, (stack key control cs). split; [done|]. split; [done|]. intros [= -> ->]. by injection Hh as <- <-.
  - exists (Handle_Mouse_Event kind row a), None, cs. split; [done|]. split; [|done].
    eapply edits_same; [|exact He]. unfold Handle_Mouse_Event. by repeat case_match.
  - by exists a, None, cs.
Qed.
Section loop_invariant.
Context (P : App -> Prop).
(** A turn that draws what satisfies [P], and keeps [P]. *)
Definition turn_keeps (t : turn) : Prop :=
  (forall d a, drawn t = Some d -> P a -> exists a', d a = Some a' /\ same_input a a' /\ P a') /\
  Forall (fun i => match i with Item e => event_ok e | _ => True end) (bus t) /\
  match event t with Key key _ => key_ok key | _ => True end /\
  (forall a a', P a -> drain_bus a (bus t) = Some a' -> P a') /\
  (forall a r, P a -> handled t a = Some r -> P r.1).
Lemma loop_ok turns a cs :
  edits a cs -> P a -> Forall turn_keeps turns ->
  exists cmds ended,
    (TUI_Loop turns a = Some (map Sent cmds, ended) /\ (ended = true -> exists t, t ∈ turns /\ drawn t = None) \/
     TUI_Loop turns a = Some (map Sent cmds ++ [Sent_Quit], ended) /\ ended = true) /\
    ((exists t, t ∈ turns /\ ctrl_c t) -> ended = true).
Proof.
  intros He Ha HF. revert a cs He Ha. induction HF as [|t turns (Hd & Hb & Hk & Hbus & Hev) HF IH]; intros a cs He Ha.
  { exists [], false. split; [by left|]. intros (t & Ht%not_elem_of_nil & _). done. }
  cbn [TUI_Loop]. destruct (drawn t) as [d|] eqn:Ed.
  2:{ exists [], true. split; [|done]. left. split; [done|]. intros _. exists t. split; [by left|done]. }
  destruct (Hd d a eq_refl Ha) as (a0 & -> & H0 & Ha0). cbn [mbind option_bind].
  destruct (drain_ok (bus t) a0 Hb) as (a1 & E1 & H1). rewrite E1. cbn [mbind option_bind].
  assert (edits a1 cs) as He1 by (eapply edits_same; [|exact He]; by eapply same_input_trans).
  destruct (handled_ok t a1 cs Hk He1) as (a2 & cmd & cs2 & E2 & He2 & Hq). rewrite E2.
  pose proof (Hev _ _ (Hbus _ _ Ha0 E1) E2) as Ha2. cbn [fst] in Ha2.
  cbn [mbind option_bind]. destruct (should_quit a2) eqn:Eq.
  - exists (match cmd with Some c => [c] | None => [] end), true. split; [|done]. right. by destruct cmd.
  - destruct (IH a2 cs2 He2 Ha2) as (cmds & ended & Hcase & Hc).
    exists (match cmd with Some c => [c] | None => [] end ++ cmds), ended. rewrite map_app. split.
    + destruct Hcase as [[-> Hen]|[-> ->]]; [left|right]; destruct cmd; (split; [done|]); try done;
        intros Ht; destruct (Hen Ht) as (t' & Ht' & Hdr); exists t'; (split; [apply elem_of_cons; by right|exact Hdr]).
    + intros (t' & [->|Ht']%elem_of_cons & Hcc); [specialize (Hq Hcc); congruence|]. apply Hc. by exists t'.
Qed.
End loop_invariant.

(** the interface. Fed with the node's own events and with keys, it never
    panics; the commands it sends are followed by at most one [Quit], which
    ends it; without [Quit] it ends only because drawing failed, and then the
    node runs on without an interface; Ctrl+C ends it in any case. *)
Theorem tui_terminates turns :
  Forall turn_ok turns ->
  exists cmds ended,
    (TUI_Loop turns App_New = Some (map Sent cmds, ended) /\ (ended = true -> exists t, t ∈ turns /\ drawn t = None) \/
     TUI_Loop turns App_New = Some (map Sent cmds ++ [Sent_Quit], ended) /\ ended = true) /\
    ((exists t, t ∈ turns /\ ctrl_c t) -> ended = true).
Proof.
  intros HF. apply (loop_ok (fun _ => True)) with (cs := []); [done|done|]. eapply Forall_impl; [exact HF|].
  intros t (Hd & Hb & Hk). split_and!; [|done..]. intros d a E _. destruct (Hd d a E) as (a' & H1 & H2). by exists a'.
Qed.

(** ** The peer panel *)
Definition entry_of (id : string) (a : App) : option Peer_Display :=
  snd <$> list_find (fun p => pd_peer_id p = id) (app_peers a).
Lemma find_cons (P : Peer_Display -> Prop) `{!forall x, Decision (P x)} p ps :
  snd <$> list_find P (p :: ps) = if decide (P p) then Some p else snd <$> list_find P ps.
Proof. cbn. case_decide; [done|]. by destruct (list_find P ps) as [[]|]. Qed.
Lemma find_app (P : Peer_Display -> Prop) `{!forall x, Decision (P x)} p ps :
  snd <$> list_find P (ps ++ [p]) =
    match snd <$> list_find P ps with Some q => Some q | None => if decide (P p) then Some p else None end.
Proof.
  induction ps as [|q ps IH]; [cbn; by case_decide|].
  change ((q :: ps) ++ [p]) with (q :: (ps ++ [p])). rewrite !find_cons, IH. by destruct (decide (P q)).
Qed.
Lemma position_cons id p ps :
  peer_position id (p :: ps) = if decide (pd_peer_id p = id) then Some O else S <$> peer_position id ps.
Proof. unfold peer_position. cbn. case_decide; [done|]. by destruct (list_find _ ps) as [[]|]. Qed.
Lemma position_None id ps : peer_position id ps = None <-> snd <$> list_find (fun p => pd_peer_id p = id) ps = None.
Proof. unfold peer_position. destruct (list_find _ ps) as [[]|]; done. Qed.
(** Changing the first entry of an id, keeping the id. *)
Lemma find_alter f id id' ps pos :
  (forall p, pd_peer_id (f p) = pd_peer_id p) -> peer_position id' ps = Some pos ->
  snd <$> list_find (fun p => pd_peer_id p = id) (alter f pos ps) =
    if decide (id = id') then f <$> (snd <$> list_find (fun p => pd_peer_id p = id) ps)
    else snd <$> list_find (fun p => pd_peer_id p = id) ps.
Proof.
  intros Hf. revert pos. induction ps as [|p ps IH]; intros pos; [done|]. rewrite position_cons.
  destruct (decide (pd_peer_id p = id')) as [Hp|Hp].
  - intros [= <-]. change (alter f O (p :: ps)) with (f p :: ps). rewrite !find_cons. cbn beta.
    pose proof (Hf p). destruct (decide (pd_peer_id (f p) = id)), (decide (pd_peer_id p = id)), (decide (id = id')); try done; congruence.
  - intros (n & Hn & ->)%fmap_Some. change (alter f (S n) (p :: ps)) with (p :: alter f n ps). rewrite !find_cons, (IH n Hn).
    destruct (decide (pd_peer_id p = id)); destruct (decide (id = id')); try done; congruence.
Qed.
Lemma find_move id id' ps pos p :
  peer_position id' ps = Some pos -> ps !! pos = Some p ->
  snd <$> list_find (fun p => pd_peer_id p = id) (p :: delete pos ps) = snd <$> list_find (fun p => pd_peer_id p = id) ps.
Proof.
  revert pos. induction ps as [|q ps IH]; intros pos; [done|]. rewrite position_cons.
  destruct (decide (pd_peer_id q = id')) as [Hq|Hq].
  - intros [= <-] [= ->]. done.
  - intros (n & Hn & ->)%fmap_Some Hl. change (delete (S n) (q :: ps)) with (q :: delete n ps). change (ps !! n = Some p) in Hl.
    specialize (IH n Hn Hl). rewrite find_cons in IH. rewrite !find_cons.
    assert (pd_peer_id p = id') as Hp.
    { unfold peer_position in Hn. apply fmap_Some in Hn as ([i x] & Hi & ->). apply list_find_Some in Hi as (Hi & Hx & _). cbn in *. congruence. }
    revert IH. cbn beta. destruct (decide (pd_peer_id p = id)), (decide (pd_peer_id q = id)); congruence || done.
Qed.
Lemma alter_peer_entry f id id' a :
  (forall p, pd_peer_id (f p) = pd_peer_id p) ->
  entry_of id (alter_peer f id' a) = if decide (id = id') then f <$> entry_of id a else entry_of id a.
Proof.
  intros Hf. unfold alter_peer, entry_of. destruct (peer_position id' (app_peers a)) as [pos|] eqn:Ep.
  - cbn [app_peers with_app_peers]. by apply find_alter.
  - case_decide as Hd; [|done]. subst id'. apply position_None in Ep. by rewrite Ep.
Qed.
Definition updated (name : string) (local conn : bool) (p : Peer_Display) : Peer_Display :=
  mk_Peer_Display (if String.eqb name "" then pd_name p else name) (pd_peer_id p) local conn (models p) (pd_sessions p).
Lemma update_peer_entry id id' name local conn a :
  entry_of id (Update_Peer id' name local conn a) =
    if decide (id = id')
    then Some (match entry_of id a with Some p => updated name local conn p | None => mk_Peer_Display name id local conn [] [] end)
    else entry_of id a.
Proof.
  unfold Update_Peer, entry_of. change (fun p => mk_Peer_Display (if String.eqb name "" then pd_name p else name) _ local conn _ _)
    with (updated name local conn). destruct (peer_position id' (app_peers a)) as [pos|] eqn:Ep.
  - cbn [app_peers with_app_peers].
    assert (snd <$> list_find (fun p => pd_peer_id p = id) (alter (updated name local conn) pos (app_peers a)) =
      if decide (id = id') then Some (match snd <$> list_find (fun p => pd_peer_id p = id) (app_peers a) with
        Some p => updated name local conn p | None => mk_Peer_Display name id local conn [] [] end)
      else snd <$> list_find (fun p => pd_peer_id p = id) (app_peers a)) as Hal.
    { rewrite (find_alter _ id id' _ pos) by done. case_decide as Hd; [|done]. subst id'.
      unfold peer_position in Ep. destruct (list_find _ (app_peers a)) as [[]|]; [done|]. done. }
    assert (peer_position id' (alter (updated name local conn) pos (app_peers a)) = Some pos) as Hpos.
    { clear Hal. revert pos Ep. induction (app_peers a) as [|q ps IH]; intros pos Ep; [done|]. rewrite position_cons in Ep.
      case_decide as Hd.
      - injection Ep as <-. change (alter (updated name local conn) O (q :: ps)) with (updated name local conn q :: ps). rewrite position_cons.
        by rewrite decide_True.
      - apply fmap_Some in Ep as (n & Hn & ->). change (alter ?f (S n) (q :: ps)) with (q :: alter f n ps).
        rewrite position_cons, decide_False, (IH n Hn) by done. done. }
    destruct (local && negb (pos =? 0)%nat); [|exact Hal].
    destruct (alter _ pos (app_peers a) !! pos) as [p|] eqn:El; [|exact Hal]. by rewrite (find_move _ _ _ _ _ Hpos El).
  - apply position_None in Ep. destruct local; cbn [app_peers with_app_peers].
    + rewrite find_cons. cbn [pd_peer_id]. destruct (decide (id' = id)) as [->|Hne].
      * rewrite decide_True by done. by rewrite Ep.
      * by rewrite decide_False by congruence.
    + rewrite find_app. cbn [pd_peer_id]. destruct (decide (id' = id)) as [->|Hne].
      * rewrite decide_True by done. by rewrite Ep.
      * rewrite decide_False by congruence. match goal with |- match ?x with _ => _ end = _ => by destruct x end.
Qed.
Lemma remove_peer_entry id id' a :
  entry_of id (Remove_Peer id' a) = if decide (id = id') then None else entry_of id a.
Proof.
  unfold entry_of, Remove_Peer. cbn [app_peers with_app_peers]. induction (app_peers a) as [|p ps IH].
  - by case_decide.
  - cbn [List.filter]. destruct (String.eqb_spec (pd_peer_id p) id') as [Hp|Hp]; cbn [negb]; rewrite ?find_cons, IH; subst.
    + destruct (decide (id = pd_peer_id p)); [done|]. by rewrite decide_False by congruence.
    + destruct (decide (id = id')), (decide (pd_peer_id p = id)); subst; done.
Qed.

Section panel.
Context {PeerId Multiaddr Channel Waiter : Type} (to_string : PeerId -> bytes).
(** The state events of the network service about other nodes and this one. *)
Inductive node_event : Type :=
  | Discovered (p : PeerId)
  | Left (p : PeerId)
  | Connected (p : PeerId)
  | Disconnected (p : PeerId)
  | Info_Updated (p : PeerId) (nm : bytes) (local : bool) (ms : list SupportedModel) (ss : list SessionSummary).
Definition publish (e : node_event) : Network.effect (PeerId:=PeerId) (Multiaddr:=Multiaddr) (Channel:=Channel) (Waiter:=Waiter) :=
  match e with
  | Discovered p => peer_event to_string "peer_discovered" p
  | Left p => peer_event to_string "peer_left" p
  | Connected p => peer_event to_string "peer_connected" p
  | Disconnected p => peer_event to_string "peer_disconnected" p
  | Info_Updated p nm local ms ss => info_event to_string p nm local ms ss
  end.
Definition peer_of (e : node_event) : string :=
  match e with
  | Discovered p | Left p | Connected p | Disconnected p | Info_Updated p _ _ _ _ => of_bytes (to_string p)
  end.
(** A published event as the interface receives it. *)
Definition receive (now : string) (a : App) (eff : Network.effect (PeerId:=PeerId) (Multiaddr:=Multiaddr) (Channel:=Channel) (Waiter:=Waiter)) : option App :=
  match eff with Publish e => Handle_Bus_Event now a e | _ => Some a end.
Definition model_shown (m : SupportedModel) : ModelDisplay :=
  mk_ModelDisplay (file_name m) (of_bytes (layer_range (layer_bitmap m))).
Definition session_shown (s : SessionSummary) : SessionDisplay :=
  mk_SessionDisplay (Peers.session_id s) (session_model_id s) (dec (occupied_slots s) +:+ "/" +:+ dec (total_slots s))%string.
Definition summary_ok (s : SessionSummary) : Prop :=
  in_range 64 (Peers.session_id s) /\ in_range 64 (occupied_slots s) /\ in_range 64 (total_slots s).

Lemma models_shown ms : parse_models_json (Some (models_display ms)) = map model_shown ms.
Proof. unfold models_display. cbn. induction ms as [|m ms IH]; [done|]. cbn. by f_equal. Qed.
Lemma sessions_shown ss : Forall summary_ok ss -> parse_sessions_json (Some (sessions_display ss)) = map session_shown ss.
Proof.
  unfold sessions_display. cbn. induction 1 as [|s ss (H1 & H2 & H3) HF IH]; [done|]. cbn [map omap list_omap].
  rewrite IH. unfold parse_one_session at 1.
  repeat match goal with |- context [field (JObj ?l) ?k] => let r := eval cbv [field List.find fmap option_fmap option_map snd String.eqb Ascii.eqb Bool.eqb] in (field (JObj l) k) in
    change (field (JObj l) k) with r end.
  cbn [mbind option_bind json_str]. rewrite !json_u64_ok by done. done.
Qed.

(** One event, as the panel shows it. *)
Definition step_entry (e : node_event) (o : option Peer_Display) : option Peer_Display :=
  let up nm local conn := match o with
    | Some p => updated nm local conn p
    | None => mk_Peer_Display nm (peer_of e) local conn [] []
    end in
  match e with
  | Left _ => None
  | Discovered _ | Disconnected _ => Some (up "" false false)%string
  | Connected _ => Some (up "" false true)%string
  | Info_Updated _ nm local ms ss =>
      let p := up (of_bytes nm) local true in
      Some (mk_Peer_Display (pd_name p) (pd_peer_id p) local true (map model_shown ms) (map session_shown ss))
  end.
Definition node_event_ok (e : node_event) : Prop := match e with Info_Updated _ _ _ _ ss => Forall summary_ok ss | _ => True end.
Lemma entry_step now a e :
  node_event_ok e ->
  exists a', receive now a (publish e) = Some a' /\
    forall id, entry_of id a' = if decide (id = peer_of e) then step_entry e (entry_of id a) else entry_of id a.
Proof.
  intros Hok. exists (match publish e with Publish (State v) => handle_state now a v | _ => a end). split; [by destruct e|].
  intros id. destruct e as [p|p|p|p|p nm local ms ss].
  - change (entry_of id (Update_Peer (of_bytes (to_string p)) "" false false a) = 
      if decide (id = of_bytes (to_string p)) then step_entry (Discovered p) (entry_of id a) else entry_of id a).
    rewrite update_peer_entry. case_decide; [subst|done]. done.
  - change (entry_of id (Remove_Peer (of_bytes (to_string p)) a) =
      if decide (id = of_bytes (to_string p)) then None else entry_of id a). apply remove_peer_entry.
  - change (entry_of id (Update_Peer (of_bytes (to_string p)) "" false true a) = 
      if decide (id = of_bytes (to_string p)) then step_entry (Connected p) (entry_of id a) else entry_of id a).
    rewrite update_peer_entry. case_decide; [subst|done]. done.
  - change (entry_of id (Update_Peer (of_bytes (to_string p)) "" false false a) = 
      if decide (id = of_bytes (to_string p)) then step_entry (Disconnected p) (entry_of id a) else entry_of id a).
    rewrite update_peer_entry. case_decide; [subst|done]. done.
  - set (id' := of_bytes (to_string p)).
    assert (forall b x, entry_of id (if String.eqb b "" then x else Add_Log now ("节点信息: " +:+ b)%string x) = entry_of id x) as Hlog
      by (intros b x; by destruct (String.eqb b "")).
    change (entry_of id (if String.eqb (of_bytes nm) "" then
      Update_Peer_Sessions id' (parse_sessions_json (Some (sessions_display ss)))
        (Update_Peer_Models id' (parse_models_json (Some (models_display ms))) (Update_Peer id' (of_bytes nm) local true a))
      else Add_Log now ("节点信息: " +:+ of_bytes nm)%string (Update_Peer_Sessions id' (parse_sessions_json (Some (sessions_display ss)))
        (Update_Peer_Models id' (parse_models_json (Some (models_display ms))) (Update_Peer id' (of_bytes nm) local true a)))) =
      if decide (id = id') then step_entry (Info_Updated p nm local ms ss) (entry_of id a) else entry_of id a).
    rewrite Hlog. unfold Update_Peer_Sessions, Update_Peer_Models. rewrite !alter_peer_entry by done.
    rewrite update_peer_entry. case_decide; [|done]. rewrite models_shown, sessions_shown by done. cbn [fmap option_fmap option_map].
    subst id. unfold step_entry. by destruct (entry_of id' a).
Qed.

(** the peer panel. After any sequence of the node's events, what it shows
    of a peer is decided by that peer's events alone, the last ones: its
    connection by the last one, its name, models with their layer ranges and
    sessions by the last info. Discovering a peer again overrides a connection:
    a connected peer is then shown as disconnected. *)
Theorem panel_follows_events now events a :
  Forall node_event_ok events ->
  exists a', foldl (fun o e => o ≫= fun a => receive now a (publish e)) (Some a) events = Some a' /\
    (forall id, entry_of id a' =
       foldl (fun o e => step_entry e o) (entry_of id a) (List.filter (fun e => bool_decide (id = peer_of e)) events)) /\
    (forall p events', events = events' ++ [Connected p; Discovered p] ->
       exists d, entry_of (of_bytes (to_string p)) a' = Some d /\ connected d = false).
Proof.
  intros HF. assert (exists a', foldl (fun o e => o ≫= fun a => receive now a (publish e)) (Some a) events = Some a' /\
    forall id, entry_of id a' =
       foldl (fun o e => step_entry e o) (entry_of id a) (List.filter (fun e => bool_decide (id = peer_of e)) events)) as (a' & H1 & H2).
  { revert a. induction HF as [|e events He HF IH]; intros a; [by exists a|]. cbn [foldl mbind option_bind].
    destruct (entry_step now a e He) as (a1 & -> & Ha1). destruct (IH a1) as (a' & Hf & Hid). exists a'. split; [exact Hf|].
    intros id. rewrite Hid, Ha1. cbn [List.filter]. destruct (decide (id = peer_of e)) as [Hd|Hd].
    - by rewrite bool_decide_eq_true_2.
    - by rewrite bool_decide_eq_false_2. }
  exists a'. split; [exact H1|]. split; [exact H2|]. intros p events' ->. rewrite H2, List.filter_app. cbn [List.filter peer_of].
  rewrite bool_decide_eq_true_2 by done. rewrite foldl_app. cbn [foldl]. eexists. split; [reflexivity|]. done.
Qed.
End panel.
End tui.

(** ** Concrete runs *)
Module Example_Tui.
Definition f64 (v : json) : option Z := match v with JNum n => Some n | _ => None end.
Definition no_array (s : string) : option (list json) := None.
Definition app0 : App := App_New (F:=Z) 0.
Definition keys (l : list bytes) : list turn := map (fun c => mk_turn (F:=Z) (Some Some) [] (Key (Char c) false) true) l.
Definition press (k : KeyCode) (control : bool) (b : list bus_item) : turn := mk_turn (F:=Z) (Some Some) b (Key k control) true.
Definition loop (turns : list turn) := TUI_Loop (F:=Z) 0 f64 dec (fun b => b) (fun s => s) no_array "12:00:00" turns app0.
Example typed_ls : loop (keys [as_bytes "l"; as_bytes "s"] ++ [press Enter false []; press (Char (as_bytes "c")) true []])
  = Some ([Sent CmdList; Sent_Quit], true).
Proof. by vm_compute. Qed.
Example backspace_multibyte : loop (keys [as_bytes "l"; as_bytes "节"] ++ [press Backspace false []] ++ keys [as_bytes "s"] ++ [press Enter false []])
  = Some ([Sent CmdList], false).
Proof. by vm_compute. Qed.
Definition ts (p : N) : bytes := Num.print_dec (Z.of_N p).
End Example_Tui.
Import Example_Tui.
Lemma editor_is_a_stack_witness :
  exists a' cmd,
    Handle_Key_Event (F:=Z) 0 (fun b => b) "" "" true Backspace false (with_input (as_bytes "l节") 4 app0) = Some (a', cmd) /\
    edits a' [as_bytes "l"].
Proof.
  destruct (editor_is_a_stack (F:=Z) 0 (fun b => b) "" "" true Backspace false (with_input (as_bytes "l节") 4 app0)
    [as_bytes "l"; as_bytes "节"]) as (a' & cmd & H1 & H2 & _).
  - split; [by vm_compute|]. split; [by vm_compute|]. repeat constructor.
  - exact I.
  - exists a', cmd. split; [exact H1|exact H2].
Defined.
Lemma tui_terminates_witness :
  exists cmds ended, (loop [press (Char (as_bytes "节")) false [Item (Output (cmd_output "ok" true)); Lagged 3]; press (Char (as_bytes "c")) true []]
    = Some (map Sent cmds, ended) \/
    loop [press (Char (as_bytes "节")) false [Item (Output (cmd_output "ok" true)); Lagged 3]; press (Char (as_bytes "c")) true []]
    = Some (map Sent cmds ++ [Sent_Quit], ended)) /\ ended = true.
Proof.
  destruct (tui_terminates (F:=Z) 0 f64 dec (fun b => b) (fun s => s) no_array "12:00:00"
    [press (Char (as_bytes "节")) false [Item (Output (cmd_output "ok" true)); Lagged 3]; press (Char (as_bytes "c")) true []])
    as (cmds & ended & Hc & He).
  - constructor; [|constructor; [|constructor]]; (split; [intros d a E; injection E as <-; by exists a|]).
    + split; [|reflexivity]. constructor; [apply Forall_nil_2|]. constructor; [exact I|constructor].
    + split; [constructor|reflexivity].
  - exists cmds, ended. split.
    + destruct Hc as [[Hc _]|[Hc _]]; [left; exact Hc|right; exact Hc].
    + apply He. eexists. split; [right; left|reflexivity].
Defined.
Lemma panel_follows_events_witness :
  exists a' d,
    foldl (fun o e => o ≫= fun a => receive (F:=Z) 0 f64 dec (fun s => s) no_array "12:00:00" a
             (publish (Multiaddr:=N) (Channel:=nat) (Waiter:=nat) ts e))
      (Some app0) [Info_Updated 7%N (as_bytes "bob") false [] [mk_SessionSummary 1 "qwen3" 0 4]; Connected 7%N; Discovered 7%N] = Some a' /\
    entry_of "7" a' = Some d /\ connected d = false.
Proof.
  destruct (panel_follows_events (F:=Z) 0 f64 dec (fun s => s) no_array (Multiaddr:=N) (Channel:=nat) (Waiter:=nat) ts "12:00:00"
    [Info_Updated 7%N (as_bytes "bob") false [] [mk_SessionSummary 1 "qwen3" 0 4]; Connected 7%N; Discovered 7%N] app0)
    as (a' & H1 & _ & H2).
  - repeat constructor; by vm_compute.
  - destruct (H2 7%N [Info_Updated 7%N (as_bytes "bob") false [] [mk_SessionSummary 1 "qwen3" 0 4]] eq_refl) as (d & H3 & H4).
    exists a', d. split; [exact H1|]. split; [exact H3|exact H4].
Defined.
