(* ===== verification/ApiServer.v ===== *)
(** * The HTTP interface of a session ([Src/API])

    The requests and answers of the OpenAI-compatible server ([types.rs]), the
    task that owns a slot and serves the requests in turn and the two
    endpoints ([routes.rs]), and the start of a server ([server.rs]).

    A session is what it puts into the slot's token channel for each prompt,
    and whether it ends after it.  Axum, the clock and the operating system's
    ports are outside. *)
From S2P Require Import Prelude RustStd Wire Json Codec Bitmap Peers Sessions ChatTemplate Network Storage Programs Orchestrator.

(** ** [types.rs] *)
Record ChatMessage : Type := mk_ChatMessage { role : string; content : string }.
Record ChatCompletionRequest : Type := mk_ChatCompletionRequest {
  req_model : string;
  req_messages : list ChatMessage;
  req_stream : bool;
  req_max_tokens : Z;
}.
Definition default_max_tokens : Z := 256.
(** The derived readers: required fields, and defaults for absent ones. *)
Definition read_ChatMessage (v : json) : option ChatMessage :=
  r ← (x ← field v "role"; json_str x); c ← (x ← field v "content"; json_str x); Some (mk_ChatMessage r c).
Definition read_ChatCompletionRequest (v : json) : option ChatCompletionRequest :=
  model ← (x ← field v "model"; json_str x);
  ms ← (x ← field v "messages"; l ← json_array x; mapM read_ChatMessage l);
  st ← match field v "stream" with None => Some false | Some x => json_bool x end;
  mt ← match field v "max_tokens" with
       | None => Some default_max_tokens
       | Some x => n ← json_u64 x; if in_rangeb 32 n then Some n else None
       end;
  Some (mk_ChatCompletionRequest model ms st mt).
Definition ChatCompletionResponse (id : string) (created : Z) (model content : string) : json :=
  JObj [("id", JStr id); ("object", JStr "chat.completion"); ("created", JNum created); ("model", JStr model);
    ("choices", JArr [JObj [("index", JNum 0);
       ("message", JObj [("role", JStr "assistant"); ("content", JStr content)]);
       ("finish_reason", JStr "stop")]])]%string.
Definition ChatCompletionChunk (id : string) (created : Z) (model : string) (delta finish_reason : option string) : json :=
  JObj [("id", JStr id); ("object", JStr "chat.completion.chunk"); ("created", JNum created); ("model", JStr model);
    ("choices", JArr [JObj [("index", JNum 0);
       ("delta", JObj match delta with Some t => [("content", JStr t)] | None => [] end);
       ("finish_reason", opt_json JStr finish_reason)]])]%string.
Definition ModelsResponse (model : string) : json :=
  JObj [("object", JStr "list");
    ("data", JArr [JObj [("id", JStr model); ("object", JStr "model"); ("created", JNum 0); ("owned_by", JStr "pleiades")]])]%string.

(** ** The slot handler *)
(** [listens]: how many tokens a streaming client takes before it goes away; [None]: it stays. *)
Record ApiRequest : Type := mk_ApiRequest {
  messages : list ChatMessage;
  max_tokens : Z;
  stream : bool;
  listens : option nat;
}.
(** [Stream]: the tokens that went through the channel, once it is closed. *)
Inductive ApiResponse : Type :=
  | NonStreaming (text : string)
  | Streamed (tokens : list string)
  | ApiError (msg : string).
(** [Dropped]: the handler is gone. [Waiting]: no answer, or no end of it, ever comes. *)
Inductive outcome : Type := Replied (r : ApiResponse) | Dropped | Waiting (tokens : list string).

Inductive read_end : Set := Sentinel_read | Receiver_gone | Channel_empty.
(** [while let Some(token) = token_rx.recv().await]: the tokens handed on, the queue left, the reason to stop. *)
Fixpoint read_tokens (listens : option nat) (queue : list string) : list string * list string * read_end :=
  match queue with
  | [] => ([], [], Channel_empty)
  | token :: queue =>
      if String.eqb token sentinel then ([], queue, Sentinel_read)
      else match listens with
      | Some O => ([], queue, Receiver_gone)
      | _ => let '(ts, rest, e) := read_tokens (pred <$> listens) queue in (token :: ts, rest, e)
      end
  end.
(** What the session does with a prompt: the messages it sends, and whether it ends then. *)
Record reaction : Type := mk_reaction { texts : list string; closes : bool }.
Definition session_request (r : ApiRequest) : SessionRequest (Messages:=list Message) :=
  mk_SessionRequest (map (fun m => mk_message (as_bytes (role m)) (as_bytes (content m))) (messages r)) (max_tokens r).
(** The prompts accepted and what becomes of each request. *)
Fixpoint spawn_slot_handler (reqs : list ApiRequest) (session : list reaction) (queue : list string)
    : list (SessionRequest (Messages:=list Message)) * list outcome :=
  match reqs with
  | [] => ([], [])
  | req :: reqs =>
      match session with
      | [] => ([], Replied (ApiError "session closed") :: map (fun _ => Dropped) reqs)
      | r :: session =>
          let listens := if stream req then listens req else None in
          let '(ts, rest, e) := read_tokens listens (queue ++ texts r) in
          let reply := if stream req then Streamed ts else NonStreaming (String.concat "" ts) in
          match e, closes r with
          | Channel_empty, false =>
              ([session_request req], Waiting (if stream req then ts else []) :: map (fun _ => Waiting []) reqs)
          | _, cl =>
              let (ps, os) := spawn_slot_handler reqs (if cl then [] else session) rest in
              (session_request req :: ps, Replied reply :: os)
          end
      end
  end.

(** ** The endpoints *)
Inductive sse_event : Type := Chunk (data : json) | DONE.
Inductive http_response : Type :=
  | Http_json (status : Z) (body : json)
  | Http_sse (events : list sse_event)
  | Http_status (status : Z)
  | Http_pending (events : list sse_event). (** never completed *)
Definition list_models (model_id : string) : http_response := Http_json 200 (ModelsResponse model_id).
Section endpoint.
Context (completion_id model_id : string) (created : Z).
Definition token_chunk (token : string) : sse_event :=
  Chunk (ChatCompletionChunk completion_id created model_id (Some token) None).
Definition sse_token_stream (tokens : list string) : list sse_event :=
  map token_chunk tokens ++ [Chunk (ChatCompletionChunk completion_id created model_id None (Some "stop"%string)); DONE].
(** The request handed to the slot handler; [Err] is a refusal. *)
Definition chat_request (req : ChatCompletionRequest) (client : option nat) : result http_response ApiRequest :=
  match req_messages req with
  | [] => Err (Http_status 400)
  | _ => Ok (mk_ApiRequest (req_messages req) (req_max_tokens req) (req_stream req) client)
  end.
Definition chat_response (o : outcome) : http_response :=
  match o with
  | Dropped => Http_status 500
  | Waiting ts => Http_pending (map token_chunk ts)
  | Replied (ApiError msg) => Http_json 500 (JObj [("error"%string, JStr msg)])
  | Replied (NonStreaming text) => Http_json 200 (ChatCompletionResponse completion_id created model_id text)
  | Replied (Streamed ts) => Http_sse (sse_token_stream ts)
  end.
End endpoint.

(** ** Starting a server *)
Definition show_session_error (e : Session_Error) : string :=
  match e with
  | SessionNotFound id => "SessionNotFound: " +:+ dec id
  | SlotExhausted id => "SlotExhausted: " +:+ dec id
  end%string.
Fixpoint first_free (free : Z -> bool) (start : Z) (n : nat) : option Z :=
  match n with
  | O => None
  | S n => if free start then Some start else first_free free (start + 1) n
  end.
Definition find_available_port (free : Z -> bool) (start : Z) : result string Z :=
  ok_or ("no available port in range " +:+ dec start +:+ "-" +:+ dec (start + 99))%string (first_free free start 100).
(** [bind]: whether the port can be bound once it was found free. The channels
    are those of the handle; the task that serves them is started first. *)
Definition spawn_api_server (free : Z -> bool) (bind : Z -> result string unit) (session_id : Z) (m : SessionManager)
    : result string Z * SessionManager * option SlotHandle :=
  match allocate_slot session_id m with
  | (Err e, m) =>
      (Err ("allocate_slot: " +:+ show_session_error e +:+ " (session may not exist or slots exhausted)")%string, m, None)
  | (Ok h, m) =>
      match find_available_port free 8080 with
      | Err e => (Err e, m, Some h)
      | Ok port =>
          match bind port with
          | Err e => (Err ("bind 127.0.0.1:" +:+ dec port +:+ ": " +:+ e)%string, m, Some h)
          | Ok _ => (Ok port, m, Some h)
          end
      end
  end.

(** ** The text a client gets *)
Definition delta_of (e : sse_event) : string :=
  match e with
  | Chunk d =>
      match index d "choices" with
      | JArr (c :: _) => str_or (index c "delta") "content" ""
      | _ => ""
      end
  | DONE => ""
  end%string.
Definition text_of (r : http_response) : option string :=
  match r with
  | Http_json 200 body =>
      match index body "choices" with
      | JArr (c :: _) => json_str (index (index c "message") "content")
      | _ => None
      end
  | Http_sse events =>
      if bool_decide (List.last (map (fun e => match e with DONE => true | _ => false end) events) false = true)
      then Some (String.concat "" (map delta_of events)) else None
  | _ => None
  end.
Definition answer (tokens : list string) : reaction := mk_reaction (tokens ++ [sentinel]) false.

Lemma append_nil_r s : (s +:+ "")%string = s.
Proof. induction s as [|c s IH]; [done|]. change (String c (s +:+ "") = String c s)%string. by rewrite IH. Qed.
Lemma append_assoc a b c : (a +:+ (b +:+ c))%string = ((a +:+ b) +:+ c)%string.
Proof.
  induction a as [|x a IH]; [done|]. change (String x (a +:+ (b +:+ c)) = String x ((a +:+ b) +:+ c))%string. by rewrite IH.
Qed.
Lemma concat_app_str l k : String.concat "" (l ++ k) = (String.concat "" l +:+ String.concat "" k)%string.
Proof.
  assert (forall x (r : list string), String.concat "" (x :: r) = (x +:+ String.concat "" r)%string) as Hc.
  { intros x [|y r]; [|done]. cbn. by rewrite append_nil_r. }
  induction l as [|x l IH]; [done|]. change ((x :: l) ++ k) with (x :: (l ++ k)). rewrite !Hc, IH. apply append_assoc.
Qed.
Lemma sse_text id model created ts : text_of (Http_sse (sse_token_stream id model created ts)) = Some (String.concat "" ts).
Proof.
  unfold text_of, sse_token_stream. rewrite map_app. cbn [map]. change [false; true] with ([false] ++ [true]).
  rewrite app_assoc, List.last_last. rewrite bool_decide_eq_true_2 by done.
  f_equal. rewrite map_app, concat_app_str, map_map. replace (map _ ts) with ts.
  - cbn. by rewrite append_nil_r.
  - symmetry. apply map_id.
Qed.
Lemma read_all ts rest : sentinel ∉ ts -> read_tokens None (ts ++ sentinel :: rest) = (ts, rest, Sentinel_read).
Proof.
  induction ts as [|t ts IH]; intros Hn; [done|]. apply not_elem_of_cons in Hn as [Ht Hn]. cbn [app read_tokens].
  rewrite (proj2 (String.eqb_neq _ _)) by congruence. cbn [fmap option_fmap option_map]. by rewrite IH.
Qed.
Lemma read_some k ts rest :
  sentinel ∉ ts -> (k < length ts)%nat ->
  read_tokens (Some k) (ts ++ rest) = (take k ts, drop (S k) ts ++ rest, Receiver_gone).
Proof.
  revert ts. induction k as [|k IH]; intros ts Hn Hk; (destruct ts as [|t ts]; [cbn in Hk; lia|]);
    apply not_elem_of_cons in Hn as [Ht Hn]; cbn [app read_tokens]; rewrite (proj2 (String.eqb_neq _ _)) by congruence; [done|].
  cbn [fmap option_fmap option_map pred]. cbn [length] in Hk. rewrite IH by (done || lia). done.
Qed.

(** A queue that still holds the answers [pending] besides those to come. *)
Lemma handler_serves reqs answers pending :
  Forall (fun ts => sentinel ∉ ts) (pending :: answers) -> (length reqs <= length answers)%nat ->
  Forall (fun r => listens r = None) reqs ->
  spawn_slot_handler reqs (map answer answers) (pending ++ [sentinel]) =
    (map session_request reqs,
     zip_with (fun r ts => Replied (if stream r then Streamed ts else NonStreaming (String.concat "" ts)))
       reqs (take (length reqs) (pending :: answers))) /\
  spawn_slot_handler reqs (map answer answers) [] =
    (map session_request reqs,
     zip_with (fun r ts => Replied (if stream r then Streamed ts else NonStreaming (String.concat "" ts)))
       reqs (take (length reqs) answers)).
Proof.
  revert answers pending. induction reqs as [|r reqs IH]; intros answers pending HF Hl Hs; [done|].
  destruct answers as [|ts answers]; [cbn in Hl; lia|]. apply Forall_cons in HF as [Hp HF]. pose proof HF as HF'.
  apply Forall_cons in HF as [Ht HF]. apply Forall_cons in Hs as [Hr Hs]. cbn [length] in Hl.
  destruct (IH answers ts HF' ltac:(lia) Hs) as [IH1 IH2]. cbn [spawn_slot_handler map texts closes answer].
  rewrite Hr. assert ((if stream r then None else @None nat) = None) as -> by by destruct (stream r). split.
  - rewrite <- app_assoc. cbn [app]. rewrite (read_all pending) by done. cbn [texts closes]. rewrite IH1. done.
  - cbn [app]. rewrite read_all by done. rewrite IH2. done.
Qed.

(** C32: one answer per request, the same text either way. As long as the session
    answers every prompt it is sent with tokens that are not the sentinel and then
    the sentinel, and every streaming client stays, request [i] gets exactly the
    answer to prompt [i], and the text of the response is the concatenation of that
    answer's tokens, streamed or not. ([api_bad_turns]: what happens when one of
    these fails; a prompt that is skipped hangs its request and all later ones.) *)
Theorem api_answers_in_order reqs answers id model created :
  Forall (fun ts => sentinel ∉ ts) answers -> length reqs = length answers -> Forall (fun r => listens r = None) reqs ->
  let '(prompts, outcomes) := spawn_slot_handler reqs (map answer answers) [] in
  prompts = map session_request reqs /\
  map (fun o => text_of (chat_response id model created o)) outcomes = map (fun ts => Some (String.concat "" ts)) answers.
Proof.
  intros HF Hl Hs. destruct (handler_serves reqs answers [] ltac:(constructor; [apply not_elem_of_nil|done]) ltac:(lia) Hs) as [_ ->].
  split; [done|]. rewrite Hl, firstn_all. clear HF Hs. revert answers Hl.
  induction reqs as [|r reqs IH]; intros [|ts answers] Hl; try done. cbn [zip_with map]. f_equal; [|apply IH; cbn in Hl; lia].
  destruct (stream r); [|done]. apply sse_text.
Qed.

(** what one bad turn does to the clients after it. A streaming client that
    leaves early leaves the rest of its answer in the queue: the next request
    gets that rest, and from then on every request gets the answer to the prompt
    before its own. A prompt the session skips without a sentinel, which it
    does when the messages cannot be encoded, is never answered and neither is
    any request after it. *)
Theorem api_bad_turns reqs ts answers r k :
  Forall (fun ts => sentinel ∉ ts) (ts :: answers) -> length reqs = length answers -> Forall (fun r => listens r = None) reqs ->
  stream r = true -> listens r = Some k -> (k < length ts)%nat ->
  (spawn_slot_handler (r :: reqs) (answer ts :: map answer answers) []).2 =
    Replied (Streamed (take k ts)) ::
    zip_with (fun r ts => Replied (if stream r then Streamed ts else NonStreaming (String.concat "" ts)))
      reqs (take (length reqs) (drop (S k) ts :: answers)) /\
  forall q session, listens q = None ->
    (spawn_slot_handler (q :: reqs) (mk_reaction [] false :: session) []).2 = Waiting [] :: map (fun _ => Waiting []) reqs.
Proof.
  intros HF Hl Hs Hr Hk Hlt. apply Forall_cons in HF as [Ht HF]. split.
  - cbn [spawn_slot_handler texts closes answer app]. rewrite Hr, Hk, read_some by done. cbn [closes].
    destruct (handler_serves reqs answers (drop (S k) ts)) as [-> _]; [|lia|done|done].
    constructor; [|done]. intros Hi. apply Ht. rewrite <- (take_drop (S k) ts). apply elem_of_app. by right.
  - intros q session Hq. cbn [spawn_slot_handler]. rewrite Hq. by destruct (stream q).
Qed.

Lemma first_free_spec free start n :
  match first_free free start n with
  | Some p => start <= p < start + Z.of_nat n /\ free p = true /\ forall q, start <= q < p -> free q = false
  | None => forall q, start <= q < start + Z.of_nat n -> free q = false
  end.
Proof.
  revert start. induction n as [|n IH]; intros start; cbn [first_free]; [intros q Hq; lia|].
  destruct (free start) eqn:E; [split; [lia|]; split; [done|]; intros q Hq; lia|].
  specialize (IH (start + 1)). destruct (first_free free (start + 1) n) as [p|].
  - destruct IH as (H1 & H2 & H3). split; [lia|]. split; [done|]. intros q Hq.
    destruct (decide (q = start)) as [->|Hne]; [done|]. apply H3. lia.
  - intros q Hq. destruct (decide (q = start)) as [->|Hne]; [done|]. apply IH. lia.
Qed.

(** starting a server. It answers a port only of the hundred from 8080 on,
    the first free one, and only with a slot of the session. When no port is
    free, or the port is taken in between, the slot stays occupied although
    there is no server. *)
Theorem spawn_api_server_spec free bind sid m s :
  sessions m !! sid = Some s ->
  let '(r, m', slot) := spawn_api_server free bind sid m in
  match r with
  | Ok port => 8080 <= port < 8180 /\ free port = true /\ bind port = Ok tt /\ (forall q, 8080 <= q < port -> free q = false)
  | Err _ => slot <> None -> forall port, 8080 <= port < 8180 -> free port = true ->
      exists p e, bind p = Err e /\ free p = true
  end /\
  match slot with
  | Some h => exists s', sessions m' !! sid = Some s' /\ occupied_count s' = S (occupied_count s)
  | None => occupied_count s = length (slots s) /\ is_ok r = false
  end.
Proof.
  intros Hs. unfold spawn_api_server, allocate_slot. rewrite Hs. pose proof (allocate_release_spec (next_chan m) s 0) as [Ha _].
  destruct (allocate (next_chan m) s) as [[i|] s1].
  - destruct Ha as (_ & _ & _ & Hc). pose proof (first_free_spec free 8080 100) as Hf. unfold find_available_port.
    destruct (first_free free 8080 100) as [port|]; cbn [ok_or].
    + destruct Hf as (H1 & H2 & H3). destruct (bind port) as [[]|e] eqn:Eb.
      * split; [split; [lia|]; done|]. eexists. split; [cbn; apply lookup_insert_eq|]. exact Hc.
      * split; [|eexists; split; [cbn; apply lookup_insert_eq|exact Hc]]. intros _ q _ _. by exists port, e.
    + split; [|eexists; split; [cbn; apply lookup_insert_eq|exact Hc]]. intros _ q Hq Hfr. rewrite Hf in Hfr; [done|lia].
  - destruct Ha as [_ Hc]. split; [done|]. by split.
Qed.

Module Example_Api.
Definition ask (stream : bool) (listens : option nat) (text : string) : ApiRequest :=
  mk_ApiRequest [mk_ChatMessage "user" text] 256 stream listens.
Definition manager : SessionManager := (create_session (fun m => (map_to_list m).*2) "qwen3" (SessionManager_new 4)).1.2.
Definition session1 : Session := Session_new 1 "qwen3" 4 1.
Example read_request : read_ChatCompletionRequest
    (JObj [("model", JStr "m"); ("messages", JArr [JObj [("role", JStr "user"); ("content", JStr "hi")]]); ("stream", JBool true)])
  = Some (mk_ChatCompletionRequest "m" [mk_ChatMessage "user" "hi"] true 256).
Proof. reflexivity. Qed.
End Example_Api.
Import Example_Api.
Lemma api_answers_in_order_witness :
  let '(prompts, outcomes) := spawn_slot_handler [ask true None "a"; ask false None "b"]
    (map answer [["x"; "y"]; ["z"]]%string) [] in
  prompts = map session_request [ask true None "a"; ask false None "b"] /\
  map (fun o => text_of (chat_response "id" "m" 0 o)) outcomes = [Some "xy"; Some "z"]%string.
Proof.
  apply (api_answers_in_order [ask true None "a"; ask false None "b"] [["x"; "y"]; ["z"]]%string "id" "m" 0).
  - apply (bool_decide_unpack _). by vm_compute.
  - reflexivity.
  - repeat constructor.
Defined.
Lemma api_bad_turns_witness :
  (spawn_slot_handler [ask true (Some 1%nat) "a"; ask false None "b"; ask false None "c"]
    (map answer [["x"; "y"; "z"]; ["B"]; ["C"]]%string) []).2
  = [Replied (Streamed ["x"]); Replied (NonStreaming "z"); Replied (NonStreaming "B")]%string.
Proof.
  destruct (api_bad_turns [ask false None "b"; ask false None "c"] ["x"; "y"; "z"]%string [["B"]; ["C"]]%string
    (ask true (Some 1%nat) "a") 1) as [H _].
  - apply (bool_decide_unpack _). by vm_compute.
  - reflexivity.
  - repeat constructor.
  - reflexivity.
  - reflexivity.
  - cbn. lia.
  - exact H.
Defined.
Lemma spawn_api_server_spec_witness :
  let '(r, m', slot) := spawn_api_server (fun p => 8081 <? p) (fun _ => Ok tt) 1 manager in
  r = Ok 8082 /\ exists s', sessions m' !! 1 = Some s' /\ occupied_count s' = 1%nat.
Proof.
  pose proof (spawn_api_server_spec (fun p => 8081 <? p) (fun _ => Ok tt) 1 manager session1 eq_refl) as H.
  assert (spawn_api_server (fun p => 8081 <? p) (fun _ => Ok tt) 1 manager =
    (Ok 8082, (spawn_api_server (fun p => 8081 <? p) (fun _ => Ok tt) 1 manager).1.2, Some (mk_SlotHandle 1 0 0))) as E
    by reflexivity.
  rewrite E in *. destruct H as [_ H]. split; [reflexivity|exact H].
Defined.
