(* ===== verification/Scheduling.v ===== *)
(** * Who serves which layers ([list_model_peers] of [Src/VM/capability_binding.rs])

    What a script is told about a model's shards: the entries of every peer and
    of the local storage ([RawEntry]), their layer ranges in pipeline
    coordinates ([adjust_range] of [Bitmap]), the merge of overlapping
    entries of one peer, and the resulting table.  The iteration order of the
    groups is a parameter.  Layer numbers are [u32], their differences [i64]. *)
From S2P Require Import Prelude RustStd Wire Bitmap Gguf Peers Storage.

Record RawEntry : Type := mk_RawEntry {
  re_peer_id : string; re_name : bytes; re_file_name : string; re_model_id : Z;
  min_bit : Z; max_bit : Z; re_num_layers : option Z; re_latency : option Z;
}.
Record Ranged : Type := mk_Ranged {
  rg_peer_id : string; rg_name : bytes; rg_file_name : string; rg_model_id : Z;
  start : Z; end_ : Z; rg_latency : option Z;
}.
(** A row of the result table; [devices] is the same for every node. *)
Record Shard : Type := mk_Shard {
  sh_peer_id : string; sh_name : bytes; layer_start : Z; layer_end : Z; sh_file_name : string; sh_model_id : Z;
  devices : list string; sh_latency : option Z;
}.

(** *** The merge *)
Definition range_le (a b : Ranged) : bool := (start a <? start b) || ((start a =? start b) && (end_ b <=? end_ a)).
Fixpoint insert_ranged (x : Ranged) (l : list Ranged) : list Ranged :=
  match l with
  | [] => [x]
  | y :: l' => if range_le x y then x :: l else y :: insert_ranged x l'
  end.
(** [sort_by], stable. *)
Definition sort_ranged (l : list Ranged) : list Ranged := foldr insert_ranged [] l.
Definition width (r : Ranged) : Z := end_ r - start r.
(** The two loops: [first] opened the block, [best] is its widest entry so far. *)
Fixpoint merge_from (first best : Ranged) (cur_end best_width : Z) (rest : list Ranged) : list RawEntry :=
  let merged := mk_RawEntry (rg_peer_id first) (rg_name first) (rg_file_name best) (rg_model_id first)
                  (start first) cur_end None (rg_latency first) in
  match rest with
  | [] => [merged]
  | r :: rest =>
      if start r <=? cur_end then
        let cur_end := if cur_end <? end_ r then end_ r else cur_end in
        if best_width <? width r then merge_from first r cur_end (width r) rest
        else merge_from first best cur_end best_width rest
      else merged :: merge_from r r (end_ r) (width r) rest
  end.
Definition merge_group (group : list Ranged) : list RawEntry :=
  match sort_ranged group with
  | [] => []
  | r :: rest => merge_from r r (end_ r) (width r) rest
  end.

Section scheduling.
Context {PeerId Multiaddr P : Type} `{!Peer_Management_Capability PeerId Multiaddr P} (to_base58 : PeerId -> bytes).
Context (iter_groups : gmap string (list Ranged) -> list (string * list Ranged)).

(** *** Step 1: the files of the storage with this model *)
Definition storage_files (model_id : Z) (s : Store) : gmap string Z :=
  foldl (fun m e => if bool_decide (entry_model_id e = Some model_id)
                    then <[entry_name e := default 0 (entry_num_layers e)]> m else m) ∅ (List_files s).
(** *** Steps 2 and 3: the entries of the peers, and the local files they do not mention *)
Definition raw_of_model (model_id : Z) (files : gmap string Z) (p : PeerInfo PeerId Multiaddr) (m : SupportedModel)
    : option RawEntry :=
  if Peers.model_id m =? model_id then
    let (lo, hi) := bitmap_range (layer_bitmap m) in
    Some (mk_RawEntry (of_bytes (to_base58 (peer_id p))) (name p) (file_name m) (Peers.model_id m) (Z.of_nat lo) (Z.of_nat hi)
            (files !! file_name m) (latency_ms (profile p)))
  else None.
Definition peer_entries (model_id : Z) (files : gmap string Z) (p : PeerInfo PeerId Multiaddr) : list RawEntry :=
  omap (raw_of_model model_id files p) (supported_models p).
Definition raw_of_file (model_id : Z) (seen : list string) (local : PeerInfo PeerId Multiaddr) (e : FileEntry)
    : option RawEntry :=
  if bool_decide (entry_name e ∈ seen) then None
  else if negb (bool_decide (entry_model_id e = Some model_id)) then None
  else
    let (lo, hi) := match entry_bitmap e with Some b => bitmap_range b | None => (O, O) end in
    Some (mk_RawEntry (of_bytes (to_base58 (peer_id local))) (name local) (entry_name e) model_id (Z.of_nat lo) (Z.of_nat hi)
            (entry_num_layers e) None).
Definition collect_entries (model_id : Z) (s : Store) (p : P) : list RawEntry :=
  let entries := concat (map (peer_entries model_id (storage_files model_id s)) (Get_All_Peers p)) in
  let seen := map re_file_name entries in
  entries ++ match Get_Local_Peer p with
             | Ok local => omap (raw_of_file model_id seen local) (List_files s)
             | Err _ => []
             end.
(** *** Step 3.5 *)
Definition ranged_of (re : RawEntry) : Ranged :=
  let (s, e) := adjust_range (Z.to_nat (min_bit re)) (Z.to_nat (max_bit re)) (as_bytes (re_file_name re)) (re_num_layers re) in
  mk_Ranged (re_peer_id re) (re_name re) (re_file_name re) (re_model_id re) s e (re_latency re).
Definition group_by_peer (l : list Ranged) : gmap string (list Ranged) :=
  foldl (fun m r => <[rg_peer_id r := default [] (m !! rg_peer_id r) ++ [r]]> m) ∅ l.
Definition merge_entries (entries : list RawEntry) : list RawEntry :=
  concat (map (fun g => merge_group g.2) (iter_groups (group_by_peer (map ranged_of entries)))).
(** *** Step 4 *)
Definition shard_of (e : RawEntry) : Shard :=
  mk_Shard (re_peer_id e) (re_name e) (min_bit e) (max_bit e) (re_file_name e) (re_model_id e)
    ["cuda:0"; "cuda:1"]%string (re_latency e).
Definition list_model_peers (model_id : Z) (s : Store) (p : P) : list Shard :=
  map shard_of (merge_entries (collect_entries model_id s p)).
End scheduling.

(** ** The merge of one group *)
Definition in_raw (l : Z) (r : Ranged) : Prop := start r <= l <= end_ r.
Definition in_merged (l : Z) (e : RawEntry) : Prop := min_bit e <= l <= max_bit e.
Definition apart (a b : RawEntry) : Prop := max_bit a < min_bit b.
(** The file of a merged entry is one the entry covers, and if no range is empty
    the widest one that starts in it. *)
Definition names_widest (g : list Ranged) (e : RawEntry) : Prop :=
  exists r, r ∈ g /\ rg_file_name r = re_file_name e /\ min_bit e <= start r /\ end_ r <= max_bit e /\
    (Forall (fun r => start r <= end_ r) g -> forall r', r' ∈ g -> min_bit e <= start r' <= max_bit e -> width r' <= width r).

Lemma range_le_total a b : range_le a b = false -> range_le b a = true.
Proof.
  unfold range_le. rewrite orb_false_iff, orb_true_iff, andb_false_iff, andb_true_iff, !Z.ltb_ge, !Z.ltb_lt, !Z.eqb_eq, !Z.eqb_neq, Z.leb_gt, Z.leb_le. lia.
Qed.
Lemma insert_ranged_perm x l : insert_ranged x l ≡ₚ x :: l.
Proof. induction l as [|y l IH]; [done|]. cbn. case_match; [done|]. rewrite IH. constructor. Qed.
Lemma sort_ranged_perm l : sort_ranged l ≡ₚ l.
Proof. induction l as [|x l IH]; [done|]. cbn. by rewrite insert_ranged_perm, IH. Qed.
Definition starts_le (a b : Ranged) : Prop := start a <= start b.
Lemma range_le_starts a b : range_le a b = true -> starts_le a b.
Proof. unfold range_le, starts_le. rewrite orb_true_iff, andb_true_iff, Z.ltb_lt, Z.eqb_eq. lia. Qed.
Lemma insert_ranged_sorted x l : StronglySorted starts_le l -> StronglySorted starts_le (insert_ranged x l).
Proof.
  induction 1 as [|y l Hs IH HF]; [by repeat constructor|]. cbn. destruct (range_le x y) eqn:E.
  - apply range_le_starts in E. constructor; [by constructor|]. constructor; [done|].
    eapply Forall_impl; [exact HF|]. unfold starts_le in *. lia.
  - apply range_le_total, range_le_starts in E. constructor; [done|]. rewrite insert_ranged_perm. by constructor.
Qed.
Lemma sort_ranged_sorted l : StronglySorted starts_le (sort_ranged l).
Proof. induction l; [constructor|]. by apply insert_ranged_sorted. Qed.

Lemma block_extend seen lo cur_end ce r :
  (forall l, lo <= l <= cur_end <-> exists r', r' ∈ seen /\ in_raw l r') ->
  lo <= start r <= cur_end -> cur_end <= ce -> end_ r <= ce -> ce = cur_end \/ ce = end_ r ->
  forall l, lo <= l <= ce <-> exists r', r' ∈ seen ++ [r] /\ in_raw l r'.
Proof.
  intros Hc Hr H1 H2 H3 l. split.
  - intros Hl. destruct (Z_le_gt_dec l cur_end) as [Hle'|Hgt].
    + destruct (proj1 (Hc l)) as (r' & Hr' & Hin); [lia|]. exists r'. split; [apply elem_of_app; by left|done].
    + exists r. split; [apply elem_of_app; right; by apply list_elem_of_singleton|]. unfold in_raw. lia.
  - intros (r' & [Hr'|Hr'%list_elem_of_singleton]%elem_of_app & Hin).
    + assert (lo <= l <= cur_end); [apply Hc; by exists r'|lia].
    + subst r'. unfold in_raw in Hin. lia.
Qed.
(** Entries before a gap do not start in a later block. *)
Lemma names_later seen rest lo cur_end out :
  Forall (names_widest rest) out -> Forall (fun e => lo <= min_bit e) out -> cur_end < lo ->
  (forall r, r ∈ seen -> end_ r <= cur_end) -> Forall (names_widest (seen ++ rest)) out.
Proof.
  intros Hnames Hge Hgap HF. apply Forall_forall. intros e He. rewrite Forall_forall in Hnames, Hge. specialize (Hge e He).
  destruct (Hnames e He) as (b & Hb1 & Hb2 & Hb3 & Hb4 & Hb5). exists b.
  split; [apply elem_of_app; by right|]. split; [done|]. split; [done|]. split; [done|].
  intros [Hns Hne]%Forall_app r' [Hr'|Hr']%elem_of_app Hin; [|by apply Hb5].
  rewrite Forall_forall in Hns. specialize (Hns r' Hr'). specialize (HF r' Hr'). lia.
Qed.
Lemma cover_cons seen rest e out :
  (forall l, in_merged l e <-> exists r, r ∈ seen /\ in_raw l r) ->
  (forall l, (exists e, e ∈ out /\ in_merged l e) <-> exists r, r ∈ rest /\ in_raw l r) ->
  forall l, (exists e', e' ∈ e :: out /\ in_merged l e') <-> exists r, r ∈ seen ++ rest /\ in_raw l r.
Proof.
  intros He Hout l. split.
  - intros (e' & [->|Hi]%elem_of_cons & Hin).
    + apply He in Hin as (r & Hr & Hi). exists r. split; [apply elem_of_app; by left|done].
    + destruct (proj1 (Hout l)) as (r & Hr & Hi'); [by exists e'|]. exists r. split; [apply elem_of_app; by right|done].
  - intros (r & [Hr|Hr]%elem_of_app & Hi).
    + exists e. split; [by left|]. apply He. by exists r.
    + destruct (proj2 (Hout l)) as (e' & He' & Hin); [by exists r|]. exists e'. split; [by right|done].
Qed.

(** The invariant of the two loops: [seen] are the entries of the open block. *)
Lemma merge_from_spec seen first best cur_end rest :
  StronglySorted starts_le (first :: rest) -> best ∈ seen -> first ∈ seen ->
  Forall (fun r => start first <= start r /\ end_ r <= cur_end /\ width r <= width best) seen ->
  (forall l, start first <= l <= cur_end <-> exists r, r ∈ seen /\ in_raw l r) ->
  let out := merge_from first best cur_end (width best) rest in
  (exists e out', out = e :: out' /\ min_bit e = start first) /\
  Sorted apart out /\ Forall (fun e => start first <= min_bit e) out /\
  Forall (names_widest (seen ++ rest)) out /\
  (forall l, (exists e, e ∈ out /\ in_merged l e) <-> exists r, r ∈ seen ++ rest /\ in_raw l r).
Proof.
  revert seen first best cur_end. induction rest as [|r rest IH]; intros seen first best cur_end Hs Hb Hf HF Hc out.
  - unfold out. cbn [merge_from]. split; [by do 2 eexists|]. split; [by repeat constructor|].
    split; [by repeat constructor|]. rewrite app_nil_r. rewrite Forall_forall in HF. split.
    + constructor; [|constructor]. exists best. split; [done|]. split; [done|]. cbn [min_bit max_bit].
      destruct (HF best Hb) as (H1 & H2 & _). split; [done|]. split; [done|]. intros _ r' Hr' _. by apply HF.
    + intros l. rewrite <- Hc. split.
      * intros (e & He%list_elem_of_singleton & Hin). by subst e.
      * intros Hl. eexists. split; [by apply list_elem_of_singleton|]. done.
  - apply StronglySorted_inv in Hs as [Hs Hle]. pose proof Hs as Hs'. apply StronglySorted_inv in Hs as [Hss Hrle].
    apply Forall_cons in Hle as [Hfr Hle]. unfold starts_le in Hfr.
    assert (seen ++ r :: rest = (seen ++ [r]) ++ rest) as Eapp by by rewrite <- app_assoc.
    unfold out. cbn [merge_from]. destruct (Z.leb_spec (start r) cur_end) as [Hov|Hgap].
    + assert (StronglySorted starts_le (first :: rest)) as Hs1 by by constructor. rewrite Eapp.
      set (ce := if cur_end <? end_ r then end_ r else cur_end).
      assert (cur_end <= ce /\ end_ r <= ce /\ (ce = cur_end \/ ce = end_ r)) as (Hc1 & Hc2 & Hc3)
        by (unfold ce; destruct (Z.ltb_spec cur_end (end_ r)); lia).
      assert (forall l, start first <= l <= ce <-> exists r', r' ∈ seen ++ [r] /\ in_raw l r') as Hc'
        by (apply (block_extend seen (start first) cur_end ce r Hc); lia).
      destruct (Z.ltb_spec (width best) (width r)) as [Hw|Hw]; apply IH; try done.
      * apply elem_of_app. right. by apply list_elem_of_singleton.
      * apply elem_of_app. by left.
      * apply Forall_app. split; [|constructor; [lia|constructor]]. eapply Forall_impl; [exact HF|]. cbn. lia.
      * apply elem_of_app. by left.
      * apply elem_of_app. by left.
      * apply Forall_app. split; [|constructor; [lia|constructor]]. eapply Forall_impl; [exact HF|]. cbn. lia.
    + destruct (IH [r] r r (end_ r) Hs') as ((e & out' & Eo & Hmin) & Hsort & Hge & Hnames & Hcov).
      * by apply list_elem_of_singleton.
      * by apply list_elem_of_singleton.
      * constructor; [lia|constructor].
      * intros l. split; [intros Hl; exists r; split; [by apply list_elem_of_singleton|done]|].
        intros (r' & ->%list_elem_of_singleton & Hin). done.
      * set (o := merge_from r r (end_ r) (width r) rest) in *. split; [by do 2 eexists|]. rewrite Forall_forall in HF. split.
        { constructor; [done|]. rewrite Eo. constructor. unfold apart. cbn [max_bit]. lia. } split.
        { constructor; [done|]. eapply Forall_impl; [exact Hge|]. cbn. lia. } split.
        { constructor.
          - exists best. split; [apply elem_of_app; by left|]. split; [done|]. cbn [min_bit max_bit].
            destruct (HF best Hb) as (H1 & H2 & _). split; [done|]. split; [done|].
            intros _ r' [Hr'|Hr']%elem_of_app Hin; [by apply HF|].
            assert (start r <= start r'); [|lia]. apply elem_of_cons in Hr' as [->|Hr']; [lia|].
            rewrite Forall_forall in Hrle. by apply Hrle.
          - apply (names_later seen (r :: rest) (start r) cur_end o Hnames Hge); [lia|]. intros r' Hr'. by destruct (HF r' Hr') as (_ & ? & _). }
        apply (cover_cons seen (r :: rest)); [exact Hc|exact Hcov].
Qed.

Lemma merge_group_spec g :
  Sorted apart (merge_group g) /\ Forall (names_widest g) (merge_group g) /\
  (forall l, (exists e, e ∈ merge_group g /\ in_merged l e) <-> exists r, r ∈ g /\ in_raw l r).
Proof.
  pose proof (sort_ranged_sorted g) as Hs. pose proof (sort_ranged_perm g) as Hp. unfold merge_group.
  destruct (sort_ranged g) as [|r rest].
  { apply Permutation_nil_l in Hp as <-. split; [constructor|]. split; [constructor|]. intros l. split; intros (x & Hx & _); inversion Hx. }
  destruct (merge_from_spec [r] r r (end_ r) rest Hs) as (_ & H1 & _ & H2 & H3).
  - by apply list_elem_of_singleton.
  - by apply list_elem_of_singleton.
  - constructor; [lia|constructor].
  - intros l. split; [intros Hl; exists r; split; [by apply list_elem_of_singleton|done]|].
    intros (r' & ->%list_elem_of_singleton & Hin). done.
  - split; [done|]. cbn [app] in *. split.
    + eapply Forall_impl; [exact H2|]. intros e (b & Hb & E1 & E2 & E3 & E4). exists b. split; [by rewrite <- Hp|].
      do 3 (split; [done|]). intros HF r' Hr'. rewrite <- Hp in HF, Hr'. by apply E4.
    + intros l. rewrite (H3 l). split; intros (r' & Hr' & Hi); exists r'; split; [by rewrite <- Hp|done|by rewrite Hp|done].
Qed.
Lemma merge_from_forall (P : string -> Z -> Prop) first best cur_end w rest :
  Forall (fun r => P (rg_peer_id r) (rg_model_id r)) (first :: rest) ->
  Forall (fun e => P (re_peer_id e) (re_model_id e)) (merge_from first best cur_end w rest).
Proof.
  revert first best cur_end w. induction rest as [|r rest IH]; intros first best cur_end w [Hf HF]%Forall_cons; cbn.
  - by repeat constructor.
  - pose proof HF as [Hr Hrest]%Forall_cons. repeat case_match; try apply IH; try by constructor.
    constructor; [done|]. by apply IH.
Qed.
Lemma merge_group_forall (P : string -> Z -> Prop) g :
  Forall (fun r => P (rg_peer_id r) (rg_model_id r)) g -> Forall (fun e => P (re_peer_id e) (re_model_id e)) (merge_group g).
Proof.
  intros H. rewrite <- (sort_ranged_perm g) in H. unfold merge_group. destruct (sort_ranged g); [by constructor|]. by apply merge_from_forall.
Qed.

(** ** The groups *)
Lemma group_by_peer_lookup l pid : default [] (group_by_peer l !! pid) = filter (fun r => rg_peer_id r = pid) l.
Proof.
  induction l as [|r l IH] using rev_ind; [done|]. unfold group_by_peer in *. rewrite foldl_snoc, filter_app.
  destruct (decide (rg_peer_id r = pid)) as [<-|Hne].
  - rewrite lookup_insert_eq, filter_cons_True by done. cbn [default]. by rewrite IH.
  - by rewrite lookup_insert_ne, IH, filter_cons_False, app_nil_r by done.
Qed.
Lemma filter_groups (L : list (string * list Ranged)) pid :
  NoDup L.*1 -> (forall k g, (k, g) ∈ L -> Forall (fun r => rg_peer_id r = k) g) ->
  filter (fun e => re_peer_id e = pid) (concat (map (fun g => merge_group g.2) L))
  = merge_group (default [] ((list_to_map L : gmap string _) !! pid)).
Proof.
  induction L as [|[k g] L IH]; [done|]. intros [Hk Hnd]%NoDup_cons HF. cbn. rewrite filter_app, IH; [|done|].
  2:{ intros k' g' H. apply HF. by right. }
  assert (Forall (fun e => re_peer_id e = k) (merge_group g)) as Hg
    by (apply (merge_group_forall (fun i _ => i = k)); apply HF; by left).
  destruct (decide (k = pid)) as [<-|Hne].
  - rewrite lookup_insert_eq. cbn. rewrite (not_elem_of_list_to_map_1 _ _ Hk). cbn. rewrite app_nil_r.
    induction Hg as [|e es He _ IHe]; [done|]. by rewrite filter_cons_True, IHe.
  - rewrite lookup_insert_ne by done.
    assert (filter (fun e => re_peer_id e = pid) (merge_group g) = []) as ->; [|done].
    induction Hg as [|e es He _ IHe]; [done|]. rewrite filter_cons_False; [done|by rewrite He].
Qed.

Section merged.
Context {PeerId Multiaddr P : Type} `{!Peer_Management_Capability PeerId Multiaddr P} (to_base58 : PeerId -> bytes).
Context (iter_groups : gmap string (list Ranged) -> list (string * list Ranged)).
Hypothesis iter_groups_perm : forall m, iter_groups m ≡ₚ map_to_list m.

Lemma merge_entries_peer entries pid :
  filter (fun e => re_peer_id e = pid) (merge_entries iter_groups entries)
  = merge_group (filter (fun r => rg_peer_id r = pid) (map ranged_of entries)).
Proof using iter_groups_perm.
  unfold merge_entries. rewrite filter_groups.
  - rewrite <- group_by_peer_lookup. do 3 f_equal. symmetry. apply list_to_map_flip. by rewrite iter_groups_perm.
  - rewrite (iter_groups_perm _). apply NoDup_fst_map_to_list.
  - intros k g. rewrite iter_groups_perm, elem_of_map_to_list. intros Hg.
    pose proof (group_by_peer_lookup (map ranged_of entries) k) as E. rewrite Hg in E. cbn in E. rewrite E.
    apply Forall_forall. by intros r [Hr _]%list_elem_of_filter.
Qed.
Lemma collect_entries_model model_id s p :
  Forall (fun e => re_model_id e = model_id) (collect_entries to_base58 model_id s p).
Proof using.
  unfold collect_entries. apply Forall_app. split.
  - apply Forall_concat, Forall_map, Forall_true. intros pi. unfold peer_entries. apply Forall_forall.
    intros e (m & _ & He)%list_elem_of_omap. unfold raw_of_model in He.
    destruct (Z.eqb_spec (Peers.model_id m) model_id) as [E|]; [|done]. destruct (bitmap_range _). by injection He as <-.
  - destruct (Get_Local_Peer p) as [local|]; [|constructor]. apply Forall_forall.
    intros e (m & _ & He)%list_elem_of_omap. unfold raw_of_file in He. repeat case_match; try done; by injection He as <-.
Qed.
Lemma filter_shards pid es :
  filter (fun h => sh_peer_id h = pid) (map shard_of es) = map shard_of (filter (fun e => re_peer_id e = pid) es).
Proof using.
  induction es as [|e es IH]; [done|]. cbn [map]. destruct (decide (re_peer_id e = pid)).
  - by rewrite !filter_cons_True, IH by done.
  - by rewrite !filter_cons_False, IH by done.
Qed.

(** C16: the table of shards. For each peer the rows a script gets are strictly
    apart and ascending, cover exactly the layers the peer's own entries cover,
    have the requested model, and name the peer's file that is widest among
    those that start in the row. That file alone need not cover the row: a
    split file, asked for the layers of the row that names it, loads exactly
    when the row is no wider than the file, so a row merged from two
    overlapping splits is refused by the file it names. *)
Theorem merged_shards model_id s p pid :
  let raw := filter (fun r => rg_peer_id r = pid) (map ranged_of (collect_entries to_base58 model_id s p)) in
  let rows := filter (fun h => sh_peer_id h = pid) (list_model_peers to_base58 iter_groups model_id s p) in
  Sorted (fun a b => layer_end a < layer_start b) rows /\
  (forall l, (exists h, h ∈ rows /\ layer_start h <= l <= layer_end h) <-> exists r, r ∈ raw /\ in_raw l r) /\
  forall h, h ∈ rows -> sh_model_id h = model_id /\ exists r, r ∈ raw /\ rg_file_name r = sh_file_name h /\
    (Forall (fun r => start r <= end_ r) raw ->
     forall r', r' ∈ raw -> layer_start h <= start r' <= layer_end h -> width r' <= width r) /\
    forall a, is_split a = true -> split_start a = start r -> split_end a = end_ r -> start r <= end_ r ->
      is_ok (load_range a (layer_start h) (layer_end h))
      = bool_decide (layer_start h = start r /\ layer_end h = end_ r).
Proof using iter_groups_perm.
  intros raw rows. unfold rows, list_model_peers. rewrite filter_shards, merge_entries_peer. fold raw.
  destruct (merge_group_spec raw) as (Hs & Hn & Hc). split; [|split].
  - clear -Hs. induction Hs as [|e es _ IH Hhd]; [constructor|]. cbn [map]. constructor; [done|].
    by destruct Hhd; constructor.
  - intros l. rewrite <- (Hc l). split.
    + intros (h & (e & -> & He)%list_elem_of_fmap & Hl). by exists e.
    + intros (e & He & Hl). exists (shard_of e). split; [by apply list_elem_of_fmap_2|done].
  - intros h (e & -> & He)%list_elem_of_fmap. split.
    { pose proof (merge_group_forall (fun _ m => m = model_id) raw) as Hm. cbn in Hm. rewrite !Forall_forall in Hm.
      apply Hm; [|done]. intros r [_ (re & -> & Hre)%list_elem_of_fmap]%list_elem_of_filter.
      pose proof (collect_entries_model model_id s p) as HF. rewrite Forall_forall in HF. specialize (HF re Hre).
      unfold ranged_of. by destruct (adjust_range _ _ _ _). }
    rewrite Forall_forall in Hn. destruct (Hn e He) as (r & Hr & E1 & E2 & E3 & E4). exists r. do 3 (split; [done|]).
    intros a Ha H1 H2 Hr'. unfold load_range, is_ok. rewrite Ha, H1, H2. cbn [shard_of layer_start layer_end] in *.
    destruct (Z.ltb_spec (max_bit e) (min_bit e)); [lia|]. destruct (Z.ltb_spec (min_bit e) (start r)) as [|]; cbn [orb].
    + rewrite bool_decide_eq_false_2; [done|lia].
    + destruct (Z.ltb_spec (end_ r) (max_bit e)).
      * rewrite bool_decide_eq_false_2; [done|lia].
      * rewrite bool_decide_eq_true_2; [done|lia].
Qed.
End merged.

(** ** Two overlapping splits on one node *)
Import Storage.Example_Store.
Module Example_Shards.
Definition split_entry (n : string) : FileEntry := mk_entry n 10 (Some 7) (Some 20) None (Some "qwen3"%string) O.
Definition shards : list string := ["m_split_0_8.pgguf"; "m_split_5_12.pgguf"; "m_split_15_21.pgguf"]%string.
Definition store : Store := with_files (list_to_map (map (fun n => (n, split_entry n)) shards)) (Storage_New ∅).
Definition id (p : N) : bytes := as_bytes "12D3".
Definition table : list Shard := list_model_peers id map_to_list 7 store Example_Store.peers.
End Example_Shards.
Import Example_Shards.

Lemma merged_shards_witness :
  map (fun h => (layer_start h, layer_end h, sh_file_name h)) table
  = [(0, 12, "m_split_0_8.pgguf"); (15, 21, "m_split_15_21.pgguf")]%string /\
  forall a : Model_Arch_Info, is_split a = true -> split_start a = 0 -> split_end a = 8 ->
    is_ok (load_range a 0 12) = false.
Proof.
  split; [by vm_compute|]. intros a Ha H1 H2.
  destruct (merged_shards id map_to_list (fun _ => Permutation_refl _) 7 store Example_Store.peers "12D3") as (_ & _ & H).
  set (rows := filter _ (list_model_peers _ _ _ _ _)) in H. set (raw := filter _ (map ranged_of _)) in H.
  assert (head rows = Some (mk_Shard "12D3" (as_bytes "me") 0 12 "m_split_0_8.pgguf" 7 ["cuda:0"; "cuda:1"]%string None))
    as Hrow by (by vm_compute).
  assert (Forall (fun r => rg_file_name r = "m_split_0_8.pgguf"%string -> start r = 0 /\ end_ r = 8) raw) as Hraw
    by (apply (bool_decide_unpack _); by vm_compute).
  clearbody rows raw. destruct rows as [|row rows]; [done|]. injection Hrow as ->.
  destruct (H _ (list_elem_of_here _ _)) as (_ & r & Hr & En & _ & Hl).
  rewrite Forall_forall in Hraw. destruct (Hraw r Hr En) as (E1 & E2).
  cbn [layer_start layer_end sh_file_name] in *.
  rewrite (Hl a Ha); [rewrite bool_decide_eq_false_2; [done|lia]|by rewrite E1|by rewrite E2|lia].
Defined.
