(* ===== verification/Capability.v ===== *)
(** * What the node asks of its network, and the service's loop
      ([Src/Network/capability.rs], [node_handle.rs], [Start] of [network_service.rs])

    The interface the orchestrator and the scripts use: commands queued for the
    service ([NodeHandle]), streams opened directly, and the wait for a tensor
    stream of another node. Then the service's main loop over swarm events,
    commands and incoming streams, which reads handshakes itself.

    Outside are the channel and the timer of tokio (their outcomes are
    arguments) and the opening of streams. An opened stream is the list of
    bytes written to it. [test_bandwidth] is in [Bandwidth]. *)
From S2P Require Import Prelude RustStd Wire Codec Streams TensorStream Peers Hub Network Storage Orchestrator.

(** ** Errors *)
Inductive Network_Error : Type :=
  | ConnectionFailed (msg : string) | StreamOpenFailed (msg : string) | StreamIoError (msg : string)
  | Timeout (msg : string) | Rejected (msg : string) | ChannelClosed (msg : string).
Definition show_Network_Error (e : Network_Error) : string :=
  match e with
  | ConnectionFailed msg => "ConnectionFailed: " +:+ msg
  | StreamOpenFailed msg => "StreamOpenFailed: " +:+ msg
  | StreamIoError msg => "StreamIoError: " +:+ msg
  | Timeout msg => "Timeout: " +:+ msg
  | Rejected msg => "Rejected: " +:+ msg
  | ChannelClosed msg => "ChannelClosed: " +:+ msg
  end%string.

(** ** [Path::file_name] of the standard library, on Unix *)
Definition slash : byte := "/"%byte.
Definition Path_file_name (path : string) : option string :=
  let parts := List.filter (fun c => negb (bool_decide (c = []) || bool_decide (c = as_bytes ".")))
                 (Split.split slash (as_bytes path)) in
  match last parts with
  | None => None
  | Some c => if bool_decide (c = as_bytes "..") then None else Some (of_bytes c)
  end.

Section capability.
Context {PeerId Multiaddr Channel OutboundRequestId Waiter S : Type}.
Context `{Countable PeerId} `{Countable OutboundRequestId}.

(** ** [NodeHandle] *)
Abbreviation NodeCommand := (Network.NodeCommand (PeerId:=PeerId) (Multiaddr:=Multiaddr)
  (OutboundRequestId:=OutboundRequestId) (Waiter:=Waiter)).
Record NodeHandle : Type := mk_NodeHandle { handle_local_peer_id : PeerId; response_timeout : Z }.
(** The command channel: what is queued, or closed once the service has ended.
    A full channel makes the sender wait. *)
Abbreviation commands := (option (list NodeCommand)).
Definition channel_closed : string := "channel closed".
Definition send_cmd (cmd : NodeCommand) (q : commands) : result string unit * commands :=
  match q with
  | Some l => (Ok tt, Some (l ++ [cmd]))
  | None => (Err channel_closed, None)
  end.
(** How the wait for the answer ends. *)
Inductive waited : Type := Elapsed | Sender_dropped | Answered (r : result string Network_Data).
Definition Send_Data (h : NodeHandle) (peer : PeerId) (ty : DataType) (payload : bytes)
    (tx : Waiter) (oid : OutboundRequestId) (w : waited) (q : commands) : result string Network_Data * commands :=
  match send_cmd (SendData peer ty payload (Some tx) oid) q with
  | (Err e, q) => (Err e, q)
  | (Ok _, q) =>
      (match w with
       | Elapsed => Err ("Response timeout (" +:+ dec (response_timeout h) +:+ "s)")%string
       | Sender_dropped => Err "Response channel closed"%string
       | Answered r => r
       end, q)
  end.
Definition Send_Response (rid : Z) (ty : DataType) (payload : bytes) : commands -> result string unit * commands :=
  send_cmd (Network.SendResponse rid ty payload).
Definition Put_Record (key value : bytes) : commands -> result string unit * commands := send_cmd (PutRecord key value).
Definition Get_Record (key : bytes) : commands -> result string unit * commands := send_cmd (GetRecord key).
Definition Dial_Handle (addr : Multiaddr) : commands -> result string unit * commands := send_cmd (Dial addr).
Definition Disconnect_Handle (peer : PeerId) : commands -> result string unit * commands := send_cmd (Disconnect peer).
Definition Stop_Handle : commands -> result string unit * commands := send_cmd Network.Stop.
Definition Get_Local_Peer_Id (h : NodeHandle) : PeerId := handle_local_peer_id h.

(** ** [Network_Service_Capability] *)
Definition as_error {A B} (f : string -> Network_Error) (r : result string A * B) : result Network_Error A * B :=
  (map_err f r.1, r.2).
Definition send_data (h : NodeHandle) peer ty payload tx oid w (q : commands) : result Network_Error Network_Data * commands :=
  as_error ChannelClosed (Send_Data h peer ty payload tx oid w q).
Definition send_response rid ty payload (q : commands) : result Network_Error unit * commands :=
  as_error ChannelClosed (Send_Response rid ty payload q).
Definition dial addr (q : commands) : result Network_Error unit * commands := as_error ConnectionFailed (Dial_Handle addr q).
Definition disconnect peer (q : commands) : result Network_Error unit * commands :=
  as_error ConnectionFailed (Disconnect_Handle peer q).
Definition put_record key value (q : commands) : result Network_Error unit * commands :=
  as_error ChannelClosed (Put_Record key value q).
Definition get_record key (q : commands) : result Network_Error unit * commands := as_error ChannelClosed (Get_Record key q).

(** The stream operations; [open] is what opening the stream returned. The
    result carries the bytes written. *)
Definition open_stream_as (what : string) (open : result string unit) : result Network_Error bytes :=
  match open with
  | Ok _ => Ok []
  | Err e => Err (StreamOpenFailed (what +:+ ": " +:+ e)%string)
  end.
Definition open_file_stream : result string unit -> result Network_Error bytes := open_stream_as "file stream".
(** [metadata] is the size found first, [file] the contents read afterwards. The
    loop of [Send_File_Data] ends ([send_loop_spec]), [None] does not occur. *)
Definition send_file (file_path : string) (metadata : result string Z) (open : result string unit) (file : list bytes)
    : option (result Network_Error (bytes * list Bus_Event)) :=
  let file_name := default ""%string (Path_file_name file_path) in
  match metadata with
  | Err e => Some (Err (StreamIoError ("metadata: " +:+ e)%string))
  | Ok file_size =>
      match open_file_stream open with
      | Err e => Some (Err e)
      | Ok stream =>
          let stream := File_Stream.Write_File_Stream_Header stream file_name file_size "" in
          let shown := default "?"%string (Path_file_name file_path) in
          Ok <$> File_Stream.Send_File_Data stream shown (zlen (concat file)) file
      end
  end.
Definition open_tensor_stream (open : result string unit) (inference_id : Z) : result Network_Error bytes :=
  match open_stream_as "tensor stream" open with
  | Ok stream => Ok (Write_Tensor_Stream_Handshake stream inference_id)
  | Err e => Err e
  end.
Definition open_session_stream (open : result string unit) (session_id : Z) : result Network_Error bytes :=
  match open_stream_as "session stream" open with
  | Ok stream => Ok (Session_Stream.Write_Session_Handshake stream session_id)
  | Err e => Err e
  end.

(** [accept_tensor_stream]: registering, and how the wait ends. *)
Inductive accepted : Type := Got (stream : bytes) | Dropped | Expired.
Definition accept_result (timeout_secs : Z) (a : accepted) : result Network_Error bytes :=
  match a with
  | Got stream => Ok stream
  | Dropped => Err (StreamIoError "rendezvous sender dropped")
  | Expired => Err (Timeout ("accept_tensor_stream timeout after " +:+ dec timeout_secs +:+ "s")%string)
  end.
(** The node over time: calls begin, streams arrive, waits expire. A call is
    named by its receiver; one that has expired has dropped it. *)
Inductive accept_op : Type :=
  | Begin (inference_id : Z) (call : Waiter)
  | Expire (call : Waiter)
  | Arrives (inference_id : Z) (stream : bytes).
Record accept_world : Type := mk_accept_world {
  rendezvous : Rendezvous.RendezvousMap (Stream:=bytes) (Waiter:=Waiter);
  finished : list (Waiter * accepted);
}.
(** A stream sent to a receiver that is gone is dropped with the message. *)
Definition deliver `{EqDecision Waiter} (l : list (Waiter * bytes)) (fin : list (Waiter * accepted)) : list (Waiter * accepted) :=
  fin ++ omap (fun '(w, s) => if bool_decide (w ∈ fin.*1) then None else Some (w, Got s)) l.
Definition accept_step `{EqDecision Waiter} (x : accept_world) (o : accept_op) : accept_world :=
  match o with
  | Begin id w =>
      let (m, l) := Rendezvous.register_accept id w (rendezvous x) in mk_accept_world m (deliver l (finished x))
  | Expire w =>
      if bool_decide (w ∈ (finished x).*1) then x else mk_accept_world (rendezvous x) (finished x ++ [(w, Expired)])
  | Arrives id s =>
      let (m, l) := Rendezvous.insert_inbound id s (rendezvous x) in mk_accept_world m (deliver l (finished x))
  end.
Definition accept_run `{EqDecision Waiter} : accept_world -> list accept_op -> accept_world := foldl accept_step.

(** ** The service's loop *)
Context (to_string : PeerId -> bytes).
Context `{!Peer_Management_Capability PeerId Multiaddr S}.
Context (models_to_json : list SupportedModel -> bytes) (models_from_json : bytes -> option (list SupportedModel)).
Context (sessions_to_json : list SessionSummary -> bytes) (sessions_from_json : bytes -> option (list SessionSummary)).
Abbreviation Network_Service := (Network.Network_Service (PeerId:=PeerId) (Channel:=Channel)
  (OutboundRequestId:=OutboundRequestId) (Waiter:=Waiter) (S:=S)).
Abbreviation swarm_event := (Network.swarm_event (PeerId:=PeerId) (Multiaddr:=Multiaddr) (Channel:=Channel)
  (OutboundRequestId:=OutboundRequestId)).
Abbreviation net_effect := (Network.effect (PeerId:=PeerId) (Multiaddr:=Multiaddr) (Channel:=Channel) (Waiter:=Waiter)).

(** An incoming stream: all that ever arrives on it, and whether the other side
    then closes it. Reading past the end of one left open does not return. *)
Record Incoming : Type := mk_Incoming { received : list bytes; closed : bool }.
Definition read_handshake {A} (r : reader A) (s : Incoming) : option (result io_error (A * bytes)) :=
  match r (concat (received s)) with
  | Ok x => Some (Ok x)
  | Err e => if closed s then Some (Err e) else None
  end.
Definition count_incoming (s : Incoming) : option (result io_error Z) :=
  match Bandwidth_Stream.Receive_And_Count (received s) with
  | Some (Err InvalidData) => Some (Err InvalidData)
  | r => if closed s then r else None
  end.

Inductive Network_Inbound_Event : Type :=
  | FileStreamArrived (peer : PeerId) (stream : Incoming)
  | SessionStreamArrived (peer : PeerId) (session_id : Z) (stream : bytes).
Inductive loop_effect : Type :=
  | Net (e : net_effect)
  | To_orchestrator (e : Network_Inbound_Event)
  | To_waiter (tx : Waiter) (stream : bytes)
  | Write_Back (peer : PeerId) (data : bytes).
Inductive loop_input : Type :=
  | L_swarm (now : Z) (ev : swarm_event)
  | L_command (cmd : NodeCommand)
  | L_file (peer : PeerId) (stream : Incoming)
  | L_tensor (peer : PeerId) (stream : Incoming)
  | L_bandwidth (peer : PeerId) (stream : Incoming)
  | L_session (peer : PeerId) (stream : Incoming).
Definition Rendezvous_t : Type := Rendezvous.RendezvousMap (Stream:=bytes) (Waiter:=Waiter).
Definition Loop : Type := (Network_Service * Rendezvous_t)%type.

(** One turn of [select!]: whether the loop goes on, the state, the effects;
    [None] when the turn never ends. *)
Definition loop_turn (i : loop_input) (st : Loop) : option (bool * Loop * list loop_effect) :=
  let (n, m) := st in
  match i with
  | L_swarm now ev =>
      let (n, es) := Handle_Swarm_Event to_string models_to_json models_from_json sessions_to_json sessions_from_json now ev n in
      Some (true, (n, m), map Net es)
  | L_command cmd => let '(continue, n, es) := Handle_Command cmd n in Some (continue, (n, m), map Net es)
  | L_file peer stream => Some (true, st, [To_orchestrator (FileStreamArrived peer stream)])
  | L_tensor peer stream =>
      r ← read_handshake Read_Tensor_Stream_Handshake stream;
      match r with
      | Ok (inference_id, rest) =>
          let (m, l) := Rendezvous.insert_inbound inference_id rest m in
          Some (true, (n, m), map (fun '(tx, s) => To_waiter tx s) l)
      | Err _ => Some (true, st, [])
      end
  | L_bandwidth peer stream =>
      r ← count_incoming stream;
      match r with
      | Ok total_bytes => Some (true, st, [Write_Back peer (Bandwidth_Stream.Write_Bandwidth_Result [] total_bytes)])
      | Err _ => Some (true, st, [])
      end
  | L_session peer stream =>
      r ← read_handshake Session_Stream.Read_Session_Handshake stream;
      match r with
      | Ok (session_id, rest) => Some (true, st, [To_orchestrator (SessionStreamArrived peer session_id rest)])
      | Err _ => Some (true, st, [])
      end
  end.
Inductive loop_end : Type := Waiting | Stopped | Stuck.
(** [Start] on the inputs in the order in which [select!] takes them. *)
Fixpoint Start (inputs : list loop_input) (st : Loop) : loop_end * Loop * list loop_effect :=
  match inputs with
  | [] => (Waiting, st, [])
  | i :: inputs =>
      match loop_turn i st with
      | None => (Stuck, st, [])
      | Some (false, st, es) => (Stopped, st, es)
      | Some (true, st, es) => let '(e, st, es') := Start inputs st in (e, st, es ++ es')
      end
  end.

(** ** Turns that end *)
Definition prompt (i : loop_input) : bool :=
  match i with
  | L_tensor _ s | L_session _ s => closed s || (8 <=? zlen (concat (received s)))
  | L_bandwidth _ s =>
      let b := concat (received s) in
      closed s || (2 <=? zlen b) && (Bandwidth_Stream.MAX_DURATION_SECS <? from_le_bytes (take 2 b))
  | _ => true
  end.
Definition well_delivered (i : loop_input) : Prop :=
  match i with L_bandwidth _ s => Chunked.delivers (received s) | _ => True end.
Definition is_stop (i : loop_input) : bool := match i with L_command Network.Stop => true | _ => false end.
(** What a loop owes, told for each kind of input apart.  The inputs served: up to
    the first [Stop], it included. *)
Fixpoint until_stop (inputs : list loop_input) : list loop_input :=
  match inputs with
  | [] => []
  | i :: inputs => i :: if is_stop i then [] else until_stop inputs
  end.
(** Steps with outputs, one after the other. *)
Fixpoint run_out {I W O} (step : I -> W -> W * list O) (l : list I) (w : W) : W * list O :=
  match l with
  | [] => (w, [])
  | i :: l => let (w, os) := step i w in let (w, os') := run_out step l w in (w, os ++ os')
  end.
(** The node sees the swarm events and the commands. *)
Definition node_input (i : loop_input) : option (Z * swarm_event + NodeCommand) :=
  match i with L_swarm now ev => Some (inl (now, ev)) | L_command cmd => Some (inr cmd) | _ => None end.
Definition node_step (x : Z * swarm_event + NodeCommand) (n : Network_Service) : Network_Service * list net_effect :=
  match x with
  | inl (now, ev) => Handle_Swarm_Event to_string models_to_json models_from_json sessions_to_json sessions_from_json now ev n
  | inr cmd => let '(_, n, es) := Handle_Command cmd n in (n, es)
  end.
(** The rendezvous sees the tensor streams with their eight bytes, the rest of
    the stream under the number they are. *)
Definition tensor_arrival (i : loop_input) : option (Z * bytes) :=
  match i with
  | L_tensor _ s =>
      let b := concat (received s) in if 8 <=? zlen b then Some (from_le_bytes (take 8 b), drop 8 b) else None
  | _ => None
  end.
Definition meet (a : Z * bytes) (m : Rendezvous_t) : Rendezvous_t * list (Waiter * bytes) :=
  Rendezvous.insert_inbound a.1 a.2 m.
(** A bandwidth test of at most ten seconds is answered with the number of bytes
    after its header. *)
Definition counted (i : loop_input) : option (PeerId * bytes) :=
  match i with
  | L_bandwidth peer s =>
      let b := concat (received s) in
      if (2 <=? zlen b) && (from_le_bytes (take 2 b) <=? 10) then Some (peer, to_le_bytes 8 (zlen b - 2)) else None
  | _ => None
  end.
(** The orchestrator gets every file stream, and every session stream with its
    eight bytes. *)
Definition owed (i : loop_input) : option Network_Inbound_Event :=
  match i with
  | L_file peer s => Some (FileStreamArrived peer s)
  | L_session peer s =>
      let b := concat (received s) in
      if 8 <=? zlen b then Some (SessionStreamArrived peer (from_be_bytes (take 8 b)) (drop 8 b)) else None
  | _ => None
  end.
Definition to_node (e : loop_effect) : option net_effect := match e with Net e => Some e | _ => None end.
Definition to_waiter (e : loop_effect) : option (Waiter * bytes) := match e with To_waiter tx s => Some (tx, s) | _ => None end.
Definition written_back (e : loop_effect) : option (PeerId * bytes) :=
  match e with Write_Back peer data => Some (peer, data) | _ => None end.
Definition to_orchestrator (e : loop_effect) : option Network_Inbound_Event :=
  match e with To_orchestrator ev => Some ev | _ => None end.
(** The state and the effects of a run that serves [l] and nothing else. *)
Definition serves (l : list loop_input) (st st' : Loop) (es : list loop_effect) : Prop :=
  (st'.1, omap to_node es) = run_out node_step (omap node_input l) st.1 /\
  (st'.2, omap to_waiter es) = run_out meet (omap tensor_arrival l) st.2 /\
  omap written_back es = omap counted l /\ omap to_orchestrator es = omap owed l.

Lemma run_out_app {I W O} (step : I -> W -> W * list O) l k w :
  run_out step (l ++ k) w = let (w', os) := run_out step l w in let (w'', os') := run_out step k w' in (w'', os ++ os').
Proof.
  revert w. induction l as [|i l IH]; intros w; cbn [run_out app]; [by destruct (run_out step k w)|].
  destruct (step i w) as [w1 os]. rewrite IH. destruct (run_out step l w1) as [w2 os2].
  destruct (run_out step k w2). by rewrite app_assoc.
Qed.
Lemma serves_app l k st st' st'' es es' :
  serves l st st' es -> serves k st' st'' es' -> serves (l ++ k) st st'' (es ++ es').
Proof.
  intros (H1 & H2 & H3 & H4) (K1 & K2 & K3 & K4). unfold serves.
  rewrite !omap_app, !run_out_app, <- H1, <- H2, <- K1, <- K2, H3, H4, K3, K4. done.
Qed.

Lemma handshake_None {A} (r : reader A) s :
  (forall b, is_ok (r b) = (8 <=? zlen b)) ->
  read_handshake r s = None <-> closed s || (8 <=? zlen (concat (received s))) = false.
Proof.
  intros Hr. specialize (Hr (concat (received s))). unfold read_handshake, is_ok in *.
  rewrite <- Hr. destruct (r _); [by rewrite orb_true_r|]. rewrite orb_false_r. by destruct (closed s).
Qed.
Lemma tensor_handshake_ok b : is_ok (Read_Tensor_Stream_Handshake b) = (8 <=? zlen b).
Proof.
  unfold Read_Tensor_Stream_Handshake, read_le, mbind, reader_bind, read_exact. rewrite Z.leb_antisym.
  change (Z.of_nat 8) with 8. by destruct (zlen b <? 8).
Qed.
Lemma session_handshake_ok b : is_ok (Session_Stream.Read_Session_Handshake b) = (8 <=? zlen b).
Proof.
  unfold Session_Stream.Read_Session_Handshake, read_be, mbind, reader_bind, read_exact. rewrite Z.leb_antisym.
  change (Z.of_nat 8) with 8. by destruct (zlen b <? 8).
Qed.
Lemma count_None s :
  Chunked.delivers (received s) ->
  count_incoming s = None <->
  closed s || (2 <=? zlen (concat (received s))) && (Bandwidth_Stream.MAX_DURATION_SECS <? from_le_bytes (take 2 (concat (received s)))) = false.
Proof.
  intros Hd. unfold count_incoming. rewrite Bandwidth_Stream.receive_count, Z.leb_antisym by done.
  destruct (zlen (concat (received s)) <? 2), (Bandwidth_Stream.MAX_DURATION_SECS <? _); cbn [negb andb];
    rewrite ?orb_true_r, ?orb_false_r; destruct (closed s); done.
Qed.
Lemma turn_None i st : well_delivered i -> loop_turn i st = None <-> prompt i = false.
Proof.
  destruct st as [n m]. destruct i as [now ev|cmd|peer s|peer s|peer s|peer s]; intros Hd; cbn [loop_turn prompt].
  - by destruct (Handle_Swarm_Event _ _ _ _ _ _ _ _).
  - by destruct (Handle_Command _ _) as [[]].
  - by split.
  - rewrite <- (handshake_None _ _ tensor_handshake_ok). destruct (read_handshake _ _) as [[[]|]|]; cbn; [|by split..].
    by destruct (Rendezvous.insert_inbound _ _ _).
  - rewrite <- (count_None _ Hd). by destruct (count_incoming _) as [[]|].
  - rewrite <- (handshake_None _ _ session_handshake_ok). by destruct (read_handshake _ _) as [[[]|]|].
Qed.

Lemma omap_map {A B C} (f : B -> option C) (g : A -> B) l : omap f (map g l) = omap (fun x => f (g x)) l.
Proof. induction l as [|x l IH]; cbn; [done|]. by rewrite IH. Qed.
Lemma omap_Some {A} (l : list A) : omap Some l = l.
Proof. induction l as [|x l IH]; cbn; [done|]. by rewrite IH. Qed.
Lemma omap_None {A B} (l : list A) : omap (fun _ => @None B) l = [].
Proof. by induction l. Qed.
Lemma net_effects (es : list net_effect) :
  omap to_node (map Net es) = es /\ omap to_waiter (map Net es) = [] /\ omap written_back (map Net es) = [] /\
  omap to_orchestrator (map Net es) = [].
Proof. rewrite !omap_map. split; [apply omap_Some|]. split_and!; apply omap_None. Qed.
Lemma waiter_effects (l : list (Waiter * bytes)) :
  let es := map (fun '(tx, s) => To_waiter tx s) l in
  omap to_node es = [] /\ omap to_waiter es = l /\ omap written_back es = [] /\ omap to_orchestrator es = [].
Proof. cbn zeta. split_and!; by induction l as [|[tx s] l IH]; cbn; rewrite ?IH. Qed.
Lemma node_serves i x st n' es :
  node_input i = Some x -> node_step x st.1 = (n', es) -> serves [i] st (n', st.2) (map Net es).
Proof.
  intros Hi Hx. destruct (net_effects es) as (H1 & H2 & H3 & H4). unfold serves. rewrite H1, H2, H3, H4.
  cbn [omap list_omap]. rewrite Hi. cbn [run_out]. rewrite Hx, app_nil_r. by destruct i.
Qed.
(** A turn that ends stops the loop on [Stop] alone, and serves its input. *)
Lemma turn_Some i st continue st' es :
  well_delivered i -> loop_turn i st = Some (continue, st', es) -> continue = negb (is_stop i) /\ serves [i] st st' es.
Proof.
  destruct st as [n m]. destruct i as [now ev|cmd|peer s|peer s|peer s|peer s]; cbn [loop_turn]; intros Hd.
  - destruct (Handle_Swarm_Event _ _ _ _ _ _ _ _) as [n' e'] eqn:E. intros [= <- <- <-]. split; [done|].
    by apply (node_serves _ (inl (now, ev)) (n, m)).
  - destruct (Handle_Command _ _) as [[c' n'] e'] eqn:E. intros [= <- <- <-]. split.
    + destruct cmd; cbn in E; repeat case_match; by injection E as <- <- <-.
    + apply (node_serves _ (inr cmd) (n, m)); [done|]. cbn [node_step fst]. by rewrite E.
  - by intros [= <- <- <-].
  - unfold read_handshake, Read_Tensor_Stream_Handshake, read_le, mbind, reader_bind, read_exact.
    change (Z.of_nat 8) with 8. change (Z.to_nat 8) with 8%nat. unfold serves. cbn [omap list_omap node_input tensor_arrival].
    rewrite Z.leb_antisym. destruct (zlen (concat (received s)) <? 8); cbn [negb].
    + destruct (closed s); cbn; [|done]. by intros [= <- <- <-].
    + cbn [mret reader_ret]. cbn. unfold meet. cbn [fst snd]. destruct (Rendezvous.insert_inbound _ _ _) as [m' l]. intros [= <- <- <-].
      destruct (waiter_effects l) as (-> & -> & -> & ->). cbn. by rewrite app_nil_r.
  - unfold count_incoming. rewrite Bandwidth_Stream.receive_count by done. unfold serves, Bandwidth_Stream.MAX_DURATION_SECS.
    cbn [omap list_omap node_input tensor_arrival counted owed]. rewrite Z.leb_antisym, (Z.leb_antisym 10).
    destruct (zlen _ <? 2), (10 <? _), (closed s); cbn; try done; by intros [= <- <- <-].
  - unfold read_handshake, Session_Stream.Read_Session_Handshake, read_be, mbind, reader_bind, read_exact.
    change (Z.of_nat 8) with 8. change (Z.to_nat 8) with 8%nat. unfold serves. cbn [omap list_omap node_input tensor_arrival owed].
    rewrite Z.leb_antisym. destruct (zlen (concat (received s)) <? 8); cbn [negb].
    + destruct (closed s); cbn; [|done]. by intros [= <- <- <-].
    + cbn. by intros [= <- <- <-].
Qed.

(** C31: the service's loop. As long as every peer that opens a tensor or session
    stream sends its handshake or closes it, and closes a bandwidth stream, the
    loop ends only by [Stop], and what it has done is the work of each kind of
    input apart, in order: the node went through the swarm events and the
    commands, and what it sent is what they send; the rendezvous met the tensor
    streams under the number of their eight bytes, and who waited for one got it; each
    bandwidth test of at most ten seconds was answered with its bytes; and the
    orchestrator was given the file streams and the announced session streams. But
    the loop reads those streams itself: the first one on which a peer stays silent
    stops the service, whatever comes after it, [Stop] included. *)
Theorem service_loop inputs st :
  Forall well_delivered inputs ->
  (forallb prompt inputs = true ->
   let '(e, st', es) := Start inputs st in
   let served := until_stop inputs in
   e = (if existsb is_stop inputs then Stopped else Waiting) /\
   (st'.1, omap to_node es) = run_out node_step (omap node_input served) st.1 /\
   (st'.2, omap to_waiter es) = run_out meet (omap tensor_arrival served) st.2 /\
   omap written_back es = omap counted served /\
   omap to_orchestrator es = omap owed served) /\
  (forall before i after, inputs = before ++ i :: after -> forallb prompt before = true ->
   existsb is_stop before = false -> prompt i = false ->
   (Start inputs st).1.1 = Stuck /\ Start inputs st = Start (before ++ [i]) st).
Proof.
  intros HF. split.
  - revert st. induction HF as [|i inputs Hi HF IH]; intros st; [by destruct st|]. cbn [forallb existsb Start until_stop].
    intros [Hp Hps]%andb_true_iff. destruct (loop_turn i st) as [[[c st'] es]|] eqn:E.
    + apply turn_Some in E as [-> Hes]; [|done]. destruct (is_stop i) eqn:Hstop; cbn [negb orb]; [by split|].
      specialize (IH st' Hps). destruct (Start inputs st') as [[e' st''] es']. destruct IH as [IH1 IH2].
      split; [done|]. exact (serves_app [i] (until_stop inputs) st st' st'' es es' Hes IH2).
    + apply (turn_None i st Hi) in E. congruence.
  - intros before i after ->. apply Forall_app in HF as [HF [Hi _]%Forall_cons]. revert st.
    induction HF as [|j before Hjw HF IH]; intros st; cbn [forallb existsb app Start].
    + intros _ _ Hp. by rewrite (proj2 (turn_None i st Hi) Hp).
    + intros [Hj Hps]%andb_true_iff [Hs Hss]%orb_false_iff Hp.
      destruct (loop_turn j st) as [[[c st'] es]|] eqn:E; [|].
      * apply turn_Some in E as [-> _]; [|done]. rewrite Hs. cbn [negb].
        destruct (IH st' Hps Hss Hp) as [IH1 IH2]. rewrite <- IH2. by destruct (Start (before ++ i :: after) st') as [[]].
      * apply (turn_None j st Hjw) in E. congruence.
Qed.
End capability.

(** ** Waiting for a tensor stream *)
Section waits.
Context {Waiter : Type} `{EqDecision Waiter}.
Implicit Types (fin : list (Waiter * accepted)) (pi : gmap Z bytes) (pa nt : gmap Z Waiter).
Lemma deliver_fresh w s fin : w ∉ fin.*1 -> deliver [(w, s)] fin = fin ++ [(w, Got s)].
Proof. intros Hw. unfold deliver. cbn. by rewrite bool_decide_false. Qed.
Lemma deliver_gone w s fin : w ∈ fin.*1 -> deliver [(w, s)] fin = fin.
Proof. intros Hw. unfold deliver. cbn. by rewrite bool_decide_true, app_nil_r. Qed.
Lemma begin_waits pi pa nt fin id w :
  pi !! id = None ->
  accept_step (mk_accept_world (Rendezvous.mk_RendezvousMap pi pa nt) fin) (Begin id w)
  = mk_accept_world (Rendezvous.mk_RendezvousMap pi (<[id := w]> pa) nt) fin.
Proof.
  intros E. cbn [accept_step rendezvous finished]. unfold Rendezvous.register_accept.
  cbn [Rendezvous.pending_inbound Rendezvous.pending_accept Rendezvous.notifiers]. rewrite E. unfold deliver.
  cbn. by rewrite app_nil_r.
Qed.
Lemma begin_stored pi pa nt fin id w s :
  pi !! id = Some s ->
  accept_step (mk_accept_world (Rendezvous.mk_RendezvousMap pi pa nt) fin) (Begin id w)
  = mk_accept_world (Rendezvous.mk_RendezvousMap (delete id pi) pa nt) (deliver [(w, s)] fin).
Proof.
  intros E. cbn [accept_step rendezvous finished]. unfold Rendezvous.register_accept.
  cbn [Rendezvous.pending_inbound Rendezvous.pending_accept Rendezvous.notifiers]. by rewrite E.
Qed.
Lemma arrives_waited pi pa nt fin id w s :
  nt !! id = None -> pa !! id = Some w ->
  accept_step (mk_accept_world (Rendezvous.mk_RendezvousMap pi pa nt) fin) (Arrives id s)
  = mk_accept_world (Rendezvous.mk_RendezvousMap pi (delete id pa) nt) (deliver [(w, s)] fin).
Proof.
  intros E1 E2. cbn [accept_step rendezvous finished]. unfold Rendezvous.insert_inbound.
  cbn [Rendezvous.pending_inbound Rendezvous.pending_accept Rendezvous.notifiers]. by rewrite E1, E2.
Qed.
Lemma arrives_stored pi pa nt fin id s :
  nt !! id = None -> pa !! id = None ->
  accept_step (mk_accept_world (Rendezvous.mk_RendezvousMap pi pa nt) fin) (Arrives id s)
  = mk_accept_world (Rendezvous.mk_RendezvousMap (<[id := s]> pi) pa nt) fin.
Proof.
  intros E1 E2. cbn [accept_step rendezvous finished]. unfold Rendezvous.insert_inbound.
  cbn [Rendezvous.pending_inbound Rendezvous.pending_accept Rendezvous.notifiers]. rewrite E1, E2. unfold deliver.
  cbn. by rewrite app_nil_r.
Qed.
Lemma expire_fresh m fin w :
  w ∉ fin.*1 -> accept_step (mk_accept_world m fin) (Expire w) = mk_accept_world m (fin ++ [(w, Expired)]).
Proof. intros Hw. cbn [accept_step finished rendezvous]. by rewrite bool_decide_false. Qed.

(** a timed-out wait keeps its place. A stream reaches the node's call whether
    it arrives before the call or during it, and a call repeated after a timeout
    takes over. But a stream that arrives between the timeout and the second
    call is given to the first one, which is gone: it is lost, and the
    second call goes on waiting. *)
Theorem accept_retry (m : Rendezvous.RendezvousMap) fin id (w1 w2 : Waiter) s :
  Rendezvous.pending_inbound m !! id = None -> Rendezvous.pending_accept m !! id = None ->
  Rendezvous.notifiers m !! id = None -> w1 ∉ fin.*1 -> w2 ∉ fin.*1 -> w1 <> w2 ->
  let run ops := accept_run (mk_accept_world m fin) ops in
  finished (run [Begin id w1; Arrives id s]) = fin ++ [(w1, Got s)] /\
  finished (run [Arrives id s; Begin id w1]) = fin ++ [(w1, Got s)] /\
  finished (run [Begin id w1; Expire w1; Begin id w2; Arrives id s]) = fin ++ [(w1, Expired); (w2, Got s)] /\
  (let x := run [Begin id w1; Expire w1; Arrives id s; Begin id w2] in
   finished x = fin ++ [(w1, Expired)] /\ Rendezvous.pending_inbound (rendezvous x) !! id = None /\
   Rendezvous.pending_accept (rendezvous x) !! id = Some w2).
Proof.
  destruct m as [pi pa nt]. intros Hi Ha Hn H1 H2 Hne run.
  cbn [Rendezvous.pending_inbound Rendezvous.pending_accept Rendezvous.notifiers] in Hi, Ha, Hn.
  assert (w1 ∈ (fin ++ [(w1, Expired)]).*1) as Hin
    by (rewrite fmap_app, elem_of_app; right; by apply list_elem_of_singleton).
  assert (w2 ∉ (fin ++ [(w1, Expired)]).*1) as Hout.
  { rewrite fmap_app, not_elem_of_app. split; [done|]. by intros ->%list_elem_of_singleton. }
  unfold run, accept_run. cbn [foldl]. split_and!.
  - rewrite begin_waits, (arrives_waited _ _ _ _ _ w1) by (done || apply lookup_insert_eq). by apply deliver_fresh.
  - rewrite arrives_stored, (begin_stored _ _ _ _ _ _ s) by (done || apply lookup_insert_eq). by apply deliver_fresh.
  - rewrite begin_waits, expire_fresh, begin_waits, (arrives_waited _ _ _ _ _ w2) by (done || apply lookup_insert_eq).
    cbn [finished]. rewrite deliver_fresh by done. by rewrite <- app_assoc.
  - rewrite begin_waits, expire_fresh, (arrives_waited _ _ _ _ _ w1) by (done || apply lookup_insert_eq).
    by rewrite deliver_gone, begin_waits by done.
  - rewrite begin_waits, expire_fresh, (arrives_waited _ _ _ _ _ w1) by (done || apply lookup_insert_eq).
    by rewrite deliver_gone, begin_waits by done.
  - rewrite begin_waits, expire_fresh, (arrives_waited _ _ _ _ _ w1) by (done || apply lookup_insert_eq).
    rewrite deliver_gone, begin_waits by done. apply lookup_insert_eq.
Qed.
End waits.

(** ** Sending a file *)
Lemma file_name_resolved base fn p : Resolve_Path base fn = Ok p -> Path_file_name p = Some fn.
Proof.
  intros (-> & Hne & Hsl & _ & _ & Hh)%Resolve_Path_Ok. unfold Path_file_name. rewrite !as_bytes_app.
  change (as_bytes base ++ as_bytes "/" ++ as_bytes fn) with (as_bytes base ++ slash :: as_bytes fn).
  rewrite Split.split_app_last by done. rewrite List.filter_app. cbn [List.filter].
  assert (as_bytes fn <> []) as H1 by (intros E; apply Hne, as_bytes_inj, E).
  assert (forall t, Str.starts_with (as_bytes ".") (as_bytes t) = true -> fn <> t) as H2 by (intros t Ht ->; unfold hidden in Hh; congruence).
  rewrite (bool_decide_false _ H1), bool_decide_false.
  2:{ intros E%as_bytes_inj. by apply (H2 "."%string). }
  cbn [orb negb]. rewrite last_snoc, bool_decide_false; [by rewrite of_as_bytes|].
  intros E%as_bytes_inj. by apply (H2 ".."%string).
Qed.
Lemma resolve_valid base fn p : Resolve_Path base fn = Ok p -> valid_id fn = true.
Proof. unfold valid_id, Resolve_Path. by repeat case_match. Qed.

(** A stream cut within its header is no header. *)
Lemma header_cut fn size ck rest k :
  Utf8.is_str fn -> Utf8.is_str ck -> in_range 16 (str_len fn) -> in_range 16 (str_len ck) -> in_range 64 size ->
  let header := File_Stream.Write_File_Stream_Header [] fn size ck in
  (k < length header)%nat -> exists e, File_Stream.Read_File_Stream_Header (take k (header ++ rest)) = Err e.
Proof.
  intros H1 H2 H3 H4 H5 header Hk. destruct (File_Stream.Read_File_Stream_Header _) as [[[[n z] c] rest']|e] eqn:E; [|eauto].
  exfalso. apply File_Stream.read_header_Ok in E as (E & ? & ? & ? & ? & ?).
  pose proof (take_drop k (header ++ rest)) as Hcat. rewrite E, <- app_assoc in Hcat.
  apply (f_equal File_Stream.Read_File_Stream_Header) in Hcat. unfold header in Hcat.
  rewrite !File_Stream.read_header_app in Hcat by done. injection Hcat as -> -> -> _.
  apply (f_equal length) in E. fold header in E. rewrite length_take, !length_app in E. lia.
Qed.

Section sending.
Context {PeerId : Type} `{Countable PeerId} (to_string : PeerId -> bytes).
(** C10: a file from node to node. A file that the sender's storage resolves is
    written under its own name with the size read at the start. However the
    transport cuts it and wherever the connection ends, the receiver stores, under
    the same name, exactly the part of the announced size that arrived, and
    reports the file only when it is all there; if the file did not change
    meanwhile and the connection lasts, that is its contents. When not even the
    header arrives nothing is stored. The sender waits for no acknowledgement: its
    result is [Ok] once its own writes went through. *)
Theorem sent_file_arrives base fn p size file (peer : PeerId) (cut : bytes -> list bytes) s :
  Resolve_Path base fn = Ok p -> Utf8.is_str fn -> in_range 16 (str_len fn) -> in_range 64 size ->
  Chunked.delivers file -> (forall b, Chunked.delivers (cut b) /\ concat (cut b) = b) ->
  exists stream evs, send_file p (Ok size) (Ok tt) file = Some (Ok (stream, evs)) /\
  forall k,
    let got := receive_file_task to_string peer (take k stream) cut s in
    let header := (length stream - length (concat file))%nat in
    ((k < header)%nat -> got = Some (s, None, [])) /\
    ((header <= k)%nat -> locks_wf s -> (forall e, files s !! fn = Some e -> is_free (entry_lock e) s = true) ->
     (forall z, disk s !! fn <> Some (Other z)) ->
     exists s' data progress, got = Some (s', Some (fn, data), progress ++ (if size <=? zlen data then
         [Notify Info ("接收文件完成: " +:+ fn +:+ " (" +:+ dec size +:+ " bytes) from " +:+ of_bytes (to_string peer))%string]
       else [])) /\
       data = take (Z.to_nat size) (take (k - header) (concat file)) /\
       (size = zlen (concat file) -> (length stream <= k)%nat -> data = concat file) /\
       disk s' = <[fn := Regular (zlen data)]> (disk s) /\
       (exists e, files s' !! fn = Some e /\ entry_size e = zlen data /\ is_free (entry_lock e) s' = true) /\
       forall j, j <> fn -> files s' !! j = files s !! j).
Proof.
  intros Hp Hfn Hl Hsz Hfile Hcut. unfold send_file. cbn [open_file_stream open_stream_as].
  rewrite (file_name_resolved _ _ _ Hp). cbn [default from_option id].
  set (header := File_Stream.Write_File_Stream_Header [] fn size "").
  unfold File_Stream.Send_File_Data.
  destruct (File_Stream.send_loop_spec (S (length (concat file))) fn (zlen (concat file)) file header 0) as (evs & -> & _);
    [done|lia|]. cbn [fmap option_fmap option_map]. exists (header ++ concat file), evs. split; [done|].
  intros k. cbn zeta. rewrite length_app, Nat.add_sub. split.
  - intros Hk. destruct (header_cut fn size "" (concat file) k Hfn eq_refl Hl) as (e & He); [done..|].
    unfold receive_file_task. fold header in He. by rewrite He.
  - intros Hk Hwf Hfree Hdisk. rewrite take_app, (take_ge header) by lia.
    destruct (receive_file_spec to_string peer fn size "" (take (k - length header) (concat file)) cut s) as [_ Hrec]; [done..|].
    destruct (Hrec (resolve_valid _ _ _ Hp) Hwf Hfree Hdisk) as (s' & progress & E & _ & Hd & He & Ho).
    set (data := take (Z.to_nat size) (take (k - length header) (concat file))).
    assert (zlen data = Z.min size (zlen (take (k - length header) (concat file)))) as Hz
      by (unfold data, zlen; rewrite length_take; destruct Hsz; lia).
    exists s', data, progress. fold header in E. fold data in E. rewrite Hz, E. split.
    { do 3 f_equal. destruct (Z.leb_spec size (zlen (take (k - length header) (concat file)))), (Z.leb_spec size (Z.min size (zlen (take (k - length header) (concat file))))); try done; lia. }
    split; [done|]. split; [|done]. intros -> Hlen. unfold data, zlen. rewrite Nat2Z.id, (take_ge (concat file)) by lia. by rewrite take_ge.
Qed.
End sending.

(** ** Concrete runs *)
Module Example_Loop.
Import Network.Example_Node.
Abbreviation input := (loop_input (PeerId:=N) (Multiaddr:=N) (Channel:=N) (OutboundRequestId:=N) (Waiter:=N)).
Definition session : input := L_session 2%N (mk_Incoming [Session_Stream.Write_Session_Handshake [] 7 ++ [x01]] false).
Definition silent_peer : input := L_tensor 2%N (mk_Incoming [[x01; x02]] false).
(** An announced tensor stream; a bandwidth test of three seconds and four bytes. *)
Definition announced : input := L_tensor 2%N (mk_Incoming [to_le_bytes 8 9; [x05]] false).
Definition test : input := L_bandwidth 3%N (mk_Incoming [to_le_bytes 2 3; [x00; x00; x00]; [x00]] true).
Definition stop : input := L_command Network.Stop.
Definition start (inputs : list input) :=
  Start (fun _ => []) no_models (fun _ => Some []) no_sessions (fun _ => Some []) inputs (node, Rendezvous.new).
End Example_Loop.
(** Two of the node's own streams after a session stream, a bandwidth test and a
    [Stop]; and a peer that stays silent. *)
Lemma service_loop_witness :
  let run := Example_Loop.start [Example_Loop.session; Example_Loop.announced; Example_Loop.test; Example_Loop.stop; Example_Loop.session] in
  run.1.1 = Stopped /\
  omap to_orchestrator run.2 = [SessionStreamArrived 2%N 7 [x01]] /\
  omap written_back run.2 = [(3%N, to_le_bytes 8 4)] /\
  Rendezvous.pending_inbound run.1.2.2 !! 9 = Some [x05] /\
  (Example_Loop.start [Example_Loop.session; Example_Loop.silent_peer; Example_Loop.stop]).1.1 = Stuck.
Proof.
  pose proof (service_loop (PeerId:=N) (Multiaddr:=N) (Channel:=N) (OutboundRequestId:=N) (Waiter:=N) (S:=gmap N (PeerInfo N N)) (fun _ => []) Example_Node.no_models (fun _ => Some []) Example_Node.no_sessions (fun _ => Some [])) as H.
  set (inputs := [Example_Loop.session; Example_Loop.announced; Example_Loop.test; Example_Loop.stop; Example_Loop.session]).
  intros run. destruct (H inputs (Example_Node.node, Rendezvous.new)) as [H1 _]; [repeat constructor; discriminate|].
  specialize (H1 eq_refl). change (Start _ _ _ _ _ inputs _) with run in H1.
  destruct run as [[e st'] es]. destruct H1 as (E1 & _ & E2 & E3 & E4). cbn [fst snd].
  split; [exact E1|]. split; [exact E4|]. split; [exact E3|]. split.
  - apply (f_equal (fun x => Rendezvous.pending_inbound x.1 !! 9)) in E2. exact E2.
  - destruct (H [Example_Loop.session; Example_Loop.silent_peer; Example_Loop.stop] (Example_Node.node, Rendezvous.new)) as [_ H2];
      [by repeat constructor|].
    exact (proj1 (H2 [Example_Loop.session] Example_Loop.silent_peer [Example_Loop.stop] eq_refl eq_refl eq_refl eq_refl)).
Defined.
Lemma accept_retry_witness :
  let run ops := accept_run (mk_accept_world Rendezvous.new []) ops in
  finished (run [Begin 7 1%N; Expire 1%N; Arrives 7 [x01]; Begin 7 2%N]) = [(1%N, Expired)].
Proof.
  intros run.
  destruct (accept_retry Rendezvous.new [] 7 1%N 2%N [x01]) as (_ & _ & _ & E & _); [reflexivity..|by apply not_elem_of_nil|by apply not_elem_of_nil|discriminate|].
  exact E.
Defined.
Lemma sent_file_arrives_witness :
  exists stream evs s' data progress,
    send_file "/data/n.txt" (Ok 3) (Ok tt) [[x01; x02]; [x03]] = Some (Ok (stream, evs)) /\
    receive_file_task (fun _ : N => []) 2%N stream (fun b => match b with [] => [] | _ => [b] end) Example_Store.store
    = Some (s', Some ("n.txt"%string, data), progress) /\ data = [x01; x02; x03].
Proof.
  set (cut := fun b : bytes => match b with [] => [] | _ => [b] end).
  assert (forall b, Chunked.delivers (cut b) /\ concat (cut b) = b) as Hcut.
  { intros b. unfold cut. destruct b as [|x b]; [split; [constructor|done]|]. cbn. rewrite app_nil_r. split; [constructor; [done|constructor]|done]. }
  destruct (sent_file_arrives (fun _ : N => []) "/data" "n.txt" "/data/n.txt" 3 [[x01; x02]; [x03]] 2%N cut Example_Store.store)
    as (stream & evs & E & H); [reflexivity|reflexivity|split; vm_compute; congruence|split; vm_compute; congruence|by repeat constructor|exact Hcut|].
  destruct (H (length stream)) as [_ H2].
  destruct H2 as (s' & data & progress & E2 & _ & Hd & _).
  - lia.
  - apply (Example_Store.new_wf Example_Store.dir).
  - intros e He. vm_compute in He. discriminate.
  - intros z Hz. vm_compute in Hz. discriminate.
  - exists stream, evs, s', data. eexists. split; [exact E|]. rewrite take_ge in E2 by lia. split; [exact E2|].
    apply Hd; [reflexivity|lia].
Defined.
