(* ===== verification/Qwen3.v ===== *)
(** * The models ([Src/ML_Engine/GGUF_Models]: [common], [qwen3.rs], [qwen3_moe.rs])

    Assembling a layer from the tensors of a file, the forward pass of a layer
    and of a (possibly partial) model with its key/value caches, and the
    dispatch over the two kinds of model ([AnyModel] of [gguf_model.rs], whose
    other variants belong to features that are off).

    candle's tensor operations are outside: the class [Nn] names the calls, and
    [Nn_Laws] the one fact used of them. The code updates the caches in place, so a
    forward pass returns the new model with its result, also when it fails. *)
From S2P Require Import Prelude RustStd Cursor KvCache Gguf.

(** [candle_core::DType], as far as the code distinguishes. *)
Inductive dtype_tag : Set := DtF32 | DtF16 | DtBF16 | DtOther (n : Z).
#[global] Instance dtype_tag_eq_dec : EqDecision dtype_tag.
Proof. solve_decision. Defined.

(** [FusedMoeGGUF] and [MoeCfg] are records of candle. *)
Record FusedMoeGGUF {T QTensor : Type} : Type := mk_FusedMoe {
  gate : T; gate_experts : QTensor; up_experts : QTensor; down_experts : QTensor;
  fm_norm_topk_prob : bool; fm_num_experts_per_tok : Z; fm_dtype : dtype_tag;
}.
Arguments FusedMoeGGUF : clear implicits.
Arguments mk_FusedMoe {T QTensor}.
Record MoeCfg : Type := mk_MoeCfg {
  moe_intermediate_size : Z; num_experts : Z; norm_topk_prob : bool; num_experts_per_tok : Z; hidden_size : Z;
}.

Class Nn (T Dev QTensor QMatMul RmsNorm Embedding Cache : Type) : Type := {
    nn_candle :: Candle T Dev;
    tag : T -> dtype_tag;
    to_dtype : T -> dtype_tag -> result string T;
    transpose : T -> Z -> Z -> result string T;
    flatten : T -> Z -> Z -> result string T;
    contiguous : T -> result string T;
    narrow : T -> Z -> Z -> Z -> result string T;
    squeeze : T -> Z -> result string T;
    arange : Z -> Z -> Dev -> result string T;
    t_sin : T -> result string T;
    t_cos : T -> result string T;
    matmul : T -> T -> result string T;
    t_add : T -> T -> result string T;
    t_mul : T -> T -> result string T;
    broadcast_add : T -> T -> result string T;
    silu : T -> result string T;
    softmax_last_dim : T -> result string T;
    rope : T -> T -> T -> result string T;
    repeat_kv : T -> Z -> result string T;
    (** [t * (1.0 / (n as f64).sqrt())], and the [f32] values of [inv_freq]. *)
    mul_inv_sqrt : T -> Z -> result string T;
    inv_freq_value : real -> Z -> Z -> Z;
    dequantize : QTensor -> Dev -> result string T;
    qmatmul_from_weights : QTensor -> result string QMatMul;
    qmatmul_forward : QMatMul -> T -> result string T;
    rmsnorm_from_qtensor : QTensor -> real -> result string RmsNorm;
    rmsnorm_forward : RmsNorm -> T -> result string T;
    embedding_new : T -> Z -> Embedding;
    embedding_forward : Embedding -> T -> result string T;
    moe_forward : FusedMoeGGUF T QTensor -> T -> bool -> result string T;
    cache_new : Z -> Cache;
    cache_append : Cache -> T -> T -> Cache * result string (T * T);
    cache_reset : Cache -> Cache;
    cache_k : Cache -> option T;
    cache_v : Cache -> option T;
}.
(** Tensors are added elementwise: the sum has their common shape. *)
Class Nn_Laws (T Dev QTensor QMatMul RmsNorm Embedding Cache : Type)
    `{!Nn T Dev QTensor QMatMul RmsNorm Embedding Cache} : Prop :=
  add_dims x y z : t_add x y = Ok z -> dims z = dims x.

Section models.
Context {T Dev QTensor QMatMul RmsNorm Embedding Cache : Type}.
Context `{!Nn T Dev QTensor QMatMul RmsNorm Embedding Cache}.
Definition dim (t : T) (i : nat) : result string Z := ok_or "dim out of range"%string (dims t !! i).

(** ** [common/rope.rs] *)
Record Rotary_Embedding : Type := mk_Rotary { sin : T; cos : T }.
Definition Rotary_New (dt : dtype_tag) (head_dim max_position_embeddings : Z) (rope_theta : real) (dev : Dev)
    : result string Rotary_Embedding :=
  let dim := head_dim in
  let max_seq_len := max_position_embeddings in
  let inv_freq := map (fun i => inv_freq_value rope_theta (2 * Z.of_nat i) dim) (seq 0 (Z.to_nat ((dim + 1) / 2))) in
  let inv_freq_len := zlen inv_freq in
  v ← from_vec F32 inv_freq [1; inv_freq_len] dev;
  inv_freq ← to_dtype v dt;
  t ← arange 0 (wrap 32 max_seq_len) dev;
  t ← to_dtype t dt;
  t ← reshape t [max_seq_len; 1];
  freqs ← matmul t inv_freq;
  s ← t_sin freqs;
  c ← t_cos freqs;
  Ok (mk_Rotary s c).
(** [q.dims4()]: an error unless the rank is four. *)
Definition dims4 (t : T) : result string (Z * Z * Z * Z) :=
  match dims t with [a; b; c; d] => Ok (a, b, c, d) | _ => Err "unexpected rank"%string end.
Definition dims3 (t : T) : result string (Z * Z * Z) :=
  match dims t with [a; b; c] => Ok (a, b, c) | _ => Err "unexpected rank"%string end.
Definition Rotary_Apply (r : Rotary_Embedding) (q k : T) (offset : Z) : result string (T * T) :=
  '(_, _, seq_len, _) ← dims4 q;
  c ← narrow (cos r) 0 offset seq_len;
  c ← to_dtype c (tag q);
  s ← narrow (sin r) 0 offset seq_len;
  s ← to_dtype s (tag q);
  q' ← contiguous q;
  q_embed ← rope q' c s;
  k' ← contiguous k;
  k_embed ← rope k' c s;
  Ok (q_embed, k_embed).

(** ** [common/mlp.rs] *)
Record Mlp_Weights : Type := mk_Mlp { gate_proj : QMatMul; up_proj : QMatMul; down_proj : QMatMul }.
Definition Mlp_forward (m : Mlp_Weights) (x : T) : result string T :=
  g ← qmatmul_forward (gate_proj m) x;
  gate ← silu g;
  up ← qmatmul_forward (up_proj m) x;
  gated ← t_mul gate up;
  qmatmul_forward (down_proj m) gated.

(** ** Attention *)
Record Attention_Weights : Type := mk_Attention {
  q_proj : QMatMul; k_proj : QMatMul; v_proj : QMatMul; o_proj : QMatMul; q_norm : RmsNorm; k_norm : RmsNorm;
  num_heads : Z; num_kv_heads : Z; num_kv_groups : Z; att_head_dim : Z; rotary_emb : Rotary_Embedding; kv_cache : Cache;
}.
Definition with_cache (c : Cache) (a : Attention_Weights) : Attention_Weights :=
  mk_Attention (q_proj a) (k_proj a) (v_proj a) (o_proj a) (q_norm a) (k_norm a) (num_heads a) (num_kv_heads a)
    (num_kv_groups a) (att_head_dim a) (rotary_emb a) c.
(** Up to the cache: the rotated queries and keys, and the values. *)
Definition project_heads (t : T) (b l heads d : Z) : result string T :=
  t ← reshape t [b; l; heads; d]; transpose t 1 2.
Definition normalize_heads (n : RmsNorm) (t : T) (b heads l d : Z) : result string T :=
  flat ← flatten t 0 2; flat ← rmsnorm_forward n flat; reshape flat [b; heads; l; d].
Definition project (a : Attention_Weights) (x : T) (offset : Z) : result string (Z * Z * T * T * T) :=
  '(b, l, _) ← dims3 x;
  q ← qmatmul_forward (q_proj a) x;
  k ← qmatmul_forward (k_proj a) x;
  v ← qmatmul_forward (v_proj a) x;
  q ← project_heads q b l (num_heads a) (att_head_dim a);
  k ← project_heads k b l (num_kv_heads a) (att_head_dim a);
  v ← project_heads v b l (num_kv_heads a) (att_head_dim a);
  q ← normalize_heads (q_norm a) q b (num_heads a) l (att_head_dim a);
  k ← normalize_heads (k_norm a) k b (num_kv_heads a) l (att_head_dim a);
  '(q, k) ← Rotary_Apply (rotary_emb a) q k offset;
  Ok (b, l, q, k, v).
Definition masked (scores : T) (attn_mask : option T) : result string T :=
  match attn_mask with
  | None => Ok scores
  | Some m =>
      mask ← (if bool_decide (tag m = tag scores) then Ok m else to_dtype m (tag scores));
      broadcast_add scores mask
  end.
(** From the extended keys and values. *)
Definition attend (a : Attention_Weights) (attn_mask : option T) (b l : Z) (q k v : T) : result string T :=
  k ← repeat_kv k (num_kv_groups a);
  k ← contiguous k;
  v ← repeat_kv v (num_kv_groups a);
  v ← contiguous v;
  kt ← transpose k 2 3;
  s ← matmul q kt;
  s ← mul_inv_sqrt s (att_head_dim a);
  scores ← masked s attn_mask;
  probs ← softmax_last_dim scores;
  ctx ← matmul probs v;
  ctx ← transpose ctx 1 2;
  reshaped_ctx ← reshape ctx [b; l; num_heads a * att_head_dim a];
  qmatmul_forward (o_proj a) reshaped_ctx.
Definition Attention_Forward (a : Attention_Weights) (x : T) (attn_mask : option T) (offset : Z)
    : Attention_Weights * result string T :=
  match project a x offset with
  | Err e => (a, Err e)
  | Ok (b, l, q, k, v) =>
      let (c, r) := cache_append (kv_cache a) k v in
      let a := with_cache c a in
      (a, '(k, v) ← r; attend a attn_mask b l q k v)
  end.
Definition Attention_Clear (a : Attention_Weights) : Attention_Weights := with_cache (cache_reset (kv_cache a)) a.

(** ** Layers *)
(** [ln1; attention; +; ln2; f; +]: both kinds of layer, for their feed-forward [f]. *)
Definition residual (ln1 ln2 : RmsNorm) (f : T -> result string T) (a : Attention_Weights) (x : T) (mask : option T)
    (offset : Z) : Attention_Weights * result string T :=
  match rmsnorm_forward ln1 x with
  | Err e => (a, Err e)
  | Ok h =>
      let (a, r) := Attention_Forward a h mask offset in
      (a, h ← r;
          x ← t_add x h;
          h2 ← rmsnorm_forward ln2 x;
          h2 ← f h2;
          t_add x h2)
  end.
Record Layer_Weights : Type := mk_Layer { self_attn : Attention_Weights; mlp : Mlp_Weights; ln1 : RmsNorm; ln2 : RmsNorm }.
Definition Layer_Forward (y : Layer_Weights) (x : T) (mask : option T) (offset : Z) (_ : bool)
    : Layer_Weights * result string T :=
  let (a, r) := residual (ln1 y) (ln2 y) (Mlp_forward (mlp y)) (self_attn y) x mask offset in
  (mk_Layer a (mlp y) (ln1 y) (ln2 y), r).
Definition Layer_Clear (y : Layer_Weights) : Layer_Weights := mk_Layer (Attention_Clear (self_attn y)) (mlp y) (ln1 y) (ln2 y).

Inductive MoeOrMlp : Type := Mlp (m : Mlp_Weights) | MoE (m : FusedMoeGGUF T QTensor).
Definition MoeOrMlp_Forward (m : MoeOrMlp) (xs : T) (is_prefill : bool) : result string T :=
  match m with Mlp m => Mlp_forward m xs | MoE m => moe_forward m xs is_prefill end.
Record Qwen3MoE_Layer : Type := mk_MoE_Layer {
  moe_attn : Attention_Weights; moe_ln1 : RmsNorm; moe_mlp : MoeOrMlp; moe_ln2 : RmsNorm }.
Definition MoE_Layer_Forward (y : Qwen3MoE_Layer) (x : T) (mask : option T) (offset : Z) (is_prefill : bool)
    : Qwen3MoE_Layer * result string T :=
  let (a, r) := residual (moe_ln1 y) (moe_ln2 y) (fun h => MoeOrMlp_Forward (moe_mlp y) h is_prefill) (moe_attn y) x mask offset in
  (mk_MoE_Layer a (moe_ln1 y) (moe_mlp y) (moe_ln2 y), r).
Definition MoE_Layer_Clear (y : Qwen3MoE_Layer) : Qwen3MoE_Layer :=
  mk_MoE_Layer (Attention_Clear (moe_attn y)) (moe_ln1 y) (moe_mlp y) (moe_ln2 y).

(** *** Assembly from the tensors of a file *)
Abbreviation tensors_t := (gmap string QTensor).
Definition lift {A} (m : result string A) : result (fault string) A := map_err Failed m.
Definition take_tensor (missing key : string) (ts : tensors_t) : result string (QTensor * tensors_t) :=
  match ts !! key with
  | Some qt => Ok (qt, delete key ts)
  | None => Err (missing +:+ key)%string
  end.
Definition Take_Qmatmul (ts : tensors_t) (key : string) : result string (QMatMul * tensors_t) :=
  '(qt, ts) ← take_tensor "missing tensor: " key ts; w ← qmatmul_from_weights qt; Ok (w, ts).
Definition Take_Rmsnorm (eps : real) (ts : tensors_t) (key : string) : result string (RmsNorm * tensors_t) :=
  '(qt, ts) ← take_tensor "missing tensor: " key ts; n ← rmsnorm_from_qtensor qt eps; Ok (n, ts).
Definition layer_prefix (layer_idx : Z) : string := ("blk." +:+ fmt_uint layer_idx)%string.
(** The attention, common to both kinds of layer. Without key/value heads the
    division panics. *)
Definition attention_from (ts : tensors_t) (heads kv_heads head_dim : Z) (eps : real) (rotary : Rotary_Embedding)
    (prefix : string) : result (fault string) (Attention_Weights * tensors_t) :=
  '(q, ts) ← lift (Take_Qmatmul ts (prefix +:+ ".attn_q.weight")%string);
  '(k, ts) ← lift (Take_Qmatmul ts (prefix +:+ ".attn_k.weight")%string);
  '(v, ts) ← lift (Take_Qmatmul ts (prefix +:+ ".attn_v.weight")%string);
  '(o, ts) ← lift (Take_Qmatmul ts (prefix +:+ ".attn_output.weight")%string);
  '(qn, ts) ← lift (Take_Rmsnorm eps ts (prefix +:+ ".attn_q_norm.weight")%string);
  '(kn, ts) ← lift (Take_Rmsnorm eps ts (prefix +:+ ".attn_k_norm.weight")%string);
  if kv_heads =? 0 then Err Panicked else
  Ok (mk_Attention q k v o qn kn heads kv_heads (heads / kv_heads) head_dim rotary (cache_new 2), ts).
Definition From_Extracted (ts : tensors_t) (heads kv_heads head_dim : Z) (eps : real) (rotary : Rotary_Embedding)
    (layer_idx : Z) : result (fault string) Layer_Weights :=
  let prefix := layer_prefix layer_idx in
  '(a, ts) ← attention_from ts heads kv_heads head_dim eps rotary prefix;
  '(g, ts) ← lift (Take_Qmatmul ts (prefix +:+ ".ffn_gate.weight")%string);
  '(u, ts) ← lift (Take_Qmatmul ts (prefix +:+ ".ffn_up.weight")%string);
  '(d, ts) ← lift (Take_Qmatmul ts (prefix +:+ ".ffn_down.weight")%string);
  '(n1, ts) ← lift (Take_Rmsnorm eps ts (prefix +:+ ".attn_norm.weight")%string);
  '(n2, _) ← lift (Take_Rmsnorm eps ts (prefix +:+ ".ffn_norm.weight")%string);
  Ok (mk_Layer a (mk_Mlp g u d) n1 n2).
(** [mlp.rs]: the dense feed-forward of a mixed model. *)
Definition take_named (what : string) (ts : tensors_t) (key : string) : result string (QMatMul * tensors_t) :=
  '(qt, ts) ← take_tensor "missing: " key ts;
  w ← map_err (fun e => (what +:+ ": " +:+ e)%string) (qmatmul_from_weights qt);
  Ok (w, ts).
Definition New_From_Extracted (ts : tensors_t) (prefix : string) : result string (Mlp_Weights * tensors_t) :=
  '(g, ts) ← take_named "ffn_gate" ts (prefix +:+ ".ffn_gate.weight")%string;
  '(u, ts) ← take_named "ffn_up" ts (prefix +:+ ".ffn_up.weight")%string;
  '(d, ts) ← take_named "ffn_down" ts (prefix +:+ ".ffn_down.weight")%string;
  Ok (mk_Mlp g u d, ts).
Definition moe_from (ts : tensors_t) (cfg : MoeCfg) (model_dtype : dtype_tag) (prefix : string)
    : result string (MoeOrMlp * tensors_t) :=
  '(gate_qt, ts) ← take_tensor "missing: " (prefix +:+ ".ffn_gate_inp.weight")%string ts;
  w ← dequantize gate_qt cpu;
  gate_ws ← to_dtype w DtF32;
  '(gx, ts) ← take_tensor "missing: " (prefix +:+ ".ffn_gate_exps.weight")%string ts;
  '(ux, ts) ← take_tensor "missing: " (prefix +:+ ".ffn_up_exps.weight")%string ts;
  '(dx, ts) ← take_tensor "missing: " (prefix +:+ ".ffn_down_exps.weight")%string ts;
  Ok (MoE (mk_FusedMoe gate_ws gx ux dx (norm_topk_prob cfg) (num_experts_per_tok cfg) model_dtype), ts).
Definition MoE_From_Extracted (ts : tensors_t) (heads kv_heads head_dim : Z) (eps : real) (rotary : Rotary_Embedding)
    (layer_idx : Z) (is_moe : bool) (cfg : MoeCfg) (model_dtype : dtype_tag) : result (fault string) Qwen3MoE_Layer :=
  let prefix := layer_prefix layer_idx in
  '(a, ts) ← attention_from ts heads kv_heads head_dim eps rotary prefix;
  '(m, ts) ← lift (if is_moe then moe_from ts cfg model_dtype prefix
                   else '(m, ts) ← New_From_Extracted ts prefix; Ok (Mlp m, ts));
  '(n1, ts) ← lift (Take_Rmsnorm eps ts (prefix +:+ ".attn_norm.weight")%string);
  '(n2, _) ← lift (Take_Rmsnorm eps ts (prefix +:+ ".ffn_norm.weight")%string);
  Ok (mk_MoE_Layer a n1 m n2).

(** ** Models *)
Record Model_Of {Layer : Type} : Type := mk_Model {
  embed_tokens : option Embedding; layers : list Layer; norm : option RmsNorm; lm_head : option QMatMul;
  m_device : Dev; m_dtype : dtype_tag;
}.
Arguments Model_Of : clear implicits.
Arguments mk_Model {Layer}.
Arguments embed_tokens {Layer}.
Arguments layers {Layer}.
Arguments norm {Layer}.
Arguments lm_head {Layer}.
Arguments m_device {Layer}.
Arguments m_dtype {Layer}.
Definition Model_Weights : Type := Model_Of Layer_Weights.
Definition Qwen3MoE_Model : Type := Model_Of Qwen3MoE_Layer.

(** The values of the mask, [f32] bits: zero, or minus infinity. [sw] is a sliding
    window; the code passes none. *)
Definition NEG_INFINITY : Z := 0xFF800000.
Definition mask_value (sw : option Z) (offset i j : Z) : Z :=
  let past_ok := j <=? i + offset in
  let sw_ok := match sw with Some w => i + offset - j <=? w | None => true end in
  if past_ok && sw_ok then 0 else NEG_INFINITY.
Definition upto (n : Z) : list Z := map Z.of_nat (seq 0 (Z.to_nat n)).
Definition mask_values (tgt offset : Z) (sw : option Z) : list Z :=
  concat (map (fun i => map (mask_value sw offset i) (upto (tgt + offset))) (upto tgt)).
Definition Causal_Mask (dev : Dev) (dt : dtype_tag) (b tgt offset : Z) (sw : option Z) : result string T :=
  t ← from_vec F32 (mask_values tgt offset sw) [b; 1; tgt; tgt + offset] dev;
  to_dtype t dt.

Section model.
Context {Layer : Type} (layer_forward : Layer -> T -> option T -> Z -> bool -> Layer * result string T).
Abbreviation Model := (Model_Of Layer).
Definition with_layers (ls : list Layer) (m : Model) : Model :=
  mk_Model (embed_tokens m) ls (norm m) (lm_head m) (m_device m) (m_dtype m).
(** [for layer in &mut self.layers]: an error leaves the rest as it was. *)
Fixpoint run_layers (ls : list Layer) (h : T) (mask : option T) (offset : Z) (is_prefill : bool)
    : list Layer * result string T :=
  match ls with
  | [] => ([], Ok h)
  | y :: ls =>
      let (y, r) := layer_forward y h mask offset is_prefill in
      match r with
      | Err e => (y :: ls, Err e)
      | Ok h => let (ls, r) := run_layers ls h mask offset is_prefill in (y :: ls, r)
      end
  end.
Definition embed (m : Model) (input : T) : result string T :=
  match embed_tokens m with Some e => embedding_forward e input | None => Ok input end.
Definition mask_for (m : Model) (h : T) (offset : Z) : result string (Z * option T) :=
  b ← dim h 0;
  l ← dim h 1;
  mask ← (if l =? 1 then Ok None else t ← Causal_Mask (m_device m) (m_dtype m) b l offset None; Ok (Some t));
  Ok (l, mask).
(** On an empty sequence [l - 1] wraps, without overflow checks. *)
Definition output_head (m : Model) (l : Z) (h : T) : result string T :=
  match norm m, lm_head m with
  | Some norm, Some lm_head =>
      h ← rmsnorm_forward norm h;
      last_hidden ← narrow h 1 (wrap 64 (l - 1)) 1;
      logits ← qmatmul_forward lm_head last_hidden;
      squeeze logits 1
  | _, _ => Ok h
  end.
Definition Forward (m : Model) (input : T) (offset : Z) : Model * result string T :=
  match (h ← embed m input; p ← mask_for m h offset; Ok (h, p)) with
  | Err e => (m, Err e)
  | Ok (h, (l, mask)) =>
      let (ls, r) := run_layers (layers m) h mask offset (1 <? l) in
      (with_layers ls m, h ← r; output_head m l h)
  end.
End model.
Definition Model_Forward : Model_Weights -> T -> Z -> Model_Weights * result string T := Forward Layer_Forward.
Definition Model_Clear (m : Model_Weights) : Model_Weights := with_layers (map Layer_Clear (layers m)) m.
Definition MoE_Model_Forward : Qwen3MoE_Model -> T -> Z -> Qwen3MoE_Model * result string T := Forward MoE_Layer_Forward.
Definition MoE_Model_Clear (m : Qwen3MoE_Model) : Qwen3MoE_Model := with_layers (map MoE_Layer_Clear (layers m)) m.

(** *** [AnyModel] *)
Inductive AnyModel : Type := Qwen3 (m : Model_Weights) | Qwen3Moe (m : Qwen3MoE_Model).
Definition Any_Forward (m : AnyModel) (input : T) (offset : Z) : AnyModel * result string T :=
  match m with
  | Qwen3 m => let (m, r) := Model_Forward m input offset in (Qwen3 m, r)
  | Qwen3Moe m => let (m, r) := MoE_Model_Forward m input offset in (Qwen3Moe m, r)
  end.
Definition Any_Clear (m : AnyModel) : AnyModel :=
  match m with Qwen3 m => Qwen3 (Model_Clear m) | Qwen3Moe m => Qwen3Moe (MoE_Model_Clear m) end.
(** The caches of the layers, in order. *)
Definition cache_pair (c : Cache) : result string (T * T) :=
  let empty := "extract_kv_cache: KV cache is empty (no inference done yet)"%string in
  k ← ok_or empty (cache_k c); v ← ok_or empty (cache_v c); Ok (k, v).
Fixpoint cache_pairs (cs : list Cache) : result string (list (T * T)) :=
  match cs with
  | [] => Ok []
  | c :: cs => p ← cache_pair c; ps ← cache_pairs cs; Ok (p :: ps)
  end.
Definition layer_caches (m : AnyModel) : list Cache :=
  match m with
  | Qwen3 m => map (fun y => kv_cache (self_attn y)) (layers m)
  | Qwen3Moe m => map (fun y => kv_cache (moe_attn y)) (layers m)
  end.
Definition Any_extract_kv_cache (m : AnyModel) : result string (list (T * T)) :=
  match layer_caches m with
  | [] => Err "extract_kv_cache: model has no layers"%string
  | cs => cache_pairs cs
  end.
Fixpoint append_all {Layer} (get : Layer -> Cache) (set : Cache -> Layer -> Layer) (ls : list Layer) (kvs : list (T * T))
    : list Layer * result string unit :=
  match ls, kvs with
  | y :: ls', (k, v) :: kvs =>
      let (c, r) := cache_append (get y) k v in
      let y := set c y in
      match r with
      | Err e => (y :: ls', Err ("restore_kv_cache: append failed: " +:+ e)%string)
      | Ok _ => let (ls', r) := append_all get set ls' kvs in (y :: ls', r)
      end
  | _, _ => (ls, Ok tt)
  end.
Definition Any_restore_kv_cache (m : AnyModel) (kvs : list (T * T)) : AnyModel * result string unit :=
  if negb (length kvs =? length (layer_caches m))%nat
  then (m, Err ("restore_kv_cache: layer count mismatch (expected " +:+ fmt_uint (zlen (layer_caches m)) +:+ ", got "
                +:+ fmt_uint (zlen kvs) +:+ ")")%string) else
  match m with
  | Qwen3 m =>
      let (ls, r) := append_all (fun y => kv_cache (self_attn y))
        (fun c y => mk_Layer (with_cache c (self_attn y)) (mlp y) (ln1 y) (ln2 y)) (layers m) kvs in
      (Qwen3 (with_layers ls m), r)
  | Qwen3Moe m =>
      let (ls, r) := append_all (fun y => kv_cache (moe_attn y))
        (fun c y => mk_MoE_Layer (with_cache c (moe_attn y)) (moe_ln1 y) (moe_mlp y) (moe_ln2 y)) (layers m) kvs in
      (Qwen3Moe (with_layers ls m), r)
  end.

(** ** A model in stages *)
Section stages.
Context {Layer : Type} (layer_forward : Layer -> T -> option T -> Z -> bool -> Layer * result string T).
Abbreviation Model := (Model_Of Layer).
(** The model whose layers are those of [m] and then those of [m2]. *)
Definition join2 (m m2 : Model) : Model :=
  mk_Model (embed_tokens m) (layers m ++ layers m2) (norm m2) (lm_head m2) (m_device m) (m_dtype m).
Fixpoint join (m : Model) (ms : list Model) : Model :=
  match ms with [] => m | m2 :: ms => join2 m (join m2 ms) end.
(** On one device and with one data type; only the first stage embeds, only the
    last one has an output head. *)
Inductive stages (dev : Dev) (dt : dtype_tag) : list Model -> Prop :=
  | stages_last m : m_device m = dev -> m_dtype m = dt -> stages dev dt [m]
  | stages_cons m m2 ms :
      m_device m = dev -> m_dtype m = dt -> norm m = None \/ lm_head m = None -> embed_tokens m2 = None ->
      stages dev dt (m2 :: ms) -> stages dev dt (m :: m2 :: ms).
(** One pass through stages of any kind; one that fails ends it. *)
Fixpoint pipeline {M} (forward : M -> T -> Z -> M * result string T) (ms : list M) (h : T) (offset : Z)
    : list M * result string T :=
  match ms with
  | [] => ([], Ok h)
  | m :: ms =>
      let (m, r) := forward m h offset in
      match r with
      | Err e => (m :: ms, Err e)
      | Ok h => let (ms, r) := pipeline forward ms h offset in (m :: ms, r)
      end
  end.
(** The results of successive passes. *)
Fixpoint serve {S} (step : S -> T -> Z -> S * result string T) (s : S) (inputs : list (T * Z)) : list (result string T) :=
  match inputs with
  | [] => []
  | (x, offset) :: inputs => let (s, r) := step s x offset in r :: serve step s inputs
  end.

Lemma run_layers_app ls1 ls2 h mask offset pre :
  run_layers layer_forward (ls1 ++ ls2) h mask offset pre =
  let (ls1, r) := run_layers layer_forward ls1 h mask offset pre in
  match r with
  | Err e => (ls1 ++ ls2, Err e)
  | Ok h => let (ls2, r) := run_layers layer_forward ls2 h mask offset pre in (ls1 ++ ls2, r)
  end.
Proof.
  revert h. induction ls1 as [|y ls1 IH]; intros h; cbn [app run_layers].
  - by destruct (run_layers _ ls2 _ _ _ _).
  - destruct (layer_forward y h mask offset pre) as [y' [h'|e]]; [|done]. rewrite IH.
    destruct (run_layers _ ls1 _ _ _ _) as [ls1' [h''|e]]; [|done]. by destruct (run_layers _ ls2 _ _ _ _).
Qed.
Hypothesis layer_dims : forall y h mask offset pre y' h',
  layer_forward y h mask offset pre = (y', Ok h') -> dims h' = dims h.
Lemma run_layers_dims ls h mask offset pre ls' h' :
  run_layers layer_forward ls h mask offset pre = (ls', Ok h') -> dims h' = dims h.
Proof.
  revert h ls'. induction ls as [|y ls IH]; intros h ls'; cbn [run_layers]; [by intros [= _ <-]|].
  destruct (layer_forward y h mask offset pre) as [y' [h1|e]] eqn:E; [|done].
  destruct (run_layers _ ls h1 _ _ _) as [ls1 r] eqn:Er. intros [= _ ->]. apply IH in Er. apply layer_dims in E. congruence.
Qed.
Lemma mask_for_ext (m m2 : Model) h h2 offset :
  m_device m = m_device m2 -> m_dtype m = m_dtype m2 -> dims h = dims h2 -> mask_for m h offset = mask_for m2 h2 offset.
Proof. unfold mask_for, dim. by intros -> -> ->. Qed.

Lemma forward_join2 m m2 input offset :
  m_device m = m_device m2 -> m_dtype m = m_dtype m2 -> norm m = None \/ lm_head m = None -> embed_tokens m2 = None ->
  Forward layer_forward (join2 m m2) input offset =
  let (m', r) := Forward layer_forward m input offset in
  match r with
  | Err e => (join2 m' m2, Err e)
  | Ok h => let (m2', r) := Forward layer_forward m2 h offset in (join2 m' m2', r)
  end.
Proof.
  intros Hdev Hdt Hno Hemb. unfold Forward at 1 2. change (embed (join2 m m2)) with (embed m).
  cbn [layers join2].
  destruct (embed m input) as [h|e]; [|done]. cbn [mbind result_bind].
  change (mask_for (join2 m m2) h offset) with (mask_for m h offset).
  destruct (mask_for m h offset) as [[l mask]|e] eqn:Em; [|done]. cbn [mbind result_bind].
  rewrite run_layers_app. destruct (run_layers _ (layers m) _ _ _ _) as [ls1 [h1|e]] eqn:E1; [|done]. cbn [mbind result_bind].
  assert (output_head (with_layers ls1 m) l h1 = Ok h1) as Hout by (unfold output_head; cbn; destruct Hno as [->| ->]; by destruct (norm m)).
  unfold output_head in Hout. cbn [with_layers norm lm_head] in Hout. unfold output_head at 2. rewrite Hout.
  unfold Forward. unfold embed. rewrite Hemb. cbn [mbind result_bind].
  rewrite <- (mask_for_ext m m2 h h1), Em by (done || by rewrite (run_layers_dims _ _ _ _ _ _ _ E1)). cbn [mbind result_bind].
  by destruct (run_layers _ (layers m2) _ _ _ _) as [ls2 r2].
Qed.

Lemma forward_keeps m input offset m' r :
  Forward layer_forward m input offset = (m', r) ->
  embed_tokens m' = embed_tokens m /\ norm m' = norm m /\ lm_head m' = lm_head m /\ m_device m' = m_device m /\ m_dtype m' = m_dtype m.
Proof.
  unfold Forward. destruct (_ ≫= _) as [[h [l mask]]|e]; [|by intros [= <- _]].
  destruct (run_layers _ _ _ _ _ _) as [ls r']. by intros [= <- _].
Qed.
Lemma stages_forward dev dt m ms input offset m' r :
  stages dev dt (m :: ms) -> Forward layer_forward m input offset = (m', r) -> stages dev dt (m' :: ms).
Proof.
  intros Hs (E1 & E2 & E3 & E4 & E5)%forward_keeps. inversion Hs; subst; constructor; try congruence.
Qed.
Lemma stages_head dev dt m ms : stages dev dt (m :: ms) -> m_device m = dev /\ m_dtype m = dt.
Proof. by inversion 1. Qed.
Lemma join_head m ms :
  embed_tokens (join m ms) = embed_tokens m /\ m_device (join m ms) = m_device m /\ m_dtype (join m ms) = m_dtype m.
Proof. by destruct ms. Qed.
Lemma pipeline_step dev dt m ms input offset :
  stages dev dt (m :: ms) ->
  exists m' ms' r, pipeline (Forward layer_forward) (m :: ms) input offset = (m' :: ms', r) /\
    Forward layer_forward (join m ms) input offset = (join m' ms', r) /\ stages dev dt (m' :: ms').
Proof.
  revert m input. induction ms as [|m2 ms IH]; intros m input Hs.
  - cbn [pipeline join]. destruct (Forward layer_forward m input offset) as [m' r] eqn:E.
    exists m', [], r. split; [by destruct r|]. split; [done|]. by apply (stages_forward _ _ _ _ _ _ _ _ Hs E).
  - inversion Hs as [|? ? ? Hd1 Hd2 Hno Hemb Hs2]; subst. destruct (join_head m2 ms) as (Je & Jd & Jt).
    destruct (stages_head _ _ _ _ Hs2) as [Hd Ht].
    cbn [join]. rewrite (forward_join2 m (join m2 ms)) by congruence.
    change (pipeline (Forward layer_forward) (m :: m2 :: ms) input offset) with
      (let (m, r) := Forward layer_forward m input offset in
       match r with Err e => (m :: m2 :: ms, Err e)
       | Ok h => let (ms, r) := pipeline (Forward layer_forward) (m2 :: ms) h offset in (m :: ms, r) end).
    destruct (Forward layer_forward m input offset) as [m' [h|e]] eqn:E.
    + pose proof (forward_keeps _ _ _ _ _ E) as (K1 & K2 & K3 & K4 & K5).
      destruct (IH m2 h Hs2) as (m2' & ms' & r & -> & E2 & Hs').
      exists m', (m2' :: ms'), r. split; [done|]. rewrite E2. split; [done|].
      destruct (stages_head _ _ _ _ Hs') as [? ?]. constructor; try congruence.
      apply forward_keeps in E2 as (Q1 & _). destruct (join_head m2' ms') as (J2 & _). congruence.
    + exists m', (m2 :: ms), (Err e). split; [done|]. split; [done|]. by apply (stages_forward _ _ _ _ _ _ _ _ Hs E).
Qed.
Lemma serve_pipeline dev dt m ms inputs :
  stages dev dt (m :: ms) -> serve (pipeline (Forward layer_forward)) (m :: ms) inputs = serve (Forward layer_forward) (join m ms) inputs.
Proof.
  revert m ms. induction inputs as [|[x offset] inputs IH]; intros m ms Hs; [done|]. cbn [serve].
  destruct (pipeline_step dev dt m ms x offset Hs) as (m' & ms' & r & -> & -> & Hs'). by rewrite IH.
Qed.
End stages.
End models.
Arguments mk_Model {Dev QMatMul RmsNorm Embedding Layer}.
Arguments Model_Of : clear implicits.

(** ** The properties *)
Lemma lookup_concat_rows {A B} (f : A -> list B) n l i j a :
  (forall a, length (f a) = n) -> (j < n)%nat -> l !! i = Some a -> concat (map f l) !! (i * n + j)%nat = f a !! j.
Proof.
  intros Hf Hj. revert i. induction l as [|x l IH]; intros i; [done|]. cbn [map concat]. destruct i as [|i]; cbn [lookup list_lookup].
  - intros [= ->]. rewrite lookup_app_l; [done|]. by rewrite Hf.
  - intros Hi. rewrite lookup_app_r by (rewrite Hf; cbn; lia). rewrite Hf, <- (IH i Hi). f_equal. cbn. lia.
Qed.
Lemma length_concat_rows {A B} (f : A -> list B) n l : (forall a, length (f a) = n) -> length (concat (map f l)) = (length l * n)%nat.
Proof. intros Hf. induction l as [|x l IH]; [done|]. cbn. by rewrite length_app, Hf, IH. Qed.
Lemma length_upto n : length (upto n) = Z.to_nat n.
Proof. unfold upto. by rewrite length_map, length_seq. Qed.
Lemma lookup_upto n i : 0 <= i < n -> upto n !! Z.to_nat i = Some i.
Proof. intros Hi. unfold upto. rewrite list_lookup_fmap, lookup_seq_lt by lia. cbn. f_equal. lia. Qed.

(** the causal mask. For a pass over [tgt] tokens after [offset] cached ones
    the mask is a table of [tgt] rows and [tgt + offset] columns, zero where the
    column is not later than the row's token and minus infinity elsewhere; for one
    token it is all zero, so that leaving it out, as the code does, is no loss. *)
Theorem mask_exact tgt offset :
  0 <= tgt -> 0 <= offset ->
  zlen (mask_values tgt offset None) = tgt * (tgt + offset) /\
  (forall i j, 0 <= i < tgt -> 0 <= j < tgt + offset ->
   mask_values tgt offset None !! Z.to_nat (i * (tgt + offset) + j) = Some (if j <=? i + offset then 0 else NEG_INFINITY)) /\
  mask_values 1 offset None = replicate (Z.to_nat (1 + offset)) 0.
Proof.
  intros Ht Ho. assert (forall i, length (map (mask_value None offset i) (upto (tgt + offset))) = Z.to_nat (tgt + offset)) as Hrow
    by (intros i; by rewrite length_map, length_upto). split_and!.
  - unfold mask_values, zlen. rewrite (length_concat_rows _ _ _ Hrow), length_upto. lia.
  - intros i j Hi Hj. unfold mask_values.
    replace (Z.to_nat (i * (tgt + offset) + j)) with (Z.to_nat i * Z.to_nat (tgt + offset) + Z.to_nat j)%nat by nia.
    rewrite (lookup_concat_rows _ _ _ _ _ i Hrow) by (lia || by apply lookup_upto).
    rewrite list_lookup_fmap, lookup_upto by done. cbn. unfold mask_value. by rewrite andb_true_r.
  - unfold mask_values. cbn [upto Z.to_nat seq map concat Pos.to_nat]. change (upto 1) with [0]. cbn [map concat]. rewrite app_nil_r.
    apply list_eq. intros k. rewrite list_lookup_fmap. destruct (decide (k < Z.to_nat (1 + offset))%nat) as [Hk|Hk].
    + replace k with (Z.to_nat (Z.of_nat k)) at 1 by lia. rewrite lookup_upto by lia. cbn. unfold mask_value.
      rewrite (proj2 (Z.leb_le (Z.of_nat k) (0 + offset))) by lia. symmetry. by apply lookup_replicate_2.
    + rewrite (proj2 (lookup_ge_None _ _)) by (rewrite length_upto; lia). symmetry. apply lookup_ge_None. rewrite length_replicate. lia.
Qed.

Section equivalence.
Context {T Dev QTensor QMatMul RmsNorm Embedding Cache : Type}.
Context `{!Nn T Dev QTensor QMatMul RmsNorm Embedding Cache} `{!Nn_Laws T Dev QTensor QMatMul RmsNorm Embedding Cache}.
Lemma residual_dims ln1 ln2 f a x mask offset a' h :
  residual ln1 ln2 f a x mask offset = (a', Ok h) -> dims h = dims x.
Proof.
  unfold residual. destruct (rmsnorm_forward ln1 x) as [h0|]; [|done].
  destruct (Attention_Forward a h0 mask offset) as [a1 r]. intros [= _ H].
  apply result_bind_Ok in H as (h1 & -> & (x1 & Hx & (h2 & _ & (h3 & _ & H4)%result_bind_Ok)%result_bind_Ok)%result_bind_Ok).
  apply add_dims in Hx, H4. congruence.
Qed.
Lemma layer_forward_dims y h mask offset pre y' h' : Layer_Forward y h mask offset pre = (y', Ok h') -> dims h' = dims h.
Proof. unfold Layer_Forward. destruct (residual _ _ _ _ _ _ _) as [a r] eqn:E. intros [= _ ->]. by eapply residual_dims. Qed.
Lemma moe_forward_dims y h mask offset pre y' h' : MoE_Layer_Forward y h mask offset pre = (y', Ok h') -> dims h' = dims h.
Proof. unfold MoE_Layer_Forward. destruct (residual _ _ _ _ _ _ _) as [a r] eqn:E. intros [= _ ->]. by eapply residual_dims. Qed.

(** C3: a pipeline computes the model. Let the layers of a model be dealt out
    to consecutive stages, the first with the embedding and the last with the
    output head. Whatever passes follow each other (a prompt, then single tokens,
    with any offsets, some of them failing), handing each stage's hidden state to
    the next gives exactly the results of the whole model, for dense and for
    mixture-of-experts models: the caches of the stages are the model's. *)
Theorem pipeline_is_model dev dt inputs :
  (forall (m : Model_Weights) ms, stages dev dt (m :: ms) ->
   serve (pipeline Model_Forward) (m :: ms) inputs = serve Model_Forward (join m ms) inputs) /\
  (forall (m : Qwen3MoE_Model) ms, stages dev dt (m :: ms) ->
   serve (pipeline MoE_Model_Forward) (m :: ms) inputs = serve MoE_Model_Forward (join m ms) inputs).
Proof.
  split; intros m ms Hs.
  - by apply (serve_pipeline _ layer_forward_dims dev dt).
  - by apply (serve_pipeline _ moe_forward_dims dev dt).
Qed.
End equivalence.

(** ** A concrete tensor library *)
Module Plain_Nn.
Import KvCache.Plain.
Definition shaped (s : list nat) (t : tensor) : result string tensor := Ok (mk_tensor s F32 (words t)).
Definition swap (i j : Z) (s : list nat) : list nat :=
  let i := Z.to_nat i in let j := Z.to_nat j in
  match s !! i, s !! j with Some a, Some b => <[i := b]> (<[j := a]> s) | _, _ => s end.
Definition add (x y : tensor) : result string tensor :=
  if decide (shape x = shape y) then Ok (mk_tensor (shape x) F32 (zip_with Z.add (words x) (words y)))
  else Err "shape mismatch"%string.
Definition scaled (w : Z) (t : tensor) : result string tensor := Ok (mk_tensor (shape t) F32 (map (Z.mul w) (words t))).
Definition extend (c : option (tensor * tensor)) (k v : tensor) : option (tensor * tensor) * result string (tensor * tensor) :=
  let grow o t := match o with
                  | Some old => mk_tensor (<[2%nat := (default O (shape old !! 2%nat) + default O (shape t !! 2%nat))%nat]> (shape t)) F32 (words old ++ words t)
                  | None => t
                  end in
  let kv := (grow (fst <$> c) k, grow (snd <$> c) v) in (Some kv, Ok kv).
#[global] Instance plain_nn : Nn tensor unit tensor Z Z Z (option (tensor * tensor)) := {|
    nn_candle := plain_candle;
    tag _ := DtF32;
    to_dtype t _ := Ok t;
    transpose t i j := shaped (swap i j (shape t)) t;
    flatten t _ _ := Ok t;
    contiguous t := Ok t;
    narrow t d _ n := shaped (<[Z.to_nat d := Z.to_nat n]> (shape t)) t;
    squeeze t d := shaped (delete (Z.to_nat d) (shape t)) t;
    arange a b _ := Ok (mk_tensor [Z.to_nat (b - a)] KvCache.U32 (upto b));
    t_sin t := Ok t;
    t_cos t := Ok t;
    matmul a b := shaped (removelast (shape a) ++ [default O (last (shape b))]) a;
    t_add := add;
    t_mul := add;
    broadcast_add x _ := Ok x;
    silu t := Ok t;
    softmax_last_dim t := Ok t;
    rope t _ _ := Ok t;
    repeat_kv t _ := Ok t;
    mul_inv_sqrt t _ := Ok t;
    inv_freq_value _ i _ := i;
    dequantize t _ := Ok t;
    qmatmul_from_weights t := Ok (default 0 (head (words t)));
    qmatmul_forward := scaled;
    rmsnorm_from_qtensor t _ := Ok (default 0 (head (words t)));
    rmsnorm_forward := scaled;
    embedding_new _ n := n;
    embedding_forward e t := Ok (mk_tensor (shape t ++ [2]%nat) F32 (concat (map (fun w => [w; e]) (words t))));
    moe_forward _ t _ := Ok t;
    cache_new _ := None;
    cache_append := extend;
    cache_reset _ := None;
    cache_k c := fst <$> c;
    cache_v c := snd <$> c;
|}.
#[global] Instance plain_nn_laws : Nn_Laws tensor unit tensor Z Z Z (option (tensor * tensor)).
Proof. intros x y z. cbn. unfold add. case_decide; [|done]. by intros [= <-]. Qed.
Definition rotary : Rotary_Embedding (T:=tensor) := mk_Rotary (mk_tensor [8; 1]%nat F32 []) (mk_tensor [8; 1]%nat F32 []).
Definition layer (w : Z) : Layer_Weights (T:=tensor) (QMatMul:=Z) (RmsNorm:=Z) (Cache:=option (tensor * tensor)) :=
  mk_Layer (mk_Attention w 1 2 1 1 1 1 1 1 2 rotary None) (mk_Mlp 1 w 1) 1 1.
Definition first : Model_Weights (T:=tensor) (Dev:=unit) := mk_Model (Some 3) [layer 2] None None tt DtF32.
Definition second : Model_Weights (T:=tensor) (Dev:=unit) := mk_Model (Embedding:=Z) None [layer 5] (Some 1) (Some 7) tt DtF32.
(** A prompt of two tokens, then one token. *)
Definition inputs : list (tensor * Z) := [(mk_tensor [1; 2]%nat KvCache.U32 [4; 9], 0); (mk_tensor [1; 1]%nat KvCache.U32 [6], 2)].
End Plain_Nn.

Lemma mask_exact_witness :
  mask_values 2 1 None = [0; 0; NEG_INFINITY; 0; 0; 0] /\
  mask_values 2 1 None !! Z.to_nat (0 * (2 + 1) + 2) = Some NEG_INFINITY.
Proof.
  split; [reflexivity|]. destruct (mask_exact 2 1) as (_ & H & _); [lia..|]. apply (H 0 2); lia.
Defined.
Lemma pipeline_is_model_witness :
  serve (pipeline Model_Forward) [Plain_Nn.first; Plain_Nn.second] Plain_Nn.inputs
  = serve Model_Forward (join Plain_Nn.first [Plain_Nn.second]) Plain_Nn.inputs /\
  forallb is_ok (serve Model_Forward (join Plain_Nn.first [Plain_Nn.second]) Plain_Nn.inputs) = true.
Proof.
  split; [|by vm_compute].
  apply (proj1 (pipeline_is_model tt DtF32 Plain_Nn.inputs) Plain_Nn.first [Plain_Nn.second]).
  constructor; [done|done|by left|done|]. by constructor.
Defined.
