(* ===== verification/GgufLoad.v ===== *)
(** * Loading a model ([GGUF_Load_Model] of [Src/ML_Engine/gguf_model.rs])

    From the header and the tensors of a file to a model ready for a forward
    pass: path resolution, the range check, the embedding, the blocks, the output
    head with its fall-back to the embedding, and the token encoding around a model.

    candle gives the header of a file ([Content]) and a reader of its tensors; the
    conversion before loading is [GgufFiles.Convert_File]. Error texts are shortened
    to the failing step. *)
From S2P Require Import Prelude RustStd Cursor KvCache Gguf GgufFiles Qwen3.

Section load_model.
Context {T Dev QTensor QMatMul RmsNorm Embedding Cache : Type}.
Context `{!Nn T Dev QTensor QMatMul RmsNorm Embedding Cache} `{!Gguf}.
Abbreviation reader := (string -> result string QTensor).
Abbreviation Any := (AnyModel (T:=T) (Dev:=Dev) (QTensor:=QTensor) (QMatMul:=QMatMul) (RmsNorm:=RmsNorm) (Embedding:=Embedding) (Cache:=Cache)).

(** ** Configuration from the metadata *)
Definition MoE_Cfg_From_Metadata (md : gmap string Value) (arch : string) (hidden : Z) : MoeCfg :=
  let md_get_usize key := default 0 (Get_Metadata_Usize md (arch_key arch key)) in
  let expert_count := md_get_usize ".expert_count"%string in
  let expert_used_count := md_get_usize ".expert_used_count"%string in
  let expert_feed_forward_length := md_get_usize ".expert_feed_forward_length"%string in
  mk_MoeCfg expert_feed_forward_length expert_count (0 <? expert_used_count) (Z.max expert_used_count 1) hidden.
Definition Read_Model_Dtype (md : gmap string Value) : dtype_tag :=
  match md !! "general.dtype"%string with
  | Some v =>
      match to_u32 v with
      | Some k => if k =? 0 then DtF32 else if k =? 1 then DtF16 else if k =? 30 then DtBF16 else DtF16
      | None => DtF16
      end
  | None => DtF16
  end.

(** ** The parts *)
Definition load_layer (tensor : reader) (c : Content) (i : Z) : result (fault string) (gmap string QTensor) :=
  lift ('(_, ts) ← GGUF_Load_Layer tensor c i; Ok ts).
Definition get_tensor (n : string) (ts : gmap string QTensor) : result (fault string) QTensor :=
  ok_or (Failed "tensor missing"%string) (ts !! n).
Definition load_embedding (tensor : reader) (c : Content) (dev : Dev) (a : Model_Arch_Info) (start : Z)
    : result (fault string) (option Embedding) :=
  if start =? 0 then
    ts ← load_layer tensor c 0;
    embed_qtensor ← get_tensor EMBD ts;
    embed_tensor ← lift (dequantize embed_qtensor dev);
    Ok (Some (embedding_new embed_tensor (embedding_length a)))
  else Ok None.
Definition load_head (tensor : reader) (c : Content) (a : Model_Arch_Info) (end_ : Z)
    : result (fault string) (option RmsNorm * option QMatMul) :=
  let max_layer_index := num_layers a + 1 in
  if end_ =? max_layer_index then
    ts ← load_layer tensor c max_layer_index;
    norm_qtensor ← get_tensor NORM ts;
    norm ← lift (rmsnorm_from_qtensor norm_qtensor (rms_norm_eps a));
    lm_head_qtensor ← match ts !! OUTPUT with
                      | Some qt => Ok qt
                      | None => ts ← load_layer tensor c 0; get_tensor EMBD ts
                      end;
    lm_head ← lift (qmatmul_from_weights lm_head_qtensor);
    Ok (Some norm, Some lm_head)
  else Ok (None, None).
Fixpoint load_blocks {Layer} (make : gmap string QTensor -> Z -> result (fault string) Layer) (tensor : reader) (c : Content)
    (idxs : list Z) : result (fault string) (list Layer) :=
  match idxs with
  | [] => Ok []
  | i :: idxs =>
      ts ← load_layer tensor c i;
      layer ← make ts (i - 1);
      layers ← load_blocks make tensor c idxs;
      Ok (layer :: layers)
  end.
(** The embedding is loaded before, and the head after, the blocks. *)
Definition assemble {Layer} (make : gmap string QTensor -> Z -> result (fault string) Layer) (tensor : reader) (c : Content)
    (dev : Dev) (a : Model_Arch_Info) (start end_ : Z) (embed_tokens : option Embedding)
    : result (fault string) (Model_Of Dev QMatMul RmsNorm Embedding Layer) :=
  layers ← load_blocks make tensor c (layer_seq (Z.max start 1) (Z.min end_ (num_layers a)));
  '(norm, lm_head) ← load_head tensor c a end_;
  Ok (mk_Model embed_tokens layers norm lm_head dev (Read_Model_Dtype (metadata c))).
Definition dense_layer (a : Model_Arch_Info) (rotary : Rotary_Embedding) (ts : gmap string QTensor) (blk_idx : Z) :=
  From_Extracted ts (head_count a) (head_count_kv a) (head_dim a) (rms_norm_eps a) rotary blk_idx.
Definition moe_layer (a : Model_Arch_Info) (rotary : Rotary_Embedding) (cfg : MoeCfg) (dt : dtype_tag)
    (ts : gmap string QTensor) (blk_idx : Z) :=
  MoE_From_Extracted ts (head_count a) (head_count_kv a) (head_dim a) (rms_norm_eps a) rotary blk_idx (0 <? num_experts cfg) cfg dt.

(** ** [GGUF_Load_Model] *)
Record GGUF_Model : Type := mk_GGUF_Model {
  model : Any;
  eos_token : Z; arch_info : Model_Arch_Info; model_path : string; device : Dev;
  has_input_head : bool; has_output_head : bool;
}.
(** [to_lowercase] on an ASCII name. *)
Definition lower (s : string) : string := of_bytes (Str.to_lowercase (as_bytes s)).
Definition load_parts (tensor : reader) (c : Content) (a : Model_Arch_Info) (start end_ : Z) (dev : Dev)
    : result (fault string) Any :=
  let architecture := lower (architecture a) in
  rotary ← lift (Rotary_New DtF32 (head_dim a) (context_length a) (rope_freq_base a) dev);
  embed_tokens ← load_embedding tensor c dev a start;
  if String.eqb architecture "qwen3moe" then
    let cfg := MoE_Cfg_From_Metadata (metadata c) architecture (head_dim a) in
    m ← assemble (moe_layer a rotary cfg (Read_Model_Dtype (metadata c))) tensor c dev a start end_ embed_tokens;
    Ok (Qwen3Moe m)
  else m ← assemble (dense_layer a rotary) tensor c dev a start end_ embed_tokens; Ok (Qwen3 m).
(** From the opened file on. *)
Definition load_content (tensor : reader) (c : Content) (path : string) (start end_ : Z) (dev : Dev)
    : result (fault string) GGUF_Model :=
  let a := GGUF_Analyze_From_Content c in
  let architecture := lower (architecture a) in
  if negb (String.eqb architecture "qwen3" || String.eqb architecture "qwen3moe")
  then Err (Failed "Unsupported model architecture"%string) else
  end_ ← lift (load_range a start end_);
  model ← load_parts tensor c a start end_ dev;
  Ok (mk_GGUF_Model model (eos_token_id a) a path dev (start =? 0) (end_ =? num_layers a + 1)).

Section files.
Context (content_of : bytes -> result string (Content * reader)) (xxhash32 : bytes -> Z).
Definition header_of (b : bytes) : result string Content := p ← content_of b; Ok p.1.
Definition resolve_load_path (files : files_t) (model_path : string) : option string :=
  let exists_ p := bool_decide (is_Some (files !! p)) in
  if exists_ model_path then Some model_path
  else let pgguf := with_extension model_path "pgguf" in
       if exists_ pgguf then Some pgguf
       else let gguf := with_extension model_path "gguf" in
            if exists_ gguf then Some gguf else None.
(** [None] when the conversion does not end. *)
Definition GGUF_Load_Model (files : files_t) (start end_ : Z) (path : string) (dev : Dev)
    : option (result (fault string) GGUF_Model * files_t) :=
  match resolve_load_path files path with
  | None => Some (Err (Failed "Model file not found"%string), files)
  | Some resolved =>
      '(r, files) ← Convert_File header_of xxhash32 files resolved;
      Some ('(_, actual) ← r;
            src ← ok_or (Failed "open failed"%string) (files !! actual);
            '(c, tensor) ← lift (content_of src);
            load_content tensor c actual start end_ dev, files)
  end.
End files.

(** ** Inference and tokens *)
Definition with_model m (g : GGUF_Model) : GGUF_Model :=
  mk_GGUF_Model m (eos_token g) (arch_info g) (model_path g) (device g) (has_input_head g) (has_output_head g).
Definition GGUF_Model_Inference (g : GGUF_Model) (input : T) (offset : Z) : GGUF_Model * result string T :=
  let (m, r) := Any_Forward (model g) input offset in
  (with_model m g, map_err (fun e => ("Forward pass failed: " +:+ e)%string) r).
Definition GGUF_Model_Clear_KV_Cache (g : GGUF_Model) : GGUF_Model := with_model (Any_Clear (model g)) g.
Definition format_prompt (input : string) : string :=
  ("<|im_start|>user" +:+ of_bytes [x0a] +:+ input +:+ "<|im_end|>" +:+ of_bytes [x0a] +:+ "<|im_start|>assistant" +:+ of_bytes [x0a])%string.
Definition GGUF_Encode {Tok} (encode_with_options : Tok -> string -> result string (list Z)) (tokenizer : option Tok)
    (input : string) : result string (list Z) :=
  t ← ok_or "no tokenizer"%string tokenizer; encode_with_options t (format_prompt input).
Definition GGUF_Decode {Tok} (decode : Tok -> list Z -> result string string) (tokenizer : option Tok) (eos : Z)
    (token_ids : list Z) : result string string :=
  t ← ok_or "no tokenizer"%string tokenizer;
  let decode_tokens := if bool_decide (last token_ids = Some eos) then removelast token_ids else token_ids in
  decode t decode_tokens.

(** ** Reading the tensors of a layer *)
Lemma load_all_Ok (tensor : reader) names acc m :
  load_all tensor names acc = Ok m ->
  (forall n, n ∈ names -> exists q, tensor n = Ok q) /\
  (forall k, m !! k = if decide (k ∈ names) then to_option (tensor k) else acc !! k).
Proof.
  revert acc. induction names as [|n names IH]; intros acc; cbn [load_all].
  { intros [= <-]. split; [by intros n ?%not_elem_of_nil|]. intros k. by rewrite decide_False by apply not_elem_of_nil. }
  intros (q & Hq & (H1 & H2)%IH)%result_bind_Ok. split.
  - intros k [->|Hk]%elem_of_cons; eauto.
  - intros k. rewrite H2. destruct (decide (k ∈ names)) as [Hk|Hk]; [by rewrite decide_True by by right|].
    destruct (decide (k = n)) as [->|Hne].
    + rewrite lookup_insert_eq, decide_True by by left. by rewrite Hq.
    + rewrite lookup_insert_ne, decide_False; [done| |done]. by intros [?|?]%elem_of_cons.
Qed.
Lemma load_all_total (tensor : reader) names acc :
  (forall n, n ∈ names -> exists q, tensor n = Ok q) -> exists m, load_all tensor names acc = Ok m.
Proof.
  revert acc. induction names as [|n names IH]; intros acc Hall; cbn [load_all]; [eauto|].
  destruct (Hall n) as [q ->]; [by left|]. apply IH. intros k Hk. apply Hall. by right.
Qed.
Lemma load_all_perm (tensor tensor' : reader) names names' m :
  names' ≡ₚ names -> (forall n, n ∈ names -> tensor' n = tensor n) ->
  load_all tensor names ∅ = Ok m -> load_all tensor' names' ∅ = Ok m.
Proof.
  intros Hp Heq (H1 & H2)%load_all_Ok.
  destruct (load_all_total tensor' names' ∅) as [m' Hm'].
  { intros n Hn. rewrite Hp in Hn. rewrite Heq by done. by apply H1. }
  rewrite Hm'. f_equal. apply load_all_Ok in Hm' as [_ H3]. apply map_eq. intros k. rewrite H2, H3.
  destruct (decide (k ∈ names)) as [Hk|Hk].
  - rewrite decide_True, Heq by (done || by rewrite Hp). done.
  - by rewrite decide_False by by rewrite Hp.
Qed.
Lemma load_layer_names (tensor : reader) c i ts :
  load_layer tensor c i = Ok ts <-> exists names, layer_names c i = Ok names /\ load_all tensor names ∅ = Ok ts.
Proof.
  unfold load_layer, lift, GGUF_Load_Layer. destruct (layer_names c i) as [names|e]; cbn [mbind result_bind map_err]; [|by naive_solver].
  destruct (load_all tensor names ∅) as [m|e] eqn:E; cbn [mbind result_bind map_err].
  - split; [intros [= <-]; eauto|]. intros (? & [= <-] & E'). congruence.
  - split; [done|]. intros (? & [= <-] & E'). congruence.
Qed.

(** ** A file that serves part of another *)
(** [c'] with its reader stands for [c] on the layers [s..e]. *)
Record serves (tensor : reader) (c : Content) (tensor' : reader) (c' : Content) (s e : Z) : Prop := {
  sv_layer i ts : s <= i <= e -> load_layer tensor c i = Ok ts -> load_layer tensor' c' i = Ok ts;
  sv_tied ts : s <= block_count (metadata c) + 1 <= e -> OUTPUT ∉ names_of c ->
    load_layer tensor c 0 = Ok ts -> load_layer tensor' c' 0 = Ok ts;
}.
Lemma serves_refl (tensor : reader) c s e : serves tensor c tensor c s e.
Proof. by split. Qed.
Lemma load_blocks_serves {Layer} (make : gmap string QTensor -> Z -> result (fault string) Layer)
    (tensor tensor' : reader) c c' s e idxs ls :
  serves tensor c tensor' c' s e -> Forall (fun i => s <= i <= e) idxs ->
  load_blocks make tensor c idxs = Ok ls -> load_blocks make tensor' c' idxs = Ok ls.
Proof.
  intros Hsv HF. revert ls. induction HF as [|i idxs Hi HF IH]; intros ls; [done|]. cbn [load_blocks].
  intros (ts & Hts & (y & Hy & (ys & Hys & [= <-])%result_bind_Ok)%result_bind_Ok)%result_bind_Ok.
  rewrite (sv_layer _ _ _ _ _ _ Hsv i ts Hi Hts). cbn [mbind result_bind]. rewrite Hy. cbn [mbind result_bind].
  by rewrite (IH ys Hys).
Qed.
Lemma output_absent (tensor : reader) c ts :
  0 <= block_count (metadata c) -> load_layer tensor c (block_count (metadata c) + 1) = Ok ts -> ts !! OUTPUT = None ->
  OUTPUT ∉ names_of c.
Proof.
  intros Hb (names & Hl & Hall)%load_layer_names Ho. apply load_all_Ok in Hall as [Hok Hlk].
  unfold layer_names in Hl. rewrite Z.ltb_irrefl, (proj2 (Z.eqb_neq _ 0)), (proj2 (Z.leb_gt _ _)) in Hl by lia.
  intros Hin. rewrite <- has_spec in Hin. cbn [List.filter] in Hl. rewrite Hin in Hl.
  assert (OUTPUT ∈ names) as Hin' by (destruct (has c NORM); injection Hl as <-; [right|]; by left).
  specialize (Hlk OUTPUT). rewrite decide_True in Hlk by done. destruct (Hok _ Hin') as [q Hq]. rewrite Hq in Hlk. cbn in Hlk. congruence.
Qed.
Lemma load_head_serves (tensor tensor' : reader) c c' a a' s e h :
  serves tensor c tensor' c' s e -> 0 <= num_layers a -> num_layers a = block_count (metadata c) -> num_layers a' = num_layers a ->
  rms_norm_eps a' = rms_norm_eps a -> s <= e ->
  load_head tensor c a e = Ok h -> load_head tensor' c' a' e = Ok h.
Proof.
  intros Hsv H0 Hn Hn' Heps Hse. unfold load_head. rewrite Hn', Heps. destruct (Z.eqb_spec e (num_layers a + 1)) as [->|]; [|done].
  intros (ts & Hts & Hr)%result_bind_Ok. rewrite (sv_layer _ _ _ _ _ _ Hsv (num_layers a + 1) ts ltac:(lia) Hts). cbn [mbind result_bind].
  destruct (get_tensor NORM ts) as [nq|]; [|done]. cbn [mbind result_bind] in *.
  destruct (lift (rmsnorm_from_qtensor nq _)) as [nm|]; [|done]. cbn [mbind result_bind] in *.
  destruct (ts !! OUTPUT) as [qt|] eqn:Ho; [exact Hr|]. rewrite Hn in Hts.
  pose proof (output_absent tensor c ts ltac:(lia) Hts Ho) as Hno.
  destruct (load_layer tensor c 0) as [ts0|] eqn:E0; [|done].
  by rewrite (sv_tied _ _ _ _ _ _ Hsv ts0 ltac:(lia) Hno E0).
Qed.
Lemma load_embedding_serves (tensor tensor' : reader) c c' dev a a' s e o :
  serves tensor c tensor' c' s e -> s <= e -> embedding_length a' = embedding_length a ->
  load_embedding tensor c dev a s = Ok o -> load_embedding tensor' c' dev a' s = Ok o.
Proof.
  intros Hsv Hse Hemb. unfold load_embedding. destruct (Z.eqb_spec s 0) as [->|]; [|done].
  intros (ts & Hts & Hr)%result_bind_Ok. rewrite (sv_layer _ _ _ _ _ _ Hsv 0 ts ltac:(lia) Hts). cbn [mbind result_bind].
  by rewrite Hemb.
Qed.

(** ** A range in two parts *)
Lemma layer_seq_app s k e : s <= k + 1 -> k <= e -> layer_seq s e = layer_seq s k ++ layer_seq (k + 1) e.
Proof.
  intros Hs He. unfold layer_seq. replace (Z.to_nat (e - s + 1)) with (Z.to_nat (k - s + 1) + Z.to_nat (e - (k + 1) + 1))%nat by lia.
  rewrite seq_app, map_app. f_equal. cbn [Nat.add]. rewrite <- (Nat.add_0_r (Z.to_nat (k - s + 1))).
  apply list_eq. intros i. rewrite !list_lookup_fmap.
  destruct (decide (i < Z.to_nat (e - (k + 1) + 1))%nat).
  - rewrite !lookup_seq_lt by lia. cbn. f_equal. lia.
  - by rewrite !lookup_seq_ge by lia.
Qed.
Lemma load_blocks_app {Layer} (make : gmap string QTensor -> Z -> result (fault string) Layer) (tensor : reader) c l1 l2 ls :
  load_blocks make tensor c (l1 ++ l2) = Ok ls ->
  exists ls1 ls2, load_blocks make tensor c l1 = Ok ls1 /\ load_blocks make tensor c l2 = Ok ls2 /\ ls = ls1 ++ ls2.
Proof.
  revert ls. induction l1 as [|i l1 IH]; intros ls; cbn [app load_blocks]; [by eauto 6|].
  intros (ts & -> & (y & Hy & (ys & (ls1 & ls2 & E1 & E2 & ->)%IH & [= <-])%result_bind_Ok)%result_bind_Ok)%result_bind_Ok.
  cbn [mbind result_bind]. rewrite Hy. cbn [mbind result_bind]. rewrite E1. by eauto 6.
Qed.
Lemma assemble_cut {Layer} (make : gmap string QTensor -> Z -> result (fault string) Layer) (tensor : reader) c dev a s k e emb m :
  0 <= s <= k -> k < e <= num_layers a + 1 ->
  assemble make tensor c dev a s e emb = Ok m ->
  exists m1 m2, assemble make tensor c dev a s k emb = Ok m1 /\ assemble make tensor c dev a (k + 1) e None = Ok m2 /\
    m = join2 m1 m2 /\ lm_head m1 = None.
Proof.
  intros Hs Hk. unfold assemble. intros (ls & Hls & ([nm lm] & Hh & [= <-])%result_bind_Ok)%result_bind_Ok.
  rewrite (layer_seq_app (Z.max s 1) k) in Hls by lia. apply load_blocks_app in Hls as (ls1 & ls2 & E1 & E2 & ->).
  rewrite (Z.min_l k), (Z.max_l (k + 1)), E1, E2, Hh by lia. cbn [mbind result_bind].
  unfold load_head at 1. rewrite (proj2 (Z.eqb_neq k _)) by lia. cbn [mbind result_bind]. do 2 eexists. done.
Qed.
Lemma assemble_fields {Layer} (make : gmap string QTensor -> Z -> result (fault string) Layer) (tensor : reader) c dev a s e emb m :
  assemble make tensor c dev a s e emb = Ok m ->
  embed_tokens m = emb /\ m_device m = dev /\ m_dtype m = Read_Model_Dtype (metadata c).
Proof. unfold assemble. by intros (ls & _ & ([nm lm] & _ & [= <-])%result_bind_Ok)%result_bind_Ok. Qed.

(** ** Copied metadata *)
(** The keys the loader configures a model with survive the copy: none of them
    starts like the keys a split drops or writes anew. *)
Definition own_key (k : string) : Prop :=
  exists b l, as_bytes k = b :: l /\ b ∉ (["p"; "t"; "c"] : list byte)%byte.
Lemma own_key_kept keep k : own_key k -> k ∉ new_keys /\ should_skip keep k = false.
Proof.
  intros (b & l & Hk & Hb). rewrite !not_elem_of_cons in Hb. destruct Hb as (Hp & Ht & Hc & _).
  assert (forall p x r, as_bytes p = x :: r -> b <> x -> sw p k = false) as Hsw.
  { intros p x r Hx Hne. destruct (sw p k) eqn:E; [|done]. apply sw_spec in E as [r' E]. rewrite Hk, Hx in E. by injection E as ->. }
  split.
  - unfold new_keys. rewrite !elem_of_cons, elem_of_nil.
    intros [->|[->|[->|[]]]]; cbv in Hk; injection Hk as <- _; by apply Hp.
  - unfold should_skip, skip_keys. destruct keep; cbn [existsb].
    + by rewrite (Hsw "pleiades.layer_bitmap"%string "p"%byte _ eq_refl Hp).
    + by rewrite (Hsw "pleiades.layer_bitmap"%string "p"%byte _ eq_refl Hp), (Hsw "tokenizer."%string "t"%byte _ eq_refl Ht),
        (Hsw "chat_template"%string "c"%byte _ eq_refl Hc).
Qed.
Definition supported (md : gmap string Value) : Prop := lower (arch_of md) ∈ ["qwen3"; "qwen3moe"]%string.
Lemma lower_q b : Str.to_lower b = "q"%byte -> b ∉ (["p"; "t"; "c"] : list byte)%byte.
Proof. intros Hq. destruct b; try discriminate Hq; by apply (bool_decide_unpack _). Qed.
Lemma own_arch_key md k : supported md -> own_key (arch_key (arch_of md) k) /\ own_key (arch_key (lower (arch_of md)) k).
Proof.
  intros Hs. assert (exists l, as_bytes (lower (arch_of md)) = "q"%byte :: l) as [l Hl].
  { unfold supported in Hs. rewrite !elem_of_cons, elem_of_nil in Hs. destruct Hs as [->|[->|[]]]; by eexists. }
  unfold own_key, arch_key. rewrite !as_bytes_app, Hl. split; [|by do 2 eexists; split; [|apply (bool_decide_unpack _)]].
  unfold lower in Hl. rewrite as_of_bytes in Hl. destruct (as_bytes (arch_of md)) as [|b r]; [done|]. injection Hl as Hb _.
  exists b, (r ++ as_bytes k). split; [done|]. by apply lower_q.
Qed.
(** [c'] has the metadata of [c] as far as the loader looks. *)
Definition agree (c c' : Content) : Prop := forall k, own_key k -> metadata c' !! k = metadata c !! k.
Lemma agree_arch c c' : agree c c' -> arch_of (metadata c') = arch_of (metadata c).
Proof.
  intros Hag. unfold arch_of, Get_Metadata_String. rewrite Hag; [done|]. by do 2 eexists; split; [|apply (bool_decide_unpack _)].
Qed.
Lemma analyze_agree c c' :
  agree c c' -> supported (metadata c) ->
  let a := GGUF_Analyze_From_Content c in let a' := GGUF_Analyze_From_Content c' in
  architecture a' = architecture a /\ num_layers a' = num_layers a /\ embedding_length a' = embedding_length a /\ head_count a' = head_count a /\ head_count_kv a' = head_count_kv a /\ head_dim a' = head_dim a /\
  context_length a' = context_length a /\ rms_norm_eps a' = rms_norm_eps a /\ rope_freq_base a' = rope_freq_base a.
Proof.
  intros Hag Hs a a'.
  assert (forall k : string, (metadata c' !! arch_key (arch_of (metadata c)) k) = (metadata c !! arch_key (arch_of (metadata c)) k)) as Hk
    by (intros k; apply Hag, own_arch_key, Hs).
  unfold a, a', GGUF_Analyze_From_Content. destruct (group_tensors _), (group_tensors _). cbn.
  unfold block_count, Get_Metadata_Usize, Get_Metadata_F64. by rewrite !(agree_arch _ _ Hag), !Hk.
Qed.
Lemma dtype_agree c c' : agree c c' -> Read_Model_Dtype (metadata c') = Read_Model_Dtype (metadata c).
Proof.
  intros Hag. unfold Read_Model_Dtype. rewrite Hag; [done|]. by do 2 eexists; split; [|apply (bool_decide_unpack _)].
Qed.
Lemma cfg_agree c c' hidden :
  agree c c' -> supported (metadata c) ->
  MoE_Cfg_From_Metadata (metadata c') (lower (arch_of (metadata c))) hidden = MoE_Cfg_From_Metadata (metadata c) (lower (arch_of (metadata c))) hidden.
Proof.
  intros Hag Hs. unfold MoE_Cfg_From_Metadata, Get_Metadata_Usize.
  by rewrite !(Hag (arch_key (lower (arch_of (metadata c))) _)) by apply own_arch_key, Hs.
Qed.

(** ** A stage's file *)
Lemma assemble_serves {Layer} (make : gmap string QTensor -> Z -> result (fault string) Layer)
    (tensor tensor' : reader) c c' dev s e emb m :
  let a := GGUF_Analyze_From_Content c in let a' := GGUF_Analyze_From_Content c' in
  serves tensor c tensor' c' s e -> agree c c' -> supported (metadata c) -> 0 <= s <= e -> 0 <= num_layers a ->
  assemble make tensor c dev a s e emb = Ok m -> assemble make tensor' c' dev a' s e emb = Ok m.
Proof.
  intros a a' Hsv Hag Hs Hse Hn. destruct (analyze_agree c c' Hag Hs) as (_ & En & _ & _ & _ & _ & _ & Eeps & _).
  unfold assemble. fold a a' in En, Eeps. rewrite (dtype_agree c c' Hag), En.
  intros (ls & Hls & (h & Hh & Hr)%result_bind_Ok)%result_bind_Ok.
  rewrite (load_blocks_serves make tensor tensor' c c' s e _ ls Hsv) by (done || by apply Forall_forall; intros i Hi%elem_of_layer_seq; lia).
  cbn [mbind result_bind]. rewrite (load_head_serves tensor tensor' c c' a a' s e h Hsv); [exact Hr|done| |done..|lia|done].
  unfold a, GGUF_Analyze_From_Content. by destruct (group_tensors _).
Qed.
Lemma load_parts_serves (tensor tensor' : reader) c c' s e dev m :
  let a := GGUF_Analyze_From_Content c in
  serves tensor c tensor' c' s e -> agree c c' -> supported (metadata c) -> 0 <= s <= e -> 0 <= num_layers a ->
  load_parts tensor c a s e dev = Ok m -> load_parts tensor' c' (GGUF_Analyze_From_Content c') s e dev = Ok m.
Proof.
  intros a Hsv Hag Hs Hse Hn. set (a' := GGUF_Analyze_From_Content c').
  destruct (analyze_agree c c' Hag Hs) as (Ea & En & Eemb & Ehc & Ekv & Ed & Ect & Eeps & Erope). fold a a' in Ea, En, Eemb, Ehc, Ekv, Ed, Ect, Eeps, Erope.
  assert (architecture a = arch_of (metadata c)) as Harch by (unfold a, GGUF_Analyze_From_Content; by destruct (group_tensors _)).
  unfold load_parts. rewrite Ea, Ed, Ect, Erope, Harch, (cfg_agree c c' _ Hag Hs), (dtype_agree c c' Hag).
  intros (rot & -> & (emb & Hemb & Hr)%result_bind_Ok)%result_bind_Ok. cbn [mbind result_bind].
  rewrite (load_embedding_serves tensor tensor' c c' dev a a' s e emb Hsv) by (done || lia). cbn [mbind result_bind].
  destruct (String.eqb _ _); apply result_bind_Ok in Hr as (m0 & Hm & Hr); apply (assemble_serves _ tensor tensor' c c') in Hm; try done.
  - fold a' in Hm. unfold moe_layer in *. rewrite Ehc, Ekv, Ed, Eeps, Hm. exact Hr.
  - fold a' in Hm. unfold dense_layer in *. rewrite Ehc, Ekv, Ed, Eeps, Hm. exact Hr.
Qed.
(** What a split wrote, and a reader that reads the copied tensors. *)
Record split_file (keep : bool) (tensor : reader) (c : Content) (tensor' : reader) (c' : Content) (s e : Z) : Prop := {
  sf_select : exists sel, split_select c s e = Ok sel /\ reads_back c c' (split_metadata c s e keep sel) sel /\
    forall n, n ∈ sel -> tensor' n = tensor n;
}.
Lemma split_file_agree keep (tensor tensor' : reader) c c' s e : split_file keep tensor c tensor' c' s e -> agree c c'.
Proof.
  intros [(sel & _ & [Hmd _] & _)] k Hk. destruct (own_key_kept keep k Hk). by rewrite Hmd, split_metadata_old.
Qed.
Lemma layer_names_wanted c i l n :
  0 <= i -> 0 <= block_count (metadata c) -> layer_names c i = Ok l -> n ∈ l -> wanted c i n.
Proof.
  intros Hi Hb. unfold layer_names, wanted. destruct (Z.ltb_spec (block_count (metadata c) + 1) i) as [|Hle]; [done|].
  destruct (Z.eqb_spec i 0) as [->|].
  { destruct (has c EMBD) eqn:E; [|done]. intros [= <-] ->%list_elem_of_singleton. apply has_spec in E. auto. }
  destruct (Z.leb_spec i (block_count (metadata c))) as [|Hgt].
  - destruct (with_prefix c _) as [|x r] eqn:E; [done|]. intros [= <-] Hn. rewrite <- E in Hn.
    apply elem_of_prefix in Hn as [? ?]. split; [done|]. right; left. split; [lia|done].
  - destruct (List.filter _ _) as [|x r] eqn:E; [done|]. intros [= <-] Hn. rewrite <- E in Hn.
    apply filter_In' in Hn as [Hn ?%has_spec]. split; [done|]. right; right. split; [lia|].
    rewrite !elem_of_cons, elem_of_nil in Hn. tauto.
Qed.
Lemma split_file_serves keep (tensor tensor' : reader) c c' s e :
  0 <= s -> in_range 64 (block_count (metadata c)) -> supported (metadata c) ->
  split_file keep tensor c tensor' c' s e -> serves tensor c tensor' c' s e.
Proof.
  intros Hs Hb Hsup [(sel & Hsel & Hrb & Hq)].
  assert (arch_kept c keep) as Hk by (apply own_key_kept, own_arch_key, Hsup).
  destruct (split_select_spec c s e sel Hs Hb Hsel) as (_ & Hse & Hin).
  destruct (split_layers_spec c c' s e keep sel Hs Hb Hk Hsel Hrb) as (_ & Hlay & Htied). unfold in_range in Hb. split.
  - intros i ts Hi (names & Hn & Hl)%load_layer_names. apply load_layer_names. specialize (Hlay i Hi). rewrite Hn in Hlay.
    destruct Hlay as (names' & -> & Hp). exists names'. split; [done|]. apply (load_all_perm tensor tensor' names names'); [done| |done].
    intros n Hin'. apply Hq, Hin. exists i. split; [done|]. apply (layer_names_wanted c i names); (done || lia).
  - intros ts Hi Ho (names & Hn & Hl)%load_layer_names.
    assert (EMBD ∈ names_of c /\ names = [EMBD]) as [He ->].
    { unfold layer_names in Hn. rewrite (proj2 (Z.ltb_ge _ 0)) in Hn by lia. cbn [Z.eqb] in Hn.
      destruct (has c EMBD) eqn:E; [|done]. apply has_spec in E. by injection Hn. }
    apply load_layer_names. exists [EMBD]. split; [by apply Htied|]. apply (load_all_perm tensor tensor' [EMBD]); [done| |done].
    intros n ->%list_elem_of_singleton. apply Hq, Hin. exists (block_count (metadata c) + 1). split; [done|].
    split; [done|]. right; right. split; [done|]. auto.
Qed.

(** ** Ranges that follow each other *)
(** Files for ranges that start at layer [s] and end with the output layer. Whether a
    part keeps the tokenizer may depend on where it starts. *)
Inductive deployed (keep : Z -> bool) (tensor : reader) (c : Content) : Z -> list (Z * Z * (reader * Content)) -> Prop :=
  | deployed_last s tensor' c' :
      s <= block_count (metadata c) + 1 -> split_file (keep s) tensor c tensor' c' s (block_count (metadata c) + 1) ->
      deployed keep tensor c s [(s, block_count (metadata c) + 1, (tensor', c'))]
  | deployed_cons s k tensor' c' fs :
      s <= k -> split_file (keep s) tensor c tensor' c' s k -> deployed keep tensor c (k + 1) fs ->
      deployed keep tensor c s ((s, k, (tensor', c')) :: fs).
Lemma deployed_le keep (tensor : reader) c s fs : deployed keep tensor c s fs -> s <= block_count (metadata c) + 1.
Proof. induction 1; lia. Qed.
(** The model in the stages [ms]. *)
Inductive any_stages (dev : Dev) (dt : dtype_tag) : Any -> list Any -> Prop :=
  | any_dense m ms : stages dev dt (m :: ms) -> any_stages dev dt (Qwen3 (join m ms)) (map Qwen3 (m :: ms))
  | any_moe m ms : stages dev dt (m :: ms) -> any_stages dev dt (Qwen3Moe (join m ms)) (map Qwen3Moe (m :: ms)).
Definition any_embed (m : Any) : option Embedding :=
  match m with Qwen3 m => embed_tokens m | Qwen3Moe m => embed_tokens m end.

Section parts.
Context (tensor : reader) (c : Content) (dev : Dev).
Let a := GGUF_Analyze_From_Content c.
Let dt := Read_Model_Dtype (metadata c).
(** A part [m] of a model and the part [m2] above it. *)
Definition any_join (m1 m2 m : Any) : Prop :=
  match m1, m2, m with
  | Qwen3 m1, Qwen3 m2, Qwen3 m => m = join2 m1 m2 /\ lm_head m1 = None /\ m_device m1 = dev /\ m_dtype m1 = dt
  | Qwen3Moe m1, Qwen3Moe m2, Qwen3Moe m => m = join2 m1 m2 /\ lm_head m1 = None /\ m_device m1 = dev /\ m_dtype m1 = dt
  | _, _, _ => False
  end.
Lemma load_parts_embed s e m :
  load_parts tensor c a s e dev = Ok m -> s <> 0 -> any_embed m = None.
Proof.
  unfold load_parts. intros (rot & _ & (emb & Hemb & Hr)%result_bind_Ok)%result_bind_Ok Hs.
  unfold load_embedding in Hemb. rewrite (proj2 (Z.eqb_neq _ _)) in Hemb by done. injection Hemb as <-.
  destruct (String.eqb _ _); apply result_bind_Ok in Hr as (m0 & (E & _)%assemble_fields & [= <-]); exact E.
Qed.
Lemma load_parts_cut s k e m :
  0 <= s <= k -> k < e <= num_layers a + 1 -> load_parts tensor c a s e dev = Ok m ->
  exists m1 m2, load_parts tensor c a s k dev = Ok m1 /\ load_parts tensor c a (k + 1) e dev = Ok m2 /\ any_join m1 m2 m.
Proof.
  intros Hs Hk. unfold load_parts. intros (rot & -> & (emb & Hemb & Hr)%result_bind_Ok)%result_bind_Ok. cbn [mbind result_bind].
  rewrite Hemb. unfold load_embedding. rewrite (proj2 (Z.eqb_neq (k + 1) 0)) by lia. cbn [mbind result_bind].
  destruct (String.eqb _ _); apply result_bind_Ok in Hr as (m0 & Hm & [= <-]);
    destruct (assemble_cut _ tensor c dev a s k e emb m0 Hs Hk Hm) as (m1 & m2 & E1 & E2 & Hj & Hl);
    rewrite E1, E2; cbn [mbind result_bind]; do 2 eexists; (split; [done|]); (split; [done|]);
    by destruct (assemble_fields _ _ _ _ _ _ _ _ _ E1) as (_ & ? & ?).
Qed.
Lemma any_stages_cons m1 m2 m ms :
  any_join m1 m2 m -> any_embed m2 = None -> any_stages dev dt m2 ms -> any_stages dev dt m (m1 :: ms).
Proof.
  intros Hj Hemb Hst. destruct Hst as [m2 ms Hst|m2 ms Hst]; destruct m1 as [m1|m1], m as [m|m]; try done; destruct Hj as (-> & Hl & Hd & Ht).
  - apply (any_dense dev dt m1 (m2 :: ms)). constructor; [done..|by right| |done].
    cbn [any_embed] in Hemb. by destruct (join_head m2 ms) as (<- & _).
  - apply (any_moe dev dt m1 (m2 :: ms)). constructor; [done..|by right| |done].
    cbn [any_embed] in Hemb. by destruct (join_head m2 ms) as (<- & _).
Qed.
Lemma load_parts_last s e m : load_parts tensor c a s e dev = Ok m -> any_stages dev dt m [m].
Proof.
  unfold load_parts. intros (rot & _ & (emb & _ & Hr)%result_bind_Ok)%result_bind_Ok.
  destruct (String.eqb _ _); apply result_bind_Ok in Hr as (m0 & (_ & ? & ?)%assemble_fields & [= <-]).
  - apply (any_moe dev dt m0 []). by constructor.
  - apply (any_dense dev dt m0 []). by constructor.
Qed.
Definition loads_stage (f : Z * Z * (reader * Content)) (m : Any) : Prop :=
  load_parts f.2.1 f.2.2 (GGUF_Analyze_From_Content f.2.2) f.1.1 f.1.2 dev = Ok m.
Lemma load_deployed keep s fs m :
  0 <= s -> in_range 64 (block_count (metadata c)) -> supported (metadata c) -> deployed keep tensor c s fs ->
  load_parts tensor c a s (num_layers a + 1) dev = Ok m ->
  exists ms, Forall2 loads_stage fs ms /\ any_stages dev dt m ms.
Proof.
  intros Hs Hb Hsup Hdep.
  assert (num_layers a = block_count (metadata c)) as Hn by (unfold a, GGUF_Analyze_From_Content; by destruct (group_tensors _)).
  assert (0 <= num_layers a) as H0 by (unfold in_range in Hb; lia).
  revert m. induction Hdep as [s tensor' c' Hle Hf|s k tensor' c' fs Hsk Hf Hdep IH]; intros m Hm.
  - exists [m]. split; [|by apply (load_parts_last s (num_layers a + 1))]. constructor; [|done]. unfold loads_stage. cbn [fst snd].
    apply (load_parts_serves tensor tensor' c c'); [|by eapply split_file_agree|done|lia|done|].
    + by eapply split_file_serves.
    + fold a. by rewrite <- Hn.
  - pose proof (deployed_le _ _ _ _ _ Hdep) as Hle.
    destruct (load_parts_cut s k (num_layers a + 1) m) as (m1 & m2 & E1 & E2 & Hj); [lia..|done|].
    destruct (IH ltac:(lia) m2 E2) as (ms & HF & Hst). exists (m1 :: ms). split.
    + constructor; [|done]. unfold loads_stage. cbn [fst snd].
      apply (load_parts_serves tensor tensor' c c'); [|by eapply split_file_agree|done|lia|done|done].
      by eapply split_file_serves.
    + apply (any_stages_cons m1 m2); [done| |done]. apply (load_parts_embed (k + 1) (num_layers a + 1)); [done|lia].
Qed.
End parts.

(** ** Opened files *)
Definition name_supported (arch : string) : bool :=
  String.eqb (lower arch) "qwen3" || String.eqb (lower arch) "qwen3moe".
Lemma supported_spec md : name_supported (arch_of md) = true <-> supported md.
Proof.
  unfold name_supported, supported. by rewrite orb_true_iff, !String.eqb_eq, !elem_of_cons, elem_of_nil; tauto.
Qed.
Lemma analyze_fields c :
  architecture (GGUF_Analyze_From_Content c) = arch_of (metadata c) /\ num_layers (GGUF_Analyze_From_Content c) = block_count (metadata c).
Proof. unfold GGUF_Analyze_From_Content. by destruct (group_tensors _). Qed.
Lemma load_content_Ok (tensor : reader) c path s e dev g :
  load_content tensor c path s e dev = Ok g <->
  supported (metadata c) /\ exists e' m, load_range (GGUF_Analyze_From_Content c) s e = Ok e' /\
    load_parts tensor c (GGUF_Analyze_From_Content c) s e' dev = Ok m /\
    g = mk_GGUF_Model m (eos_token_id (GGUF_Analyze_From_Content c)) (GGUF_Analyze_From_Content c) path dev (s =? 0)
          (e' =? block_count (metadata c) + 1).
Proof.
  rewrite <- supported_spec. unfold load_content. cbv zeta. destruct (analyze_fields c) as [-> ->].
  change (String.eqb (lower (arch_of (metadata c))) "qwen3" || String.eqb (lower (arch_of (metadata c))) "qwen3moe")
    with (name_supported (arch_of (metadata c))). destruct (name_supported _); cbn [negb]; [|by split; [|intros [? _]]].
  destruct (load_range _ _ _) as [e'|]; cbn [lift map_err mbind result_bind]; [|by split; [|intros (_ & ? & ? & ? & _)]].
  destruct (load_parts _ _ _ _ _ _) as [m|] eqn:E; cbn [mbind result_bind].
  - split; [intros [= <-]; split; [done|]; by exists e', m|]. intros (_ & ? & ? & [= <-] & E' & ->). rewrite E in E'. by injection E' as ->.
  - split; [done|]. intros (_ & ? & ? & [= <-] & E' & _). congruence.
Qed.
Lemma load_content_split `{!Gguf_Laws} keep (tensor tensor' : reader) c c' path s e dev m :
  0 <= s -> e < 2 ^ 32 -> in_range 64 (block_count (metadata c)) -> supported (metadata c) ->
  split_file keep tensor c tensor' c' s e -> load_parts tensor' c' (GGUF_Analyze_From_Content c') s e dev = Ok m ->
  exists g, load_content tensor' c' path s e dev = Ok g /\ model g = m /\
    has_input_head g = (s =? 0) /\ has_output_head g = (e =? block_count (metadata c) + 1).
Proof.
  intros Hs He Hb Hsup Hf Hm. pose proof (split_file_agree _ _ _ _ _ _ _ Hf) as Hag.
  destruct Hf as [(sel & Hsel & Hrb & _)]. destruct (split_select_spec c s e sel Hs Hb Hsel) as (_ & Hse & _).
  destruct (analyze_agree c c' Hag Hsup) as (_ & En & _). rewrite !(proj2 (analyze_fields _)) in En. rewrite <- En.
  exists (mk_GGUF_Model m (eos_token_id (GGUF_Analyze_From_Content c')) (GGUF_Analyze_From_Content c') path dev (s =? 0)
    (e =? block_count (metadata c') + 1)). split; [|by split_and!].
  apply load_content_Ok. split; [unfold supported; by rewrite (agree_arch c c' Hag)|]. exists e, m. split; [|done].
  apply (split_load_range c c' s e keep sel); (done || lia).
Qed.

(** Inference only adds its words to an error. *)
Definition inference_error (r : result string T) : result string T := map_err (fun e => ("Forward pass failed: " +:+ e)%string) r.
Lemma inference_pipeline gs input offset :
  let (ms, r) := pipeline Any_Forward (map model gs) input offset in
  exists gs', pipeline GGUF_Model_Inference gs input offset = (gs', inference_error r) /\ map model gs' = ms.
Proof.
  revert input. induction gs as [|g gs IH]; intros input; cbn [map pipeline]; [by exists []|].
  unfold GGUF_Model_Inference at 1. destruct (Any_Forward (model g) input offset) as [m [h|e]] eqn:E; cbn [map_err].
  - specialize (IH h). destruct (pipeline Any_Forward (map model gs) h offset) as [ms r]. destruct IH as (gs' & -> & <-). by eexists.
  - by eexists.
Qed.
Lemma serve_inference gs inputs :
  serve (pipeline GGUF_Model_Inference) gs inputs = map inference_error (serve (pipeline Any_Forward) (map model gs) inputs).
Proof.
  revert gs. induction inputs as [|[x offset] inputs IH]; intros gs; [done|]. cbn [serve].
  pose proof (inference_pipeline gs x offset) as Hp. destruct (pipeline Any_Forward (map model gs) x offset) as [ms r].
  destruct Hp as (gs' & -> & <-). cbn [map]. by rewrite IH.
Qed.
Lemma pipeline_one {M} (f : M -> T -> Z -> M * result string T) m inputs : serve (pipeline f) [m] inputs = serve f m inputs.
Proof.
  revert m. induction inputs as [|[x offset] inputs IH]; intros m; [done|]. cbn [serve pipeline].
  destruct (f m x offset) as [m' [h|e]]; by rewrite IH.
Qed.
Lemma serve_map {M} (f : M -> T -> Z -> M * result string T) (inj : M -> Any) ms inputs :
  (forall m x offset, Any_Forward (inj m) x offset = let (m, r) := f m x offset in (inj m, r)) ->
  serve (pipeline Any_Forward) (map inj ms) inputs = serve (pipeline f) ms inputs.
Proof.
  intros Hinj. assert (forall ms x offset, pipeline Any_Forward (map inj ms) x offset = let (ms, r) := pipeline f ms x offset in (map inj ms, r)) as Hp.
  { clear ms. induction ms as [|m ms IH]; intros x offset; [done|]. cbn [map pipeline]. rewrite Hinj. destruct (f m x offset) as [m' [h|e]]; [|done].
    rewrite IH. by destruct (pipeline f ms h offset). }
  revert ms. induction inputs as [|[x offset] inputs IH]; intros ms; [done|]. cbn [serve]. rewrite Hp.
  destruct (pipeline f ms x offset) as [ms' r]. by rewrite IH.
Qed.
Lemma serve_any_stages `{!Nn_Laws T Dev QTensor QMatMul RmsNorm Embedding Cache} dev dt m ms inputs :
  any_stages dev dt m ms -> serve (pipeline Any_Forward) ms inputs = serve Any_Forward m inputs.
Proof.
  intros [m1 ms1 Hst|m1 ms1 Hst]; rewrite <- (pipeline_one Any_Forward).
  - change [Qwen3 (QTensor:=QTensor) (join m1 ms1)] with (map (Qwen3 (QTensor:=QTensor)) [join m1 ms1]). rewrite !(serve_map Model_Forward (Qwen3 (QTensor:=QTensor))), pipeline_one by done.
    by apply (serve_pipeline _ layer_forward_dims dev dt).
  - change [Qwen3Moe (QTensor:=QTensor) (join m1 ms1)] with (map (Qwen3Moe (QTensor:=QTensor)) [join m1 ms1]). rewrite !(serve_map MoE_Model_Forward (Qwen3Moe (QTensor:=QTensor))), pipeline_one by done.
    by apply (serve_pipeline _ moe_forward_dims dev dt).
Qed.

(** ** The property *)
Section files.
Context `{!Gguf_Laws} `{!Nn_Laws T Dev QTensor QMatMul RmsNorm Embedding Cache}.
Context (content_of : bytes -> result string (Content * reader)) (xxhash32 : bytes -> Z) (files : files_t).
(** The file at the path has this header and reader, and is converted. *)
Definition opens (path : string) (c : Content) (tensor : reader) : Prop :=
  exists src a, files !! path = Some src /\ content_of src = Ok (c, tensor) /\
    GGUF_Analyze_And_Convert xxhash32 c = Some (Untouched a).
Abbreviation load := (GGUF_Load_Model content_of xxhash32 files).
Lemma load_opens path c tensor s e dev :
  opens path c tensor -> load s e path dev = Some (load_content tensor c path s e dev, files).
Proof.
  intros (src & a & Hf & Hc & Ha). unfold GGUF_Load_Model, resolve_load_path. rewrite bool_decide_true by by eexists.
  unfold Convert_File. rewrite (open_ok (header_of content_of) files path src c Hf) by (unfold header_of; by rewrite Hc).
  rewrite Ha. cbn [mbind option_bind result_bind]. rewrite Hf. cbn [ok_or mbind result_bind]. by rewrite Hc.
Qed.
(** What loading a file of the range [f] must give. *)
Definition loaded (c : Content) (dev : Dev) (path_of : Z -> string) (f : Z * Z * (reader * Content)) (g : GGUF_Model) : Prop :=
  load f.1.1 f.1.2 (path_of f.1.1) dev = Some (Ok g, files) /\
  has_input_head g = (f.1.1 =? 0) /\ has_output_head g = (f.1.2 =? block_count (metadata c) + 1).
Lemma load_stages keep (tensor : reader) c dev path_of s fs ms :
  0 <= s -> block_count (metadata c) + 1 < 2 ^ 32 -> in_range 64 (block_count (metadata c)) -> supported (metadata c) ->
  deployed keep tensor c s fs -> (forall f, f ∈ fs -> opens (path_of f.1.1) f.2.2 f.2.1) -> Forall2 (loads_stage dev) fs ms ->
  exists gs, Forall2 (loaded c dev path_of) fs gs /\ map model gs = ms.
Proof.
  intros Hs Hn Hb Hsup Hdep Hop. revert ms.
  assert (forall s k (tensor' : reader) c' m, 0 <= s -> k <= block_count (metadata c) + 1 ->
    split_file (keep s) tensor c tensor' c' s k -> opens (path_of s) c' tensor' -> loads_stage dev (s, k, (tensor', c')) m ->
    exists g, loaded c dev path_of (s, k, (tensor', c')) g /\ model g = m) as Hone.
  { intros s1 k tensor' c' m Hs1 Hk Hf Hl%(fun h => load_opens _ _ _ s1 k dev h) Hm.
    destruct (load_content_split (keep s1) tensor tensor' c c' (path_of s1) s1 k dev m) as (g & Hg & <- & Hh); [done|lia|done|done|done|done|].
    exists g. split; [|done]. unfold loaded. cbn [fst snd]. by rewrite Hl, Hg. }
  induction Hdep as [s tensor' c' Hle Hf|s k tensor' c' fs Hsk Hf Hdep IH]; intros ms HF.
  - inversion HF as [|? m ? ? Hm HF']; subst. inversion HF'; subst. apply Hone in Hm as (g & Hg & Em); [|done|lia|done|].
    + exists [g]. split; [by constructor|]. cbn. by rewrite Em.
    + apply (Hop (s, block_count (metadata c) + 1, (tensor', c'))). by left.
  - pose proof (deployed_le _ _ _ _ _ Hdep) as Hle. inversion HF as [|? m ? ? Hm HF']; subst.
    apply IH in HF' as (gs & HG & Egs); [|lia|intros f Hf'; apply Hop; by right].
    apply Hone in Hm as (g & Hg & Em); [|done|lia|done|].
    + exists (g :: gs). split; [by constructor|]. cbn. by rewrite Em, Egs.
    + apply (Hop (s, k, (tensor', c'))). by left.
Qed.

Lemma deployed_answers keep (tensor : reader) c dev path path_of fs e g :
  is_split (GGUF_Analyze_From_Content c) = false -> 0 <= block_count (metadata c) < 2 ^ 32 - 1 ->
  block_count (metadata c) + 1 <= e ->
  opens path c tensor -> deployed keep tensor c 0 fs -> (forall f, f ∈ fs -> opens (path_of f.1.1) f.2.2 f.2.1) ->
  load 0 e path dev = Some (Ok g, files) ->
  exists gs, Forall2 (loaded c dev path_of) fs gs /\
    forall inputs, serve (pipeline GGUF_Model_Inference) gs inputs = serve GGUF_Model_Inference g inputs.
Proof.
  intros Hns Hn He Hop Hdep Hops Hg. rewrite (load_opens path c tensor 0 e dev Hop) in Hg. injection Hg as Hg.
  apply load_content_Ok in Hg as (Hsup & e' & m & Hr & Hm & ->). destruct (analyze_fields c) as [_ En].
  assert (e' = num_layers (GGUF_Analyze_From_Content c) + 1) as ->.
  { unfold load_range in Hr. rewrite Hns, (proj2 (Z.ltb_ge _ _)) in Hr by lia. injection Hr as <-. rewrite En. lia. }
  assert (in_range 64 (block_count (metadata c))) as Hb by (unfold in_range; lia).
  destruct (load_deployed tensor c dev keep 0 fs m) as (ms & HF & Hst); [done..|].
  destruct (load_stages keep tensor c dev path_of 0 fs ms) as (gs & HG & Egs); [done|lia|done..|].
  exists gs. split; [done|]. intros inputs. rewrite <- (pipeline_one GGUF_Model_Inference), !serve_inference. f_equal.
  rewrite Egs. cbn [map model]. rewrite pipeline_one. by apply (serve_any_stages dev (Read_Model_Dtype (metadata c))).
Qed.
(** C2: a model deployed in parts is the model. Let a whole, converted model file of a
    supported architecture load with all its layers, and let it be split into
    files for ranges that follow each other from the embedding to the output
    head. Then every part loads, with an input head in the first part only and an
    output head in the last one, and inference through the loaded parts, each
    handing its hidden state to the next, answers every sequence of passes exactly
    as the whole model does - also when the output head shares the embedding,
    which then is in the last file too. *)
Theorem split_pipeline keep (tensor : reader) c dev path path_of fs e g :
  is_split (GGUF_Analyze_From_Content c) = false -> 0 <= block_count (metadata c) < 2 ^ 32 - 1 ->
  block_count (metadata c) + 1 <= e ->
  opens path c tensor -> deployed keep tensor c 0 fs -> (forall f, f ∈ fs -> opens (path_of f.1.1) f.2.2 f.2.1) ->
  load 0 e path dev = Some (Ok g, files) ->
  exists gs, Forall2 (loaded c dev path_of) fs gs /\
    forall inputs, serve (pipeline GGUF_Model_Inference) gs inputs = serve GGUF_Model_Inference g inputs.
Proof. exact (deployed_answers keep tensor c dev path path_of fs e g). Qed.
End files.
End load_model.

(** ** A concrete model in two files *)
Definition restrict c s e keep sel : Content :=
  mk_content (read_metadata (split_metadata c s e keep sel)) (filter (fun kv => kv.1 ∈ sel) (tensor_infos c)) 0.
Lemma restrict_reads_back c s e keep sel :
  forallb (has c) sel = true -> reads_back c (restrict c s e keep sel) (split_metadata c s e keep sel) sel.
Proof.
  intros Hsel. rewrite forallb_forall in Hsel. split; [done|]. intros n. unfold restrict. cbn [tensor_infos]. split.
  - by intros [i [_ Hn]%map_lookup_filter_Some].
  - intros Hn. destruct (proj1 (elem_of_names c n) (proj1 (has_spec c n) (Hsel n (proj1 (list_elem_of_In _ _) Hn)))) as [i Hi]. exists i. by apply map_lookup_filter_Some.
Qed.
Module Example_Files.
Import KvCache.Plain Example_Model.
Definition arch_md : gmap string Value :=
  list_to_map [("general.architecture", Str "Qwen3"); ("Qwen3.block_count", U32 2); ("Qwen3.embedding_length", U32 2);
    ("Qwen3.attention.head_count", U32 1); ("Qwen3.attention.head_count_kv", U32 1); ("Qwen3.context_length", U32 8);
    ("tokenizer.ggml.model", Str "gpt2"); ("pleiades.model_id", U32 5); ("pleiades.layer_bitmap", Str "03")]%string.
Definition block_names (i : Z) : list string :=
  map (fun k => (layer_prefix i +:+ k)%string)
    [".attn_q.weight"; ".attn_k.weight"; ".attn_v.weight"; ".attn_output.weight"; ".attn_q_norm.weight"; ".attn_k_norm.weight";
     ".ffn_gate.weight"; ".ffn_up.weight"; ".ffn_down.weight"; ".attn_norm.weight"; ".ffn_norm.weight"]%string.
Definition all_names : list string := block_names 0 ++ block_names 1 ++ [EMBD; NORM].
(** The output head shares the embedding. *)
Definition whole : Content := mk_content arch_md (list_to_map (map (fun n => (n, t 0)) all_names)) 256.
Definition tensor (n : string) : result string tensor := Ok (mk_tensor [1%nat] KvCache.F32 [str_len n]).
Definition sel (s e : Z) : list string := match split_select whole s e with Ok l => l | Err _ => [] end.
Definition part (s e : Z) : Content := restrict whole s e false (sel s e).
Definition parts : list (Z * Z * ((string -> result string KvCache.Plain.tensor) * Content)) :=
  [(0, 1, (tensor, part 0 1)); (2, 3, (tensor, part 2 3))].
Definition path_of (s : Z) : string := if s =? 0 then "first" else "second".
Definition content_of (src : bytes) : result string (Content * (string -> result string KvCache.Plain.tensor)) :=
  Ok (match src with x00 :: _ => whole | x01 :: _ => part 0 1 | _ => part 2 3 end, tensor).
Definition disk : gmap string bytes := {[ "whole" := [x00]; "first" := [x01]; "second" := [x02] ]}%string.
Definition load := GGUF_Load_Model (Embedding:=Z) (RmsNorm:=Z) (QMatMul:=Z) (Dev:=unit) (Cache:=option (KvCache.Plain.tensor * KvCache.Plain.tensor))
  content_of (fun _ => 0) disk.
Lemma part_file s e : split_select whole s e = Ok (sel s e) -> forallb (has whole) (sel s e) = true ->
  split_file false tensor whole tensor (part s e) s e.
Proof.
  intros Hs Hall. split. exists (sel s e). split; [exact Hs|]. split; [|done]. apply (restrict_reads_back whole s e false (sel s e) Hall).
Qed.
End Example_Files.
Import Example_Files.
Lemma converted_file p c : (exists src, disk !! p = Some src /\ content_of src = Ok (c, tensor)) ->
  match GGUF_Analyze_And_Convert (fun _ => 0) c with Some (Untouched _) => true | _ => false end = true ->
  opens content_of (fun _ => 0) disk p c tensor.
Proof.
  intros (src & Hf & Hc) Hu. destruct (GGUF_Analyze_And_Convert _ c) as [[a|]|] eqn:Ha; [|discriminate Hu..]. exists src, a.
  split; [exact Hf|]. split; [exact Hc|exact Ha].
Qed.
Lemma example_files :
  block_count (metadata whole) = 2 /\ is_split (GGUF_Analyze_From_Content whole) = false /\
  opens content_of (fun _ => 0) disk "whole" whole tensor /\ deployed (fun _ => false) tensor whole 0 parts /\
  forall f, f ∈ parts -> opens content_of (fun _ => 0) disk (path_of f.1.1) f.2.2 f.2.1.
Proof.
  assert (block_count (metadata whole) = 2) as Hn by (vm_compute; reflexivity).
  assert (split_select whole 0 1 = Ok (sel 0 1) /\ forallb (has whole) (sel 0 1) = true) as [S1 H1] by (split; vm_compute; reflexivity).
  assert (split_select whole 2 3 = Ok (sel 2 3) /\ forallb (has whole) (sel 2 3) = true) as [S2 H2] by (split; vm_compute; reflexivity).
  split; [exact Hn|]. split; [vm_compute; reflexivity|]. split; [|split].
  - apply converted_file; [exists [x00]; split; vm_compute; reflexivity|vm_compute; reflexivity].
  - unfold parts. apply deployed_cons; [lia|exact (part_file 0 1 S1 H1)|]. cbn [Z.add Pos.add Pos.succ].
    pose proof (deployed_last (fun _ => false) tensor whole 2 tensor (part 2 3)) as Hl. rewrite Hn in Hl.
    apply Hl; [lia|exact (part_file 2 3 S2 H2)].
  - unfold parts. intros f [->| ->%list_elem_of_singleton]%elem_of_cons; apply converted_file.
    + exists [x01]. split; vm_compute; reflexivity.
    + vm_compute. reflexivity.
    + exists [x02]. split; vm_compute; reflexivity.
    + vm_compute. reflexivity.
Qed.
Lemma split_pipeline_witness :
  exists g gs, load 0 100 "whole" tt = Some (Ok g, disk) /\
    Forall2 (loaded content_of (fun _ => 0) disk whole tt path_of) parts gs /\
    serve (pipeline GGUF_Model_Inference) gs Plain_Nn.inputs = serve GGUF_Model_Inference g Plain_Nn.inputs /\
    forallb (@is_ok _ _) (serve GGUF_Model_Inference g Plain_Nn.inputs) = true.
Proof.
  destruct example_files as (Hn & Hns & Ho & Hd & Hps).
  assert (exists g, load 0 100 "whole" tt = Some (Ok g, disk) /\ forallb (@is_ok _ _) (serve GGUF_Model_Inference g Plain_Nn.inputs) = true) as (g & Hg & Hok).
  { eexists. split; [vm_compute; reflexivity|]. vm_compute. reflexivity. }
  pose proof (split_pipeline content_of (fun _ => 0) disk (fun _ => false) tensor whole tt "whole" path_of parts 100 g
    Hns ltac:(rewrite Hn; lia) ltac:(rewrite Hn; lia) Ho Hd Hps Hg) as (gs & HF & Hs).
  exists g, gs. split; [exact Hg|]. split; [exact HF|]. split; [apply Hs|exact Hok].
Defined.
