(* ===== verification/TensorExchange.v ===== *)
(** * Tensors between scripts ([Src/VM/capability_binding.rs], [Src/VM/local_stream.rs])

    The calls a pipeline script makes on a stream: [send_tensor], [recv_tensor]
    and [send_eof], over the network and within the process. They put the tensor
    bytes of [KvCache] into the frames of [TensorStream]. A stream is the bytes in
    transit; the userdata borrows and locks around it are mlua's and Rust's. *)
From S2P Require Import Prelude RustStd Wire Cursor TensorStream KvCache MlSession.

Section exchange.
Context {T Dev : Type} `{!Candle T Dev}.
Context (new_cuda : Z -> result string Dev) (chk : bool).

Inductive recv_error : Type := Io (e : io_error) | Received_EOF | Decode (e : mem_fault).
(** [lua_tensor.rs] *)
Definition bytes_to_tensor_str (data : bytes) (device_str : bytes) : result mem_fault T :=
  device ← map_err Fail (Parse_Device_Str cpu new_cuda device_str);
  bytes_to_tensor chk data device.

(** ** Over the network *)
Definition send_tensor (stream : bytes) (t : T) (offset : Z) : result string bytes :=
  b ← tensor_to_bytes t; Ok (Send_Tensor_Frame stream offset b).
(** The result, and the rest of a stream that can still be used. *)
Definition decoded (buffer : Tensor_Buffer) (device_str : bytes) (offset : Z) : result recv_error (T * Z) :=
  data ← ok_or (Decode Panic) (As_Slice buffer);
  tensor ← map_err Decode (bytes_to_tensor_str data device_str);
  Ok (tensor, offset).
Definition recv_tensor (stream device_str : bytes) : result recv_error (T * Z) * option bytes :=
  let (r, buffer) := Receive_Tensor_Frame stream (New (256 * 1024)) in
  match r with
  | Err e => (Err (Io e), None)
  | Ok (offset, rest) =>
      if offset =? TENSOR_EOF_OFFSET then (Err Received_EOF, Some rest)
      else (decoded buffer device_str offset, Some rest)
  end.
Definition send_eof (stream : bytes) : bytes := Send_EOF stream.

(** ** Within the process *)
Definition local_send_tensor (stream : bytes) (t : T) (offset : Z) : result string bytes :=
  b ← tensor_to_bytes t; Ok (local_send_frame stream offset b).
Definition local_recv_tensor (stream device_str : bytes) : result recv_error (T * Z) * option bytes :=
  let (r, buffer) := local_recv_frame stream (New (256 * 1024)) in
  match r with
  | Err e => (Err (Io e), None)
  | Ok (offset, rest) => (decoded buffer device_str offset, Some rest)
  end.
Definition local_stream_eof (stream : bytes) : bytes := local_send_eof stream.

(** ** Several messages *)
Fixpoint send_all (send : bytes -> T -> Z -> result string bytes) (stream : bytes) (msgs : list (T * Z))
    : result string bytes :=
  match msgs with
  | [] => Ok stream
  | (t, offset) :: msgs => stream ← send stream t offset; send_all send stream msgs
  end.
Fixpoint recv_all (recv : bytes -> result recv_error (T * Z) * option bytes) (n : nat) (stream : bytes)
    : list (result recv_error (T * Z)) :=
  match n with
  | S n => let (r, s) := recv stream in r :: match s with Some s => recv_all recv n s | None => [] end
  | O => []
  end.
(** What the other side should get. *)
Definition on_device (dev : Dev) (m : T * Z) : result recv_error (T * Z) :=
  t ← map_err (fun e => Decode (Fail e)) (to_device m.1 dev); Ok (t, m.2).
Definition frame_size (t : T) : Z := 9 + 8 * zlen (dims t) + 4 * product (dims t).
Definition sendable (m : T * Z) : Prop :=
  shape_fits (dims m.1) /\ dtype m.1 <> OtherDType /\ in_range 64 m.2.

Context `{!Candle_Laws T Dev}.
Lemma tensor_to_bytes_Ok t :
  shape_fits (dims t) -> dtype t <> OtherDType -> exists b, tensor_to_bytes t = Ok b /\ zlen b = frame_size t.
Proof.
  intros Hs Hd. pose proof Hs as (Hn & Hpos & _). unfold tensor_to_bytes.
  assert (existsb (Z.eqb 0) (dims t) = false) as ->.
  { clear -Hpos. induction Hpos as [|d l Hd _ IH]; [done|]. cbn [existsb]. by rewrite (proj2 (Z.eqb_neq 0 d)) by lia. }
  rewrite (bool_decide_false (dims t = [])) by (intros E; rewrite E in Hn; by destruct Hn). cbn [orb].
  destruct (reshape_flat t) as (t' & l & -> & Hl & Hsize & _). cbn [mbind result_bind]. rewrite Hl.
  assert (forall dt, zlen ((dt :: to_le_bytes 8 (zlen (dims t)) ++ concat (map (to_le_bytes 8) (dims t))) ++ words_to_bytes l) = frame_size t) as Hz.
  { intros dt. rewrite zlen_app, zlen_cons, zlen_app, zlen_dims, zlen_words, Hsize. unfold frame_size. zlens. }
  destruct (dtype t); cbn [mbind result_bind]; [..|done]; eexists; (split; [done|apply Hz]).
Qed.
Lemma frame_size_range t : shape_fits (dims t) -> 0 <= frame_size t < 2 ^ 63.
Proof. intros (Hn & Hpos & Hp). pose proof (product_pos _ Hpos). unfold frame_size. lia. Qed.
Lemma decoded_spec buffer b t device_str dev offset :
  Parse_Device_Str cpu new_cuda device_str = Ok dev -> shape_fits (dims t) -> tensor_to_bytes t = Ok b ->
  As_Slice buffer = Some b -> decoded buffer device_str offset = on_device dev (t, offset).
Proof.
  intros Hdev Hs Hb Hsl. pose proof (tensor_bytes_roundtrip t chk dev Hs) as Hrt. rewrite Hb in Hrt. destruct Hrt as [_ Hrt].
  unfold decoded, bytes_to_tensor_str, on_device. rewrite Hsl, Hdev. cbn [ok_or map_err mbind result_bind fst snd]. rewrite Hrt.
  by destruct (to_device t dev).
Qed.
Lemma local_frame_roundtrip offset data rest b :
  in_range 64 offset -> in_range 64 (zlen data) ->
  exists b', local_recv_frame (local_send_frame [] offset data ++ rest) b = (Ok (offset, rest), b') /\ As_Slice b' = Some data.
Proof.
  intros Ho Hr. change (local_send_frame [] offset data) with (Send_Tensor_Frame [] offset data).
  destruct (read_sent_header offset data rest Ho Hr) as (h & Hh & Hof & Hlen).
  unfold local_recv_frame. rewrite Hh, Hof, Hlen. destruct (_ && _) eqn:E.
  - apply andb_true_iff in E as [->%Z.eqb_eq Hz%Z.eqb_eq]. destruct data; [|rewrite zlen_cons in Hz; pose proof (zlen_nonneg data); lia].
    eexists. split; [done|]. apply Clear_As_Slice.
  - rewrite read_body_app. eexists. split; [done|]. by apply fill_resized.
Qed.
Lemma recv_sent t offset b rest device_str dev :
  Parse_Device_Str cpu new_cuda device_str = Ok dev -> sendable (t, offset) -> frame_size t <= MAX_TENSOR_SIZE ->
  tensor_to_bytes t = Ok b ->
  recv_tensor (Send_Tensor_Frame [] offset b ++ rest) device_str =
  ((if offset =? TENSOR_EOF_OFFSET then Err Received_EOF else on_device dev (t, offset)), Some rest).
Proof.
  intros Hdev (Hs & Hd & Ho) Hsz Hb. cbn [fst snd] in *. destruct (tensor_to_bytes_Ok t Hs Hd) as (b1 & Hb1 & Hl).
  rewrite Hb in Hb1. injection Hb1 as <-. rewrite <- Hl in Hsz. unfold recv_tensor.
  destruct (tensor_frame_roundtrip offset b rest (New (256 * 1024)) Ho Hsz) as (buf & -> & Hbuf).
  destruct (_ =? _); [done|]. f_equal. by apply (decoded_spec buf b).
Qed.
Lemma local_recv_sent t offset b rest device_str dev :
  Parse_Device_Str cpu new_cuda device_str = Ok dev -> sendable (t, offset) -> tensor_to_bytes t = Ok b ->
  local_recv_tensor (local_send_frame [] offset b ++ rest) device_str = (on_device dev (t, offset), Some rest).
Proof.
  intros Hdev (Hs & Hd & Ho) Hb. cbn [fst snd] in *. destruct (tensor_to_bytes_Ok t Hs Hd) as (b1 & Hb1 & Hl).
  rewrite Hb in Hb1. injection Hb1 as <-. pose proof (frame_size_range t Hs). unfold local_recv_tensor.
  destruct (local_frame_roundtrip offset b rest (New (256 * 1024)) Ho) as (buf & -> & Hbuf); [unfold in_range; lia|].
  f_equal. by apply (decoded_spec buf b).
Qed.
(** Sending in sequence appends frames; receiving takes them off one by one. *)
Lemma exchange (send : bytes -> T -> Z -> result string bytes) (recv : bytes -> result recv_error (T * Z) * option bytes)
    (frame : T -> Z -> bytes) (out : T * Z -> result recv_error (T * Z)) (ok : T * Z -> Prop) msgs s last :
  (forall m s, ok m -> send s m.1 m.2 = Ok (s ++ frame m.1 m.2)) ->
  (forall m rest, ok m -> recv (frame m.1 m.2 ++ rest) = (out m, Some rest)) ->
  Forall ok msgs ->
  exists b, send_all send s msgs = Ok (s ++ b) /\
    recv_all recv (length msgs + 1) (b ++ last) = map out msgs ++ [(recv last).1].
Proof.
  intros Hsend Hrecv HF. revert s. induction HF as [|[t o] msgs Hm HF IH]; intros s.
  - exists []. cbn [send_all length Nat.add recv_all map app]. rewrite app_nil_r. split; [done|].
    by destruct (recv last) as [r [s'|]].
  - cbn [send_all length Nat.add map app recv_all]. pose proof (Hsend _ s Hm) as Hst. cbn [fst snd] in Hst. rewrite Hst. cbn [mbind result_bind].
    destruct (IH (s ++ frame t o)) as (b & Hb & Hr). exists (frame t o ++ b). rewrite Hb, <- !app_assoc. split; [done|].
    pose proof (Hrecv _ (b ++ last) Hm) as Hrm. cbn [fst snd] in Hrm. rewrite Hrm. by rewrite <- Hr.
Qed.
Lemma local_frame_app offset (b s : bytes) : local_send_frame s offset b = s ++ Send_Tensor_Frame [] offset b.
Proof. apply Send_Tensor_Frame_app. Qed.
Definition frame_of (t : T) (offset : Z) : bytes := match tensor_to_bytes t with Ok b => Send_Tensor_Frame [] offset b | Err _ => [] end.
Lemma send_frame m s : sendable m -> send_tensor s m.1 m.2 = Ok (s ++ frame_of m.1 m.2) /\ local_send_tensor s m.1 m.2 = Ok (s ++ frame_of m.1 m.2).
Proof.
  intros (Hs & Hd & _). destruct (tensor_to_bytes_Ok _ Hs Hd) as (b & Hb & _). unfold send_tensor, local_send_tensor, frame_of.
  rewrite Hb. cbn [mbind result_bind]. split; f_equal; [apply Send_Tensor_Frame_app|apply local_frame_app].
Qed.
Lemma recv_frame device_str dev m rest :
  Parse_Device_Str cpu new_cuda device_str = Ok dev -> sendable m ->
  (frame_size m.1 <= MAX_TENSOR_SIZE -> recv_tensor (frame_of m.1 m.2 ++ rest) device_str =
     ((if m.2 =? TENSOR_EOF_OFFSET then Err Received_EOF else on_device dev m), Some rest)) /\
  local_recv_tensor (frame_of m.1 m.2 ++ rest) device_str = (on_device dev m, Some rest).
Proof.
  intros Hdev Hm. pose proof Hm as (Hs & Hd & _). destruct (tensor_to_bytes_Ok _ Hs Hd) as (b & Hb & _).
  unfold frame_of. rewrite Hb. destruct m as [t o]. cbn [fst snd] in *. split; [intros Hsz; by apply recv_sent|by apply local_recv_sent].
Qed.
Lemma eof_ends device_str dev rest :
  Parse_Device_Str cpu new_cuda device_str = Ok dev ->
  recv_tensor (send_eof rest) device_str = recv_tensor (rest ++ send_eof []) device_str /\
  (recv_tensor (send_eof []) device_str).1 = Err Received_EOF /\
  (local_recv_tensor (local_stream_eof []) device_str).1 = Err (Decode (Fail "data too short for header")).
Proof.
  intros Hdev. unfold send_eof. rewrite Send_EOF_is_empty_frame, (Send_Tensor_Frame_app rest). rewrite <- (Send_EOF_is_empty_frame []). split; [done|].
  split; [done|]. unfold local_recv_tensor. cbn. unfold decoded, bytes_to_tensor_str. cbn. by rewrite Hdev.
Qed.

(** C11: tensors between scripts. Tensors of 32-bit elements sent one after the
    other and followed by the end mark are received in order, each with its offset
    and its elements on the receiver's device. Over the network the end mark is
    received as such, if no frame exceeds 512 MB; a tensor sent with the largest
    offset is taken for the end mark and lost. Within the process every offset and
    size is received, but the end mark comes out as a tensor that cannot be read. *)
Theorem tensors_cross device_str dev msgs :
  Parse_Device_Str cpu new_cuda device_str = Ok dev -> Forall sendable msgs ->
  (Forall (fun m => frame_size m.1 <= MAX_TENSOR_SIZE) msgs ->
   exists b, send_all send_tensor [] msgs = Ok b /\
     recv_all (fun s => recv_tensor s device_str) (length msgs + 1) (send_eof b) =
     map (fun m => if m.2 =? TENSOR_EOF_OFFSET then Err Received_EOF else on_device dev m) msgs ++ [Err Received_EOF]) /\
  exists b, send_all local_send_tensor [] msgs = Ok b /\
    recv_all (fun s => local_recv_tensor s device_str) (length msgs + 1) (local_stream_eof b) =
    map (on_device dev) msgs ++ [Err (Decode (Fail "data too short for header"))].
Proof.
  intros Hdev Hmsgs. destruct (eof_ends device_str dev [] Hdev) as (_ & He & Hle).
  assert (forall b, local_stream_eof b = b ++ local_stream_eof [] /\ send_eof b = b ++ send_eof []) as Happ.
  { intros b. unfold local_stream_eof, send_eof, local_send_eof, Send_EOF. by rewrite <- !app_assoc. }
  split.
  - intros Hsz. destruct (exchange send_tensor (fun s => recv_tensor s device_str) frame_of
      (fun m => if m.2 =? TENSOR_EOF_OFFSET then Err Received_EOF else on_device dev m)
      (fun m => sendable m /\ frame_size m.1 <= MAX_TENSOR_SIZE) msgs [] (send_eof [])) as (b & Hb & Hr).
    + intros m s [Hm _]. by apply send_frame.
    + intros m rest [Hm Hz]. by apply recv_frame.
    + apply Forall_and. by split.
    + exists b. split; [exact Hb|]. by rewrite (proj2 (Happ b)), Hr, He.
  - destruct (exchange local_send_tensor (fun s => local_recv_tensor s device_str) frame_of (on_device dev) sendable
      msgs [] (local_stream_eof [])) as (b & Hb & Hr).
    + intros m s Hm. by apply send_frame.
    + intros m rest Hm. by apply recv_frame.
    + done.
    + exists b. split; [exact Hb|]. by rewrite (proj1 (Happ b)), Hr, Hle.
Qed.
End exchange.

Import KvCache.Plain.
Definition two : list (Plain.tensor * Z) := [(Plain.layer, 5); (Plain.flat, TENSOR_EOF_OFFSET)].
Lemma tensors_cross_witness :
  (exists b, send_all send_tensor [] two = Ok b /\
    recv_all (fun s => recv_tensor (fun _ => Err "no device"%string) false s (as_bytes "cpu")) 3 (send_eof b) =
    [Ok (Plain.layer, 5); Err Received_EOF; Err Received_EOF]) /\
  exists b, send_all local_send_tensor [] two = Ok b /\
    recv_all (fun s => local_recv_tensor (fun _ => Err "no device"%string) false s (as_bytes "cpu")) 3 (local_stream_eof b) =
    [Ok (Plain.layer, 5); Ok (Plain.flat, TENSOR_EOF_OFFSET); Err (Decode (Fail "data too short for header"))].
Proof.
  assert (Forall sendable two) as Hf.
  { repeat constructor; cbn; try done; unfold in_range, TENSOR_EOF_OFFSET, U64_MAX; lia. }
  assert (Parse_Device_Str (cpu (T:=Plain.tensor)) (fun _ => Err "no device"%string) (as_bytes "cpu") = Ok tt) as Hdev by (by vm_compute).
  destruct (tensors_cross (fun _ => Err "no device"%string) false (as_bytes "cpu") tt two Hdev Hf) as [Hn Hl].
  split; [|exact Hl]. apply Hn. apply Forall_cons; split; [vm_compute; discriminate|]. apply Forall_cons; split; [vm_compute; discriminate|apply Forall_nil_2].
Defined.
