(* ===== verification/Pipeline.v ===== *)
(** * Distributed and offloaded inference

    How the parts of the model side work together.  First the loaded models of
    [GgufLoad] as an implementation of what a session ([MlSession]) relies on;
    then a model whose parts run on several nodes that hand each other their hidden
    states over tensor streams, as the pipeline scripts do with [forward],
    [send_tensor] and [recv_tensor]. *)
From S2P Require Import Prelude RustStd Wire Cursor TensorStream KvCache MlSession Gguf GgufFiles TensorExchange Qwen3 GgufLoad.

(** ** Models with caches *)
(** candle's [ConcatKvCache] is the two tensors and the dimension along which it
    concatenates; a cache without tensors takes what it is given. *)
Class Cache_Laws (T Dev QTensor QMatMul RmsNorm Embedding Cache : Type)
    `{!Nn T Dev QTensor QMatMul RmsNorm Embedding Cache} : Type := {
    cache_dim : Cache -> Z;
    cache_ext c c' : cache_dim c = cache_dim c' -> cache_k c = cache_k c' -> cache_v c = cache_v c' -> c = c';
    cache_dim_append c k v : cache_dim (cache_append c k v).1 = cache_dim c;
    cache_dim_reset c : cache_dim (cache_reset c) = cache_dim c;
    cache_new_empty n : cache_k (cache_new n) = None /\ cache_v (cache_new n) = None;
    cache_fills c k v : cache_k c = None -> cache_v c = None ->
      (cache_append c k v).2 = Ok (k, v) /\ cache_k (cache_append c k v).1 = Some k /\ cache_v (cache_append c k v).1 = Some v;
}.

Section models.
Context {T Dev QTensor QMatMul RmsNorm Embedding Cache : Type}.
Context `{!Nn T Dev QTensor QMatMul RmsNorm Embedding Cache} `{!Gguf}.
Abbreviation Any := (AnyModel (T:=T) (Dev:=Dev) (QTensor:=QTensor) (QMatMul:=QMatMul) (RmsNorm:=RmsNorm) (Embedding:=Embedding) (Cache:=Cache)).
Abbreviation Loaded := (GGUF_Model (T:=T) (Dev:=Dev) (QTensor:=QTensor) (QMatMul:=QMatMul) (RmsNorm:=RmsNorm) (Embedding:=Embedding) (Cache:=Cache)).
Abbreviation Layers Layer := (Model_Of Dev QMatMul RmsNorm Embedding Layer).

(** What a session does with a loaded model. *)
#[export] Instance gguf_session_model : SessionModel Loaded T := {|
    run_pass := GGUF_Model_Inference;
    clear_caches := GGUF_Model_Clear_KV_Cache;
    extract_caches g := Any_extract_kv_cache (model g);
    restore_caches g kvs := let (m, r) := Any_restore_kv_cache (model g) kvs in (with_model m g, r);
|}.

Context `{!Cache_Laws T Dev QTensor QMatMul RmsNorm Embedding Cache}.
(** *** Layers that differ in their caches *)
Section layers.
Context {Layer : Type} (get : Layer -> Cache) (set : Cache -> Layer -> Layer).
Hypothesis get_set : forall c y, get (set c y) = c.
Hypothesis set_set : forall c c' y, set c (set c' y) = set c y.
Hypothesis set_get : forall y, set (get y) y = y.
Definition recached (y0 y : Layer) : Prop := exists c, y = set c y0 /\ cache_dim c = cache_dim (get y0).
Lemma recached_refl y : recached y y.
Proof. exists (get y). by rewrite set_get. Qed.
Lemma recached_set y0 y c : recached y0 y -> cache_dim c = cache_dim (get y) -> recached y0 (set c y).
Proof. intros (c' & -> & Hc') Hc. rewrite get_set in Hc. exists c. rewrite set_set. split; [done|congruence]. Qed.
Lemma recached_list_refl ls : Forall2 recached ls ls.
Proof. induction ls; constructor; [apply recached_refl|done]. Qed.

Lemma run_layers_recached (forward : Layer -> T -> option T -> Z -> bool -> Layer * result string T) ls0 ls h mask offset pre :
  (forall y h mask offset pre, exists c, (forward y h mask offset pre).1 = set c y /\ cache_dim c = cache_dim (get y)) ->
  Forall2 recached ls0 ls -> Forall2 recached ls0 (run_layers forward ls h mask offset pre).1.
Proof.
  intros Hf Hls. revert h. induction Hls as [|y0 y ls0 ls Hy Hls IH]; intros h; [constructor|]. cbn [run_layers].
  destruct (Hf y h mask offset pre) as (c & Hc & Hd). destruct (forward y h mask offset pre) as [y' [h'|e]]; cbn [fst] in Hc; subst y'.
  - specialize (IH h'). destruct (run_layers forward ls h' mask offset pre) as [ls' r']. constructor; [by apply recached_set|done].
  - constructor; [by apply recached_set|done].
Qed.
Lemma append_all_recached ls0 ls kvs : Forall2 recached ls0 ls -> Forall2 recached ls0 (append_all get set ls kvs).1.
Proof.
  intros Hls. revert kvs. induction Hls as [|y0 y ls0 ls Hy Hls IH]; intros kvs; [constructor|].
  destruct kvs as [|[k v] kvs]; [by constructor|]. cbn [append_all].
  pose proof (cache_dim_append (get y) k v) as Hd. destruct (cache_append (get y) k v) as [c [p|e]]; cbn [fst] in Hd.
  - specialize (IH kvs). destruct (append_all get set ls kvs) as [ls' r']. constructor; [by apply recached_set|done].
  - constructor; [by apply recached_set|done].
Qed.
(** Appending to empty caches puts them back. *)
Lemma append_all_restores ls0 ls kvs :
  Forall2 recached ls0 ls -> Forall (fun y => cache_k (get y) = None /\ cache_v (get y) = None) ls0 ->
  cache_pairs (map get ls) = Ok kvs -> append_all get set ls0 kvs = (ls, Ok tt).
Proof.
  intros Hls. revert kvs. induction Hls as [|y0 y ls0 ls (c & -> & Hd) Hls IH]; intros kvs He.
  - intros [= <-]. done.
  - inversion He as [|? ? [Hk Hv] He']; subst. cbn [map cache_pairs]. rewrite get_set. unfold cache_pair.
    destruct (cache_k c) as [k|] eqn:Ek; cbn [ok_or mbind result_bind]; [|done].
    destruct (cache_v c) as [v|] eqn:Ev; cbn [ok_or mbind result_bind]; [|done].
    destruct (cache_pairs (map get ls)) as [ps|] eqn:Eps; cbn [mbind result_bind]; [|done]. intros [= <-]. cbn [append_all].
    destruct (cache_fills (get y0) k v Hk Hv) as (Hr & Hck & Hcv). pose proof (cache_dim_append (get y0) k v) as Hda.
    destruct (cache_append (get y0) k v) as [c' r]. cbn [fst snd] in *. subst r. rewrite (IH _ He' eq_refl).
    do 3 f_equal. apply cache_ext; congruence.
Qed.
End layers.

(** *** Both architectures *)
Definition dense_get (y : Layer_Weights (T:=T) (QMatMul:=QMatMul) (RmsNorm:=RmsNorm) (Cache:=Cache)) : Cache := kv_cache (self_attn y).
Definition dense_set c (y : Layer_Weights (T:=T) (QMatMul:=QMatMul) (RmsNorm:=RmsNorm) (Cache:=Cache)) :=
  mk_Layer (with_cache c (self_attn y)) (mlp y) (ln1 y) (ln2 y).
Definition moe_get (y : Qwen3MoE_Layer (T:=T) (QTensor:=QTensor) (QMatMul:=QMatMul) (RmsNorm:=RmsNorm) (Cache:=Cache)) : Cache := kv_cache (moe_attn y).
Definition moe_set c (y : Qwen3MoE_Layer (T:=T) (QTensor:=QTensor) (QMatMul:=QMatMul) (RmsNorm:=RmsNorm) (Cache:=Cache)) :=
  mk_MoE_Layer (with_cache c (moe_attn y)) (moe_ln1 y) (moe_mlp y) (moe_ln2 y).
Definition with_recached {Layer} (get : Layer -> Cache) (set : Cache -> Layer -> Layer) (m0 m : Layers Layer) : Prop :=
  m = with_layers (layers m) m0 /\ Forall2 (recached get set) (layers m0) (layers m).
Definition any_recached (m0 m : Any) : Prop :=
  match m0, m with
  | Qwen3 m0, Qwen3 m => with_recached dense_get dense_set m0 m
  | Qwen3Moe m0, Qwen3Moe m => with_recached moe_get moe_set m0 m
  | _, _ => False
  end.
Lemma with_recached_layers {Layer} (get : Layer -> Cache) set m0 (m : Layers Layer) ls :
  with_recached get set m0 m -> Forall2 (recached get set) (layers m0) ls -> with_recached get set m0 (with_layers ls m).
Proof. intros [-> _] Hls. by split. Qed.
Lemma residual_cache n1 n2 f a x mask offset :
  exists c, (residual n1 n2 f a x mask offset).1 = with_cache c a /\ cache_dim c = cache_dim (kv_cache a).
Proof.
  assert (with_cache (kv_cache a) a = a) as Ha by (by destruct a). unfold residual.
  destruct (rmsnorm_forward n1 x) as [h|e]; [|by exists (kv_cache a)].
  unfold Attention_Forward. destruct (project a h offset) as [[[[[b l] q] k] v]|e]; [|by exists (kv_cache a)].
  pose proof (cache_dim_append (kv_cache a) k v) as Hd. destruct (cache_append (kv_cache a) k v) as [c r]. by exists c.
Qed.
Lemma dense_cache y h mask offset pre :
  exists c, (Layer_Forward y h mask offset pre).1 = dense_set c y /\ cache_dim c = cache_dim (dense_get y).
Proof.
  unfold Layer_Forward. destruct (residual_cache (ln1 y) (ln2 y) (Mlp_forward (mlp y)) (self_attn y) h mask offset) as (c & Hc & Hd).
  destruct (residual _ _ _ _ _ _ _) as [a r]. cbn [fst] in *. subst a. by exists c.
Qed.
Lemma moe_cache y h mask offset pre :
  exists c, (MoE_Layer_Forward y h mask offset pre).1 = moe_set c y /\ cache_dim c = cache_dim (moe_get y).
Proof.
  unfold MoE_Layer_Forward.
  destruct (residual_cache (moe_ln1 y) (moe_ln2 y) (fun h => MoeOrMlp_Forward (moe_mlp y) h pre) (moe_attn y) h mask offset) as (c & Hc & Hd).
  destruct (residual _ _ _ _ _ _ _) as [a r]. cbn [fst] in *. subst a. by exists c.
Qed.
Lemma forward_recached {Layer} (forward : Layer -> T -> option T -> Z -> bool -> Layer * result string T) get set m0 m x offset :
  (forall c y, get (set c y) = c) -> (forall c c' y, set c (set c' y) = set c y) ->
  (forall y h mask offset pre, exists c, (forward y h mask offset pre).1 = set c y /\ cache_dim c = cache_dim (get y)) ->
  with_recached get set m0 m -> with_recached get set m0 (Forward forward m x offset).1.
Proof.
  intros Hgs Hss Hf Hm. unfold Forward. destruct (_ ≫= _) as [[h [l mask]]|e]; [|done].
  pose proof (run_layers_recached get set Hgs Hss forward _ _ h mask offset (1 <? l) Hf (proj2 Hm)) as Hls.
  destruct (run_layers forward _ _ _ _ _) as [ls r]. by apply with_recached_layers.
Qed.
Lemma clear_recached {Layer} (clear : Layer -> Layer) get set m0 m :
  (forall c y, get (set c y) = c) -> (forall c c' y, set c (set c' y) = set c y) ->
  (forall y, clear y = set (cache_reset (get y)) y) ->
  with_recached get set m0 m -> with_recached get set m0 (with_layers (map clear (layers m)) m).
Proof.
  intros Hgs Hss Hc Hm. apply with_recached_layers; [done|]. destruct Hm as [_ Hls].
  induction Hls as [|y0 y ls0 ls Hy _ IH]; constructor; [|done]. rewrite Hc. apply recached_set; [done..|]. apply cache_dim_reset.
Qed.
Lemma any_step m0 m :
  any_recached m0 m -> (forall x offset, any_recached m0 (Any_Forward m x offset).1) /\ any_recached m0 (Any_Clear m) /\
    forall kvs, any_recached m0 (Any_restore_kv_cache m kvs).1.
Proof.
  destruct m0 as [m0|m0], m as [m|m]; cbn [any_recached]; try done; intros Hm; split_and!.
  - intros x offset. pose proof (forward_recached Layer_Forward dense_get dense_set m0 m x offset (fun _ _ => eq_refl) (fun _ _ _ => eq_refl) dense_cache Hm) as Hs.
    cbn [Any_Forward]. unfold Model_Forward. by destruct (Forward Layer_Forward m x offset).
  - by apply (clear_recached Layer_Clear dense_get dense_set).
  - intros kvs. unfold Any_restore_kv_cache. destruct (negb _); [done|].
    pose proof (append_all_recached dense_get dense_set (fun _ _ => eq_refl) (fun _ _ _ => eq_refl) _ _ kvs (proj2 Hm)) as Hs.
    fold dense_get dense_set. unfold dense_get, dense_set in *. destruct (append_all _ _ _ _) as [ls r]. by apply with_recached_layers.
  - intros x offset. pose proof (forward_recached MoE_Layer_Forward moe_get moe_set m0 m x offset (fun _ _ => eq_refl) (fun _ _ _ => eq_refl) moe_cache Hm) as Hs.
    cbn [Any_Forward]. unfold MoE_Model_Forward. by destruct (Forward MoE_Layer_Forward m x offset).
  - by apply (clear_recached MoE_Layer_Clear moe_get moe_set).
  - intros kvs. unfold Any_restore_kv_cache. destruct (negb _); [done|].
    pose proof (append_all_recached moe_get moe_set (fun _ _ => eq_refl) (fun _ _ _ => eq_refl) _ _ kvs (proj2 Hm)) as Hs.
    unfold moe_get, moe_set in *. destruct (append_all _ _ _ _) as [ls r]. by apply with_recached_layers.
Qed.
Lemma any_recached_refl m : any_recached m m.
Proof.
  destruct m as [m|m]; (split; [by destruct m|]); apply recached_list_refl; by intros [[]].
Qed.
Lemma grown_recached g0 g : grown g0 g -> any_recached (model g0) (model g) /\ g = with_model (model g) g0.
Proof.
  induction 1 as [|g x offset _ [IH1 IH2]|g _ [IH1 IH2]|g kvs _ [IH1 IH2]].
  - split; [apply any_recached_refl|by destruct g0].
  - destruct (any_step _ _ IH1) as (Hf & _ & _). specialize (Hf x offset). cbn [run_pass gguf_session_model]. unfold GGUF_Model_Inference.
    destruct (Any_Forward (model g) x offset) as [m r]. split; [done|]. by rewrite IH2.
  - destruct (any_step _ _ IH1) as (_ & Hc & _). split; [done|]. cbn. unfold GGUF_Model_Clear_KV_Cache. by rewrite IH2.
  - destruct (any_step _ _ IH1) as (_ & _ & Hr). specialize (Hr kvs). cbn [restore_caches gguf_session_model].
    destruct (Any_restore_kv_cache (model g) kvs) as [m r]. split; [done|]. by rewrite IH2.
Qed.

(** *** Restoring a model *)
Definition empty_cache (c : Cache) : Prop := cache_k c = None /\ cache_v c = None.
Lemma cache_pairs_length cs kvs : cache_pairs cs = Ok kvs -> length kvs = length cs.
Proof.
  revert kvs. induction cs as [|c cs IH]; intros kvs; cbn [cache_pairs]; [by intros [= <-]|].
  intros (p & _ & (ps & Hps & [= <-])%result_bind_Ok)%result_bind_Ok. cbn. by rewrite (IH _ Hps).
Qed.
Lemma forall_mapped {A B} (P : B -> Prop) (f : A -> B) l : Forall P (map f l) <-> Forall (fun a => P (f a)) l.
Proof. rewrite !List.Forall_forall. setoid_rewrite in_map_iff. naive_solver. Qed.
Lemma any_restores m0 m kvs :
  any_recached m0 m -> Forall empty_cache (layer_caches m0) -> Any_extract_kv_cache m = Ok kvs ->
  Any_restore_kv_cache m0 kvs = (m, Ok tt).
Proof.
  intros Hm He Hx. assert (cache_pairs (layer_caches m) = Ok kvs) as Hp.
  { unfold Any_extract_kv_cache in Hx. by destruct (layer_caches m). }
  assert (length kvs = length (layer_caches m0)) as Hl.
  { rewrite (cache_pairs_length _ _ Hp). destruct m0, m; try done; destruct Hm as [_ Hls%Forall2_length]; cbn; by rewrite !length_map. }
  unfold Any_restore_kv_cache. rewrite (proj2 (Nat.eqb_eq _ _) Hl). cbn [negb].
  destruct m0 as [m0|m0], m as [m|m]; try done; destruct Hm as [Em Hls]; cbn [layer_caches] in *.
  - pose proof (append_all_restores dense_get dense_set (fun _ _ => eq_refl) _ _ kvs Hls (proj1 (forall_mapped _ _ _) He) Hp) as Ha.
    unfold dense_get, dense_set in Ha. rewrite Ha. by rewrite <- Em.
  - pose proof (append_all_restores moe_get moe_set (fun _ _ => eq_refl) _ _ kvs Hls (proj1 (forall_mapped _ _ _) He) Hp) as Ha.
    unfold moe_get, moe_set in Ha. rewrite Ha. by rewrite <- Em.
Qed.
#[export] Instance gguf_session_laws : SessionModel_Laws Loaded T.
Proof.
  refine {| fresh := fun g : Loaded => Forall empty_cache (layer_caches (model g)) |}.
  intros m0 m kvs Hf [Hm Hg]%grown_recached He. cbn [extract_caches restore_caches gguf_session_model] in *.
  rewrite (any_restores _ _ _ Hm Hf He). by rewrite <- Hg.
Defined.

(** *** Loaded models have empty caches *)
Abbreviation reader := (string -> result string QTensor).
Lemma load_blocks_fresh {Layer} (P : Layer -> Prop) make (tensor : reader) c idxs ls :
  (forall ts i y, make ts i = Ok y -> P y) -> load_blocks make tensor c idxs = Ok ls -> Forall P ls.
Proof.
  intros Hm. revert ls. induction idxs as [|i idxs IH]; intros ls; cbn [load_blocks]; [by intros [= <-]|].
  intros (ts & _ & (y & Hy & (l & Hl & [= <-])%result_bind_Ok)%result_bind_Ok)%result_bind_Ok. constructor; [by eapply Hm|by apply IH].
Qed.
Lemma attention_fresh (ts : gmap string QTensor) h kh d eps ro p a ts' :
  attention_from ts h kh d eps ro p = Ok (a, ts') -> kv_cache a = cache_new (Cache:=Cache) 2.
Proof.
  unfold attention_from. intros Ha. inv_ok. repeat match goal with x : _ * _ |- _ => destruct x; inv_ok end.
  case_match; [done|]. by inv_ok.
Qed.
Lemma assemble_fresh {Layer} (P : Layer -> Prop) make (tensor : reader) c dev a s e emb m :
  (forall ts i y, make ts i = Ok y -> P y) -> assemble make tensor c dev a s e emb = Ok m -> Forall P (layers m).
Proof.
  intros Hm. unfold assemble. intros (ls & Hl & ([n h] & _ & [= <-])%result_bind_Ok)%result_bind_Ok. by eapply load_blocks_fresh.
Qed.
Lemma load_parts_fresh (tensor : reader) c a s e dev m :
  load_parts tensor c a s e dev = Ok m -> Forall empty_cache (layer_caches m).
Proof.
  unfold load_parts. intros (ro & _ & (emb & _ & Hm)%result_bind_Ok)%result_bind_Ok. destruct (String.eqb _ _).
  - apply result_bind_Ok in Hm as (m1 & Hm & [= <-]). apply (assemble_fresh (fun y => empty_cache (moe_get y))) in Hm; [by apply forall_mapped|].
    intros ts i y. unfold moe_layer, MoE_From_Extracted. intros ([at_ ts'] & Ha & Hy)%result_bind_Ok. apply attention_fresh in Ha.
    inv_ok. repeat match goal with x : _ * _ |- _ => destruct x; inv_ok end. unfold moe_get. cbn. rewrite Ha. apply cache_new_empty.
  - apply result_bind_Ok in Hm as (m1 & Hm & [= <-]). apply (assemble_fresh (fun y => empty_cache (dense_get y))) in Hm; [by apply forall_mapped|].
    intros ts i y. unfold dense_layer, From_Extracted. intros ([at_ ts'] & Ha & Hy)%result_bind_Ok. apply attention_fresh in Ha.
    inv_ok. repeat match goal with x : _ * _ |- _ => destruct x; inv_ok end. unfold dense_get. cbn. rewrite Ha. apply cache_new_empty.
Qed.
Lemma loaded_fresh content_of xxhash32 files s e path dev (g : Loaded) files' :
  GGUF_Load_Model content_of xxhash32 files s e path dev = Some (Ok g, files') -> Forall empty_cache (layer_caches (model g)).
Proof.
  unfold GGUF_Load_Model. destruct (resolve_load_path files path) as [resolved|]; [|done].
  destruct (Convert_File _ _ _ _) as [[r f]|]; [|done]. cbn [mbind option_bind]. intros [= Hg _].
  apply result_bind_Ok in Hg as ([a actual] & _ & (src & _ & ([c tensor] & _ & Hg)%result_bind_Ok)%result_bind_Ok).
  apply load_content_Ok in Hg as (_ & e' & m & _ & Hm & ->). by eapply load_parts_fresh.
Qed.
(** C18: a loaded model is its weights and its caches. Whatever passes it made since
    it was loaded, failed ones among them, and however often its caches were
    cleared or restored: when its caches can be extracted, restoring them into the
    model as it is loaded again from the same file gives the very same model, for
    both architectures. They can be extracted exactly when every layer, and there
    is one, has keys and values. *)
Theorem loaded_model_restores content_of xxhash32 files files' s e path dev (g0 g : Loaded) :
  GGUF_Load_Model content_of xxhash32 files s e path dev = Some (Ok g0, files') -> grown g0 g ->
  (forall kvs, Any_extract_kv_cache (model g) = Ok kvs -> restore_caches g0 kvs = (g, Ok tt)) /\
  (is_ok (Any_extract_kv_cache (model g)) = true <->
   layer_caches (model g) <> [] /\ Forall (fun c => is_Some (cache_k c) /\ is_Some (cache_v c)) (layer_caches (model g))).
Proof.
  intros Hl%loaded_fresh Hg. split; [intros kvs; exact (restores g0 g kvs Hl Hg)|].
  unfold Any_extract_kv_cache. assert (forall cs, is_ok (cache_pairs cs) = true <-> Forall (fun c => is_Some (cache_k c) /\ is_Some (cache_v c)) cs) as Hc.
  { induction cs as [|c cs IH]; cbn [cache_pairs]; [by split|]. rewrite Forall_cons, <- IH. unfold cache_pair.
    destruct (cache_k c) as [k|], (cache_v c) as [v|]; cbn [ok_or mbind result_bind]; try (split; [done|by intros [[[? ?] [? ?]] _]]).
    assert (is_Some (Some k) /\ is_Some (Some v)) as Hs by (split; by eexists). destruct (cache_pairs cs); cbn; naive_solver. }
  destruct (layer_caches (model g)) as [|c cs]; [split; [done|by intros [? _]]|]. rewrite Hc. naive_solver.
Qed.
End models.

(** ** Parts on several nodes *)
Section distributed.
Context {T Dev M : Type} `{!Candle T Dev}.
Context (forward : M -> T -> Z -> M * result string T).
Context (send : bytes -> T -> Z -> result string bytes) (recv : bytes -> result recv_error (T * Z) * option bytes).
(** The nodes after the first: the part each serves and the stream it reads. The
    one before sends its hidden state, the node receives and goes on with the
    offset it received; whatever fails ends the pass. *)
Definition node : Type := (M * bytes)%type.
Inductive pass_error : Type := Forward_Error (e : string) | Send_Error (e : string) | Recv_Error (e : recv_error).
Fixpoint relay (nodes : list node) (h : T) (offset : Z) : list node * result pass_error T :=
  match nodes with
  | [] => ([], Ok h)
  | (m, stream) :: nodes =>
      match send stream h offset with
      | Err e => ((m, stream) :: nodes, Err (Send_Error e))
      | Ok stream =>
          let (r, rest) := recv stream in
          let stream := default [] rest in
          match r with
          | Err e => ((m, stream) :: nodes, Err (Recv_Error e))
          | Ok (h, offset) =>
              let (m, r) := forward m h offset in
              match r with
              | Err e => ((m, stream) :: nodes, Err (Forward_Error e))
              | Ok h => let (nodes, r) := relay nodes h offset in ((m, stream) :: nodes, r)
              end
          end
      end
  end.
Definition distributed (s : M * list node) (h : T) (offset : Z) : M * list node * result pass_error T :=
  let (m, r) := forward s.1 h offset in
  match r with
  | Err e => (m, s.2, Err (Forward_Error e))
  | Ok h => let (nodes, r) := relay s.2 h offset in (m, nodes, r)
  end.
Fixpoint serve_distributed (s : M * list node) (inputs : list (T * Z)) : list (result pass_error T) :=
  match inputs with
  | [] => []
  | (x, offset) :: inputs => let (s, r) := distributed s x offset in r :: serve_distributed s inputs
  end.
(** What the parts hand on in one pass, and in successive ones, in one process. *)
Fixpoint handed_on (ms : list M) (h : T) (offset : Z) : list (T * Z) :=
  match ms with
  | [] => []
  | m :: ms =>
      match (forward m h offset).2, ms with
      | Ok h, _ :: _ => (h, offset) :: handed_on ms h offset
      | _, _ => []
      end
  end.
Fixpoint all_handed_on (ms : list M) (inputs : list (T * Z)) : list (T * Z) :=
  match inputs with
  | [] => []
  | (x, offset) :: inputs => handed_on ms x offset ++ all_handed_on (pipeline forward ms x offset).1 inputs
  end.

(** A message that crosses an empty stream unchanged. *)
Definition crosses (x : T * Z) : Prop := exists b, send [] x.1 x.2 = Ok b /\ recv b = (Ok x, Some []).
Definition idle : M -> node := fun m => (m, []).
Definition as_pass (r : result string T) : result pass_error T := map_err Forward_Error r.
Lemma relay_pipeline m ms h h1 offset m1 :
  forward m h offset = (m1, Ok h1) -> Forall crosses (handed_on (m :: ms) h offset) ->
  relay (map idle ms) h1 offset = let (ms, r) := pipeline forward ms h1 offset in (map idle ms, as_pass r).
Proof.
  revert m h h1 m1. induction ms as [|m2 ms IH]; intros m h h1 m1 Hf Hc; [done|].
  change (handed_on (m :: m2 :: ms) h offset) with
    (match (forward m h offset).2 with Ok h => (h, offset) :: handed_on (m2 :: ms) h offset | Err _ => [] end) in Hc.
  rewrite Hf in Hc. cbn [snd] in Hc. apply Forall_cons in Hc as [(b & Hs & Hr) Hc]. cbn [map relay pipeline idle fst snd] in *.
  rewrite Hs, Hr. cbn [default]. destruct (forward m2 h1 offset) as [m2' [h2|e]] eqn:E; [|done].
  rewrite (IH m2 h1 h2 m2' E Hc). by destruct (pipeline forward ms h2 offset).
Qed.
Lemma distributed_pipeline m ms h offset :
  Forall crosses (handed_on (m :: ms) h offset) ->
  exists m' ms' r, pipeline forward (m :: ms) h offset = (m' :: ms', r) /\
    distributed (m, map idle ms) h offset = (m', map idle ms', as_pass r).
Proof.
  intros Hc. unfold distributed. cbn [fst snd pipeline]. destruct (forward m h offset) as [m1 [h1|e]] eqn:E; [|by eexists _, _, _].
  rewrite (relay_pipeline m ms h h1 offset m1 E Hc). destruct (pipeline forward ms h1 offset) as [ms' r]. by eexists _, _, _.
Qed.
Lemma serve_distributed_pipeline m ms inputs :
  Forall crosses (all_handed_on (m :: ms) inputs) ->
  serve_distributed (m, map idle ms) inputs = map as_pass (serve (pipeline forward) (m :: ms) inputs).
Proof.
  revert m ms. induction inputs as [|[x offset] inputs IH]; intros m ms Hc; [done|].
  cbn [all_handed_on serve_distributed serve] in *. apply Forall_app in Hc as [Hc1 Hc2].
  destruct (distributed_pipeline m ms x offset Hc1) as (m' & ms' & r & Hp & ->). rewrite Hp in *. cbn [fst map] in *. by rewrite IH.
Qed.
End distributed.

Section deployment.
Context {T Dev QTensor QMatMul RmsNorm Embedding Cache : Type}.
Context `{!Nn T Dev QTensor QMatMul RmsNorm Embedding Cache} `{!Gguf}.
Context `{!Gguf_Laws} `{!Nn_Laws T Dev QTensor QMatMul RmsNorm Embedding Cache} `{!Candle_Laws T Dev}.
Abbreviation Loaded := (GGUF_Model (T:=T) (Dev:=Dev) (QTensor:=QTensor) (QMatMul:=QMatMul) (RmsNorm:=RmsNorm) (Embedding:=Embedding) (Cache:=Cache)).
Abbreviation reader := (string -> result string QTensor).
Context (content_of : bytes -> result string (Content * reader)) (xxhash32 : bytes -> Z) (files : files_t).
Context (new_cuda : Z -> result string Dev) (chk : bool) (device_str : bytes).
(** A hidden state of 32-bit elements that is on the device already. *)
Definition deliverable (dev : Dev) (x : T * Z) : Prop := sendable x /\ to_device x.1 dev = Ok x.1.
Definition fits_network (x : T * Z) : Prop := frame_size x.1 <= MAX_TENSOR_SIZE /\ x.2 <> TENSOR_EOF_OFFSET.
Definition network_recv (s : bytes) : result recv_error (T * Z) * option bytes := recv_tensor new_cuda chk s device_str.
Definition local_recv (s : bytes) : result recv_error (T * Z) * option bytes := local_recv_tensor new_cuda chk s device_str.
Lemma deliverable_crosses dev x :
  Parse_Device_Str cpu new_cuda device_str = Ok dev -> deliverable dev x ->
  crosses local_send_tensor local_recv x /\ (fits_network x -> crosses send_tensor network_recv x).
Proof.
  intros Hdev [Hx Hd]. destruct (send_frame x [] Hx) as [Hs Hls]. destruct (recv_frame new_cuda chk device_str dev x [] Hdev Hx) as [Hr Hlr].
  assert (on_device dev x = Ok x) as Ho by (unfold on_device; rewrite Hd; by destruct x). rewrite app_nil_r in Hr, Hlr. split.
  - exists (frame_of x.1 x.2). split; [exact Hls|]. unfold local_recv. by rewrite Hlr, Ho.
  - intros [Hz He]. exists (frame_of x.1 x.2). split; [exact Hs|]. unfold network_recv. rewrite (Hr Hz), (proj2 (Z.eqb_neq _ _) He). by rewrite Ho.
Qed.
Notation served send recv := (serve_distributed GGUF_Model_Inference send recv).

(** C1: distributed inference. Let a whole model load, and let the files it is split
    into, for ranges that follow each other from the embedding to the output head,
    be loaded by different nodes on the same kind of device. When every node sends
    the hidden state it computes to the next one, which receives it and goes on
    with the offset that came with it, every sequence of passes is answered exactly
    as by the whole model: within a process, and over the network as well unless a
    frame exceeds 512 MB or the offset is the end mark. *)
Theorem distributed_inference keep (tensor : reader) c dev path path_of fs e (g : Loaded) :
  is_split (GGUF_Analyze_From_Content c) = false -> 0 <= block_count (metadata c) < 2 ^ 32 - 1 ->
  block_count (metadata c) + 1 <= e ->
  opens content_of xxhash32 files path c tensor -> deployed keep tensor c 0 fs ->
  (forall f, f ∈ fs -> opens content_of xxhash32 files (path_of f.1.1) f.2.2 f.2.1) ->
  GGUF_Load_Model content_of xxhash32 files 0 e path dev = Some (Ok g, files) ->
  Parse_Device_Str cpu new_cuda device_str = Ok dev ->
  exists (g1 : Loaded) gs, Forall2 (loaded content_of xxhash32 files c dev path_of) fs (g1 :: gs) /\
    forall inputs, let handed := all_handed_on GGUF_Model_Inference (g1 :: gs) inputs in
      Forall (deliverable dev) handed ->
      served local_send_tensor local_recv (g1, map idle gs) inputs = map as_pass (serve GGUF_Model_Inference g inputs) /\
      (Forall fits_network handed ->
       served send_tensor network_recv (g1, map idle gs) inputs = map as_pass (serve GGUF_Model_Inference g inputs)).
Proof.
  intros Hns Hn He Ho Hdep Hops Hl Hdev.
  destruct (deployed_answers content_of xxhash32 files keep tensor c dev path path_of fs e g Hns Hn He Ho Hdep Hops Hl) as (gs & HF & Hserve).
  destruct gs as [|g1 gs]; [inversion HF; subst; by inversion Hdep|]. exists g1, gs. split; [done|]. intros inputs handed Hh.
  split; [|intros Hf]; rewrite <- Hserve; apply serve_distributed_pipeline.
  - eapply Forall_impl; [exact Hh|]. intros x Hx. by apply (deliverable_crosses dev).
  - eapply Forall_impl; [apply Forall_and; split; [exact Hh|exact Hf]|]. intros x [Hx Hfx]. by apply (deliverable_crosses dev).
Qed.
End deployment.

(** ** Witnesses *)
Import KvCache.Plain GgufLoad.Example_Files.
#[export] Instance plain_cache_laws : Cache_Laws Plain.tensor unit Plain.tensor Z Z Z (option (Plain.tensor * Plain.tensor)).
Proof.
  refine {| cache_dim := fun _ => 2 |}; cbn; try done.
  - by intros [[k v]|] [[k' v']|] _; cbn; intros; simplify_eq.
  - by intros [[k0 v0]|] k v.
Defined.
Lemma loaded_model_restores_witness :
  exists g0 g kvs, load 0 100 "whole" tt = Some (Ok g0, disk) /\ grown g0 g /\
    Any_extract_kv_cache (model g) = Ok kvs /\ restore_caches g0 kvs = (g, Ok tt) /\ length kvs = 2%nat.
Proof.
  assert (exists g0, load 0 100 "whole" tt = Some (Ok g0, disk) /\
    exists kvs, Any_extract_kv_cache (model (GGUF_Model_Inference g0 (mk_tensor [1; 2]%nat KvCache.U32 [4; 9]) 0).1) = Ok kvs /\ length kvs = 2%nat)
    as (g0 & Hg & kvs & Hk & Hlen).
  { eexists. split; [vm_compute; reflexivity|]. eexists. split; [vm_compute; reflexivity|reflexivity]. }
  pose proof (grown_pass g0 g0 (mk_tensor [1; 2]%nat KvCache.U32 [4; 9]) 0 (grown_here g0)) as Hgr.
  exists g0, (run_pass g0 (mk_tensor [1; 2]%nat KvCache.U32 [4; 9]) 0).1, kvs. split; [exact Hg|]. split; [exact Hgr|]. split; [exact Hk|]. split; [|exact Hlen].
  exact (proj1 (loaded_model_restores content_of (fun _ => 0) disk disk 0 100 "whole" tt g0 _ Hg Hgr) kvs Hk).
Defined.
(** The two parts of that model, a prompt of two tokens and one more token. *)
Definition passes : list (Plain.tensor * Z) := Plain_Nn.inputs.
Lemma example_handed :
  exists a b, load 0 1 "first" tt = Some (Ok a, disk) /\ load 2 3 "second" tt = Some (Ok b, disk) /\
    Forall (fun x => deliverable tt x /\ fits_network x) (all_handed_on GGUF_Model_Inference [a; b] passes) /\
    length (all_handed_on GGUF_Model_Inference [a; b] passes) = 2%nat.
Proof.
  eexists _, _. split; [vm_compute; reflexivity|]. split; [vm_compute; reflexivity|].
  match goal with |- Forall _ ?l /\ _ => let l' := eval vm_compute in l in change l with l' end.
  split; [|reflexivity]. repeat constructor; try (vm_compute; reflexivity); vm_compute; intros; discriminate.
Qed.
Lemma distributed_inference_witness :
  exists g g1 g2, load 0 100 "whole" tt = Some (Ok g, disk) /\
    load 0 1 "first" tt = Some (Ok g1, disk) /\ load 2 3 "second" tt = Some (Ok g2, disk) /\
    serve_distributed GGUF_Model_Inference send_tensor (network_recv (fun _ => Err "no device"%string) true (as_bytes "cpu"))
      (g1, [(g2, [])]) passes = map as_pass (serve GGUF_Model_Inference g passes) /\
    forallb (@is_ok _ _) (serve GGUF_Model_Inference g passes) = true.
Proof.
  destruct example_files as (Hn & Hns & Ho & Hd & Hps).
  assert (exists g, load 0 100 "whole" tt = Some (Ok g, disk) /\ forallb (@is_ok _ _) (serve GGUF_Model_Inference g passes) = true) as (g & Hg & Hok).
  { eexists. split; [vm_compute; reflexivity|]. vm_compute. reflexivity. }
  assert (Parse_Device_Str (cpu (T:=Plain.tensor)) (fun _ => Err "no device"%string) (as_bytes "cpu") = Ok tt) as Hdev by (vm_compute; reflexivity).
  destruct (distributed_inference content_of (fun _ => 0) disk (fun _ => Err "no device"%string) true (as_bytes "cpu")
    (fun _ => false) Example_Files.tensor whole tt "whole" path_of parts 100 g
    Hns ltac:(rewrite Hn; lia) ltac:(rewrite Hn; lia) Ho Hd Hps Hg Hdev) as (g1 & gs & HF & H).
  destruct example_handed as (a & b & Ha & Hb & Hh & _). unfold parts in HF.
  apply Forall2_cons_inv_l in HF as (? & ? & [Ha' _] & HF & [= <- <-]). apply Forall2_cons_inv_l in HF as (g2 & ? & [Hb' _] & HF & ->).
  apply Forall2_nil_inv_l in HF as ->. change (load 0 1 "first" tt = Some (Ok g1, disk)) in Ha'. change (load 2 3 "second" tt = Some (Ok g2, disk)) in Hb'.
  assert (a = g1) as -> by congruence. assert (b = g2) as -> by congruence. apply Forall_and in Hh as [Hh1 Hh2].
  exists g, g1, g2. split; [exact Hg|]. split; [exact Ha'|]. split; [exact Hb'|]. split; [|exact Hok].
  exact (proj2 (H passes Hh1) Hh2).
Defined.
