(* ===== verification/Config.v ===== *)
(** * Configuration, identity and start-up ([Src/Config], [main.rs])

    The configuration file, the key pair and the start of a node, over a file
    system of named files and directories. The TOML parser, the editor that keeps
    a document's layout and libp2p's key codec are outside the repository: they
    are classes, whose laws say that the editor's documents read like the parser's
    and that a key reads back. A directory goes by one name (a trailing slash
    aside); [denied] paths cannot be read or written. Documents with arrays,
    floats or dates are left out, as no setting is one. *)
From S2P Require Import Prelude RustStd Wire Bitmap Peers Storage.

(** ** Files *)
Record Fs : Type := mk_fs { dirs : gset string; contents : gmap string bytes }.
Definition slash : byte := "/"%byte.
Fixpoint strip_slashes (l : bytes) : bytes :=
  match l with
  | b :: l' => if decide (b = slash) then strip_slashes l' else l
  | [] => []
  end.
Definition dir_name (p : string) : string := of_bytes (rev (strip_slashes (rev (as_bytes p)))).
Definition join (base rel : string) : string :=
  if Str.starts_with [slash] (as_bytes rel) || String.eqb base "" then rel
  else if Str.ends_with [slash] (as_bytes base) then (base +:+ rel)%string
  else (base +:+ "/" +:+ rel)%string.
Definition parent (p : string) : option string :=
  match Str.rsplitn2 slash (as_bytes p) with [_; d] => Some (dir_name (of_bytes d)) | _ => None end.
Definition exists_path (p : string) (fs : Fs) : bool :=
  bool_decide (is_Some (contents fs !! p)) || bool_decide (dir_name p ∈ dirs fs).

Inductive start_error : Type :=
  | Io_Error (path : string)
  | Not_Utf8 (path : string)
  | Bad_Toml (msg : string)
  | Wrong_Type (setting : string)
  | Bad_Key (msg : string)
  | Network_Error (msg : string).

Section files.
Variable denied : string -> bool.
Definition create_dir_all (p : string) (fs : Fs) : result start_error unit * Fs :=
  if String.eqb p "" then (Ok tt, fs)
  else if denied p || bool_decide (is_Some (contents fs !! dir_name p)) then (Err (Io_Error p), fs)
  else (Ok tt, mk_fs ({[dir_name p]} ∪ dirs fs) (contents fs)).
Definition read (p : string) (fs : Fs) : result start_error bytes :=
  if denied p then Err (Io_Error p) else ok_or (Io_Error p) (contents fs !! p).
Definition read_to_string (p : string) (fs : Fs) : result start_error bytes :=
  content ← read p fs; if Utf8.valid content then Ok content else Err (Not_Utf8 p).
Definition writable (p : string) (fs : Fs) : bool :=
  negb (denied p) && negb (bool_decide (dir_name p ∈ dirs fs)) &&
  match parent p with Some d => bool_decide (d ∈ dirs fs) | None => true end.
Definition write (p : string) (data : bytes) (fs : Fs) : result start_error unit * Fs :=
  if writable p fs then (Ok tt, mk_fs (dirs fs) (<[p := data]> (contents fs))) else (Err (Io_Error p), fs).
End files.

(** ** TOML *)
Inductive toml : Type :=
  | TString (s : string) | TInteger (z : Z) | TBoolean (b : bool) | TTable (fields : list (string * toml)).
Abbreviation table := (list (string * toml)).
Definition get (k : string) (t : table) : option toml :=
  snd <$> List.find (fun '(k', _) => String.eqb k' k) t.
Fixpoint set (k : string) (v : toml) (t : table) : table :=
  match t with
  | [] => [(k, v)]
  | (k', v') :: t => if String.eqb k' k then (k', v) :: t else (k', v') :: set k v t
  end.
(** What [doc[section][key] = value] does to a document's tables: a missing
    section is made, one that is no table is a panic. *)
Definition set_in (section key value : string) (t : table) : option table :=
  match get section t with
  | None => Some (set section (TTable [(key, TString value)]) t)
  | Some (TTable fields) => Some (set section (TTable (set key (TString value) fields)) t)
  | Some _ => None
  end.
Class Toml := {
  from_toml : bytes -> result string table;
  Document : Type;
  parse_document : bytes -> result string Document;
  tables : Document -> table;
  index_set : string -> string -> string -> Document -> option Document;
  print_document : Document -> bytes;
}.
(** ** The configuration file *)
(** A line of the text, and one with a double quote for each [@]. *)
Definition unquote (s : string) : bytes :=
  map (fun b => if decide (b = "@"%byte) then x22 else b) (as_bytes s) ++ [x0a].
Definition DEFAULT_CONFIG : bytes := concat (map unquote
  ["# Pleiades 配置文件"; "";
   "[Log]"; "# 日志级别: trace, debug, info, warn, error"; "level = @info@";
   "# 日志文件路径 (留空则输出到控制台)"; "log_file_path = @Log/@"; "";
   "[Network]"; "LAN = true"; "WAN = false"; "Transport_Protocol = @TCP@ # TCP/QUIC"; "# 节点管理相关配置";
   "cleanup_interval = 300"; "timeout_interval = 300"; "heartbeat_interval = 60"; "heartbeat_timeout = 10";
   "request_response_timeout = 300"; "";
   "[Storage]"; "workspace_dir = @Pleiades_Workspace@"; "quota_gb = 0"; "kvcache_dir = @.kvcache@"; "";
   "[Identity]"; "peer_name = @new_peer@"]%string).
(** The tables of that text. *)
Definition default_tables : table :=
  [("Log", TTable [("level", TString "info"); ("log_file_path", TString "Log/")]);
   ("Network", TTable [("LAN", TBoolean true); ("WAN", TBoolean false); ("Transport_Protocol", TString "TCP");
      ("cleanup_interval", TInteger 300); ("timeout_interval", TInteger 300); ("heartbeat_interval", TInteger 60);
      ("heartbeat_timeout", TInteger 10); ("request_response_timeout", TInteger 300)]);
   ("Storage", TTable [("workspace_dir", TString "Pleiades_Workspace"); ("quota_gb", TInteger 0);
      ("kvcache_dir", TString ".kvcache")]);
   ("Identity", TTable [("peer_name", TString "new_peer")])]%string.
Class Toml_Laws `{!Toml} := {
  document_reads c d : parse_document c = Ok d -> from_toml c = Ok (tables d);
  reads_document c t : from_toml c = Ok t -> exists d, parse_document c = Ok d;
  index_set_tables s k v d : tables <$> index_set s k v d = set_in s k v (tables d);
  print_reads d : Utf8.valid (print_document d) = true /\ from_toml (print_document d) = Ok (tables d);
  default_reads : from_toml DEFAULT_CONFIG = Ok default_tables;
}.

Definition CONFIG_DIR : string := ".config".
Definition CONFIG_FILE : string := "config.toml".
Record Log_Config : Type := mk_log { level : option string; log_file_path : option string }.
Record Network_Config : Type := mk_network {
  LAN : option bool; WAN : option bool; Transport_Protocol : option string;
  cleanup_interval : option Z; timeout_interval : option Z; heartbeat_interval : option Z;
  heartbeat_timeout : option Z; request_response_timeout : option Z }.
Record Storage_Config : Type := mk_storage { cfg_workspace_dir : option string; cfg_kvcache_dir : option string }.
Record Identity_Config : Type := mk_identity { cfg_peer_name : option string }.
Record Pleiades_Config : Type := mk_config {
  Log : option Log_Config; Network : option Network_Config;
  Storage : option Storage_Config; Identity : option Identity_Config }.

(** The derived [Deserialize]: a missing setting is [None], unknown ones are
    ignored, one of another type is an error. *)
Definition setting {A} (as_ : toml -> option A) (k : string) (t : table) : result start_error (option A) :=
  match get k t with
  | None => Ok None
  | Some v => match as_ v with Some a => Ok (Some a) | None => Err (Wrong_Type k) end
  end.
Definition as_string (v : toml) : option string := match v with TString s => Some s | _ => None end.
Definition as_bool (v : toml) : option bool := match v with TBoolean b => Some b | _ => None end.
Definition as_u64 (v : toml) : option Z :=
  match v with TInteger z => if in_rangeb 64 z then Some z else None | _ => None end.
Definition in_section {A} (k : string) (f : table -> result start_error A) (t : table) : result start_error (option A) :=
  match get k t with
  | None => Ok None
  | Some (TTable fields) => a ← f fields; Ok (Some a)
  | Some _ => Err (Wrong_Type k)
  end.
Definition log_of (t : table) : result start_error Log_Config :=
  a ← setting as_string "level" t; b ← setting as_string "log_file_path" t; Ok (mk_log a b).
Definition network_of (t : table) : result start_error Network_Config :=
  a ← setting as_bool "LAN" t; b ← setting as_bool "WAN" t; c ← setting as_string "Transport_Protocol" t;
  d ← setting as_u64 "cleanup_interval" t; e ← setting as_u64 "timeout_interval" t;
  f ← setting as_u64 "heartbeat_interval" t; g ← setting as_u64 "heartbeat_timeout" t;
  h ← setting as_u64 "request_response_timeout" t;
  Ok (mk_network a b c d e f g h).
Definition storage_of (t : table) : result start_error Storage_Config :=
  a ← setting as_string "workspace_dir" t; b ← setting as_string "kvcache_dir" t; Ok (mk_storage a b).
Definition identity_of (t : table) : result start_error Identity_Config :=
  a ← setting as_string "peer_name" t; Ok (mk_identity a).
Definition config_of (t : table) : result start_error Pleiades_Config :=
  l ← in_section "Log" log_of t; n ← in_section "Network" network_of t;
  s ← in_section "Storage" storage_of t; i ← in_section "Identity" identity_of t;
  Ok (mk_config l n s i).

Definition Get_Peer_Name (c : Pleiades_Config) : string :=
  default "new_peer"%string (i ← Identity c; cfg_peer_name i).
Definition workspace_dir (c : Pleiades_Config) : string :=
  default "Pleiades_Workspace"%string (s ← Storage c; cfg_workspace_dir s).
Definition log_dir (c : Pleiades_Config) (workspace : string) : string :=
  default (join workspace "Log") (l ← Log c; log_file_path l).
Definition log_level (c : Pleiades_Config) : string := default "info"%string (l ← Log c; level l).

Section config.
Context (denied : string -> bool) `{!Toml}.
Definition config_path : string := join CONFIG_DIR CONFIG_FILE.
Definition Read_Config (p : string) (fs : Fs) : result start_error Pleiades_Config :=
  content ← read_to_string denied p fs;
  t ← map_err Bad_Toml (from_toml content);
  config_of t.
Definition Ensure_Config (fs : Fs) : result start_error (Pleiades_Config * string) * Fs :=
  let (r, fs) :=
    if exists_path config_path fs then (Ok tt, fs) else
    let (r, fs) := if exists_path CONFIG_DIR fs then (Ok tt, fs) else create_dir_all denied CONFIG_DIR fs in
    match r with Err e => (Err e, fs) | Ok _ => write denied config_path DEFAULT_CONFIG fs end in
  (_ ← r; c ← Read_Config config_path fs; Ok (c, config_path), fs).
(** [None]: the assignment panics. *)
Definition Update_Config (p section key value : string) (fs : Fs) : option (result start_error unit * Fs) :=
  match read_to_string denied p fs with
  | Err e => Some (Err e, fs)
  | Ok content =>
      match parse_document content with
      | Err msg => Some (Err (Bad_Toml msg), fs)
      | Ok d => d ← index_set section key value d; Some (write denied p (print_document d) fs)
      end
  end.
Definition Set_Peer_Name (p name : string) : Fs -> option (result start_error unit * Fs) :=
  Update_Config p "Identity" "peer_name" name.
(** The cell keeps the first answer. *)
Definition kvcache_dir (cell : option string) (fs : Fs) : string :=
  match cell with
  | Some d => d
  | None =>
      match Read_Config config_path fs with
      | Ok c => default ".kvcache"%string (s ← Storage c; cfg_kvcache_dir s)
      | Err _ => ".kvcache"%string
      end
  end.
End config.

(** ** The key pair *)
Definition KEYPAIR_FILE : string := "keypair.bin".
Class Keys (Keypair PeerId : Type) := {
  to_protobuf : Keypair -> result string bytes;
  from_protobuf : bytes -> result string Keypair;
  public_id : Keypair -> PeerId;
}.
Class Keys_Laws (Keypair PeerId : Type) `{!Keys Keypair PeerId} :=
  key_reads k b : to_protobuf k = Ok b -> from_protobuf b = Ok k.
Section identity.
Context {Keypair PeerId : Type} (denied : string -> bool) `{!Keys Keypair PeerId}.
(** [generated]: what the random generator would give. *)
Definition Ensure_Identity (config_dir : string) (generated : Keypair) (fs : Fs) : result start_error Keypair * Fs :=
  let p := join config_dir KEYPAIR_FILE in
  if exists_path p fs then (content ← read denied p fs; map_err Bad_Key (from_protobuf content), fs)
  else
    let (r, fs) := create_dir_all denied config_dir fs in
    match r with
    | Err e => (Err e, fs)
    | Ok _ =>
        match to_protobuf generated with
        | Err msg => (Err (Bad_Key msg), fs)
        | Ok encoded => let (r, fs) := write denied p encoded fs in (_ ← r; Ok generated, fs)
        end
    end.
End identity.

(** ** Start-up *)
Record NetworkConfig : Type := mk_NetworkConfig {
  lan_enabled : bool; wan_enabled : bool; transport_protocol : string; listen_port : Z;
  bootstrap_peers : list string; net_cleanup_interval : Z; net_timeout_interval : Z;
  net_heartbeat_interval : Z; net_heartbeat_timeout : Z; net_request_response_timeout : Z }.
Definition NetworkConfig_default : NetworkConfig := mk_NetworkConfig true false "TCP" 0 [] 300 300 60 10 300.
Definition net_cfg (c : Pleiades_Config) : NetworkConfig :=
  let n := Network c in
  mk_NetworkConfig (default true (n ≫= LAN)) (default false (n ≫= WAN)) (default "TCP"%string (n ≫= Transport_Protocol))
    0 [] (default 300 (n ≫= cleanup_interval)) (default 300 (n ≫= timeout_interval))
    (default 60 (n ≫= heartbeat_interval)) (default 10 (n ≫= heartbeat_timeout))
    (default 300 (n ≫= request_response_timeout)).

Section start.
Context {Keypair PeerId Multiaddr : Type} `{Countable PeerId} (denied : string -> bool) `{!Toml} `{!Keys Keypair PeerId}.
Record Node : Type := mk_node {
  node_config : Pleiades_Config;
  node_net : NetworkConfig;
  node_keys : Keypair;
  node_peers : gmap PeerId (PeerInfo PeerId Multiaddr);
  node_store : Store;
  node_log : string;
  node_cli : bool;
}.
(** [main] up to the network: what the clock, the random generator, the command
    line and the workspace directory give are arguments. *)
Definition main_start (now : Z) (timestamp : string) (generated : Keypair) (cli : bool) (listing : string -> Disk)
    (fs : Fs) : result start_error Node * Fs :=
  let (config, fs) := Ensure_Config denied fs in
  match config with Err e => (Err e, fs) | Ok (config, _) =>
  let (keypair, fs) := Ensure_Identity denied CONFIG_DIR generated fs in
  match keypair with Err e => (Err e, fs) | Ok keypair =>
  let workspace := workspace_dir config in
  let (r, fs) := create_dir_all denied workspace fs in
  match r with Err e => (Err e, fs) | Ok _ =>
  let (r, fs) := create_dir_all denied (kvcache_dir denied None fs) fs in
  match r with Err e => (Err e, fs) | Ok _ =>
  let logs := log_dir config workspace in
  let (r, fs) := create_dir_all denied logs fs in
  match r with Err e => (Err e, fs) | Ok _ =>
  let log_path := join logs ("pleiades.log." +:+ timestamp)%string in
  let (r, fs) := write denied log_path [] fs in
  match r with Err e => (Err e, fs) | Ok _ =>
  let peers := PeerManager_new now (public_id keypair) (as_bytes (Get_Peer_Name config)) in
  let (r, fs) := create_dir_all denied workspace fs in
  match r with Err e => (Err e, fs) | Ok _ =>
  (Ok (mk_node config (net_cfg config) keypair peers (Storage_New (listing workspace)) log_path cli), fs)
  end end end end end end end.
End start.

(** ** Lemmas *)
Definition with_peer_name (nm : string) (c : Pleiades_Config) : Pleiades_Config :=
  mk_config (Log c) (Network c) (Storage c) (Some (mk_identity (Some nm))).

Lemma get_set k v t k' : get k' (set k v t) = if String.eqb k k' then Some v else get k' t.
Proof.
  unfold get. induction t as [|[k1 v1] t IH]; cbn [set List.find].
  - by destruct (String.eqb k k').
  - destruct (String.eqb_spec k1 k) as [->|Hne]; cbn [List.find].
    + by destruct (String.eqb k k').
    + destruct (String.eqb_spec k1 k') as [<-|]; [|done]. by rewrite (proj2 (String.eqb_neq k k1)).
Qed.
Lemma in_section_other {A} (f : table -> result start_error A) k v t k' :
  String.eqb k k' = false -> in_section k' f (set k v t) = in_section k' f t.
Proof. intros H. unfold in_section. by rewrite get_set, H. Qed.
Lemma set_in_config nm t c :
  config_of t = Ok c -> exists t', set_in "Identity" "peer_name" nm t = Some t' /\ config_of t' = Ok (with_peer_name nm c).
Proof.
  unfold config_of. intros H. inv_ok.
  match goal with H : in_section "Identity" _ _ = _ |- _ => rename H into Hi end.
  assert (exists t', set_in "Identity" "peer_name" nm t = Some t' /\ exists fields, t' = set "Identity" (TTable fields) t /\
    get "peer_name" fields = Some (TString nm)) as (t' & Ht' & fields & -> & Hf).
  { unfold in_section, set_in in *. destruct (get "Identity" t) as [[| | |fields]|]; try discriminate Hi;
      (eexists; split; [reflexivity|]; eexists; split; [reflexivity|]).
    - by rewrite get_set.
    - done. }
  exists (set "Identity" (TTable fields) t). split; [done|].
  rewrite (in_section_other log_of), (in_section_other network_of), (in_section_other storage_of) by done.
  repeat match goal with H : in_section ?k _ t = Ok _ |- _ => rewrite H; clear H; cbn [mbind result_bind] end.
  unfold in_section, identity_of, setting. rewrite get_set. cbn -[get]. by rewrite Hf.
Qed.

Lemma dir_name_id p b : as_bytes p <> [] -> last (as_bytes p) = Some b -> b <> slash -> dir_name p = p.
Proof.
  intros _ Hl Hb. unfold dir_name. apply last_Some in Hl as [l Hl]. rewrite Hl. change @rev with @List.rev.
  rewrite List.rev_app_distr. cbn [List.rev app strip_slashes]. rewrite decide_False by done. cbn [List.rev].
  rewrite List.rev_involutive, <- Hl. apply of_as_bytes.
Qed.

Section file_lemmas.
Variable denied : string -> bool.
Definition made (p : string) (fs : Fs) : Prop :=
  p = ""%string \/ (denied p = false /\ dir_name p ∈ dirs fs /\ contents fs !! dir_name p = None).
Lemma create_dir_all_spec p fs u fs' :
  create_dir_all denied p fs = (Ok u, fs') -> contents fs' = contents fs /\ dirs fs ⊆ dirs fs' /\ made p fs'.
Proof.
  unfold create_dir_all, made. destruct (String.eqb_spec p "") as [->|]; [intros [= <- <-]; eauto|].
  destruct (denied p) eqn:Hd; [done|]. destruct (contents fs !! dir_name p) eqn:Hc; [done|].
  intros [= <- <-]. cbn. split; [done|]. split; [set_solver|]. right. split; [done|]. split; [set_solver|done].
Qed.
Lemma create_made p fs : made p fs -> create_dir_all denied p fs = (Ok tt, fs).
Proof.
  intros [->|(Hd & Hin & Hc)]; [done|]. unfold create_dir_all. destruct (String.eqb p ""); [done|].
  rewrite Hd, Hc. cbn. f_equal. destruct fs as [d m]. f_equal. cbn in *. set_solver.
Qed.
Lemma made_mono p fs fs' : contents fs' = contents fs -> dirs fs ⊆ dirs fs' -> made p fs -> made p fs'.
Proof. unfold made. intros -> Hs [?|(? & ? & ?)]; [by left|right]. split_and!; [done|set_solver|done]. Qed.
Lemma write_spec p data fs u fs' :
  write denied p data fs = (Ok u, fs') ->
  denied p = false /\ dir_name p ∉ dirs fs /\ fs' = mk_fs (dirs fs) (<[p := data]> (contents fs)).
Proof.
  unfold write, writable. destruct (denied p); [done|]. cbn [negb andb].
  destruct (bool_decide_reflect (dir_name p ∈ dirs fs)); [done|]. cbn [negb andb]. by case_match; intros [= <- <-].
Qed.
Lemma write_writable p data fs :
  writable denied p fs = true -> write denied p data fs = (Ok tt, mk_fs (dirs fs) (<[p := data]> (contents fs))).
Proof. unfold write. by intros ->. Qed.
Lemma made_write p q data fs :
  dir_name q = q -> dir_name q ∉ dirs fs -> made p fs -> made p (mk_fs (dirs fs) (<[q := data]> (contents fs))).
Proof.
  unfold made. intros Hq Hn [?|(? & ? & ?)]; [by left|right]. cbn. split_and!; [done..|].
  rewrite lookup_insert_ne; [done|]. congruence.
Qed.
Lemma read_Some p fs c : read denied p fs = Ok c <-> denied p = false /\ contents fs !! p = Some c.
Proof. unfold read. destruct (denied p); [naive_solver|]. destruct (contents fs !! p); naive_solver. Qed.
Lemma exists_file p fs c : contents fs !! p = Some c -> exists_path p fs = true.
Proof. unfold exists_path. intros ->. done. Qed.
End file_lemmas.

(** The name of a log file is the last part of its path. *)
Definition last_part (p : string) : option bytes := head (Str.rsplitn2 slash (as_bytes p)).
Lemma last_part_join base x :
  slash ∉ as_bytes x -> as_bytes x <> [] -> last_part (join base x) = Some (as_bytes x).
Proof.
  intros Hx Hne. assert (Str.rsplitn2 slash (as_bytes x) = [as_bytes x] ) as Hone by (by apply Str.rsplitn2_none).
  unfold join, last_part. assert (Str.starts_with [slash] (as_bytes x) = false) as ->.
  { destruct (as_bytes x) as [|b l]; [done|]. cbn. case_decide; [|done]. subst. set_solver. }
  cbn [orb]. destruct (String.eqb_spec base ""); [by rewrite Hone|].
  destruct (Str.ends_with [slash] (as_bytes base)) eqn:He.
  - unfold Str.ends_with in He. apply Str.starts_with_spec in He as [k Hk].
    assert (as_bytes base = rev k ++ [slash]) as Hb by (by rewrite <- (List.rev_involutive (as_bytes base)), Hk).
    rewrite as_bytes_app, Hb, <- app_assoc. cbn [app]. by rewrite Str.rsplitn2_app.
  - rewrite !as_bytes_app. change (as_bytes "/") with [slash]. cbn [app]. by rewrite Str.rsplitn2_app.
Qed.
Lemma dir_name_join base x : as_bytes x <> [] -> slash ∉ as_bytes x -> dir_name (join base x) = join base x.
Proof.
  intros Hne Hx. destruct (last (as_bytes x)) as [b|] eqn:Hl; [|by apply last_None in Hl].
  assert (b <> slash) as Hb by (intros ->; apply Hx; apply last_Some in Hl as [l ->]; set_solver).
  apply (dir_name_id _ b); [..|done].
  - unfold join. repeat case_match; rewrite ?as_bytes_app; intros Hn; repeat apply app_eq_nil in Hn as [? Hn]; done.
  - unfold join. repeat case_match; rewrite ?as_bytes_app, ?last_app, Hl; done.
Qed.

Section start_lemmas.
Context {Keypair PeerId Multiaddr : Type} `{HC : Countable PeerId} (denied : string -> bool).
Context {HT : Toml} {HTL : Toml_Laws} {HK : Keys Keypair PeerId} {HKL : Keys_Laws Keypair PeerId}.
Definition key_path : string := join CONFIG_DIR KEYPAIR_FILE.
Definition same_at (p : string) (fs fs' : Fs) : Prop := contents fs' !! p = contents fs !! p.

Lemma Read_Config_Ok p fs c :
  Read_Config denied p fs = Ok c <->
  exists content t, denied p = false /\ contents fs !! p = Some content /\ Utf8.valid content = true /\
    from_toml content = Ok t /\ config_of t = Ok c.
Proof.
  unfold Read_Config, read_to_string. split.
  - intros Hr. inv_ok. match goal with H : read _ _ _ = Ok _ |- _ => apply read_Some in H as [? ?] end.
    case_match; inv_ok. match goal with H : map_err _ ?r = Ok _ |- _ => destruct r eqn:?; cbn in H; inv_ok end.
    eauto 8.
  - intros (content & t & Hd & Hc & Hv & Ht & Hcfg). rewrite (proj2 (read_Some _ _ _ _) (conj Hd Hc)). cbn [mbind result_bind].
    rewrite Hv. cbn [mbind result_bind]. rewrite Ht. exact Hcfg.
Qed.
Lemma Read_Config_same p fs fs' : same_at p fs fs' -> Read_Config denied p fs' = Read_Config denied p fs.
Proof. unfold same_at, Read_Config, read_to_string, read. by intros ->. Qed.
Lemma Ensure_Config_reads fs c : Read_Config denied config_path fs = Ok c -> Ensure_Config denied fs = (Ok (c, config_path), fs).
Proof.
  intros Hr. unfold Ensure_Config. pose proof (proj1 (Read_Config_Ok _ _ _) Hr) as (content & _ & _ & Hc & _).
  rewrite (exists_file _ _ _ Hc). cbn [mbind result_bind]. by rewrite Hr.
Qed.
Lemma Ensure_Config_spec fs c p fs' :
  Ensure_Config denied fs = (Ok (c, p), fs') -> p = config_path /\ Read_Config denied config_path fs' = Ok c.
Proof.
  unfold Ensure_Config. destruct (if exists_path config_path fs then _ else _) as [[u|] fs1]; cbn [mbind result_bind]; [|done].
  destruct (Read_Config denied config_path fs1) as [c'|] eqn:Hr; cbn [mbind result_bind]; [|done]. by intros [= <- <- <-].
Qed.
Lemma Ensure_Identity_reads g fs b k :
  contents fs !! key_path = Some b -> denied key_path = false -> from_protobuf b = Ok k ->
  Ensure_Identity denied CONFIG_DIR g fs = (Ok k, fs).
Proof.
  intros Hc Hd Hb. unfold Ensure_Identity. fold key_path. rewrite (exists_file _ _ _ Hc).
  rewrite (proj2 (read_Some _ _ _ _) (conj Hd Hc)). cbn [mbind result_bind]. by rewrite Hb.
Qed.
Lemma Ensure_Identity_spec g fs k fs' :
  Ensure_Identity denied CONFIG_DIR g fs = (Ok k, fs') ->
  (exists b, contents fs' !! key_path = Some b /\ denied key_path = false /\ from_protobuf b = Ok k) /\
  same_at config_path fs fs'.
Proof.
  unfold Ensure_Identity. fold key_path. destruct (exists_path key_path fs).
  - destruct (read denied key_path fs) as [b|] eqn:Hr; cbn [mbind result_bind]; [|done].
    destruct (from_protobuf b) eqn:Hb; [|done]. intros [= <- <-]. apply read_Some in Hr as [? ?]. unfold same_at. eauto.
  - destruct (create_dir_all denied CONFIG_DIR fs) as [[u|] fs1] eqn:Hm; [|done].
    apply create_dir_all_spec in Hm as (Hc & _ & _).
    destruct (to_protobuf g) as [b|] eqn:Hb; [|done]. destruct (write denied key_path b fs1) as [[v|] fs2] eqn:Hw; [|done].
    intros [= <- <-]. apply write_spec in Hw as (Hd & _ & ->). unfold same_at. cbn [contents]. split.
    + exists b. rewrite lookup_insert_eq. split_and!; [done..|]. by apply key_reads.
    + by rewrite lookup_insert_ne, Hc by done.
Qed.

Definition kv_dir (c : Pleiades_Config) : string := default ".kvcache"%string (s ← Storage c; cfg_kvcache_dir s).
Lemma kvcache_dir_read fs c : Read_Config denied config_path fs = Ok c -> kvcache_dir denied None fs = kv_dir c.
Proof. unfold kvcache_dir. by intros ->. Qed.
Lemma kvcache_dir_cached d fs : kvcache_dir denied (Some d) fs = d.
Proof. done. Qed.

(** What a start leaves behind for the next one. *)
Record ready (c : Pleiades_Config) (k : Keypair) (fs : Fs) : Prop := {
  ready_config : Read_Config denied config_path fs = Ok c;
  ready_key : exists b, contents fs !! key_path = Some b /\ denied key_path = false /\ from_protobuf b = Ok k;
  ready_workspace : made denied (workspace_dir c) fs;
  ready_kv : made denied (kv_dir c) fs;
  ready_log : made denied (log_dir c (workspace_dir c)) fs;
}.
Definition log_name (timestamp : string) : string := ("pleiades.log." +:+ timestamp)%string.
Definition log_file (c : Pleiades_Config) (timestamp : string) : string := join (log_dir c (workspace_dir c)) (log_name timestamp).
Definition node_of (c : Pleiades_Config) (k : Keypair) (now : Z) (timestamp : string) (cli : bool) (listing : string -> Disk)
    : Node (Keypair := Keypair) (PeerId := PeerId) (Multiaddr := Multiaddr) :=
  mk_node c (net_cfg c) k (PeerManager_new now (public_id k) (as_bytes (Get_Peer_Name c)))
    (Storage_New (listing (workspace_dir c))) (log_file c timestamp) cli.

Lemma log_name_part timestamp : slash ∉ as_bytes timestamp -> slash ∉ as_bytes (log_name timestamp).
Proof.
  unfold log_name. rewrite as_bytes_app. intros Hs [Hi|Hi]%elem_of_app; [|done].
  apply list_elem_of_In in Hi. vm_compute in Hi. repeat (destruct Hi as [Hi|Hi]; [discriminate Hi|]). done.
Qed.
Lemma log_file_name c timestamp : slash ∉ as_bytes timestamp -> dir_name (log_file c timestamp) = log_file c timestamp.
Proof.
  intros Hs. unfold log_file. apply dir_name_join; [|by apply log_name_part].
  unfold log_name. by rewrite as_bytes_app.
Qed.
Lemma log_file_apart c timestamp p x :
  slash ∉ as_bytes timestamp -> last_part p = Some x -> head x <> Some "p"%byte -> log_file c timestamp <> p.
Proof.
  intros Hs Hp Hx <-. unfold log_file in Hp. rewrite last_part_join in Hp.
  - injection Hp as <-. apply Hx. unfold log_name. by rewrite as_bytes_app.
  - by apply log_name_part.
  - unfold log_name. by rewrite as_bytes_app.
Qed.
Lemma ready_starts c k fs now timestamp g cli listing :
  ready c k fs -> slash ∉ as_bytes timestamp -> writable denied (log_file c timestamp) fs = true ->
  exists fs', main_start denied now timestamp g cli listing fs = (Ok (node_of c k now timestamp cli listing), fs').
Proof.
  intros [Hc (b & Hb & Hd & Hk) Hw Hkv Hl] Hs Hlog. unfold main_start. rewrite (Ensure_Config_reads _ _ Hc).
  rewrite (Ensure_Identity_reads _ _ _ _ Hb Hd Hk), (create_made _ _ _ Hw), (kvcache_dir_read _ _ Hc).
  rewrite (create_made _ _ _ Hkv), (create_made _ _ _ Hl). fold (log_name timestamp).
  fold (log_file c timestamp). pose proof (write_writable _ _ [] _ Hlog) as Hwr. rewrite Hwr.
  apply write_spec in Hwr as (_ & Hn & _).
  rewrite create_made; [by eexists|]. apply made_write; [by apply log_file_name|done|done].
Qed.

(** After a start everything is there for the next one. *)
Lemma main_start_ready now timestamp g cli listing fs n fs' :
  slash ∉ as_bytes timestamp ->
  main_start denied now timestamp g cli listing fs = (Ok n, fs') ->
  n = node_of (node_config n) (node_keys n) now timestamp cli listing /\ ready (node_config n) (node_keys n) fs'.
Proof.
  intros Hs. unfold main_start.
  destruct (Ensure_Config denied fs) as [[[c p]|] fs1] eqn:H1; [|done]. apply Ensure_Config_spec in H1 as [_ H1].
  destruct (Ensure_Identity denied CONFIG_DIR g fs1) as [[k|] fs2] eqn:H2; [|done].
  apply Ensure_Identity_spec in H2 as [(b & Hb & Hd & Hk) H2].
  rewrite <- (Read_Config_same _ _ _ H2) in H1.
  destruct (create_dir_all denied (workspace_dir c) fs2) as [[u3|] fs3] eqn:H3; [|done].
  apply create_dir_all_spec in H3 as (Hc3 & Hd3 & Hm3).
  assert (Read_Config denied config_path fs3 = Ok c) as Hr3 by (rewrite (Read_Config_same _ fs2); [done|unfold same_at; by rewrite Hc3]).
  rewrite (kvcache_dir_read _ _ Hr3).
  destruct (create_dir_all denied (kv_dir c) fs3) as [[u4|] fs4] eqn:H4; [|done].
  apply create_dir_all_spec in H4 as (Hc4 & Hd4 & Hm4).
  destruct (create_dir_all denied (log_dir c (workspace_dir c)) fs4) as [[u5|] fs5] eqn:H5; [|done].
  apply create_dir_all_spec in H5 as (Hc5 & Hd5 & Hm5).
  fold (log_name timestamp). fold (log_file c timestamp).
  destruct (write denied (log_file c timestamp) [] fs5) as [[u6|] fs6] eqn:H6; [|done].
  apply write_spec in H6 as (_ & Hn6 & ->).
  destruct (create_dir_all denied (workspace_dir c) _) as [[u7|] fs7] eqn:H7; [|done]. intros [= <- <-].
  apply create_dir_all_spec in H7 as (Hc7 & Hd7 & Hm7). cbn [contents dirs] in *. split; [done|]. cbn [node_config node_keys].
  assert (forall q, made denied q fs5 -> made denied q fs7) as Hkeep.
  { intros q Hq. apply (made_mono _ _ (mk_fs (dirs fs5) (<[log_file c timestamp := []]> (contents fs5)))); [exact Hc7|exact Hd7|]. apply made_write; [by apply log_file_name|done|done]. }
  assert (forall q x, last_part q = Some x -> head x <> Some "p"%byte -> same_at q fs2 fs7) as Hsame.
  { intros q x Hq Hx. unfold same_at. rewrite Hc7. cbn [contents]. rewrite lookup_insert_ne; [congruence|].
    by apply (log_file_apart _ _ _ x). }
  split.
  - rewrite (Read_Config_same _ fs2); [done|]. by apply (Hsame _ (as_bytes CONFIG_FILE)).
  - exists b. rewrite <- Hb at 1. split; [|done]. by apply (Hsame key_path (as_bytes KEYPAIR_FILE)).
  - exact Hm7.
  - apply Hkeep. by eapply made_mono.
  - by apply Hkeep.
Qed.

Lemma ready_renamed nm c k fs :
  ready c k fs -> writable denied config_path fs = true ->
  exists fs', Set_Peer_Name denied config_path nm fs = Some (Ok tt, fs') /\ ready (with_peer_name nm c) k fs' /\ dirs fs' = dirs fs.
Proof.
  intros [Hc Hk Hw Hkv Hl] Hwr. pose proof Hc as (content & t & Hd & Hcont & Hv & Ht & Hcfg)%Read_Config_Ok.
  destruct (reads_document _ _ Ht) as [d Hdoc]. pose proof (document_reads _ _ Hdoc) as Htd.
  assert (tables d = t) as Htt by congruence. clear Htd.
  destruct (set_in_config nm t c Hcfg) as (t' & Hset & Hcfg').
  pose proof (index_set_tables "Identity" "peer_name" nm d) as Hidx. rewrite Htt, Hset in Hidx.
  destruct (index_set "Identity" "peer_name" nm d) as [d'|] eqn:Hd'; [|done]. injection Hidx as Htt'.
  destruct (print_reads d') as [Hpv Hpr].
  set (fs' := mk_fs (dirs fs) (<[config_path := print_document d']> (contents fs))). exists fs'. split_and!; [| |done].
  - unfold Set_Peer_Name, Update_Config, read_to_string. rewrite (proj2 (read_Some _ _ _ _) (conj Hd Hcont)).
    cbn [mbind result_bind]. rewrite Hv, Hdoc, Hd'. cbn. by rewrite write_writable.
  - assert (forall q, made denied q fs -> made denied q fs') as Hkeep.
    { intros q. apply made_write; [done|]. by apply (write_writable _ _ []), write_spec in Hwr as (_ & ? & _). }
    split; [|..|exact (Hkeep _ Hw)|exact (Hkeep _ Hkv)|exact (Hkeep _ Hl)].
    + apply Read_Config_Ok. exists (print_document d'), t'. unfold fs'. cbn [contents]. rewrite lookup_insert_eq.
      split_and!; [done..|congruence|done].
    + destruct Hk as (b & Hb & Hrest). exists b. split; [|done]. unfold fs'. cbn [contents]. by rewrite lookup_insert_ne.
Qed.

(** C14: a node that was renamed and starts again, whatever the clock, the random
    generator and the command line give, has the key pair and with it the
    identifier it had, the new name, and otherwise the settings it had: the
    rename neither panics nor touches another setting, and the first start left
    a key and a configuration that the second one reads. *)
Theorem restart_keeps_identity now timestamp g cli listing fs n fs1 nm now' timestamp' g' cli' listing' :
  slash ∉ as_bytes timestamp -> slash ∉ as_bytes timestamp' ->
  main_start (Multiaddr := Multiaddr) denied now timestamp g cli listing fs = (Ok n, fs1) ->
  writable denied config_path fs1 = true -> writable denied (log_file (node_config n) timestamp') fs1 = true ->
  exists fs2 fs3,
    Set_Peer_Name denied config_path nm fs1 = Some (Ok tt, fs2) /\
    main_start denied now' timestamp' g' cli' listing' fs2 =
      (Ok (mk_node (with_peer_name nm (node_config n)) (node_net n) (node_keys n)
             (PeerManager_new (Multiaddr := Multiaddr) now' (public_id (node_keys n)) (as_bytes nm))
             (Storage_New (listing' (workspace_dir (node_config n)))) (log_file (node_config n) timestamp') cli'), fs3).
Proof.
  intros Hs Hs' Hstart Hwc Hwl. destruct (main_start_ready _ _ _ _ _ _ _ _ Hs Hstart) as [Hn Hready].
  destruct (ready_renamed nm _ _ _ Hready Hwc) as (fs2 & Hset & Hready2 & Hdirs).
  destruct (ready_starts _ _ _ now' timestamp' g' cli' listing' Hready2 Hs') as [fs3 H3].
  - unfold writable in *. by rewrite Hdirs.
  - exists fs2, fs3. split; [done|]. rewrite H3. by rewrite Hn.
Qed.
End start_lemmas.

(** ** A concrete TOML and key codec *)
Module Plain_Toml.
Definition scalar : Type := (string + Z + bool)%type.
Definition doc : Type := list (string * list (string * scalar)).
Definition value_of (v : scalar) : toml :=
  match v with inl (inl s) => TString s | inl (inr z) => TInteger z | inr b => TBoolean b end.
Definition fields_of (l : list (string * scalar)) : table := map (fun '(k, v) => (k, value_of v)) l.
Definition tables_of (d : doc) : table := map (fun '(k, l) => (k, TTable (fields_of l))) d.
Definition str (s : string) : scalar := inl (inl s).
Definition int (z : Z) : scalar := inl (inr z).
Definition default_doc : doc :=
  [("Log", [("level", str "info"); ("log_file_path", str "Log/")]);
   ("Network", [("LAN", inr true); ("WAN", inr false); ("Transport_Protocol", str "TCP"); ("cleanup_interval", int 300);
      ("timeout_interval", int 300); ("heartbeat_interval", int 60); ("heartbeat_timeout", int 10);
      ("request_response_timeout", int 300)]);
   ("Storage", [("workspace_dir", str "Pleiades_Workspace"); ("quota_gb", int 0); ("kvcache_dir", str ".kvcache")]);
   ("Identity", [("peer_name", str "new_peer")])]%string.
(** Any other document is written as its code in binary. *)
Fixpoint bits (p : positive) : bytes :=
  match p with xH => [x31] | xO p => x30 :: bits p | xI p => x31 :: bits p end.
Fixpoint of_bits (l : bytes) : option positive :=
  match l with
  | [] => None
  | [_] => Some xH
  | b :: l => p ← of_bits l; Some (if decide (b = x30) then xO p else xI p)
  end.
Lemma of_bits_bits p : of_bits (bits p) = Some p.
Proof.
  induction p as [p IH|p IH|]; [..|done].
  all: cbn [bits of_bits]; rewrite IH; destruct (bits p) eqn:E; [by destruct p|done].
Qed.
Lemma bits_ascii p : Forall Utf8.is_ascii (bits p).
Proof. induction p; cbn; repeat constructor; done. Qed.
Definition print (d : doc) : bytes := bits (encode d).
Definition parse (c : bytes) : result string doc :=
  if decide (c = DEFAULT_CONFIG) then Ok default_doc
  else ok_or "no document"%string (p ← of_bits c; decode p).
Lemma parse_print d : parse (print d) = Ok d.
Proof.
  unfold parse, print. rewrite decide_False.
  - by rewrite of_bits_bits; cbn; rewrite decode_encode.
  - destruct (encode d); cbn [bits]; vm_compute; discriminate.
Qed.
Fixpoint put {A} (k : string) (f : option A -> A) (l : list (string * A)) : list (string * A) :=
  match l with
  | [] => [(k, f None)]
  | (k', a) :: l => if String.eqb k' k then (k', f (Some a)) :: l else (k', a) :: put k f l
  end.
Definition edit (section key value : string) (d : doc) : option doc :=
  Some (put section (fun o => put key (fun _ => str value) (default [] o)) d).
Lemma put_fields k v l : fields_of (put k (fun _ => str v) l) = set k (TString v) (fields_of l).
Proof. induction l as [|[k' a] l IH]; [done|]. cbn. destruct (String.eqb k' k); cbn; [done|]. by f_equal. Qed.
Lemma get_tables k d : get k (tables_of d) = TTable <$> (fields_of <$> (snd <$> List.find (fun '(k', _) => String.eqb k' k) d)).
Proof. unfold get. induction d as [|[k' a] d IH]; [done|]. cbn. by destruct (String.eqb k' k). Qed.
Lemma edit_tables s k v d : tables_of <$> edit s k v d = set_in s k v (tables_of d).
Proof.
  unfold edit, set_in. rewrite get_tables. cbn [fmap option_fmap option_map].
  destruct (List.find _ d) as [[k' l]|] eqn:E; cbn; f_equal.
  - revert E. induction d as [|[k1 l1] d IH]; [done|]. cbn. destruct (String.eqb_spec k1 s) as [->|]; cbn.
    + intros [= <- <-]. by rewrite put_fields.
    + intros E. by f_equal; apply IH.
  - revert E. induction d as [|[k1 l1] d IH]; [done|]. cbn. destruct (String.eqb_spec k1 s) as [->|]; cbn; [done|].
    intros E. by f_equal; apply IH.
Qed.
#[export] Instance toml : Toml := {|
  from_toml c := tables_of <$> parse c; Document := doc; parse_document := parse; tables := tables_of;
  index_set := edit; print_document := print |}.
#[export] Instance laws : Toml_Laws.
Proof.
  split; cbn.
  - by intros c d ->.
  - intros c t. destruct (parse c); [eauto|done].
  - apply edit_tables.
  - intros d. split; [apply Utf8.valid_ascii, bits_ascii|]. by rewrite parse_print.
  - unfold parse. by rewrite decide_True.
Qed.
(** A key is its bytes. *)
#[export] Instance keys : Keys bytes N := {|
  to_protobuf k := Ok k; from_protobuf b := Ok b; public_id k := Z.to_N (from_le_bytes k) |}.
#[export] Instance keys_laws : Keys_Laws bytes N.
Proof. by intros k b [= <-]. Qed.
Definition nobody (_ : string) : bool := false.
Definition empty : Fs := mk_fs ∅ ∅.
Definition first : result start_error (Node (Keypair := bytes) (PeerId := N) (Multiaddr := N)) * Fs :=
  main_start nobody 5 "2026-06-15-10-00-00" [x07] false (fun _ => ∅) empty.
Definition settings : Pleiades_Config :=
  mk_config (Some (mk_log (Some "info") (Some "Log/")))
    (Some (mk_network (Some true) (Some false) (Some "TCP") (Some 300) (Some 300) (Some 60) (Some 10) (Some 300)))
    (Some (mk_storage (Some "Pleiades_Workspace") (Some ".kvcache"))) (Some (mk_identity (Some "new_peer")))%string.
Lemma first_node : first.1 = Ok (node_of settings [x07] 5 "2026-06-15-10-00-00" false (fun _ => ∅)).
Proof. vm_compute. reflexivity. Qed.
End Plain_Toml.

Import Plain_Toml.
(** The first start of a node. *)
Lemma default_settings {HT : Toml} {HTL : Toml_Laws} :
  exists c, (t ← map_err Bad_Toml (from_toml DEFAULT_CONFIG); config_of t) = Ok c /\ net_cfg c = NetworkConfig_default /\
    Get_Peer_Name c = "new_peer"%string /\ workspace_dir c = "Pleiades_Workspace"%string.
Proof. exists Plain_Toml.settings. rewrite default_reads. split_and!; vm_compute; reflexivity. Qed.

Lemma restart_keeps_identity_witness :
  exists n fs1, Plain_Toml.first = (Ok n, fs1) /\ node_net n = NetworkConfig_default /\
  exists fs2 fs3,
    Set_Peer_Name Plain_Toml.nobody config_path "bob" fs1 = Some (Ok tt, fs2) /\
    main_start Plain_Toml.nobody 9 "2026-06-16-09-00-00" [x08] true (fun _ => ∅) fs2 =
      (Ok (mk_node (with_peer_name "bob" (node_config n)) (node_net n) (node_keys n)
             (PeerManager_new (Multiaddr := N) 9 (public_id (node_keys n)) (as_bytes "bob"))
             (Storage_New ∅) (log_file (node_config n) "2026-06-16-09-00-00") true), fs3) /\
    public_id (node_keys n) = 7%N.
Proof.
  destruct Plain_Toml.first as [r fs1] eqn:Hf.
  assert (r = Ok (node_of Plain_Toml.settings [x07] 5 "2026-06-15-10-00-00" false (fun _ => ∅))) as ->
    by (rewrite <- Plain_Toml.first_node, Hf; reflexivity).
  exists (node_of Plain_Toml.settings [x07] 5 "2026-06-15-10-00-00" false (fun _ => ∅)), fs1.
  split; [reflexivity|]. split; [reflexivity|].
  assert (fs1 = Plain_Toml.first.2) as Hfs by (rewrite Hf; reflexivity).
  destruct (restart_keeps_identity (Multiaddr := N) Plain_Toml.nobody 5 "2026-06-15-10-00-00" [x07] false (fun _ => ∅) Plain_Toml.empty
    (node_of Plain_Toml.settings [x07] 5 "2026-06-15-10-00-00" false (fun _ => ∅)) fs1 "bob" 9 "2026-06-16-09-00-00" [x08] true (fun _ => ∅)) as (fs2 & fs3 & H1 & H2).
  - apply (bool_decide_eq_true_1 _). vm_compute. reflexivity.
  - apply (bool_decide_eq_true_1 _). vm_compute. reflexivity.
  - exact Hf.
  - rewrite Hfs. vm_compute. reflexivity.
  - rewrite Hfs. vm_compute. reflexivity.
  - exists fs2, fs3. split; [exact H1|]. split; [exact H2|reflexivity].
Defined.
