(* ===== verification/Checksum.v ===== *)
(** * Checksums of stored files ([Hash_File] and [Checksum] of [storage_manager.rs])

    The hash functions are outside the repository: a class of incremental
    hashers, whose law says that feeding two pieces is feeding their
    concatenation.  A file is what its reads return: pieces of at most the
    buffer's 8192 bytes, the first empty one being the end of the file. *)
From S2P Require Import Prelude RustStd Wire Bitmap Peers Storage.

Inductive ChecksumAlgorithm : Set := Blake3 | Sha256 | XxHash64.
Definition ChecksumAlgorithm_default : ChecksumAlgorithm := XxHash64.
#[global] Instance ChecksumAlgorithm_eq_dec : EqDecision ChecksumAlgorithm.
Proof. solve_decision. Defined.

(** [finish]: the digest, for [XxHash64] the eight bytes of the number, most
    significant first. *)
Class Hashers (H : Type) := {
  new_hasher : ChecksumAlgorithm -> H;
  update : H -> bytes -> H;
  finish : ChecksumAlgorithm -> H -> bytes;
}.
Class Hashers_Laws (H : Type) `{!Hashers H} := {
  update_app h a b : update (update h a) b = update h (a ++ b);
  update_nil h : update h [] = h;
}.

(** The loop over the reads; running out of them is the end of the file too. *)
Fixpoint Hash_File {H} (upd : H -> bytes -> H) (reads : list (result string bytes)) (h : H) : result StorageError H :=
  match reads with
  | [] => Ok h
  | Err e :: _ => Err (Io ("read failed: " +:+ e)%string)
  | Ok chunk :: reads => if decide (chunk = []) then Ok h else Hash_File upd reads (upd h chunk)
  end.
Definition to_hex (l : bytes) : string := of_bytes (concat (map Num.print_hex2 l)).
Definition algo_prefix (a : ChecksumAlgorithm) : string :=
  match a with Blake3 => "blake3:" | Sha256 => "sha256:" | XxHash64 => "xxhash64:" end.

Section checksum.
Context {H : Type} `{!Hashers H}.
Definition hash_reads (algo : ChecksumAlgorithm) (reads : list (result string bytes)) : result StorageError string :=
  h ← Hash_File update reads (new_hasher algo); Ok (algo_prefix algo +:+ to_hex (finish algo h))%string.
(** [open]: the reads of the opened file. [None]: waiting for a writer. The
    guard is dropped when the function returns. *)
Definition Checksum (open : string -> result string (list (result string bytes))) (file_id : string)
    (algo : option ChecksumAlgorithm) (s : Store) : option (result StorageError string * Store) :=
  let algo := default ChecksumAlgorithm_default algo in
  match Acquire_Read_find file_id s with
  | (Err e, s) => Some (Err e, s)
  | (Ok l, s) =>
      '(g, s) ← Acquire_take false file_id l s;
      Some (match open file_id with
            | Err e => Err (Io ("open failed: " +:+ e)%string)
            | Ok reads => hash_reads algo reads
            end, drop_guard false g s)
  end.

(** ** Lemmas *)
Context `{!Hashers_Laws H}.
Lemma Hash_File_chunks chunks h :
  Forall (fun c => c <> []) chunks -> Hash_File update (map Ok chunks) h = Ok (update h (concat chunks)).
Proof.
  intros Hne. revert h. induction Hne as [|c l Hc _ IH]; intros h; cbn.
  - by rewrite update_nil.
  - rewrite decide_False by done. by rewrite IH, update_app.
Qed.
Lemma Hash_File_end chunks rest h :
  Forall (fun c => c <> []) chunks -> Hash_File update (map Ok chunks ++ Ok [] :: rest) h = Ok (update h (concat chunks)).
Proof.
  intros Hne. revert h. induction Hne as [|c l Hc _ IH]; intros h; cbn.
  - by rewrite update_nil.
  - rewrite decide_False by done. by rewrite IH, update_app.
Qed.
Lemma Hash_File_error chunks e rest h :
  Forall (fun c => c <> []) chunks -> Hash_File update (map Ok chunks ++ Err e :: rest) h = Err (Io ("read failed: " +:+ e)%string).
Proof.
  intros Hne. revert h. induction Hne as [|c l Hc _ IH]; intros h; cbn; [done|]. rewrite decide_False by done. apply IH.
Qed.

(** Taking a read lock and dropping it leaves every lock as it was. *)
Definition readable (st : lock_state) : Prop := match st with Writer | Readers O => False | _ => True end.
Definition same_locks (s s' : Store) : Prop := forall k, default Free (locks s' !! k) = default Free (locks s !! k).
Lemma take_and_drop f l s :
  readable (default Free (locks s !! l)) ->
  exists s', Acquire_take false f l s = Some (mk_guard f l false, s') /\
    files (drop_guard false (mk_guard f l false) s') = files s /\ disk (drop_guard false (mk_guard f l false) s') = disk s /\
    same_locks s (drop_guard false (mk_guard f l false) s').
Proof.
  unfold Acquire_take, take_read, drop_guard, release_lock, same_locks. cbn [guard_write guard_lock andb].
  destruct (default Free (locks s !! l)) as [|[|n]|] eqn:Hl; try done; intros _; eexists; (split; [reflexivity|]).
  all: cbn [locks with_locks]; rewrite lookup_insert_eq; cbn; split_and!; [done..|]; intros k; rewrite insert_insert_eq.
  all: destruct (decide (k = l)) as [->|]; [by rewrite lookup_insert_eq, Hl|by rewrite lookup_insert_ne].
Qed.
Definition registered (f : string) (s : Store) : Store * nat :=
  match files s !! f with
  | Some e => (s, entry_lock e)
  | None => (insert_new f (plain_entry f (match disk s !! f with Some (Regular z) => z | _ => 0 end)) s, next_lock s)
  end.
Lemma find_registered f s z :
  valid_id f = true -> disk s !! f = Some (Regular z) ->
  Acquire_Read_find f s = (Ok (registered f s).2, (registered f s).1).
Proof.
  unfold valid_id, Acquire_Read_find, Lazy_Discover, registered. intros Hv Hd. destruct (Resolve_Path "" f); [|done].
  destruct (files s !! f); [done|]. by rewrite Hd.
Qed.

(** A file that no writer holds is found and its lock can be read. *)
Lemma found_readable f s z :
  valid_id f = true -> disk s !! f = Some (Regular z) ->
  (forall e, files s !! f = Some e -> readable (default Free (locks s !! entry_lock e))) ->
  default Free (locks s !! next_lock s) = Free ->
  exists l s1, Acquire_Read_find f s = (Ok l, s1) /\ readable (default Free (locks s1 !! l)) /\ same_locks s s1 /\
    disk s1 = disk s /\ is_Some (files s1 !! f).
Proof.
  intros Hv Hd Hr Hfree. rewrite (find_registered f s z Hv Hd). eexists _, _. split; [reflexivity|].
  unfold registered. destruct (files s !! f) as [e|] eqn:He; cbn; [split_and!; [by apply Hr|done|done|by eexists]|].
  rewrite !lookup_insert_eq. split_and!; [done| |done|by eexists].
  intros k. cbn. destruct (decide (k = next_lock s)) as [->|]; [by rewrite lookup_insert_eq|by rewrite lookup_insert_ne].
Qed.

(** C26: the checksum of a stored file, one that is on the disk and that no writer
    holds. Whether it can be opened, and whatever its reads return, the call ends
    with the same store: the file registered, the disk as it was, and every lock
    as it was before, so the read lock is released on success and on every error.
    The checksum is the name of the algorithm and the digest of the whole contents
    in hexadecimal, however the reads cut the contents into pieces; a failed open
    and a failed read give their error and no digest. *)
Theorem checksum_of_contents f algo s z :
  valid_id f = true -> disk s !! f = Some (Regular z) ->
  (forall e, files s !! f = Some e -> readable (default Free (locks s !! entry_lock e))) ->
  default Free (locks s !! next_lock s) = Free ->
  let a := default ChecksumAlgorithm_default algo in
  exists s', is_Some (files s' !! f) /\ disk s' = disk s /\ same_locks s s' /\
    (forall open, exists r, Checksum open f algo s = Some (r, s')) /\
    (forall open e, open f = Err e -> Checksum open f algo s = Some (Err (Io ("open failed: " +:+ e)%string), s')) /\
    forall open chunks rest, Forall (fun c => c <> []) chunks ->
      (open f = Ok (map Ok chunks ++ Ok [] :: rest) ->
         Checksum open f algo s = Some (Ok (algo_prefix a +:+ to_hex (finish a (update (new_hasher a) (concat chunks))))%string, s')) /\
      (forall e, open f = Ok (map Ok chunks ++ Err e :: rest) ->
         Checksum open f algo s = Some (Err (Io ("read failed: " +:+ e)%string), s')).
Proof.
  intros Hv Hd Hr Hfree a. unfold Checksum. fold a.
  destruct (found_readable f s z Hv Hd Hr Hfree) as (l & s1 & -> & Hr1 & Hs1 & Hd1 & Hf1).
  destruct (take_and_drop f l s1 Hr1) as (s' & -> & Hf' & Hd' & Hl').
  exists (drop_guard false (mk_guard f l false) s'). cbn [mbind option_bind]. split_and!.
  - by rewrite Hf'.
  - by rewrite Hd'.
  - intros k. by rewrite Hl'.
  - intros open. eauto.
  - by intros open e ->.
  - intros open chunks rest Hne. split; [intros ->|intros e ->]; unfold hash_reads; [by rewrite Hash_File_end|by rewrite Hash_File_error].
Qed.
End checksum.

(** ** A concrete hasher: the sum of the bytes, on four bytes *)
Module Plain_Hash.
#[export] Instance plain : Hashers Z := {|
  new_hasher a := match a with Blake3 => 1 | Sha256 => 2 | XxHash64 => 0 end;
  update h b := h + foldr (fun b z => bz b + z) 0 b;
  finish a h := to_be_bytes (match a with XxHash64 => 8 | _ => 4 end) h |}.
#[export] Instance plain_laws : Hashers_Laws Z.
Proof.
  split.
  - intros h a b. cbn. rewrite foldr_app, <- Z.add_assoc. f_equal.
    induction a as [|x a IH]; cbn; [done|]. rewrite <- IH. lia.
  - intros h. cbn. lia.
Qed.
Definition store : Store := Storage_New {[ "a.txt"%string := Regular 3 ]}.
Definition reads : list (result string bytes) := [Ok [x01; x02]; Ok [x03]; Ok []].
End Plain_Hash.
Import Plain_Hash.
Lemma checksum_of_contents_witness :
  exists s', is_Some (files s' !! "a.txt"%string) /\
    Checksum (H := Z) (fun _ => Ok reads) "a.txt" None store = Some (Ok "xxhash64:0000000000000006"%string, s').
Proof.
  destruct (checksum_of_contents (H := Z) "a.txt" None store 3) as (s' & H1 & _ & _ & _ & _ & H2).
  - vm_compute. reflexivity.
  - vm_compute. reflexivity.
  - intros e He. assert (entry_lock e = O) as -> by (vm_compute in He; injection He as <-; reflexivity). vm_compute. exact I.
  - vm_compute. reflexivity.
  - exists s'. split; [exact H1|].
    destruct (H2 (fun _ => Ok reads) [[x01; x02]; [x03]] []) as [H3 _]; [repeat constructor; discriminate|].
    rewrite (H3 eq_refl). vm_compute. reflexivity.
Defined.
