(* ===== verification/Bindings.v ===== *)
(** * What scripts call ([VM/capability_binding.rs], [VM/storage_handle.rs])

    The functions registered in a script's [caps], [ml] and [network] tables,
    after mlua has converted the arguments to the closures' types: checking the
    arguments, calling the component, the text of each error and the table that
    is returned.  The list of model peers is in [Scheduling], sending and
    receiving tensors in [TensorExchange].

    A handle is a userdata that owns the guard of a file until [release] takes
    it or the collector drops the userdata. *)
From S2P Require Import Prelude RustStd Wire Bitmap Codec Peers Network Storage Cursor KvCache MlSession Orchestrator Capability Checksum Gguf.
From S2P Require Config TensorExchange.

(** ** Values *)
Inductive lua : Type :=
  | LNil | LBool (b : bool) | LInt (z : Z) | LFloat (z : Z) | LReal (r : real) | LStr (s : string)
  | LList (l : list lua) | LTable (fields : list (string * lua)) | LUser (handle : nat).
(** An unsigned integer beyond 63 bits becomes the nearest number. *)
Definition lua_uint (z : Z) : lua := if z <? 2 ^ 63 then LInt z else LFloat z.
Inductive outcome : Type := Returns (v : lua) | Raises (msg : string) | Waits.
Definition returns_or {A} (who : string) (r : result StorageError A) (f : A -> lua) : outcome :=
  match r with Ok a => Returns (f a) | Err e => Raises (who +:+ ": " +:+ show_storage_error e)%string end.

(** ** Storage *)
Definition checksum_algo (algo : option string) : result string (option ChecksumAlgorithm) :=
  match algo with
  | None => Ok None
  | Some a =>
      if String.eqb a "blake3" then Ok (Some Blake3)
      else if String.eqb a "sha256" then Ok (Some Sha256)
      else if String.eqb a "xxhash64" then Ok None
      else Err ("未知算法: " +:+ a)%string
  end.
Record Handle : Type := mk_handle { handle_path : string; handle_guard : option Guard }.
Section storage.
Context {PeerId Multiaddr P H : Type} `{Countable PeerId} `{!Peer_Management_Capability PeerId Multiaddr P} `{!Hashers H}.
Context (to_string : PeerId -> bytes) (base_dir : string).
Context (analyze_model : string -> Disk -> result string ModelInfo * Disk).
Context (open : string -> result string (list (result string bytes))).

Record World : Type := mk_world { w_store : Store; w_peers : P; w_handles : gmap nat Handle; w_next : nat }.
Definition set_store (s : Store) (w : World) : World := mk_world s (w_peers w) (w_handles w) (w_next w).
Definition set_handles (m : gmap nat Handle) (w : World) : World := mk_world (w_store w) (w_peers w) m (w_next w).

Definition storage_list (w : World) : outcome :=
  Returns (LList (map (fun e => LTable [("file_name", LStr (entry_name e)); ("size", lua_uint (entry_size e))])%string
    (List_files (w_store w)))).
Definition storage_exists (f : string) (w : World) : outcome * World :=
  let (r, s) := Exists f (w_store w) in (returns_or "storage_exists" r LBool, set_store s w).
(** Both kinds of handles. *)
Definition storage_acquire (write : bool) (f : string) (w : World) : outcome * World :=
  let who := (if write then "storage_acquire_write" else "storage_acquire_read")%string in
  match Resolve_Path base_dir f with
  | Err e => (Raises (who +:+ ": " +:+ show_storage_error e)%string, w)
  | Ok path =>
      let (r, s) := if write then Acquire_Write_find f (w_store w) else Acquire_Read_find f (w_store w) in
      match r with
      | Err e => (Raises (who +:+ ": " +:+ show_storage_error e)%string, set_store s w)
      | Ok l =>
          match Acquire_take write f l s with
          | None => (Waits, set_store s w)
          | Some (g, s) =>
              (Returns (LUser (w_next w)),
               mk_world s (w_peers w) (<[w_next w := mk_handle path (Some g)]> (w_handles w)) (S (w_next w)))
          end
      end
  end.
Definition storage_remove (f : string) (w : World) : outcome * World :=
  let (r, s) := Remove f (w_store w) in (returns_or "storage_remove" r (fun _ => LNil), set_store s w).
Definition storage_checksum (f : string) (algo : option string) (w : World) : outcome * World :=
  match checksum_algo algo with
  | Err e => (Raises e, w)
  | Ok a =>
      match Checksum open f a (w_store w) with
      | None => (Waits, set_store (Acquire_Read_find f (w_store w)).2 w)
      | Some (r, s) => (returns_or "storage_checksum" r LStr, set_store s w)
      end
  end.
Definition storage_flush (now : Z) (w : World) : outcome * World * list Bus_Event :=
  let '(r, (s, p), es) := Flush analyze_model to_string now (w_store w) (w_peers w) in
  (returns_or "storage_flush" r (fun '(added, removed) => LTable [("added", lua_uint added); ("removed", lua_uint removed)])%string,
   mk_world s p (w_handles w) (w_next w), es).

(** Methods of a handle. [try_write]: see [drop_guard]. *)
Definition handle_path_of (h : nat) (w : World) : option outcome :=
  x ← w_handles w !! h; Some (Returns (LStr (handle_path x))).
Definition drop_held (try_write : bool) (o : option Guard) (s : Store) : Store :=
  match o with Some g => drop_guard try_write g s | None => s end.
Definition handle_release (try_write : bool) (h : nat) (w : World) : World :=
  match w_handles w !! h with
  | Some x =>
      mk_world (drop_held try_write (handle_guard x) (w_store w)) (w_peers w)
        (<[h := mk_handle (handle_path x) None]> (w_handles w)) (w_next w)
  | None => w
  end.
(** The collector drops a userdata nothing refers to. *)
Definition handle_collect (try_write : bool) (h : nat) (w : World) : World :=
  match w_handles w !! h with
  | Some x =>
      mk_world (drop_held try_write (handle_guard x) (w_store w)) (w_peers w) (delete h (w_handles w)) (w_next w)
  | None => w
  end.

(** What the scripts of a node do to its storage, in the order it happens. *)
Inductive storage_call : Type :=
  | Call_list | Call_exists (f : string) | Call_acquire (write : bool) (f : string) | Call_remove (f : string)
  | Call_checksum (f : string) (algo : option string) | Call_flush (now : Z)
  | Call_path (h : nat) | Call_release (try_write : bool) (h : nat) | Call_collect (try_write : bool) (h : nat).
Definition storage_step (c : storage_call) (w : World) : World :=
  match c with
  | Call_list | Call_path _ => w
  | Call_exists f => (storage_exists f w).2
  | Call_acquire write f => (storage_acquire write f w).2
  | Call_remove f => (storage_remove f w).2
  | Call_checksum f algo => (storage_checksum f algo w).2
  | Call_flush now => (storage_flush now w).1.2
  | Call_release b h => handle_release b h w
  | Call_collect b h => handle_collect b h w
  end.
Definition storage_calls (cs : list storage_call) (w : World) : World := foldl (fun w c => storage_step c w) w cs.
End storage.
Arguments World P : clear implicits.

(** ** Logging *)
(** [caps.print]: the log file, and the event bus. *)
Definition caps_print (msg : string) : outcome * list Bus_Event := (Returns LNil, [Notify Info msg]).

(** ** Models *)
Definition arch_table (i : Model_Arch_Info) : lua :=
  LTable (app [("architecture", LStr (architecture i)); ("num_layers", lua_uint (num_layers i));
    ("embedding_length", lua_uint (embedding_length i)); ("head_count", lua_uint (head_count i));
    ("head_count_kv", lua_uint (head_count_kv i)); ("head_dim", lua_uint (Gguf.head_dim i));
    ("feed_forward_length", lua_uint (feed_forward_length i)); ("context_length", lua_uint (context_length i));
    ("rms_norm_eps", LReal (rms_norm_eps i)); ("rope_freq_base", LReal (rope_freq_base i));
    ("vocab_size", lua_uint (vocab_size i)); ("eos_token_id", lua_uint (Gguf.eos_token_id i));
    ("is_split", LBool (is_split i)); ("split_start", lua_uint (split_start i)); ("split_end", lua_uint (split_end i))]
    (app match model_id i with Some id => [("model_id", lua_uint id)] | None => [] end
      [("metadata_raw", LTable (map (fun '(k, v) => (k, LStr v)) (map_to_list (metadata_raw i))))]))%string.
(** [capability.rs]: the blocking task's own failure is [Err] in [joined]. *)
Definition run_blocking {A} (what : string) (joined : result string (result string A)) : result string A :=
  match joined with
  | Err e => Err ("spawn_blocking failed: " +:+ e)%string
  | Ok r => map_err (fun e => what +:+ " failed: " +:+ e)%string r
  end.
Definition raises_or {A} (r : result string A) (f : A -> lua) : outcome :=
  match r with Ok a => Returns (f a) | Err e => Raises e end.
Definition ml_analyze_model (joined : result string (result string Model_Arch_Info)) : outcome :=
  raises_or (run_blocking "GGUF_Analyze_And_Convert" joined) arch_table.
Definition ml_split_model (joined : result string (result string unit)) : outcome :=
  raises_or (run_blocking "GGUF_Split_Model" joined) (fun _ => LNil).

(** [Path::extension] of the standard library. *)
Definition extension (path : string) : option bytes :=
  name ← Path_file_name path;
  match Str.rsplitn2 "."%byte (as_bytes name) with
  | [e; stem] => if bool_decide (stem = []) then None else Some e
  | _ => None
  end.

(** Methods of a session. A value that is no tensor is a Lua value. *)
Inductive session_value (T : Type) : Type := V (v : lua) | V_tensor (t : T).
Arguments V {T} v.
Arguments V_tensor {T} t.
Inductive session_call (T Temp : Type) : Type :=
  | M_load_model (path : string) (start end_ : Z) | M_load_tokenizer (path : string) | M_has_model | M_unload
  | M_encode (text : string) | M_decode (token_id : Z) | M_tensorize (token_ids : list Z) | M_reset_kv_cache
  | M_forward (t : T) (offset : option Z) | M_sample (t : T) (temperature : Temp) | M_get_eos | M_get_offset
  | M_set_seed (seed : Z) | M_offload_to_cpu | M_offload_to_cuda | M_offload_save (file_id : string).
Arguments M_load_model {T Temp} _ _ _.
Arguments M_load_tokenizer {T Temp} _.
Arguments M_has_model {T Temp}.
Arguments M_unload {T Temp}.
Arguments M_encode {T Temp} _.
Arguments M_decode {T Temp} _.
Arguments M_tensorize {T Temp} _.
Arguments M_reset_kv_cache {T Temp}.
Arguments M_forward {T Temp} _ _.
Arguments M_sample {T Temp} _ _.
Arguments M_get_eos {T Temp}.
Arguments M_get_offset {T Temp}.
Arguments M_set_seed {T Temp} _.
Arguments M_offload_to_cpu {T Temp}.
Arguments M_offload_to_cuda {T Temp}.
Arguments M_offload_save {T Temp} _.

Section session_methods.
Context {T Dev M Tok Temp : Type} `{!Candle T Dev} `{!SessionModel M T}.
Context (GGUF_Load_Model : Z -> Z -> string -> Dev -> result string M)
  (synchronize : Dev -> result string unit) (from_gguf_file : string -> result string Tok)
  (GGUF_Analyze : string -> result string (Z * option string)).
Context (tensor_new : list Z -> Dev -> result string T) (unsqueeze : T -> Z -> result string T)
  (apply_chat_template : option string -> list (string * string) -> string)
  (encode_with_options : Tok -> string -> result string (list Z)) (tok_decode : Tok -> list Z -> result string string)
  (sampling : MlContext M T Dev Tok -> T -> Temp -> MlContext M T Dev Tok * result (fault string) Z)
  (write : string -> bytes -> result string unit) (kvcache_dir : string).
Notation Ctx := (MlContext M T Dev Tok).
Definition has_model (c : Ctx) : bool := bool_decide (is_Some (model c)).
Definition plain {A} (r : Ctx * result string A) (f : A -> session_value T) : Ctx * result (fault string) (session_value T) :=
  (r.1, map_err Cursor.Failed (f <$> r.2)).
Definition session_method (m : session_call T Temp) (c : Ctx) : Ctx * result (fault string) (session_value T) :=
  let unit_value := fun _ : unit => V LNil in
  match m with
  | M_load_model path start end_ =>
      if bool_decide (extension path = Some (as_bytes "pgguf")) then plain (load_model GGUF_Load_Model c path start end_) unit_value
      else (c, Err (Cursor.Failed "load_model 仅支持 .pgguf 格式，请先用 analyze_model 转换 .gguf 文件"%string))
  | M_load_tokenizer path => plain (load_tokenizer from_gguf_file GGUF_Analyze c path) unit_value
  | M_has_model => (c, Ok (V (LBool (has_model c))))
  | M_unload => (unload c, Ok (V LNil))
  | M_encode text =>
      plain (c, encode_messages apply_chat_template encode_with_options c [("user", text)]%string) (fun ids => V (LList (map lua_uint ids)))
  | M_decode token_id => plain (c, MlSession.decode tok_decode c token_id) (fun s => V (LStr s))
  | M_tensorize token_ids => plain (c, tensorize tensor_new unsqueeze c token_ids) V_tensor
  | M_reset_kv_cache => (reset_kv_cache c, Ok (V LNil))
  | M_forward t off => plain (forward synchronize c t off) V_tensor
  | M_sample t temperature => let (c, r) := sampling c t temperature in (c, (fun id => V (lua_uint id)) <$> r)
  | M_get_eos => (c, Ok (V (lua_uint (MlSession.eos_token_id c))))
  | M_get_offset => (c, Ok (V (lua_uint (offset c))))
  | M_set_seed seed => (set_seed c seed, Ok (V LNil))
  | M_offload_to_cpu => plain (offload_to_cpu c) unit_value
  | M_offload_to_cuda => plain (offload_to_cuda GGUF_Load_Model c) unit_value
  | M_offload_save file_id => plain (offload_save write (Config.join kvcache_dir file_id) c) unit_value
  end.
(** The functions of the [ml] table that make sessions and tensors. *)
Definition ml_new (parse_device : bytes -> result string Dev) (device_str : string) (seed : Z) : result string Ctx :=
  device ← parse_device (as_bytes device_str); Ok (MlSession_new device seed).
Definition ml_tensor_from_bytes (chk : bool) (new_cuda : Z -> result string Dev) (data : bytes) (device_str : string)
    : result mem_fault T := TensorExchange.bytes_to_tensor_str new_cuda chk data (as_bytes device_str).
Definition ml_offload_load (read : string -> result string bytes) (parse_device : bytes -> result string Dev)
    (file_id device_str : string) : result (fault string) Ctx :=
  offload_load GGUF_Load_Model read parse_device (Config.join kvcache_dir file_id) (as_bytes device_str).
End session_methods.

(** ** Network *)
Definition DataType_of (s : string) : result string DataType :=
  if String.eqb s "Command" then Ok Codec.Command else if String.eqb s "Data" then Ok Codec.Data
  else if String.eqb s "File" then Ok Codec.File else if String.eqb s "Info" then Ok InfoType
  else Err ("未知 DataType: " +:+ s)%string.
Section network.
Context {PeerId Multiaddr OutboundRequestId Waiter P : Type} `{Countable PeerId} `{Countable OutboundRequestId}.
Context `{!Peer_Management_Capability PeerId Multiaddr P}.
Context (to_base58 : PeerId -> string) (parse_peer : string -> result string PeerId) (parse_addr : string -> result string Multiaddr).
Abbreviation commands := (option (list (Network.NodeCommand (PeerId := PeerId) (Multiaddr := Multiaddr)
  (OutboundRequestId := OutboundRequestId) (Waiter := Waiter)))).
Definition peer_arg (s : string) : result string PeerId := map_err (fun e => "无效 PeerId: " +:+ e)%string (parse_peer s).
Definition named {A} (who : string) (r : result Network_Error A) : result string A :=
  map_err (fun e => who +:+ ": " +:+ show_Network_Error e)%string r.
Definition network_send_data (h : NodeHandle (PeerId := PeerId)) (peer_str data_type_str payload : string) (tx : Waiter) (oid : OutboundRequestId)
    (w : waited) (q : commands) : outcome * commands :=
  match peer_arg peer_str with
  | Err e => (Raises e, q)
  | Ok peer =>
      match DataType_of data_type_str with
      | Err e => (Raises e, q)
      | Ok dt =>
          let (r, q) := send_data h peer dt (as_bytes payload) tx oid w q in
          (raises_or (named "send_data" r)
             (fun d => LTable [("payload", LStr (of_bytes (Utf8.lossy (Codec.payload d))))])%string, q)
      end
  end.
Definition network_get_local_peer_id (h : NodeHandle (PeerId := PeerId)) : outcome := Returns (LStr (to_base58 (Get_Local_Peer_Id h))).
Definition network_get_all_peers (p : P) : outcome :=
  Returns (LList (map (fun i => LTable [("name", LStr (of_bytes (Peers.name i))); ("peer_id", LStr (to_base58 (peer_id i)))])%string
    (Get_All_Peers p))).
Definition network_dial (addr : string) (q : commands) : outcome * commands :=
  match map_err (fun e => "无效 Multiaddr: " +:+ e)%string (parse_addr addr) with
  | Err e => (Raises e, q)
  | Ok ma => let (r, q) := dial ma q in (raises_or (named "dial" r) (fun _ => LNil), q)
  end.
Definition network_disconnect (peer_str : string) (q : commands) : outcome * commands :=
  match peer_arg peer_str with
  | Err e => (Raises e, q)
  | Ok peer => let (r, q) := disconnect peer q in (raises_or (named "disconnect" r) (fun _ => LNil), q)
  end.
(** Each of these opens a stream to [peer]: [run] is what the operation does
    with it. The userdata of a stream is its number. *)
Definition with_peer {A} (peer_str who : string) (run : PeerId -> result Network_Error A) (f : A -> lua) : outcome :=
  raises_or (p ← peer_arg peer_str; named who (run p)) f.
Definition network_test_bandwidth (peer_str : string) (run : PeerId -> result Network_Error Z) : outcome :=
  with_peer peer_str "test_bandwidth" run lua_uint.
Definition network_send_file (peer_str file_path : string) (metadata : result string Z)
    (opened : PeerId -> result string unit) (file : list bytes) : option (result string (bytes * list Bus_Event)) :=
  match peer_arg peer_str with
  | Err e => Some (Err e)
  | Ok peer => named "send_file" <$> Capability.send_file file_path metadata (opened peer) file
  end.
Definition network_open_tensor_stream (peer_str : string) (inference_id : Z) (opened : PeerId -> result string unit) (stream : nat) : outcome :=
  with_peer peer_str "open_tensor_stream" (fun p => Capability.open_tensor_stream (opened p) inference_id) (fun _ => LUser stream).
Definition network_accept_tensor_stream (timeout : Z) (a : accepted) (stream : nat) : outcome :=
  raises_or (named "accept_tensor_stream" (accept_result timeout a)) (fun _ => LUser stream).
End network.

(** ** Scripts and the guards they hold *)
Section handle_theorems.
Context {PeerId Multiaddr P H : Type} `{HC : Countable PeerId} `{!Peer_Management_Capability PeerId Multiaddr P} `{!Hashers H}.
Context (to_string : PeerId -> bytes) (base_dir : string).
Context (analyze_model : string -> Disk -> result string ModelInfo * Disk).
Context (open : string -> result string (list (result string bytes))).
Notation World := (World P).
Notation step := (storage_step (H := H) to_string base_dir analyze_model open).
Notation calls := (storage_calls (H := H) to_string base_dir analyze_model open).

(** The guards of the handles that have not been released. *)
Definition held (w : World) : list Guard := omap (fun x => handle_guard x.2) (map_to_list (w_handles w)).
Definition world_inv (w : World) : Prop :=
  store_inv (w_store w, held w) /\ forall h, (w_next w <= h)%nat -> w_handles w !! h = None.

Lemma held_insert w m h x :
  m !! h = None -> held (set_handles (<[h := x]> m) w) ≡ₚ option_list (handle_guard x) ++ held (set_handles m w).
Proof. intros Hm. unfold held. cbn. rewrite map_to_list_insert by done. cbn. by destruct (handle_guard x). Qed.
Lemma held_delete w m h x :
  m !! h = Some x -> held (set_handles m w) ≡ₚ option_list (handle_guard x) ++ held (set_handles (delete h m) w).
Proof. intros Hm. rewrite <- held_insert by apply lookup_delete_eq. by rewrite insert_delete_id. Qed.
Lemma resolve_base b f : is_ok (Resolve_Path b f) = valid_id f.
Proof. unfold valid_id, Resolve_Path. by repeat case_match. Qed.
Lemma drop_held_inv b o s hs : store_inv (s, option_list o ++ hs) -> store_inv (drop_held b o s, hs).
Proof. destruct o; cbn; [apply drop_guard_inv|done]. Qed.

Lemma acquire_world_inv write f w : world_inv w -> world_inv (storage_acquire base_dir write f w).2.
Proof.
  intros [Hi Hn]. pose proof (acquire_inv write f _ Hi) as Ha. unfold acquire, storage_acquire in *.
  pose proof (resolve_base base_dir f) as Hv. destruct (Resolve_Path base_dir f) as [path|e]; [|done].
  destruct (if write then Acquire_Write_find f (w_store w) else Acquire_Read_find f (w_store w)) as [[l|e] s]; [|done].
  destruct (Acquire_take write f l s) as [[g s']|]; [|done]. cbn [snd]. split; cbn [w_store w_handles w_next].
  - eapply store_inv_perm; [|exact Ha].
    pose proof (held_insert w (w_handles w) (w_next w) (mk_handle path (Some g)) (Hn _ (le_n _))) as Hh.
    cbn in Hh. rewrite <- Permutation_cons_append. symmetry. exact Hh.
  - intros h Hh. rewrite lookup_insert_ne by lia. apply Hn. lia.
Qed.
Lemma drop_world_inv b h w x m :
  world_inv w -> w_handles w !! h = Some x ->
  m = delete h (w_handles w) \/ m = <[h := mk_handle (handle_path x) None]> (w_handles w) ->
  world_inv (mk_world (drop_held b (handle_guard x) (w_store w)) (w_peers w) m (w_next w)).
Proof.
  intros [Hi Hn] Hx Hm. assert (h < w_next w)%nat as Hlt.
  { destruct (Nat.lt_ge_cases h (w_next w)) as [|Hge]; [done|]. by rewrite Hn in Hx. }
  split; cbn [w_store w_handles w_next].
  - apply drop_held_inv. eapply store_inv_perm; [|exact Hi].
    pose proof (held_delete w (w_handles w) h x Hx) as Hd. change (held (set_handles (w_handles w) w)) with (held w) in Hd.
    rewrite Hd. apply Permutation_app_head. destruct Hm as [->| ->]; [done|].
    rewrite <- (insert_delete_eq (w_handles w)).
    pose proof (held_insert w (delete h (w_handles w)) h (mk_handle (handle_path x) None) (lookup_delete_eq _ _)) as Hh.
    symmetry. exact Hh.
  - intros k Hk. destruct Hm as [->| ->]; [rewrite lookup_delete_ne by lia|rewrite lookup_insert_ne by lia]; by apply Hn.
Qed.
Lemma release_twice b b' h (w : World) : handle_release b' h (handle_release b h w) = handle_release b h w.
Proof.
  unfold handle_release. destruct (w_handles w !! h) as [x|] eqn:Hx; [|by rewrite Hx].
  cbn [w_handles]. rewrite lookup_insert_eq. cbn. by rewrite insert_insert_eq.
Qed.

Definition asks_existence (c : storage_call) : Prop := match c with Call_exists _ => True | _ => False end.
Lemma step_inv c w : ~ asks_existence c -> world_inv w -> world_inv (step c w).
Proof.
  intros Hc Hw. pose proof Hw as [Hi Hn]. destruct c as [|f|write f|f|f algo|now|h|b h|b h]; cbn [storage_step].
  - done.
  - by destruct Hc.
  - by apply acquire_world_inv.
  - unfold storage_remove. pose proof (store_inv_step _ (Op_Remove f) Hi) as Hr. cbn in Hr.
    destruct (Remove f (w_store w)) as [r s]. by split.
  - unfold storage_checksum. destruct (checksum_algo algo) as [a|]; [|done]. unfold Checksum.
    pose proof (acquire_inv false f _ Hi) as Ha. unfold acquire in Ha.
    destruct (Acquire_Read_find f (w_store w)) as [[l|e] s]; cbn [snd]; [|by split].
    destruct (Acquire_take false f l s) as [[g s']|]; cbn [mbind option_bind snd]; [|by split].
    split; [|done]. apply drop_guard_inv. eapply store_inv_perm; [|exact Ha].
    symmetry. exact (Permutation_cons_append (held w) g).
  - unfold storage_flush, Flush. pose proof (Flush_registry_inv analyze_model _ _ Hi) as Hf.
    destruct (Flush_registry analyze_model (w_store w)) as [[n|e] s]; cbn [snd] in Hf; [|by split].
    destruct (Sync_Models_To_Peer_Manager to_string now s (w_peers w)) as [p es]. by split.
  - done.
  - unfold handle_release. destruct (w_handles w !! h) as [x|] eqn:Hx; [|done]. apply (drop_world_inv b h w x); eauto.
  - unfold handle_collect. destruct (w_handles w !! h) as [x|] eqn:Hx; [|done]. apply (drop_world_inv b h w x); eauto.
Qed.
Lemma calls_inv cs w : Forall (fun c => ~ asks_existence c) cs -> world_inv w -> world_inv (calls cs w).
Proof. intros Hc. revert w. induction Hc as [|c cs Hc _ IH]; intros w Hw; [done|]. apply IH. by apply step_inv. Qed.

(** C13: whatever the scripts of a node do to its files, in whatever order, as
    long as they do not ask whether a file exists and acquisitions are not
    interrupted (one is a single step here, see [Storage.exclusion_broken]): the
    unreleased handles on a file are all for reading or a single one, the removal of
    a file with such a handle is refused, the removal of a registered file without
    one goes through and takes it off the disk and the registry, and releasing a
    handle a second time does nothing. *)
Theorem script_handles_exclude cs s p f :
  locks_wf s -> (forall l, default Free (locks s !! l) = Free) -> valid_id f = true ->
  Forall (fun c => ~ asks_existence c) cs ->
  let w := calls cs (mk_world s p ∅ 0) in
  let gs := guards_for f (held w) in
  (Forall (fun g => guard_write g = false) gs \/ exists g, gs = [g]) /\
  (gs <> [] -> storage_remove f w = (Raises ("storage_remove: InUse: file " +:+ f +:+ " is in use")%string, w)) /\
  (gs = [] -> is_Some (files (w_store w) !! f) -> (forall z, disk (w_store w) !! f <> Some (Other z)) ->
     exists w', storage_remove f w = (Returns LNil, w') /\ files (w_store w') !! f = None /\
       disk (w_store w') !! f = None /\ w_handles w' = w_handles w) /\
  (forall b b' h, handle_release b' h (handle_release b h w) = handle_release b h w).
Proof.
  intros Hwf Hl Hv Hcs w gs. assert (world_inv w) as [Hi Hn].
  { apply calls_inv; [done|]. split; [|done]. exact (store_inv_run s [] Hwf Hl). }
  destruct (store_inv_excludes _ f Hi Hv) as [H1 H2]. split_and!; [exact H1| | |intros; apply release_twice].
  - intros Hne. destruct (H2 Hne) as [_ Hr]. unfold storage_remove. cbn [fst] in Hr. rewrite Hr. by destruct w.
  - intros Hgs [e He] Hd. pose proof (same_file_guards _ _ _ _ Hi He) as Heq. fold gs in Heq. rewrite Hgs in Heq.
    assert (is_free (entry_lock e) (w_store w) = true) as Hfree.
    { destruct Hi as (_ & Hlock & _). specialize (Hlock (entry_lock e)). cbn [fst snd] in Hlock. rewrite <- Heq in Hlock.
      unfold is_free. destruct (default Free _) as [|n|]; cbn [lock_ok] in Hlock; [done| |by destruct Hlock].
      destruct Hlock as (_ & <- & ?). cbn in *. lia. }
    unfold storage_remove, Remove, valid_id in *. destruct (Resolve_Path "" f); [|done]. rewrite He, Hfree. unfold remove_file.
    destruct (disk (w_store w) !! f) as [[z|z]|] eqn:Hdf; [| |].
    + eexists. split; [reflexivity|]. cbn. by rewrite !lookup_delete_eq.
    + by destruct (Hd z).
    + eexists. split; [reflexivity|]. cbn. by rewrite lookup_delete_eq, Hdf.
Qed.
End handle_theorems.

(** ** The sandbox ([engine.rs]) *)
(** The global tables of a Lua state, and what its package library keeps as
    loaded; [Lua::new] fills both with the standard libraries. *)
Record LuaState (L : Type) : Type := mk_lua { globals : gmap string L; loaded : gmap string L }.
Arguments mk_lua {L} _ _.
Arguments globals {L} _.
Arguments loaded {L} _.
Definition LuaContext_new {L} (st : LuaState L) : LuaState L :=
  mk_lua (foldr delete (globals st) ["loadfile"; "dofile"; "require"; "io"]%string) (loaded st).
(** The four names are gone; the operating system library is not, and neither is
    the input and output library, which the package library still holds. *)
Lemma sandbox_holds {L} (st : LuaState L) :
  Forall (fun n => globals (LuaContext_new st) !! n = None) ["io"; "require"; "dofile"; "loadfile"]%string /\
  globals (LuaContext_new st) !! "os"%string = globals st !! "os"%string /\
  globals (LuaContext_new st) !! "package"%string = globals st !! "package"%string /\
  loaded (LuaContext_new st) !! "io"%string = loaded st !! "io"%string.
Proof.
  split_and!; [| | |done]; cbn.
  - repeat constructor; repeat (rewrite lookup_delete_eq || rewrite lookup_delete_ne by done); done.
  - by rewrite !lookup_delete_ne.
  - by rewrite !lookup_delete_ne.
Qed.

(** A file identifier from a script that is an absolute path is the path the
    session is saved to. *)
Lemma save_path_escapes kvcache_dir file_id :
  Str.starts_with [Config.slash] (as_bytes file_id) = true -> Config.join kvcache_dir file_id = file_id.
Proof. intros H. unfold Config.join. by rewrite H. Qed.

(** ** A concrete world *)
Import Example_Store Plain_Hash.
Module Example_Scripts.
Definition start : World (gmap N (PeerInfo N N)) := mk_world Example_Store.store peers ∅ 0.
Definition script : list storage_call :=
  [Call_acquire false "a.txt"; Call_acquire false "a.txt"; Call_checksum "a.txt" None; Call_flush 3;
   Call_release true 0; Call_release true 0]%string.
Definition run : World (gmap N (PeerInfo N N)) :=
  storage_calls (H := Z) (fun _ => []) "/ws" no_model (fun _ => Ok Plain_Hash.reads) script start.
End Example_Scripts.
Lemma script_handles_exclude_witness :
  guards_for "a.txt" (held Example_Scripts.run) = [mk_guard "a.txt" 0 false] /\
  storage_remove "a.txt" Example_Scripts.run = (Raises "storage_remove: InUse: file a.txt is in use"%string, Example_Scripts.run).
Proof.
  assert (guards_for "a.txt" (held Example_Scripts.run) = [mk_guard "a.txt" 0 false]) as Hg by (vm_compute; reflexivity).
  split; [exact Hg|].
  apply (script_handles_exclude (H := Z) (fun _ => []) "/ws" no_model (fun _ => Ok Plain_Hash.reads) Example_Scripts.script
    Example_Store.store peers "a.txt").
  - apply new_wf.
  - apply new_wf.
  - vm_compute. reflexivity.
  - repeat constructor; intros [].
  - change (guards_for "a.txt" (held Example_Scripts.run) <> []). rewrite Hg. discriminate.
Defined.
