(* ===== verification/DsWeights.v ===== *)
(** * DeepSeek V4 weights ([deepseek_v4/quant.rs], [deepseek_v4/loader.rs])

    The number formats of the quantised weights, their dequantisation, and the
    reader of safetensors files held in memory.  The crate does not compile these
    files at present (their feature is not declared), they are kept beside it.

    A 32-bit float is a signed dyadic number, an infinity or not a number; the
    products computed here need no rounding ([f32_mul_exact]).  Outside are
    serde_json's parser and candle's construction of tensors.  [usize] arithmetic
    is with ([chk]) or without overflow checks; indexes are below the length of a
    buffer, so theirs does not overflow. *)
From S2P Require Import Prelude RustStd Wire Json Cursor.

(** ** Floats *)
Inductive f32 : Type := Fin (neg : bool) (mant expo : Z) | Inf (neg : bool) | NaN.
(** [m * 2^e < 2^128]: what a finite float is below. *)
Definition small (m e : Z) : bool := m * 2 ^ Z.max 0 e <? 2 ^ 128 * 2 ^ Z.max 0 (- e).
(** A product that is exact: the mantissa fits and the exponent is not below the
    least one. *)
Definition f32_mul (x y : f32) : f32 :=
  match x, y with
  | NaN, _ | _, NaN => NaN
  | Inf n, Inf n' => Inf (xorb n n')
  | Inf n, Fin n' m _ | Fin n' m _, Inf n => if m =? 0 then NaN else Inf (xorb n n')
  | Fin n m e, Fin n' m' e' => if small (m * m') (e + e') then Fin (xorb n n') (m * m') (e + e') else Inf (xorb n n')
  end.
Definition exact (x : f32) : Prop := match x with Fin _ m e => 0 <= m < 2 ^ 24 /\ -149 <= e | _ => True end.
(** [f32::from_bits] *)
Definition f32_from_bits (bits : Z) : f32 :=
  let neg := Z.testbit bits 31 in
  let exp := Z.land (Z.shiftr bits 23) 0xFF in
  let mant := Z.land bits 0x7FFFFF in
  if exp =? 0 then Fin neg mant (-149)
  else if exp =? 0xFF then (if mant =? 0 then Inf neg else NaN)
  else Fin neg (2 ^ 23 + mant) (exp - 150).

(** ** [quant.rs] *)
Definition FP8_BLOCK : Z := 128.
Definition FP4_BLOCK : Z := 32.
(** The magnitudes, in halves. *)
Definition MAG : list Z := [0; 1; 2; 3; 4; 6; 8; 12].
Definition e2m1_decode (nibble : Z) : f32 :=
  Fin (Z.testbit nibble 3) (default 0 (MAG !! Z.to_nat (Z.land nibble 7))) (-1).
Definition e4m3_decode (byte : Z) : f32 :=
  let neg := Z.testbit byte 7 in
  let exp := Z.land (Z.shiftr byte 3) 0x0F in
  let mant := Z.land byte 7 in
  if exp =? 0 then Fin neg mant (-9)
  else if (exp =? 0x0F) && (mant =? 7) then NaN
  else Fin neg (8 + mant) (exp - 10).
Definition e8m0_decode (byte : Z) : f32 := if byte =? 0xFF then NaN else Fin false 1 (byte - 127).
Definition bf16_decode (bits : Z) : f32 := f32_from_bits (Z.shiftl bits 16).

(** [v[i]]: a panic out of range. *)
Definition at_ {A} (l : list A) (i : Z) : option A := if i <? 0 then None else l !! Z.to_nat i.
Definition div_ceil (a b : Z) : Z := (a + b - 1) / b.
(** Row by row; [None] is a panic. *)
Definition rows_of {A} (rows cols : Z) (f : Z -> Z -> option A) : option (list A) :=
  ls ← mapM (fun i => mapM (f i) (seqZ 0 cols)) (seqZ 0 rows); Some (concat ls).
Definition fp8_entry (weight scale : bytes) (cols block sc_cols i j : Z) : option f32 :=
  w ← at_ weight (i * cols + j);
  s ← at_ scale (i / block * sc_cols + j / block);
  Some (f32_mul (e4m3_decode (bz w)) (e8m0_decode (bz s))).
Definition fp8_weight_dequant (weight scale : bytes) (rows cols block : Z) : option (list f32) :=
  if block =? 0 then None else
  let sc_cols := div_ceil cols block in
  rows_of rows cols (fp8_entry weight scale cols block sc_cols).
Definition fp4_entry (packed scale : bytes) (packed_cols block sc_cols i j : Z) : option f32 :=
  byte ← at_ packed (i * packed_cols + j / 2);
  let nibble := if j mod 2 =? 0 then Z.land (bz byte) 0x0F else Z.shiftr (bz byte) 4 in
  let w := e2m1_decode nibble in
  s ← at_ scale (i * sc_cols + j / block);
  Some (f32_mul w (e8m0_decode (bz s))).
Definition fp4_weight_dequant (packed scale : bytes) (rows cols block : Z) : option (list f32) :=
  if block =? 0 then None else
  let sc_cols := cols / block in
  let packed_cols := cols / 2 in
  rows_of rows cols (fp4_entry packed scale packed_cols block sc_cols).

(** ** [loader.rs] *)
Record TensorInfo : Type := mk_info { dtype : string; shape : list Z; begin : Z; end_ : Z }.
Definition usz (chk : bool) (z : Z) : result (fault string) Z :=
  if in_rangeb 64 z then Ok z else if chk then Err Panicked else Ok (wrap 64 z).
Definition fail_with {A} (msg : string) (o : option A) : result (fault string) A := ok_or (Failed msg) o.
Fixpoint map_result {E A B} (f : A -> result E B) (l : list A) : result E (list B) :=
  match l with [] => Ok [] | a :: l => b ← f a; bs ← map_result f l; Ok (b :: bs) end.
(** [&buf[from..to]] *)
Definition slice_at (buf : bytes) (from to : Z) : result (fault string) bytes :=
  if (from <=? to) && (to <=? zlen buf) then Ok (slice buf from to) else Err Panicked.
Section parse.
Context (chk : bool) (from_slice : bytes -> result string json).
Definition offset_of (name : string) (data_start : Z) (v : json) : result (fault string) Z :=
  r ← fail_with (name +:+ ": bad data_offset")%string (json_u64 v); usz chk (data_start + r).
Definition parse_entry (data_start len : Z) (name : string) (v : json) : result (fault string) TensorInfo :=
  dtype ← fail_with (name +:+ ": missing dtype")%string (field v "dtype" ≫= json_str);
  dims ← fail_with (name +:+ ": missing shape")%string (field v "shape" ≫= json_array);
  shape ← map_result (fun d => fail_with (name +:+ ": non-integer shape dim")%string (json_u64 d)) dims;
  offs ← fail_with (name +:+ ": missing data_offsets")%string (field v "data_offsets" ≫= json_array);
  match offs with
  | [rb; re] =>
      b ← offset_of name data_start rb;
      e ← offset_of name data_start re;
      if (e <? b) || (len <? e) then Err (Failed (name +:+ ": data_offsets out of range")%string)
      else Ok (mk_info dtype shape b e)
  | _ => Err (Failed (name +:+ ": data_offsets must have 2 entries")%string)
  end.
Fixpoint parse_entries (data_start len : Z) (obj : list (string * json)) (tensors : gmap string TensorInfo)
    : result (fault string) (gmap string TensorInfo) :=
  match obj with
  | [] => Ok tensors
  | (name, v) :: obj =>
      if String.eqb name "__metadata__" then parse_entries data_start len obj tensors
      else i ← parse_entry data_start len name v; parse_entries data_start len obj (<[name := i]> tensors)
  end.
Definition parse_header (buf : bytes) : result (fault string) (gmap string TensorInfo) :=
  if zlen buf <? 8 then Err (Failed "file too small for a safetensors header"%string) else
  let header_len := from_le_bytes (take 8 buf) in
  data_start ← usz chk (8 + header_len);
  if zlen buf <? data_start then Err (Failed "header length exceeds file size"%string) else
  text ← slice_at buf 8 data_start;
  v ← map_err Failed (from_slice text);
  match v with
  | JObj obj => parse_entries data_start (zlen buf) obj ∅
  | _ => Err (Failed "header is not a JSON object"%string)
  end.
End parse.
Record SafeTensors : Type := mk_safe { data : bytes; tensors : gmap string TensorInfo }.
Definition from_bytes (chk : bool) (from_slice : bytes -> result string json) (bs : bytes) : result (fault string) SafeTensors :=
  t ← parse_header chk from_slice bs; Ok (mk_safe bs t).
Definition tensor_names (st : SafeTensors) : list string := Sort.sort (map_to_list (tensors st)).*1.
Definition info (st : SafeTensors) (name : string) : option TensorInfo := tensors st !! name.
Definition raw (st : SafeTensors) (name : string) : result (fault string) bytes :=
  i ← fail_with ("tensor not found: " +:+ name)%string (info st name); slice_at (data st) (begin i) (end_ i).

(** Reading a tensor: the bytes it needs, its values, and candle's construction
    of a tensor of that shape, as [bf16]. *)
Section tensors.
Context {T : Type} (chk : bool) (from_vec : list f32 -> list Z -> result (fault string) T) (to_bf16 : T -> result (fault string) T).
Fixpoint usz_product (acc : Z) (l : list Z) : result (fault string) Z :=
  match l with [] => Ok acc | d :: l => acc ← usz chk (acc * d); usz_product acc l end.
Definition dec (z : Z) : string := of_bytes (Num.print_dec z).
(** [{shape:?}] *)
Definition show_shape (l : list Z) : string := ("[" +:+ String.concat ", " (map dec l) +:+ "]")%string.
(** [chunks_exact(n)]: what is left over is dropped. *)
Fixpoint chunks_exact (fuel : nat) (n : nat) (l : bytes) : list bytes :=
  match fuel with
  | O => []
  | S fuel => if (length l <? n)%nat then [] else take n l :: chunks_exact fuel n (drop n l)
  end.
Definition words (n : nat) (l : bytes) : list Z := map from_le_bytes (chunks_exact (length l) n l).
Definition built (vals : list f32) (shape : list Z) : result (fault string) T :=
  t ← from_vec vals shape; to_bf16 t.
(** Both plain formats: [what], the bytes of an element, its decoding. *)
Definition plain_tensor (what : string) (size : Z) (value : Z -> f32) (st : SafeTensors) (name : string) (shape : list Z)
    : result (fault string) T :=
  b ← raw st name;
  n ← usz_product 1 shape;
  want ← usz chk (n * size);
  if negb (zlen b =? want)
  then Err (Failed (name +:+ ": expected " +:+ dec want +:+ " " +:+ what +:+ " bytes for shape " +:+ show_shape shape
                    +:+ ", found " +:+ dec (zlen b))%string)
  else built (map value (words (Z.to_nat size) b)) shape.
Definition f32_tensor : SafeTensors -> string -> list Z -> result (fault string) T := plain_tensor "F32" 4 f32_from_bits.
Definition bf16_tensor : SafeTensors -> string -> list Z -> result (fault string) T := plain_tensor "BF16" 2 bf16_decode.
Definition auto_tensor (st : SafeTensors) (name : string) (shape : list Z) : result (fault string) T :=
  i ← fail_with ("tensor not found: " +:+ name)%string (info st name);
  if String.eqb (dtype i) "F32" then f32_tensor st name shape
  else if String.eqb (dtype i) "BF16" then bf16_tensor st name shape
  else Err (Failed (name +:+ ": auto_tensor handles F32/BF16, not " +:+ dtype i)%string).
Definition panics_if_none {A} (o : option A) : result (fault string) A := ok_or Panicked o.
Definition sizes_error (prefix what kind : string) (rows cols block want_weight want_scale weight scale : Z) : string :=
  (prefix +:+ ": " +:+ what +:+ " [" +:+ dec rows +:+ "," +:+ dec cols +:+ "] block " +:+ dec block +:+ " wants "
   +:+ dec want_weight +:+ " " +:+ kind +:+ " + " +:+ dec want_scale +:+ " scale bytes, found " +:+ dec weight +:+ " + "
   +:+ dec scale)%string.
Definition fp8_tensor (st : SafeTensors) (prefix : string) (rows cols block : Z) : result (fault string) T :=
  weight ← raw st (prefix +:+ ".weight")%string;
  scale ← raw st (prefix +:+ ".scale")%string;
  if block =? 0 then Err Panicked else
  want_scale ← usz chk (div_ceil rows block * div_ceil cols block);
  n ← usz chk (rows * cols);
  if negb (zlen weight =? n) || negb (zlen scale =? want_scale)
  then Err (Failed (sizes_error prefix "FP8" "weight" rows cols block n want_scale (zlen weight) (zlen scale)))
  else vals ← panics_if_none (fp8_weight_dequant weight scale rows cols block); built vals [rows; cols].
Definition fp4_tensor (st : SafeTensors) (prefix : string) (rows cols block : Z) : result (fault string) T :=
  weight ← raw st (prefix +:+ ".weight")%string;
  scale ← raw st (prefix +:+ ".scale")%string;
  if block =? 0 then Err Panicked else
  want_scale ← usz chk (rows * (cols / block));
  n ← usz chk (rows * cols);
  if negb (zlen weight =? n / 2) || negb (zlen scale =? want_scale)
  then Err (Failed (sizes_error prefix "FP4" "packed" rows cols block (n / 2) want_scale (zlen weight) (zlen scale)))
  else vals ← panics_if_none (fp4_weight_dequant weight scale rows cols block); built vals [rows; cols].
Definition linear (st : SafeTensors) (prefix : string) (rows cols : Z) (fp4 : bool) : result (fault string) T :=
  match info st (prefix +:+ ".scale")%string with
  | Some _ => if fp4 then fp4_tensor st prefix rows cols FP4_BLOCK else fp8_tensor st prefix rows cols FP8_BLOCK
  | None => auto_tensor st (prefix +:+ ".weight")%string [rows; cols]
  end.

(** [MultiSafeTensors]: the shards, looked through in order. *)
Definition from_shards (from_slice : bytes -> result string json) (shard_bytes : list bytes) : result (fault string) (list SafeTensors) :=
  map_result (from_bytes chk from_slice) shard_bytes.
Definition find_shard (shards : list SafeTensors) (name : string) : result (fault string) SafeTensors :=
  fail_with ("tensor not found in any shard: " +:+ name)%string
    (List.find (fun s => bool_decide (is_Some (info s name))) shards).
Definition multi_info (shards : list SafeTensors) (name : string) : option TensorInfo :=
  s ← List.find (fun s => bool_decide (is_Some (info s name))) shards; info s name.
Definition multi_auto_tensor (shards : list SafeTensors) (name : string) (shape : list Z) : result (fault string) T :=
  s ← find_shard shards name; auto_tensor s name shape.
Definition multi_linear (shards : list SafeTensors) (prefix : string) (rows cols : Z) (fp4 : bool) : result (fault string) T :=
  s ← find_shard shards (prefix +:+ ".weight")%string; linear s prefix rows cols fp4.
End tensors.

(** ** Lemmas *)
Definition grid {A} (rows cols : Z) (g : Z -> Z -> A) : list A :=
  concat (map (fun i => map (g i) (seqZ 0 cols)) (seqZ 0 rows)).
Lemma mapM_total {A B} (f : A -> option B) (g : A -> B) l :
  (forall x, x ∈ l -> f x = Some (g x)) -> mapM f l = Some (map g l).
Proof.
  induction l as [|x l IH]; intros H; [done|]. cbn. rewrite (H x) by (by left).
  cbn. rewrite IH; [done|]. intros y Hy. apply H. by right.
Qed.
Lemma rows_of_total {A} rows cols (f : Z -> Z -> option A) g :
  (forall i j, 0 <= i < rows -> 0 <= j < cols -> f i j = Some (g i j)) -> rows_of rows cols f = Some (grid rows cols g).
Proof.
  intros H. unfold rows_of, grid. rewrite (mapM_total _ (fun i => map (g i) (seqZ 0 cols))); [done|].
  intros i Hi%elem_of_seqZ. apply mapM_total. intros j Hj%elem_of_seqZ. apply H; lia.
Qed.
Lemma rows_of_panics {A} rows cols (f : Z -> Z -> option A) i j :
  0 <= i < rows -> 0 <= j < cols -> f i j = None -> rows_of rows cols f = None.
Proof.
  intros Hi Hj Hn. unfold rows_of.
  assert (mapM (fun i => mapM (f i) (seqZ 0 cols)) (seqZ 0 rows) = None) as ->; [|done].
  apply mapM_None, Exists_exists. exists i. split; [apply elem_of_seqZ; lia|].
  apply mapM_None, Exists_exists. exists j. split; [apply elem_of_seqZ; lia|done].
Qed.
Definition byte_at (l : bytes) (i : Z) : Z := bz (nth (Z.to_nat i) l x00).
Lemma at_Some (l : bytes) i : 0 <= i < zlen l -> exists b, at_ l i = Some b /\ byte_at l i = bz b.
Proof.
  intros Hi. unfold at_, byte_at. rewrite (proj2 (Z.ltb_ge i 0)) by lia.
  destruct (l !! Z.to_nat i) as [b|] eqn:Hb.
  - exists b. split; [done|]. by rewrite (nth_lookup_Some _ _ _ _ Hb).
  - apply lookup_ge_None in Hb. unfold zlen in Hi. lia.
Qed.
Lemma at_None {A} (l : list A) i : zlen l <= i -> at_ l i = None.
Proof. intros Hi. unfold at_. case_match; [done|]. apply lookup_ge_None. unfold zlen in Hi. lia. Qed.
Lemma div_ceil_spec a b : 0 <= a -> 0 < b -> a <= div_ceil a b * b /\ forall i, 0 <= i < a -> 0 <= i / b < div_ceil a b.
Proof.
  intros Ha Hb. unfold div_ceil. pose proof (Z.div_mod (a + b - 1) b). pose proof (Z.mod_pos_bound (a + b - 1) b Hb).
  split; [nia|]. intros i Hi. split; [apply Z.div_pos; lia|]. apply Z.div_lt_upper_bound; nia.
Qed.
Lemma land_range z k : 0 <= k -> 0 <= Z.land z (Z.ones k) < 2 ^ k.
Proof. intros. rewrite Z.land_ones by lia. apply Z.mod_pos_bound. apply Z.pow_pos_nonneg; lia. Qed.

Lemma row_index i j rows c : 0 <= i < rows -> 0 <= j < c -> 0 <= i * c + j < rows * c.
Proof. intros Hi Hj. assert ((i + 1) * c <= rows * c) by (apply Z.mul_le_mono_nonneg_r; lia). nia. Qed.

(** The decoded values are exact, and so are the products. *)
Definition tiny (k : Z) (x : f32) : Prop := match x with Fin _ m e => 0 <= m < 16 /\ k <= e | _ => True end.
Lemma e4m3_tiny b : 0 <= b < 256 -> tiny (-9) (e4m3_decode b).
Proof.
  intros _. unfold e4m3_decode. pose proof (land_range b 3 ltac:(lia)). pose proof (land_range (Z.shiftr b 3) 4 ltac:(lia)).
  change (Z.ones 3) with 7 in *. change (Z.ones 4) with 15 in *. change (2 ^ 3) with 8 in *. change (2 ^ 4) with 16 in *.
  destruct (Z.eqb_spec (Z.land (Z.shiftr b 3) 15) 0); cbn; [lia|]. case_match; cbn; lia.
Qed.
Lemma e2m1_tiny n : tiny (-1) (e2m1_decode n).
Proof.
  unfold e2m1_decode, tiny. split; [|lia]. destruct (MAG !! _) as [m|] eqn:E; cbn; [|lia].
  apply list_elem_of_lookup_2 in E. unfold MAG in E.
  repeat (apply elem_of_cons in E as [->|E]; [lia|]). by apply not_elem_of_nil in E.
Qed.
Lemma scaled_exact k x s : -9 <= k -> tiny k x -> 0 <= s < 256 -> exact (f32_mul x (e8m0_decode s)).
Proof.
  intros Hk Hx Hs. unfold e8m0_decode. destruct (s =? 255); [by destruct x|]. destruct x as [n m e|n|]; cbn; [|done|done].
  destruct (small _ _); cbn; [|done]. cbn in Hx. lia.
Qed.

Definition fp8_value (weight scale : bytes) (cols block i j : Z) : f32 :=
  f32_mul (e4m3_decode (byte_at weight (i * cols + j)))
    (e8m0_decode (byte_at scale (i / block * div_ceil cols block + j / block))).
Definition fp4_value (packed scale : bytes) (cols block i j : Z) : f32 :=
  let byte := byte_at packed (i * (cols / 2) + j / 2) in
  f32_mul (e2m1_decode (if j mod 2 =? 0 then Z.land byte 15 else Z.shiftr byte 4))
    (e8m0_decode (byte_at scale (i * (cols / block) + j / block))).
Lemma byte_at_range l i : 0 <= byte_at l i < 256.
Proof. apply bz_range. Qed.

(** the dequantised matrix has at row i and column j the product of the
    decoded weight and of the decoded scale of its tile, whatever the shape, as
    long as the sizes are those the loader tests; every product is exact. *)
Theorem fp8_dequant_spec weight scale rows cols block :
  0 <= rows -> 0 <= cols -> 0 < block ->
  zlen weight = rows * cols -> zlen scale = div_ceil rows block * div_ceil cols block ->
  fp8_weight_dequant weight scale rows cols block = Some (grid rows cols (fp8_value weight scale cols block)) /\
  forall i j, exact (fp8_value weight scale cols block i j).
Proof.
  intros Hr Hc Hb Hw Hs. split.
  - unfold fp8_weight_dequant. rewrite (proj2 (Z.eqb_neq block 0)) by lia. apply rows_of_total. intros i j Hi Hj.
    destruct (div_ceil_spec rows block Hr Hb) as [_ Hri]. destruct (div_ceil_spec cols block Hc Hb) as [_ Hcj].
    specialize (Hri i Hi). specialize (Hcj j Hj). unfold fp8_entry, fp8_value.
    destruct (at_Some weight (i * cols + j)) as (w & -> & ->); [rewrite Hw; by apply row_index|]. cbn [mbind option_bind].
    destruct (at_Some scale (i / block * div_ceil cols block + j / block)) as (s & -> & ->); [rewrite Hs; by apply row_index|done].
  - intros i j. apply (scaled_exact (-9)); [lia| |apply byte_at_range]. apply e4m3_tiny, byte_at_range.
Qed.

(** with the sizes the loader tests, the dequantisation of packed weights
    returns exactly when the number of columns is a multiple of the block;
    otherwise it panics, on the last row at the latest. When it returns, the even
    columns are the low half-bytes and the odd ones the high, times the scale of
    their block. *)
Theorem fp4_dequant_iff packed scale rows cols block :
  0 < rows -> 0 <= cols -> 0 < block -> block mod 2 = 0 ->
  zlen packed = rows * cols / 2 -> zlen scale = rows * (cols / block) ->
  (cols mod block = 0 ->
     fp4_weight_dequant packed scale rows cols block = Some (grid rows cols (fp4_value packed scale cols block)) /\
     forall i j, exact (fp4_value packed scale cols block i j)) /\
  (cols mod block <> 0 -> fp4_weight_dequant packed scale rows cols block = None).
Proof.
  intros Hr Hc Hb Heven Hp Hs. unfold fp4_weight_dequant. rewrite (proj2 (Z.eqb_neq block 0)) by lia.
  pose proof (Z.div_mod cols block ltac:(lia)) as Hdm. pose proof (Z.mod_pos_bound cols block Hb) as Hmb. split.
  - intros Hz. split; [|intros i j; apply (scaled_exact (-1)); [lia|apply e2m1_tiny|apply byte_at_range]].
    assert (cols = 2 * (cols / 2)) as Hc2.
    { pose proof (Z.div_mod block 2 ltac:(lia)). rewrite Heven in *. pose proof (Z.div_mod cols 2 ltac:(lia)).
      assert (cols mod 2 = 0); [|lia]. apply Z.mod_divide; [lia|]. exists (block / 2 * (cols / block)). nia. }
    assert (rows * cols / 2 = rows * (cols / 2)) as Hh.
    { rewrite Hc2 at 1. replace (rows * (2 * (cols / 2))) with (rows * (cols / 2) * 2) by ring. by apply Z.div_mul. }
    apply rows_of_total. intros i j Hi Hj. unfold fp4_entry, fp4_value.
    assert (0 <= j / 2 < cols / 2) by (split; [apply Z.div_pos; lia|apply Z.div_lt_upper_bound; lia]).
    assert (0 <= j / block < cols / block) by (split; [apply Z.div_pos; lia|apply Z.div_lt_upper_bound; lia]).
    destruct (at_Some packed (i * (cols / 2) + j / 2)) as (w & -> & ->); [rewrite Hp, Hh; by apply row_index|]. cbn [mbind option_bind].
    destruct (at_Some scale (i * (cols / block) + j / block)) as (s & -> & ->); [rewrite Hs; by apply row_index|done].
  - intros Hz. assert (0 <= cols / block) by (apply Z.div_pos; lia).
    apply (rows_of_panics _ _ _ (rows - 1) (cols / block * block)); [lia|nia|]. unfold fp4_entry.
    destruct (at_ packed _) as [w|]; [|done]. cbn [mbind option_bind].
    rewrite (at_None scale); [done|]. rewrite Z.div_mul, Hs by lia. apply Z.eq_le_incl. ring.
Qed.

(** ** Headers *)
Definition entry_ok (len : Z) (i : TensorInfo) : Prop := 0 <= begin i <= end_ i /\ end_ i <= len.
Definition never_panics {A} (r : result (fault string) A) : Prop := r <> Err Panicked.
Lemma usz_range chk z v : usz chk z = Ok v -> in_range 64 v.
Proof.
  unfold usz. destruct (in_rangeb 64 z) eqn:E; [|destruct chk; [done|]]; intros [= <-]; [|apply wrap_range; lia].
  unfold in_rangeb, in_range in *. lia.
Qed.

Section header_theorems.
Context (from_slice : bytes -> result string json).
Lemma offset_of_range chk name ds v z : offset_of chk name ds v = Ok z -> 0 <= z.
Proof. unfold offset_of. intros H. inv_ok. match goal with H : usz _ _ = Ok _ |- _ => apply usz_range in H as [? ?] end. done. Qed.
Lemma parse_entry_ok chk ds len name v i : parse_entry chk ds len name v = Ok i -> entry_ok len i.
Proof.
  unfold parse_entry. intros H. inv_ok.
  match goal with H : match ?l with _ => _ end = Ok i |- _ => destruct l as [|rb [|re [|? ?]]]; try done end.
  inv_ok. case_match eqn:E; [done|]. inv_ok. apply orb_false_elim in E as [E1 E2]. unfold entry_ok. cbn.
  repeat match goal with H : offset_of _ _ _ _ = Ok _ |- _ => apply offset_of_range in H end. lia.
Qed.
Lemma parse_entries_ok chk ds len obj ts ts' :
  (forall n i, ts !! n = Some i -> entry_ok len i) -> parse_entries chk ds len obj ts = Ok ts' ->
  forall n i, ts' !! n = Some i -> entry_ok len i.
Proof.
  revert ts. induction obj as [|[name v] obj IH]; intros ts Hts; cbn [parse_entries]; [by intros [= <-]|].
  destruct (String.eqb name _); [by apply IH|]. intros H. inv_ok.
  match goal with H : parse_entry _ _ _ _ _ = Ok _ |- _ => apply parse_entry_ok in H; rename H into Hi end.
  eapply IH; [|eassumption]. intros n i Hn. apply lookup_insert_Some in Hn as [[<- <-]|[_ Hn]]; [done|by apply (Hts n)].
Qed.
Lemma usz_release z : usz false z = Ok (wrap 64 z) \/ usz false z = Ok z.
Proof. unfold usz. destruct (in_rangeb 64 z); auto. Qed.
Lemma map_result_no_panic {A B} (f : A -> result (fault string) B) l :
  (forall a, never_panics (f a)) -> never_panics (map_result f l).
Proof.
  intros Hf. induction l as [|a l IH]; cbn; [done|]. pose proof (Hf a) as Ha. destruct (f a) as [b|[]]; cbn; [|done|done].
  destruct (map_result f l) as [bs|[]]; cbn; done.
Qed.
Lemma offset_of_release name ds v : never_panics (offset_of false name ds v).
Proof. unfold offset_of. destruct (json_u64 v) as [z|]; cbn; [|done]. by destruct (usz_release (ds + z)) as [->| ->]. Qed.
Lemma fail_with_no_panic {A} m (o : option A) : never_panics (fail_with m o).
Proof. by destruct o. Qed.
Lemma bind_no_panic {A B} (m : result (fault string) A) (f : A -> result (fault string) B) :
  never_panics m -> (forall a, m = Ok a -> never_panics (f a)) -> never_panics (m ≫= f).
Proof. destruct m as [a|[]]; cbn; intros Hm Hf; [by apply Hf|done|done]. Qed.
Lemma parse_entry_release ds len name v : never_panics (parse_entry false ds len name v).
Proof.
  unfold parse_entry. repeat (apply bind_no_panic; [apply fail_with_no_panic || apply map_result_no_panic; intros; apply fail_with_no_panic|intros ? _]).
  case_match; [done|]. case_match; [done|]. case_match; [|done].
  repeat (apply bind_no_panic; [apply offset_of_release|intros ? _]). by case_match.
Qed.
Lemma parse_entries_release ds len obj ts : never_panics (parse_entries false ds len obj ts).
Proof.
  revert ts. induction obj as [|[name v] obj IH]; intros ts; cbn [parse_entries]; [done|].
  destruct (String.eqb name _); [apply IH|]. apply bind_no_panic; [apply parse_entry_release|intros; apply IH].
Qed.

(** C24: every tensor a header announces lies within the file, so reading its
    bytes never panics; and the header itself makes the reader panic, without
    overflow checks, exactly when the length in its first eight bytes is within
    eight of the largest integer, which no test refuses. *)
Theorem header_in_bounds buf :
  zlen buf <= isize_max ->
  (forall chk st name, from_bytes chk from_slice buf = Ok st ->
     match info st name with
     | Some i => entry_ok (zlen buf) i /\ raw st name = Ok (slice buf (begin i) (end_ i))
     | None => raw st name = Err (Failed ("tensor not found: " +:+ name)%string)
     end) /\
  (parse_header false from_slice buf = Err Panicked <-> 8 <= zlen buf /\ 2 ^ 64 - 8 <= from_le_bytes (take 8 buf)).
Proof.
  intros Hlen. split.
  - intros chk st name Hst. unfold from_bytes in Hst. inv_ok. unfold raw, info. cbn [tensors data].
    match goal with H : parse_header _ _ _ = Ok ?t |- _ => rename H into Hp; rename t into ts end.
    destruct (ts !! name) as [i|] eqn:Hi; [|done]. cbn [fail_with ok_or mbind result_bind].
    assert (entry_ok (zlen buf) i) as Hok.
    { unfold parse_header in Hp. destruct (zlen buf <? 8); [done|]. inv_ok. case_match; [done|]. inv_ok.
      case_match; try done. by eapply (parse_entries_ok _ _ _ _ ∅). }
    split; [done|]. unfold slice_at. destruct Hok as [[? ?] ?].
    by rewrite (proj2 (Z.leb_le (begin i) (end_ i))), (proj2 (Z.leb_le (end_ i) (zlen buf))) by lia.
  - unfold parse_header. destruct (Z.ltb_spec (zlen buf) 8) as [Hs|Hs]; [split; [done|lia]|].
    assert (zlen (take 8 buf) = 8) as H8 by (unfold zlen in *; rewrite length_take; lia).
    pose proof (from_le_bytes_range (take 8 buf)) as Hr. rewrite H8 in Hr. unfold in_range in Hr. change (8 * 8) with 64 in Hr.
    set (h := from_le_bytes (take 8 buf)) in *. unfold usz, in_rangeb.
    destruct (Z.lt_ge_cases (8 + h) (2 ^ 64)) as [Hlt|Hge].
    + rewrite (proj2 (Z.leb_le 0 (8 + h))), (proj2 (Z.ltb_lt (8 + h) (2 ^ 64))) by lia. cbn [andb mbind result_bind].
      split; [|lia]. intros Hp. exfalso. revert Hp. destruct (Z.ltb_spec (zlen buf) (8 + h)); [done|].
      unfold slice_at. rewrite (proj2 (Z.leb_le 8 (8 + h))), (proj2 (Z.leb_le (8 + h) (zlen buf))) by lia.
      cbn [andb mbind result_bind]. destruct (from_slice _) as [v|]; cbn [map_err mbind result_bind]; [|done].
      destruct v; try done. apply parse_entries_release.
    + rewrite (proj2 (Z.ltb_ge (8 + h) (2 ^ 64))), andb_false_r by lia. cbn [mbind result_bind].
      assert (wrap 64 (8 + h) = 8 + h - 2 ^ 64) as -> by (unfold wrap; rewrite <- (Z.mod_small (8 + h - 2 ^ 64) (2 ^ 64)), Zminus_mod, Z_mod_same_full, Z.sub_0_r, Z.mod_mod by lia; done).
      split; [intros _; lia|intros _]. rewrite (proj2 (Z.ltb_ge (zlen buf) _)) by lia.
      unfold slice_at. rewrite (proj2 (Z.leb_gt 8 _)) by lia. done.
Qed.
End header_theorems.

(** A weight that has its scale in a later shard than its values is handed to the
    reader of plain tensors, which refuses its format. *)
Lemma scale_in_later_shard {T} chk (from_vec : list f32 -> list Z -> result (fault string) T) to_bf16 s1 s2 prefix rows cols fp4 i j :
  info s1 (prefix +:+ ".weight")%string = Some i -> dtype i = "F8_E4M3"%string ->
  info s1 (prefix +:+ ".scale")%string = None -> info s2 (prefix +:+ ".scale")%string = Some j ->
  multi_linear chk from_vec to_bf16 [s1; s2] prefix rows cols fp4 =
  Err (Failed ((prefix +:+ ".weight") +:+ ": auto_tensor handles F32/BF16, not F8_E4M3")%string).
Proof.
  intros Hi Hd Hn _. unfold multi_linear, find_shard. cbn [List.find]. rewrite bool_decide_eq_true_2 by (rewrite Hi; by eexists).
  cbn [fail_with ok_or mbind result_bind]. unfold linear. rewrite Hn. unfold auto_tensor. rewrite Hi.
  cbn [fail_with ok_or mbind result_bind]. rewrite Hd. done.
Qed.

(** ** Witnesses *)
(** One row of two weights, [1.0] and [-1.5], their scale [2^1]. *)
Lemma fp8_dequant_spec_witness :
  fp8_weight_dequant [x38; xbc] [x80] 1 2 128 = Some [Fin false 8 (-2); Fin true 12 (-2)] /\
  exact (fp8_value [x38; xbc] [x80] 2 128 0 1).
Proof.
  destruct (fp8_dequant_spec [x38; xbc] [x80] 1 2 128) as [H1 H2]; [lia|lia|lia|vm_compute; reflexivity|vm_compute; reflexivity|].
  split; [rewrite H1; vm_compute; reflexivity|apply H2].
Defined.
(** One row of four columns in blocks of two; then of three, which panics. *)
Lemma fp4_dequant_iff_witness :
  fp4_weight_dequant [x21; xf7] [x80; x7f] 1 4 2 =
    Some [Fin false 1 0; Fin false 2 0; Fin false 12 (-1); Fin true 12 (-1)] /\
  fp4_weight_dequant [x21] [x80] 1 3 2 = None.
Proof.
  destruct (fp4_dequant_iff [x21; xf7] [x80; x7f] 1 4 2) as [H1 _];
    [lia|lia|lia|vm_compute; reflexivity|vm_compute; reflexivity|vm_compute; reflexivity|].
  destruct (fp4_dequant_iff [x21] [x80] 1 3 2) as [_ H2];
    [lia|lia|lia|vm_compute; reflexivity|vm_compute; reflexivity|vm_compute; reflexivity|].
  split; [destruct H1 as [-> _]; vm_compute; reflexivity|apply H2; vm_compute; discriminate].
Defined.
(** A parser that knows one header, of one tensor of two bytes. *)
Definition toy_slice (b : bytes) : result string json :=
  if decide (b = [x7b; x7d])
  then Ok (JObj [("w"%string, JObj [("dtype"%string, JStr "F8_E8M0"); ("shape"%string, JArr [JNum 2]);
                                    ("data_offsets"%string, JArr [JNum 0; JNum 2])])])
  else Err "expected value"%string.
Definition toy_file : bytes := [x02; x00; x00; x00; x00; x00; x00; x00; x7b; x7d; x38; xbc].
Definition toy_st : SafeTensors :=
  match from_bytes true toy_slice toy_file with Ok st => st | Err _ => mk_safe [] ∅ end.
Lemma header_in_bounds_witness :
  (exists st, from_bytes true toy_slice toy_file = Ok st /\ raw st "w" = Ok [x38; xbc]) /\
  parse_header false toy_slice (repeat xff 8) = Err Panicked.
Proof.
  split.
  - destruct (header_in_bounds toy_slice toy_file ltac:(vm_compute; discriminate)) as [H _].
    exists toy_st. split; [vm_compute; reflexivity|].
    destruct (H true toy_st "w"%string ltac:(vm_compute; reflexivity)) as [_ Hr].
    rewrite Hr. vm_compute. reflexivity.
  - apply (header_in_bounds toy_slice (repeat xff 8)); vm_compute; [discriminate|split; discriminate].
Defined.
