(* ===== verification/Bandwidth.v ===== *)
(** * The bandwidth test ([Run_Bandwidth_Test] and [test_bandwidth])

    From the pushed chunks to the figure a script gets: the sender's side around
    the count of [Streams.Bandwidth_Stream], and the quotient, which the code takes
    in 64-bit floats ([MlSession.F64]).  Writes to an open stream succeed. *)
From S2P Require Import Prelude RustStd Wire Codec Streams TensorStream Peers Hub Network Storage Orchestrator Cursor KvCache MlSession Capability.

Import F64.

(** ** Float operations of the quotient *)
Module Quotient.
(** [n as f64], of an integer. *)
Definition of_int (n : Z) : f64 := F64.round n 1.
(** [x * 2^k], which is exact. *)
Definition times_pow2 (x : f64) (k : Z) : f64 :=
  match x with Fin m e => Fin m (e + k) | NaN => NaN end.
(** [x / n], for an integer [0 < n] that is a float. *)
Definition div_int (x : f64) (n : Z) : f64 :=
  match x with Fin m e => F64.round (m * 2 ^ Z.max 0 e) (n * 2 ^ Z.max 0 (- e)) | NaN => NaN end.
(** [x as u64] *)
Definition to_u64 (x : f64) : Z :=
  match x with Fin m e => Z.min (2 ^ 64 - 1) (m * 2 ^ Z.max 0 e / 2 ^ Z.max 0 (- e)) | NaN => 0 end.
End Quotient.
Import Quotient.

(** ** The test *)
Definition DEFAULT_DURATION_SECS : Z := 3.
(** A division by zero gives an infinity, or no number. *)
Definition mbps (total_bytes duration_secs : Z) : Z :=
  let bits := times_pow2 (of_int total_bytes) 3 in
  if duration_secs =? 0 then if total_bytes =? 0 then 0 else 2 ^ 64 - 1
  else to_u64 (div_int (div_int bits duration_secs) 1000000).
(** What is sent, and the figure from what is read back; [clock] as in
    [Send_Bandwidth_Test]. *)
Definition Run_Bandwidth_Test (duration_secs : Z) (clock : list bool) (answer : bytes)
    : option (list bytes * result io_error Z) :=
  sent ← Bandwidth_Stream.Send_Bandwidth_Test duration_secs clock;
  Some (sent, '(total_bytes, _) ← Bandwidth_Stream.Read_Bandwidth_Result answer; Ok (mbps total_bytes duration_secs)).
Definition test_bandwidth (show_io : io_error -> string) (open : result string unit) (clock : list bool) (answer : bytes)
    : option (result Network_Error Z) :=
  match open_stream_as "带宽测试流打开失败" open with
  | Err e => Some (Err e)
  | Ok _ =>
      '(_, r) ← Run_Bandwidth_Test DEFAULT_DURATION_SECS clock answer;
      Some (map_err (fun e => StreamIoError ("带宽测试失败: " +:+ show_io e)%string) r)
  end.

(** ** Lemmas *)
(** Rounding [n / d] below [2^53]: no integer below the quotient is passed, and
    the error is at most one half. *)
Lemma exponent_small n d : 0 < n -> 0 < d -> n < 2 ^ 53 * d -> F64.exponent n d - 52 <= 0.
Proof.
  intros Hn Hd H. unfold F64.exponent, F64.scale.
  assert (Z.log2 n <= Z.log2 d + 53) as Hl.
  { pose proof (Z.log2_spec n Hn). pose proof (Z.log2_spec d Hd).
    destruct (Z.le_gt_cases (Z.log2 n) (Z.log2 d + 53)) as [|Hc]; [done|exfalso].
    assert (2 ^ (Z.log2 d + 54) <= 2 ^ Z.log2 n) as Hp by (apply Z.pow_le_mono_r; lia).
    replace (Z.log2 d + 54) with (53 + Z.succ (Z.log2 d)) in Hp by lia. rewrite Z.pow_add_r in Hp by (pose proof (Z.log2_nonneg d); lia). nia. }
  destruct (Z.eq_dec (Z.log2 n - Z.log2 d) 53) as [E|E].
  - rewrite E. change (Z.max 0 (-53)) with 0. change (Z.max 0 53) with 53. rewrite Z.pow_0_r, Z.mul_1_r.
    rewrite (proj2 (Z.leb_gt _ _)) by lia. lia.
  - case_match; lia.
Qed.
Lemma round_near n d : 0 <= n -> 0 < d -> n < 2 ^ 53 * d ->
  exists m e, F64.round n d = Fin m e /\ e <= 0 /\ 0 <= m /\
    (forall k, 0 <= k -> k * d <= n -> k * 2 ^ (- e) <= m) /\ 2 * (m * d) <= 2 * (n * 2 ^ (- e)) + d.
Proof.
  intros Hn Hd H. unfold F64.round. destruct (Z.eqb_spec n 0) as [->|Hn0].
  { exists 0, 0. split_and!; [done|lia|lia| |lia]. intros k Hk Hk'. change (2 ^ (- 0)) with 1. nia. }
  pose proof (exponent_small n d ltac:(lia) Hd H) as He. set (e := F64.exponent n d - 52) in *.
  unfold F64.scale. rewrite (Z.max_l 0 e), (Z.max_r 0 (- e)), Z.pow_0_r, Z.mul_1_r by lia.
  assert (0 < 2 ^ (- e)) as Hp by (apply Z.pow_pos_nonneg; lia). set (p := 2 ^ (- e)) in *.
  exists (F64.round_div (n * p) d), e. split; [done|]. split; [done|]. unfold F64.round_div.
  pose proof (Z.div_mod (n * p) d ltac:(lia)) as Hdm. pose proof (Z.mod_pos_bound (n * p) d Hd) as Hmb.
  set (q := n * p / d) in *. set (r := (n * p) mod d) in *. assert (0 <= q) as Hq by (apply Z.div_pos; nia).
  assert (forall k, 0 <= k -> k * d <= n -> k * p <= q) as Hk.
  { intros k Hk Hk'. apply Z.div_le_lower_bound; [done|]. nia. }
  destruct (_ || _) eqn:E.
  - assert (d <= 2 * r) as Hr.
    { apply orb_prop in E as [E|[E _]%andb_prop]; [apply Z.ltb_lt in E|apply Z.eqb_eq in E]; lia. }
    split_and!; [lia| |nia]. intros k Hk1 Hk2. specialize (Hk k Hk1 Hk2). lia.
  - apply orb_false_elim in E as [E%Z.ltb_ge _]. split_and!; [lia|exact Hk|nia].
Qed.
Lemma of_int_exact z : 0 <= z < 2 ^ 53 -> exists e, of_int z = Fin (z * 2 ^ (- e)) e /\ e <= 0.
Proof.
  intros Hz. destruct (round_near z 1) as (m & e & Hr & He & _ & Hlo & Hhi); [lia..|]. exists e. split; [|done].
  unfold of_int. rewrite Hr. specialize (Hlo z ltac:(lia) ltac:(lia)). f_equal. lia.
Qed.
(** The float after [n as f64 * 8.0 / d]. *)
Lemma bits_per_second total d : 0 <= total < 2 ^ 50 -> 0 < d ->
  exists m e, div_int (times_pow2 (of_int total) 3) d = Fin m e /\ e <= 0 /\ 0 <= m /\
    (forall k, 0 <= k -> k * d <= 8 * total -> k * 2 ^ (- e) <= m) /\ 2 * (m * d) <= 2 * (8 * total * 2 ^ (- e)) + d.
Proof.
  intros Ht Hd. destruct (of_int_exact total ltac:(lia)) as (e & -> & He). cbn [times_pow2 div_int].
  set (c := 2 ^ Z.max 0 (- (e + 3))). assert (0 < c) as Hc by (apply Z.pow_pos_nonneg; lia).
  assert (total * 2 ^ (- e) * 2 ^ Z.max 0 (e + 3) = 8 * total * c) as ->.
  { rewrite <- Z.mul_assoc, <- Z.pow_add_r by lia. replace (8 * total * c) with (total * (2 ^ 3 * c)) by (change (2 ^ 3) with 8; ring).
    f_equal. unfold c. rewrite <- Z.pow_add_r by lia. f_equal. lia. }
  destruct (round_near (8 * total * c) (d * c)) as (m & e1 & -> & He1 & Hm & Hlo & Hhi); [nia|nia|nia|].
  exists m, e1. split_and!; [done|done|done| |].
  - intros k Hk Hk'. apply Hlo; [done|nia].
  - assert (0 < 2 ^ (- e1)) by (apply Z.pow_pos_nonneg; lia). nia.
Qed.
(** The figure is the exact quotient rounded down, or one more. *)
Lemma mbps_spec total d : 0 <= total < 2 ^ 50 -> 0 < d ->
  let exact := 8 * total / (d * 1000000) in exact <= mbps total d <= exact + 1.
Proof.
  intros Ht Hd exact. unfold mbps. rewrite (proj2 (Z.eqb_neq d 0)) by lia. cbv zeta.
  destruct (bits_per_second total d Ht Hd) as (m1 & e1 & -> & He1 & Hm1 & Hlo1 & Hhi1).
  cbn [div_int]. rewrite (Z.max_l 0 e1), (Z.max_r 0 (- e1)), Z.pow_0_r, Z.mul_1_r by lia.
  set (p1 := 2 ^ (- e1)) in *. assert (0 < p1) as Hp1 by (apply Z.pow_pos_nonneg; lia).
  destruct (round_near m1 (1000000 * p1)) as (m2 & e2 & -> & He2 & Hm2 & Hlo2 & Hhi2); [done|nia|nia|].
  cbn [to_u64]. rewrite (Z.max_l 0 e2), (Z.max_r 0 (- e2)), Z.pow_0_r, Z.mul_1_r by lia.
  set (p2 := 2 ^ (- e2)) in *. assert (0 < p2) as Hp2 by (apply Z.pow_pos_nonneg; lia).
  pose proof (Z.div_mod (8 * total) (d * 1000000) ltac:(lia)) as Hdm. fold exact in Hdm.
  pose proof (Z.mod_pos_bound (8 * total) (d * 1000000) ltac:(lia)) as Hmb.
  assert (0 <= exact) as Hq by (apply Z.div_pos; lia).
  assert (exact * p2 <= m2) as Hlow.
  { apply Hlo2; [done|]. specialize (Hlo1 (exact * 1000000) ltac:(lia) ltac:(nia)). nia. }
  assert (m2 < (exact + 2) * p2) as Hupp.
  { apply Z.nle_gt. intros Hc. assert ((2 * exact + 3) * (1000000 * p1) <= 2 * m1) as H1 by nia.
    assert ((2 * exact + 3) * 1000000 * d <= 16 * total + d) as H2 by nia. nia. }
  assert (exact <= m2 / p2) by (apply Z.div_le_lower_bound; lia).
  assert (m2 / p2 < exact + 2) by (apply Z.div_lt_upper_bound; lia). nia.
Qed.

(** ** Two nodes *)
Section two_nodes.
Context {PeerId Multiaddr Channel OutboundRequestId Waiter S : Type}.
Context `{Countable PeerId} `{Countable OutboundRequestId} (to_string : PeerId -> bytes).
Context `{!Peer_Management_Capability PeerId Multiaddr S}.
Context (models_to_json : list SupportedModel -> bytes) (models_from_json : bytes -> option (list SupportedModel)).
Context (sessions_to_json : list SessionSummary -> bytes) (sessions_from_json : bytes -> option (list SessionSummary)).
Notation turn := (loop_turn (Channel:=Channel) (OutboundRequestId:=OutboundRequestId) (Waiter:=Waiter) to_string
  models_to_json models_from_json sessions_to_json sessions_from_json).

(** C25: the bandwidth a script is told. When the clock lets the sender push [n]
    chunks before its deadline, at most 2^33, it sends the header and exactly those chunks.
    However the transport cuts these bytes, the other service's turn answers
    with the eight bytes of [n * 65536], the number of bytes pushed, and changes
    nothing; from that answer the figure is the megabits per second of the three
    seconds, rounded down, or one more, as floats are rounded. A stream that
    cannot be opened, or an answer of less than eight bytes, is an error. *)
Theorem bandwidth_figure show_io n later (peer : PeerId) st :
  Z.of_nat n <= 2 ^ 33 ->
  let clock := repeat false n ++ true :: later in
  let total := Z.of_nat n * 65536 in
  let sent := to_le_bytes 2 3 :: repeat (repeat x00 (Z.to_nat 65536)) n in
  Bandwidth_Stream.Send_Bandwidth_Test DEFAULT_DURATION_SECS clock = Some sent /\
  (forall chunks, Chunked.delivers chunks -> concat chunks = concat sent ->
    turn (L_bandwidth peer (mk_Incoming chunks true)) st = Some (true, st, [Write_Back peer (to_le_bytes 8 total)])) /\
  (exists figure, test_bandwidth show_io (Ok tt) clock (to_le_bytes 8 total) = Some (Ok figure) /\
    8 * total / (3 * 1000000) <= figure <= 8 * total / (3 * 1000000) + 1) /\
  (forall e answer, test_bandwidth show_io (Err e) clock answer = Some (Err (StreamOpenFailed ("带宽测试流打开失败: " +:+ e)%string))) /\
  forall answer, zlen answer < 8 ->
    test_bandwidth show_io (Ok tt) clock answer = Some (Err (StreamIoError ("带宽测试失败: " +:+ show_io UnexpectedEof)%string)).
Proof.
  intros Hn clock total sent.
  assert (Bandwidth_Stream.Send_Bandwidth_Test DEFAULT_DURATION_SECS clock = Some sent) as Hs by apply Bandwidth_Stream.send_chunks_exact.
  assert (0 <= total < 2 ^ 50) as Ht by (unfold total; lia). split_and!; [done| | |done|].
  - intros chunks Hd Hcat. destruct st as [node m]. cbn [loop_turn]. unfold count_incoming. cbn [received closed].
    by rewrite (Bandwidth_Stream.count_chunks 3 n chunks) by (done || (unfold Bandwidth_Stream.MAX_DURATION_SECS; lia)).
  - exists (mbps total DEFAULT_DURATION_SECS). split; [|by apply mbps_spec].
    unfold test_bandwidth, Run_Bandwidth_Test. cbn [open_stream_as]. rewrite Hs. cbn [mbind option_bind].
    unfold Bandwidth_Stream.Read_Bandwidth_Result. rewrite <- (app_nil_r (to_le_bytes 8 total)), read_le_app; [done|].
    change (8 * Z.of_nat 8) with 64. unfold in_range. lia.
  - intros answer Ha. unfold test_bandwidth, Run_Bandwidth_Test. cbn [open_stream_as]. rewrite Hs. cbn [mbind option_bind].
    assert (Bandwidth_Stream.Read_Bandwidth_Result answer = Err UnexpectedEof) as ->; [|done].
    unfold Bandwidth_Stream.Read_Bandwidth_Result, read_le. unfold mbind, reader_bind. by rewrite read_exact_short by lia.
Qed.
End two_nodes.

(** Two chunks before the deadline, over a transport that cuts the header off: 131072
    bytes, no whole megabit per second, or one. *)
Lemma bandwidth_figure_witness :
  loop_turn (PeerId:=N) (Multiaddr:=N) (Channel:=N) (OutboundRequestId:=N) (Waiter:=N) (S:=gmap N (PeerInfo N N))
      (fun _ => []) Example_Node.no_models (fun _ => Some []) Example_Node.no_sessions (fun _ => Some [])
      (L_bandwidth 2%N (mk_Incoming (to_le_bytes 2 3 :: repeat (repeat x00 (Z.to_nat 65536)) 2) true)) (Example_Node.node, Rendezvous.new)
    = Some (true, (Example_Node.node, Rendezvous.new), [Write_Back 2%N (to_le_bytes 8 131072)]) /\
  exists figure, test_bandwidth (fun _ => ""%string) (Ok tt) [false; false; true] (to_le_bytes 8 131072) = Some (Ok figure) /\ 0 <= figure <= 1.
Proof.
  destruct (bandwidth_figure (PeerId:=N) (Multiaddr:=N) (Channel:=N) (OutboundRequestId:=N) (Waiter:=N) (S:=gmap N (PeerInfo N N))
    (fun _ => []) Example_Node.no_models (fun _ => Some []) Example_Node.no_sessions (fun _ => Some [])
    (fun _ => ""%string) 2 [] 2%N (Example_Node.node, Rendezvous.new)) as (_ & H1 & H2 & _); [vm_compute; discriminate|].
  split; [|exact H2]. apply H1; [|reflexivity]. cbn. repeat constructor; discriminate.
Defined.
