(* ===== verification/Screen.v ===== *)
(** * Drawing the interface ([Render] of [TUI/mod.rs] and its panels)

    What a frame shows (texts, colours of log lines, scroll offsets, the gauge, the
    cursor), what drawing changes in the state, and when it panics.  The rooms the
    panels get and the widgets are ratatui's; that [Gauge::percent] panics above 100
    is its documentation.  Floats are [MlSession.F64]. *)
From S2P Require Import Prelude RustStd Wire Json Codec Bitmap Peers Sessions Command Network Storage Programs Orchestrator UserInput KvCache MlSession Streams Bandwidth Tui.
Import F64 Quotient.

(** ** The percentage of a transfer *)
Definition div (x y : f64) : f64 :=
  match x, y with
  | Fin m1 e1, Fin m2 e2 => F64.round (m1 * 2 ^ Z.max 0 (e1 - e2)) (m2 * 2 ^ Z.max 0 (e2 - e1))
  | _, _ => NaN
  end.
Definition hundred_times (x : f64) : f64 :=
  match x with Fin m e => F64.round (m * 100 * 2 ^ Z.max 0 e) (2 ^ Z.max 0 (- e)) | NaN => NaN end.
Definition pct (sent total : Z) : Z :=
  if 0 <? total then Z.min (2 ^ 16 - 1) (to_u64 (hundred_times (div (of_int sent) (of_int total)))) else 0.
Definition mib (n : Z) : f64 := times_pow2 (of_int n) (-20).

(** ** What a frame shows *)
Inductive Color : Set := Red | Green | Yellow | White.
Inductive job_view : Type := Line (text : string) | Bar (title label : string) (percent : Z).
Record command_view : Type := mk_command_view {
  text : string; scrolled : Z; scrollbar : option (Z * Z * Z); status : string;
}.
Record screen : Type := mk_screen {
  log_lines : list (string * Color); log_scrolled : Z; peers_shown : list string; job_shown : job_view;
  command_shown : option command_view; input_shown : string; cursor : option (Z * Z);
}.
(** The rooms of the panels: rows of the log and of the command panel, the rows
    inside the latter, columns and rows of its text, and the input line. *)
Record room : Type := mk_room {
  log_rect : Rect; command_rect : Rect; inner_height : Z; text_columns : Z; text_rows : Z; input_x : Z; input_y : Z; input_width : Z;
}.

Section screen.
Context (json_f64 : json -> option f64) (one_decimal : f64 -> string).
Context (to_lowercase : bytes -> bytes) (to_uppercase : string -> string) (from_str_array : string -> option (list json)).
(** Whether 16-bit arithmetic is checked, and what [Gauge::percent] takes. *)
Context (chk : bool) (percent_accepted : Z -> bool).
Notation App := (App (F:=f64)).

(** *** Job panel *)
Definition peer_short (peer : bytes) : option bytes :=
  let n := zlen peer in
  if 12 <? n then
    a ← Utf8.slice peer 0 8; b ← Utf8.slice peer (n - 4) n; Some (a ++ as_bytes "..." ++ b)
  else Some peer.
Definition Render_Idle (device : string) : job_view := Line ("  状态: 空闲 │ 设备: " +:+ to_uppercase device).
Definition Render_File_Transfer (direction : Transfer_Direction) (file_name peer : string) (sent total : Z) : option job_view :=
  let icon := match direction with Dir_Send => "📤 发送" | Dir_Receive => "📥 接收" end in
  short ← peer_short (as_bytes peer);
  let p := pct sent total in
  let title := " ⚙️ Job: " +:+ icon +:+ " " +:+ file_name +:+ " → " +:+ of_bytes short +:+ " " in
  let label := one_decimal (mib sent) +:+ "/" +:+ one_decimal (mib total) +:+ " MB (" +:+ dec p +:+ "%)" in
  (if percent_accepted p then Some (Bar title label p) else None)%string.
Definition Render_Job (a : App) : option job_view :=
  match job a with
  | Job_Idle => Some (Render_Idle (device a))
  | File_Transfer direction file_name peer sent total => Render_File_Transfer direction file_name peer sent total
  | Inference model_name device_count layer_range phase =>
      Some (Line (inference_line to_uppercase model_name device_count layer_range phase (device a)))
  end.

(** *** Log panel *)
Definition log_color (log : string) : Color :=
  let has s := Str.contains (as_bytes s) (as_bytes log) in
  (if has "[错误]" || has "ERROR" || has "失败" then Red
   else if has "✓" || has "完成" then Green
   else if has "警告" || has "WARN" then Yellow
   else White)%string.
(** [app.log_scroll as u16] *)
Definition Render_Log (a : App) : list (string * Color) * Z := (map (fun l => (l, log_color l)) (logs a), wrap 16 (log_scroll a)).

(** *** Command panel *)
Definition status_line (o : Command_Output (F:=f64)) : string :=
  (if completed o
   then "✓ " +:+ dec (token_count o) +:+ " tok" +:+ " │ " +:+ one_decimal (tok_per_sec o) +:+ " tok/s" +:+ " │ " +:+
        "总耗时 " +:+ one_decimal (total_secs o) +:+ "s"
   else dec (token_count o) +:+ " tok" +:+ " │ " +:+ one_decimal (tok_per_sec o) +:+ " tok/s" +:+ " │ " +:+
        one_decimal (total_secs o) +:+ "s")%string.
Definition Render_Command (r : room) (a : App) : App * option command_view :=
  if inner_height r <? 2 then (a, None)
  else
    let full := command_text a in
    let total := Estimate_Visual_Line_Count (as_bytes full) (Z.max 0 (text_columns r - 1)) in
    let max_scroll := Z.max 0 (total - text_rows r) in
    let a := command_render (inner_height r) (text_columns r) (text_rows r) a in
    (a, Some (mk_command_view full (wrap 16 (command_scroll a))
                (if text_rows r <? total then Some (max_scroll, command_scroll a, text_rows r) else None)
                (status_line (command_output a)))).

(** *** Input line *)
Definition u16 (z : Z) : option Z := if in_rangeb 16 z then Some z else if chk then None else Some (wrap 16 z).
Definition prompt : string := "pleiades> ".
(** The text, and the cursor if it is inside the room. *)
Definition Render_Input (r : room) (a : App) : option (string * option (Z * Z)) :=
  x ← u16 (input_x r + 1);
  x ← u16 (x + zlen (as_bytes prompt));
  x ← u16 (x + wrap 16 (Z.of_nat (cursor_position a)));
  y ← u16 (input_y r + 1);
  right ← u16 (input_x r + input_width r);
  right ← u16 (right - 1);
  Some ((prompt +:+ of_bytes (input_buffer a))%string, if x <? right then Some (x, y) else None).

(** *** The frame *)
Definition with_areas (l c : Rect) (a : App) : App :=
  mk_App (view_mode a) (device a) (logs a) (log_scroll a) (app_peers a) (job a) (command_output a) (command_scroll a)
    (input_buffer a) (cursor_position a) (should_quit a) l c.
Definition Render (r : room) (a : App) : option (App * screen) :=
  let a := with_areas (log_rect r) (command_rect r) a in
  let (ls, s) := Render_Log a in
  ps ← network_lines a;
  j ← Render_Job a;
  let (a, c) := Render_Command r a in
  '(i, cur) ← Render_Input r a;
  Some (a, mk_screen ls s ps j c i cur).
Definition draw (r : room) (a : App) : option App := fst <$> Render r a.
End screen.

(** ** The percentage *)
(** Quotients of two floats of integers are those of the integers. *)
Lemma div_ints a b : 0 <= a < 2 ^ 53 -> 0 < b < 2 ^ 53 ->
  exists c, 0 < c /\ div (of_int a) (of_int b) = F64.round (a * c) (b * c).
Proof.
  intros Ha Hb. destruct (of_int_exact a Ha) as (e1 & -> & H1). destruct (of_int_exact b) as (e2 & -> & H2); [lia|].
  exists (2 ^ (- Z.min e1 e2)). split; [apply Z.pow_pos_nonneg; lia|]. cbn [div]. f_equal.
  - rewrite <- Z.mul_assoc, <- Z.pow_add_r by lia. f_equal. f_equal. lia.
  - rewrite <- Z.mul_assoc, <- Z.pow_add_r by lia. f_equal. f_equal. lia.
Qed.
Lemma to_u64_bounds m e lo hi : e <= 0 -> 0 <= lo -> hi < 2 ^ 64 -> lo * 2 ^ (- e) <= m -> m <= hi * 2 ^ (- e) ->
  lo <= to_u64 (Fin m e) <= hi.
Proof.
  intros He Hl Hh H1 H2. cbn [to_u64]. rewrite (Z.max_l 0 e), (Z.max_r 0 (- e)), Z.pow_0_r, Z.mul_1_r by lia.
  assert (0 < 2 ^ (- e)) as Hp by (apply Z.pow_pos_nonneg; lia).
  pose proof (Z.div_le_lower_bound m (2 ^ (- e)) lo Hp ltac:(lia)). pose proof (Z.div_le_upper_bound m (2 ^ (- e)) hi Hp ltac:(lia)). lia.
Qed.
(** At least [lo] and at most [hi] times the total. *)
Lemma pct_bounds sent total lo hi : 0 <= sent < 2 ^ 53 -> 0 < total < 2 ^ 53 -> 0 <= lo -> hi < 2 ^ 9 ->
  lo * total <= sent <= hi * total -> 100 * lo <= pct sent total <= 100 * hi.
Proof.
  intros Hs Ht Hl Hh H. unfold pct. rewrite (proj2 (Z.ltb_lt 0 total)) by lia.
  destruct (div_ints sent total Hs Ht) as (c & Hc & ->).
  destruct (round_near (sent * c) (total * c)) as (m & e & -> & He & Hm & Hlo & Hhi); [nia|nia|nia|].
  cbn [hundred_times]. rewrite (Z.max_l 0 e), (Z.max_r 0 (- e)), Z.pow_0_r, Z.mul_1_r by lia. set (p := 2 ^ (- e)) in *.
  assert (0 < p) as Hp by (apply Z.pow_pos_nonneg; lia).
  assert (lo * p <= m) as Hlo' by (apply Hlo; nia).
  assert (m <= hi * p) as Hhi'.
  { destruct (Z.le_gt_cases m (hi * p)) as [|Hc']; [done|exfalso]. assert (hi * p + 1 <= m) by lia.
    pose proof (Z.mul_le_mono_nonneg_r (hi * p + 1) m (total * c) ltac:(nia) ltac:(lia)).
    pose proof (Z.mul_le_mono_nonneg_r sent (hi * total) (c * p) ltac:(nia) ltac:(lia)). nia. }
  destruct (round_near (m * 100) p) as (m2 & e2 & -> & He2 & Hm2 & Hlo2 & Hhi2); [lia|lia| |].
  { assert (m < 2 ^ 9 * p) by nia. change (2 ^ 53) with (2 ^ 9 * 2 ^ 44). assert (100 < 2 ^ 44) by reflexivity. nia. }
  assert (0 < 2 ^ (- e2)) as Hp2 by (apply Z.pow_pos_nonneg; lia).
  destruct (to_u64_bounds m2 e2 (100 * lo) (100 * hi)) as [B1 B2]; [done|lia|lia|apply Hlo2; nia| |].
  - destruct (Z.le_gt_cases m2 (100 * hi * 2 ^ (- e2))) as [|Hc']; [done|exfalso].
    assert (2 * ((100 * hi * 2 ^ (- e2) + 1) * p) <= 2 * (m * 100 * 2 ^ (- e2)) + p) by nia. nia.
  - assert (hi < 512) by lia. change (2 ^ 16 - 1) with 65535. lia.
Qed.

(** ** What can be drawn *)
Section drawable.
Context (json_f64 : json -> option f64) (one_decimal : f64 -> string).
Context (to_lowercase : bytes -> bytes) (to_uppercase : string -> string) (from_str_array : string -> option (list json)).
Context (percent_accepted : Z -> bool).
Hypothesis gauge_range : forall p, percent_accepted p = true <-> 0 <= p <= 100.
Notation App := (App (F:=f64)).
Notation Render chk := (Render one_decimal to_uppercase chk percent_accepted).
Notation draw chk := (draw one_decimal to_uppercase chk percent_accepted).
Notation Loop := (TUI_Loop (Fin 0 0) json_f64 one_decimal to_lowercase to_uppercase from_str_array).
Notation Bus := (Handle_Bus_Event (Fin 0 0) json_f64 one_decimal to_uppercase from_str_array).
Notation turn := (turn (F:=f64)).

Definition ascii (s : string) : Prop := Forall Utf8.is_ascii (as_bytes s).
Definition transfer_ok (j : Job_State) : Prop :=
  match j with File_Transfer _ _ peer sent total => ascii peer /\ 0 <= sent <= total /\ total < 2 ^ 53 | _ => True end.
Definition drawable (a : App) : Prop := Forall (fun p => ascii (pd_peer_id p)) (app_peers a) /\ transfer_ok (job a).

Lemma slice_some l i j : Forall Utf8.is_ascii l -> 0 <= i <= j -> j <= zlen l -> exists s, Utf8.slice l i j = Some s.
Proof. intros H Hi Hj. rewrite slice_ascii by done. by eexists. Qed.
Lemma truncated_some l : Forall Utf8.is_ascii l -> exists s, Truncate_Peer_Id l = Some s.
Proof.
  intros H. unfold Truncate_Peer_Id. cbv zeta. destruct (Z.ltb_spec 16 (zlen l)); [|by eexists].
  destruct (slice_some l 0 8 H) as [x ->]; [lia|lia|]. destruct (slice_some l (zlen l - 4) (zlen l) H) as [y ->]; [lia|lia|]. by eexists.
Qed.
Lemma short_some l : Forall Utf8.is_ascii l -> exists s, peer_short l = Some s.
Proof.
  intros H. unfold peer_short. cbv zeta. destruct (Z.ltb_spec 12 (zlen l)); [|by eexists].
  destruct (slice_some l 0 8 H) as [x ->]; [lia|lia|]. destruct (slice_some l (zlen l - 4) (zlen l) H) as [y ->]; [lia|lia|]. by eexists.
Qed.
Lemma peer_lines_some p : ascii (pd_peer_id p) -> is_Some (peer_lines p).
Proof.
  intros H. unfold peer_lines. destruct (String.eqb (pd_name p) "").
  - destruct (truncated_some _ H) as [s ->]. by eexists.
  - destruct (Z.leb_spec 4 (zlen (as_bytes (pd_peer_id p)))) as [H4|H4]; [|by eexists].
    destruct (slice_some (as_bytes (pd_peer_id p)) (zlen (as_bytes (pd_peer_id p)) - 4) (zlen (as_bytes (pd_peer_id p))) H) as [s ->]; [lia|lia|].
    by eexists.
Qed.
Lemma network_some (a : App) : Forall (fun p => ascii (pd_peer_id p)) (app_peers a) -> is_Some (network_lines a).
Proof.
  intros H. unfold network_lines. destruct (app_peers a) as [|p ps]; [by eexists|].
  destruct (mapM_is_Some_2 peer_lines (p :: ps)) as [l ->]; [|by eexists]. eapply Forall_impl; [exact H|]. intros q. apply peer_lines_some.
Qed.
Lemma job_some (a : App) : transfer_ok (job a) -> is_Some (Render_Job one_decimal to_uppercase percent_accepted a).
Proof.
  unfold Render_Job, transfer_ok. destruct (job a) as [|d n p s t|]; [by eexists| |by eexists]. intros (Hp & Hst & Ht).
  unfold Render_File_Transfer. destruct (short_some _ Hp) as [x ->]. cbn [mbind option_bind]. cbv zeta.
  rewrite (proj2 (gauge_range _)); [by eexists|]. destruct (Z.eq_dec t 0) as [->|Hne]; [done|].
  pose proof (pct_bounds s t 0 1 ltac:(lia) ltac:(lia) ltac:(lia) ltac:(lia) ltac:(lia)). lia.
Qed.
(** Without overflow checks drawing never panics, and keeps the input. *)
Lemma drawn_ok r (a : App) : drawable a -> exists a', draw false r a = Some a' /\ same_input a a' /\ drawable a'.
Proof.
  intros [Hp Hj]. unfold Screen.draw, Screen.Render. cbn [app_peers job with_areas].
  set (b := with_areas (log_rect r) (command_rect r) a).
  destruct (network_some b Hp) as [ps Eps]. destruct (job_some b Hj) as [j Ej]. unfold Render_Log. rewrite Eps, Ej. cbn [mbind option_bind].
  assert (exists c v, Render_Command one_decimal r b = (c, v) /\ same_input a c /\ drawable c) as (c & v & -> & Hi & Hd).
  { unfold Render_Command, command_render. destruct (inner_height r <? 2); [by exists b, None|]. by eexists _, _. }
  unfold Render_Input, u16. repeat (case_match || cbn [mbind option_bind fmap option_fmap option_map]); by exists c.
Qed.

(** *** Events and keys keep it *)
(** Identifiers are ASCII, and no transfer is past its total. *)
Definition shown_ok (e : Bus_Event) : Prop :=
  match e with
  | State v => ascii (str_or v "peer_id" "?")
  | Stream v => type_is v "file_progress" = true ->
      ascii (str_or v "peer" "?") /\ u64_or v "sent" 0 <= u64_or v "total" 0 < 2 ^ 53
  | _ => True
  end.
Lemma same_drawable (a a' : App) : app_peers a' = app_peers a -> job a' = job a -> drawable a -> drawable a'.
Proof. unfold drawable. by intros -> ->. Qed.
Lemma alter_ids (f : Peer_Display -> Peer_Display) i ps : (forall p, pd_peer_id (f p) = pd_peer_id p) ->
  Forall (fun p => ascii (pd_peer_id p)) ps -> Forall (fun p => ascii (pd_peer_id p)) (alter f i ps).
Proof. intros Hf H. apply Forall_alter; [done|]. intros p _. by rewrite Hf. Qed.
Lemma update_peer_drawable id nm l c (a : App) : ascii id -> drawable a -> drawable (Update_Peer id nm l c a).
Proof.
  intros Hid [Hp Hj]. unfold Update_Peer. destruct (peer_position id (app_peers a)) as [pos|]; (split; [|done]); cbn [app_peers with_app_peers].
  - set (ps := alter _ pos (app_peers a)). assert (Forall (fun p => ascii (pd_peer_id p)) ps) as Hps by by apply alter_ids.
    destruct (l && negb (pos =? 0)%nat); [|done]. destruct (ps !! pos) as [p|] eqn:E; [|done].
    constructor; [exact (Forall_lookup_1 _ _ _ _ Hps E)|]. by apply Forall_delete.
  - destruct l; [by constructor|]. apply Forall_app. split; [done|]. by constructor.
Qed.
Lemma alter_peer_drawable f id (a : App) : (forall p, pd_peer_id (f p) = pd_peer_id p) -> drawable a -> drawable (alter_peer f id a).
Proof. intros Hf [Hp Hj]. unfold alter_peer. destruct (peer_position id (app_peers a)); [|done]. split; [|done]. by apply alter_ids. Qed.
Lemma job_drawable m j (a : App) : transfer_ok j -> drawable a -> drawable (with_job m j a).
Proof. by intros Hj [Hp _]. Qed.
#[local] Hint Resolve update_peer_drawable job_drawable : core.
Lemma state_drawable now (a : App) v : ascii (str_or v "peer_id" "?") -> drawable a ->
  drawable (handle_state (Fin 0 0) json_f64 one_decimal to_uppercase from_str_array now a v).
Proof.
  intros Hid Ha. unfold handle_state.
  repeat match goal with |- drawable (if type_is v ?t then _ else _) => destruct (type_is v t) end; cbn beta zeta; try done.
  - apply (same_drawable (Update_Peer (str_or v "peer_id" "?") (str_or v "peer_name" "") false false a)); [done|done|]. auto.
  - destruct Ha as [Hp Hj]. split; [|done]. apply List.Forall_forall. intros p [Hin _]%filter_In. by apply (proj1 (List.Forall_forall _ _) Hp).
  - assert (forall l, drawable (Update_Peer_Sessions (str_or v "peer_id" "?") (parse_sessions_json (field v "sessions"))
      (Update_Peer_Models (str_or v "peer_id" "?") (parse_models_json from_str_array (field v "models")) (Update_Peer (str_or v "peer_id" "?") (str_or v "peer_name" "") l true a)))) as H
      by (intros l; repeat (apply alter_peer_drawable; [done|]); auto).
    destruct (String.eqb _ ""); [apply H|]. eapply same_drawable; [..|apply H]; done.
  - apply (same_drawable (Update_Peer (str_or v "peer_id" "?") (str_or v "peer_name" "") false true a)); [done|done|]. auto.
  - apply (same_drawable (Update_Peer (str_or v "peer_id" "?") (str_or v "peer_name" "") false false a)); [done|done|]. auto.
  - apply job_drawable; [|done]. cbn. destruct Ha as [_ Hj]. by destruct (job a).
  - destruct (bool_decide _); [done|]. by apply job_drawable.
  - by apply job_drawable.
  - by apply (same_drawable (with_job (view_mode a) Job_Idle a)); [done|done|apply job_drawable].
Qed.
Lemma bus_drawable now (a a' : App) e : shown_ok e -> drawable a -> Bus now a e = Some a' -> drawable a'.
Proof.
  intros He Ha E. destruct e as [l m|v|v|v]; cbn [Handle_Bus_Event] in E.
  - by destruct l; injection E as <-.
  - injection E as <-. by apply state_drawable.
  - injection E as <-. unfold handle_stream. destruct (type_is v "token"); [by apply job_drawable; [apply Ha|]|].
    destruct (type_is v "file_progress") eqn:Et; [|done]. destruct (He Et) as (Hp & Hs & Ht).
    apply job_drawable; [|done]. split_and!; [done|unfold u64_or; destruct (json_u64 _) as [z|] eqn:Ez; [|done]|done..].
    apply json_u64_nonneg in Ez. cbn. unfold in_range in Ez. lia.
  - unfold handle_output in E. destruct (type_is v "cmd_result"); [|by destruct (type_is v "help"); injection E as <-].
    destruct (mapM entry_suffix _); [|done]. by injection E as <-.
Qed.
Definition same_shown (a a' : App) : Prop := app_peers a' = app_peers a /\ job a' = job a.
Lemma iter_shown n (f : App -> App) a : (forall b, same_shown b (f b)) -> same_shown a (Nat.iter n f a).
Proof. intros Hf. induction n as [|n [IH1 IH2]]; [done|].
  destruct (Hf (Nat.iter n f a)) as [H1 H2]. split; [exact (eq_trans H1 IH1)|exact (eq_trans H2 IH2)].
Qed.
Lemma input_shown_same now now' al input (a : App) : same_shown a (Handle_Command_Input (Fin 0 0) to_lowercase now now' al input a).1.
Proof. unfold Handle_Command_Input. cbv zeta. by repeat case_match. Qed.
Lemma key_shown now now' al key control (a a' : App) cmd :
  Handle_Key_Event (Fin 0 0) to_lowercase now now' al key control a = Some (a', cmd) -> same_shown a a'.
Proof.
  destruct key; cbn [Handle_Key_Event].
  - unfold Take_Input. case_match; [by intros [= <- _]|]. intros [= E].
    pose proof (input_shown_same now now' al (input_buffer a) (Clear_Input a)) as Hs. by rewrite E in Hs.
  - by intros [= <- _].
  - unfold Delete_Char. case_match; [by intros [= <- _]|]. destruct (Utf8.slice _ _ _) as [x|]; [|done]. cbn [mbind option_bind].
    destruct (string_remove _ _) as [y|]; [|done]. by intros [= <- _].
  - by destruct control; intros [= <- _].
  - by destruct control; intros [= <- _].
  - intros [= <- _]. by apply (iter_shown 5 Scroll_Command_Up).
  - intros [= <- _]. by apply (iter_shown 5 Scroll_Command_Down).
  - destruct (control && _); [by intros [= <- _]|]. unfold Input_Char. case_match; [|done]. by intros [= <- _].
  - by intros [= <- _].
Qed.
Lemma handled_drawable clock (t : turn) a r : drawable a -> handled (Fin 0 0) to_lowercase clock t a = Some r -> drawable r.1.
Proof.
  intros Ha. unfold handled. destruct r as [a' cmd]. destruct (event t) as [key control|kind row|].
  - intros [H1 H2]%key_shown. by eapply same_drawable.
  - intros [= <- _]. unfold Handle_Mouse_Event. by repeat case_match.
  - by intros [= <- _].
Qed.
Definition node_turn (t : turn) : Prop :=
  (drawn t = None \/ exists r, drawn t = Some (draw false r)) /\
  Forall (fun i => match i with Item e => event_ok e /\ shown_ok e | _ => True end) (bus t) /\
  match event t with Key key _ => key_ok key | _ => True end.
Lemma drain_drawable clock items (a a' : App) :
  Forall (fun i => match i with Item e => event_ok e /\ shown_ok e | _ => True end) items -> drawable a ->
  drain_bus (Fin 0 0) json_f64 one_decimal to_uppercase from_str_array clock a items = Some a' -> drawable a'.
Proof.
  intros HF. revert a. induction HF as [|i items Hi HF IH]; intros a Ha; [by intros [= <-]|]. destruct i as [e|n|]; cbn [drain_bus].
  - destruct (Bus clock a e) as [a1|] eqn:E; [|done]. apply IH. destruct Hi as [_ Hsh]. exact (bus_drawable _ _ _ _ Hsh Ha E).
  - by apply IH.
  - by intros [= <-].
Qed.
Lemma node_turn_keeps clock (t : turn) : node_turn t ->
  turn_keeps (Fin 0 0) json_f64 one_decimal to_lowercase to_uppercase from_str_array clock drawable t.
Proof.
  intros (Hd & Hb & Hk).
  assert (Forall (fun i => match i with Item e => event_ok e | _ => True end) (bus t)) as Hb'.
  { eapply Forall_impl; [exact Hb|]. intros [e| |]; [by intros []|done..]. }
  split; [|split; [exact Hb'|split; [exact Hk|split]]].
  - intros d a E Ha. destruct Hd as [Hd|[r Hd]]; [congruence|]. rewrite E in Hd. injection Hd as ->. by apply drawn_ok.
  - intros a a' Ha. by apply drain_drawable.
  - intros a r Ha. by apply handled_drawable.
Qed.

(** *** The events of a transfer *)
Lemma progress_shown name dir s t : 0 <= s <= t -> t < 2 ^ 53 ->
  event_ok (File_Stream.file_progress name dir s t) /\ shown_ok (File_Stream.file_progress name dir s t).
Proof.
  intros Hs Ht. split; [done|]. intros _. split; [constructor|]. unfold u64_or.
  change (index _ "sent") with (JNum s). change (index _ "total") with (JNum t).
  assert (2 ^ 53 < 2 ^ 64) by reflexivity. rewrite !json_u64_ok by (unfold in_range; lia). cbn. lia.
Qed.
Lemma received_shown fuel name size stream file remaining r f rest evs : Chunked.delivers stream -> 0 <= remaining <= size -> size < 2 ^ 53 ->
  File_Stream.receive_loop fuel name size stream file remaining = Some (r, f, rest, evs) -> Forall (fun e => event_ok e /\ shown_ok e) evs.
Proof.
  revert stream file remaining evs. induction fuel as [|fuel IH]; intros stream file remaining evs Hd Hr Hs; cbn [File_Stream.receive_loop].
  { destruct (remaining <=? 0); [|done]. by intros [= _ _ _ <-]. }
  destruct (Z.leb_spec remaining 0); [by intros [= _ _ _ <-]|].
  destruct (Chunked.read _ stream) as [b stream'] eqn:Er.
  apply File_Stream.read_progress in Er as (Hd' & _ & Hb & _); [|unfold File_Stream.CHUNK_SIZE; lia|done].
  destruct (zlen b =? 0); [by intros [= _ _ _ <-]|]. pose proof (zlen_nonneg b).
  destruct (File_Stream.receive_loop fuel name size stream' (file ++ b) (remaining - zlen b)) as [[[[r' f'] rest'] evs']|] eqn:E; [|done].
  intros [= -> -> -> <-]. constructor; [apply progress_shown; lia|]. eapply IH; [exact Hd'| |done|exact E]. lia.
Qed.
Lemma sent_last fuel name size file stream sent out evs : File_Stream.send_loop fuel name size file stream sent = Some (out, evs) ->
  (evs = [] /\ out = stream) \/ exists evs', evs = evs' ++ [File_Stream.file_progress name "send" (sent + zlen out - zlen stream) size].
Proof.
  revert file stream sent evs. induction fuel as [|fuel IH]; intros file stream sent evs; [done|]. cbn [File_Stream.send_loop].
  destruct (Chunked.read _ file) as [b file']. destruct (zlen b =? 0); [intros [= <- <-]; by left|].
  destruct (File_Stream.send_loop fuel name size file' (stream ++ b) (sent + zlen b)) as [[out' evs']|] eqn:E; [|done].
  intros [= -> <-]. right. destruct (IH _ _ _ _ E) as [[-> ->]|[evs'' ->]].
  - exists []. rewrite zlen_app. cbn [app]. by replace (sent + zlen b) with (sent + (zlen stream + zlen b) - zlen stream) by lia.
  - eexists (_ :: evs''). cbn [app]. rewrite zlen_app. by replace (sent + zlen b + zlen out - (zlen stream + zlen b)) with (sent + zlen out - zlen stream) by lia.
Qed.
(** A job past its total cannot be drawn. *)
Lemma overrun_panics chk r (a : App) d name peer s t : job a = File_Transfer d name peer s t ->
  0 < t < 2 ^ 53 -> 0 <= s < 2 ^ 53 -> 2 * t <= s <= 500 * t -> draw chk r a = None.
Proof.
  intros Ej Ht Hs Hst. unfold Screen.draw, Screen.Render, Render_Log. destruct (network_lines _) as [ps|]; [|done]. cbn [mbind option_bind].
  unfold Render_Job. cbn [job with_areas]. rewrite Ej. unfold Render_File_Transfer. destruct (peer_short _) as [x|]; [|done].
  cbn [mbind option_bind]. cbv zeta. pose proof (pct_bounds s t 2 500 ltac:(lia) ltac:(lia) ltac:(lia) ltac:(lia) ltac:(lia)) as Hp.
  destruct (percent_accepted (pct s t)) eqn:E; [|done]. apply gauge_range in E. lia.
Qed.

(** C37: the interface with its drawing, in a release build, whose 16-bit arithmetic
    wraps. As long as the identifiers in events are ASCII, the layer bitmaps in a
    list of files are 64 hexadecimal digits as the node prints them, no transfer is
    past its total and the keys typed are characters, it never panics, whatever is
    drawn where, sends at most one [Quit], as its last command, and ends on Ctrl+C;
    the events of receiving a file are such events. (With overflow checks a room
    without columns, or a cursor past column 65535, panics.) But sending a file that
    has become two to 500 times as long as when the transfer began leaves a job that
    panics when it is drawn, in either build. *)
Theorem interface_draws clock :
  (forall turns, Forall node_turn turns -> exists cmds ended,
    (Loop clock turns (App_New (Fin 0 0)) = Some (map Sent cmds, ended) /\ (ended = true -> exists t, t ∈ turns /\ drawn t = None) \/
     Loop clock turns (App_New (Fin 0 0)) = Some (map Sent cmds ++ [Sent_Quit], ended) /\ ended = true) /\
    ((exists t, t ∈ turns /\ ctrl_c t) -> ended = true)) /\
  (forall stream name size r f rest evs, Chunked.delivers stream -> 0 <= size < 2 ^ 53 ->
    File_Stream.Receive_File_Data stream name size = Some (r, f, rest, evs) -> Forall (fun e => event_ok e /\ shown_ok e) evs) /\
  (forall file name size sent evs, Chunked.delivers file -> 0 < size -> 2 * size <= zlen (concat file) <= 500 * size ->
    zlen (concat file) < 2 ^ 53 -> File_Stream.Send_File_Data [] name size file = Some (sent, evs) ->
    exists evs' e, evs = evs' ++ [e] /\
      forall a, exists a', Bus clock a e = Some a' /\ forall chk r, draw chk r a' = None).
Proof.
  split_and!.
  - intros turns HF. apply loop_ok with (P := drawable) (cs := []); [done|by split|].
    eapply Forall_impl; [exact HF|]. apply node_turn_keeps.
  - intros stream name size r f rest evs Hd Hs E. unfold File_Stream.Receive_File_Data in E. eapply received_shown; [exact Hd| | |exact E]; lia.
  - intros file name size sent evs Hd Hs Hl Hlen E. unfold File_Stream.Send_File_Data in E.
    destruct (File_Stream.send_loop_spec (S (length (concat file))) name size file [] 0) as (evs0 & E0 & _); [done|lia|].
    rewrite E in E0. injection E0 as -> ->. apply sent_last in E as [[-> E]|[evs' ->]].
    { rewrite ?app_nil_l in E. rewrite E in Hl. unfold zlen in Hl. cbn in Hl. lia. }
    exists evs'. eexists. split; [reflexivity|]. intros a. eexists. split; [reflexivity|]. intros chk r.
    rewrite ?app_nil_l. change (zlen (@nil byte)) with 0. replace (0 + zlen (concat file) - 0) with (zlen (concat file)) by lia.
    assert (2 ^ 53 < 2 ^ 64) as Hp by reflexivity. set (n := zlen (concat file)) in *.
    eapply overrun_panics; [reflexivity|..]; unfold u64_or; change (index _ "sent") with (JNum n); change (index _ "total") with (JNum size);
      rewrite !json_u64_ok by (split; lia); cbn [from_option id]; lia.
Qed.
End drawable.

(** ** Witness *)
Module Example_Screen.
Definition percent_accepted (p : Z) : bool := (0 <=? p) && (p <=? 100).
Definition json_f64 (v : json) : option f64 := match v with JNum n => Some (of_int n) | _ => None end.
Definition one_decimal (x : f64) : string := dec (to_u64 x).
Definition place : room := mk_room (mk_Rect 0 10) (mk_Rect 13 8) 6 70 5 0 21 80.
Definition frame : App -> option App := draw one_decimal (fun s => s) false percent_accepted place.
Definition show (b : list bus_item) (k : KeyCode) (control : bool) : turn := mk_turn (Some frame) b (Key k control) true.
Definition turns : list turn :=
  [show [Item (File_Stream.file_progress "a.gguf" "receive" 2 3)] (Char (as_bytes "l")) false; show [Lagged 2] (Char (as_bytes "c")) true].
Definition loop : list turn -> option (list sent * bool) :=
  fun ts => TUI_Loop (Fin 0 0) json_f64 one_decimal (fun b => b) (fun s => s) Example_Tui.no_array "12:00:00" ts (App_New (Fin 0 0)).
End Example_Screen.
Import Example_Screen.
Lemma accepted_range p : percent_accepted p = true <-> 0 <= p <= 100.
Proof. unfold percent_accepted. rewrite andb_true_iff, !Z.leb_le. done. Qed.
(** A transfer at 66 % is drawn; six bytes of a file of three end the interface at
    the next frame. *)
Lemma interface_draws_witness :
  pct 2 3 = 66 /\
  (exists cmds ended, (loop turns = Some (map Sent cmds, ended) \/ loop turns = Some (map Sent cmds ++ [Sent_Quit], ended)) /\ ended = true) /\
  exists e, File_Stream.Send_File_Data [] "a.gguf" 3 [as_bytes "abc"; as_bytes "def"] = Some (as_bytes "abcdef",
      [File_Stream.file_progress "a.gguf" "send" 3 3; e]) /\
    forall a, exists a', Handle_Bus_Event (Fin 0 0) json_f64 one_decimal (fun s => s) Example_Tui.no_array "12:00:00" a e = Some a' /\ frame a' = None.
Proof.
  pose proof (interface_draws json_f64 one_decimal (fun b => b) (fun s => s) Example_Tui.no_array percent_accepted accepted_range "12:00:00")
    as (H1 & _ & H3).
  split; [by vm_compute|]. split.
  - destruct (H1 turns) as (cmds & ended & Hc & He).
    + constructor; [|constructor; [|constructor]]; (split; [right; by exists place|]); (split; [|reflexivity]).
      * constructor; [|constructor]. apply progress_shown; lia.
      * constructor; [exact I|constructor].
    + exists cmds, ended. split; [|apply He; eexists; split; [right; left|reflexivity]].
      destruct Hc as [[Hc _]|[Hc _]]; [left; exact Hc|right; exact Hc].
  - destruct (H3 [as_bytes "abc"; as_bytes "def"] "a.gguf"%string 3 (as_bytes "abcdef")
      [File_Stream.file_progress "a.gguf" "send" 3 3; File_Stream.file_progress "a.gguf" "send" 6 3]) as (evs' & e & Ee & Hd);
      [by repeat constructor|lia|vm_compute; split; discriminate|by vm_compute|by vm_compute|].
    exists e. split.
    + apply (app_inj_tail [_] evs') in Ee as [_ <-]. by vm_compute.
    + intros a. destruct (Hd a) as (a' & Ha & Hf). exists a'. split; [exact Ha|apply Hf].
Defined.
