(* ===== verification/EventBus.v ===== *)
(** * The event bus and its subscribers ([EventBus/event_bus.rs], [CLI/mod.rs])

    [EventBus] passes its calls on to a tokio broadcast channel, which is the class
    [Broadcast]; [Broadcast_Laws] states its documented behaviour: a receiver gets
    what is sent after its subscription, in order, and when it falls behind by more
    than the capacity it is told how many of the oldest it lost.  The interface and
    the console drain it. *)
From S2P Require Import Prelude RustStd Wire Json Codec Bitmap Peers Sessions Command Network Storage Programs Orchestrator UserInput Tui.

Definition last_n {A} (n : nat) (l : list A) : list A := drop (length l - n) l.
Lemma last_n_snoc {A} n (l : list A) x : last_n n (last_n n l ++ [x]) = last_n n (l ++ [x]).
Proof.
  unfold last_n. rewrite !length_app, length_drop. cbn [length].
  destruct (Nat.le_gt_cases (length l) n) as [Hl|Hl].
  - replace (length l - n)%nat with O by lia. rewrite drop_0, Nat.sub_0_r. done.
  - rewrite !drop_app, drop_drop, length_drop.
    replace (length l - n + (length l - (length l - n) + 1 - n))%nat with (length l + 1 - n)%nat by lia.
    f_equal. f_equal. lia.
Qed.
Lemma last_n_all {A} n (l : list A) : (length l <= n)%nat -> last_n n l = l.
Proof. intros H. unfold last_n. by replace (length l - n)%nat with O by lia. Qed.
Lemma length_last_n {A} n (l : list A) : length (last_n n l) = Nat.min n (length l).
Proof. unfold last_n. rewrite length_drop. lia. Qed.

Class Broadcast (Bus Rx : Type) : Type := {
  (** [broadcast::channel], which panics on a capacity of 0 *)
  channel : Z -> option Bus;
  send : Bus -> Bus_Event -> Bus;
  subscribe : Bus -> Rx * Bus;
  try_recv : Rx -> Bus -> option bus_item * Bus;
  capacity : Bus -> nat;
  (** receivers in use, what they have not read, and how much they lost *)
  live : Bus -> Rx -> Prop;
  unread : Bus -> Rx -> list Bus_Event;
  lost : Bus -> Rx -> nat;
}.
Class Broadcast_Laws (Bus Rx : Type) `{!Broadcast Bus Rx} : Prop := {
  channel_capacity n b : channel n = Some b -> n <= Z.of_nat (capacity b);
  subscribed b rx b' : subscribe b = (rx, b') -> live b' rx /\ unread b' rx = [] /\ lost b' rx = O /\ capacity b' = capacity b;
  sent b e : capacity (send b e) = capacity b /\
    forall rx, live b rx -> live (send b e) rx /\ unread (send b e) rx = last_n (capacity b) (unread b rx ++ [e]) /\
      lost (send b e) rx = (lost b rx + (length (unread b rx) + 1 - capacity b))%nat;
  received b rx o b' : live b rx -> try_recv rx b = (o, b') -> live b' rx /\ capacity b' = capacity b /\ lost b' rx = O /\
    match lost b rx, unread b rx with
    | S n, u => o = Some (Lagged (Z.of_nat (S n))) /\ unread b' rx = u
    | O, e :: u => o = Some (Item e) /\ unread b' rx = u
    | O, [] => o = None /\ unread b' rx = []
    end;
}.

(** ** The bus *)
Section bus.
Context {Bus Rx : Type} `{!Broadcast Bus Rx}.
Definition New (capacity : Z) : option Bus := channel capacity.
(** Whether anyone received it does not matter. *)
Definition Publish (b : Bus) (event : Bus_Event) : Bus := send b event.
Definition Subscribe (b : Bus) : Rx * Bus := subscribe b.

(** *** Subscribers *)
(** [try_recv] until nothing is left. *)
Fixpoint receive_all (fuel : nat) (rx : Rx) (b : Bus) : option (list bus_item * Bus) :=
  match fuel with
  | O => None
  | S fuel =>
      match try_recv rx b with
      | (None, b) => Some ([], b)
      | (Some i, b) => '(its, b) ← receive_all fuel rx b; Some (i :: its, b)
      end
  end.
(** What a subscriber reads that drains the bus after each batch of events. *)
Fixpoint batches_read (fuel : nat) (rx : Rx) (b : Bus) (batches : list (list Bus_Event)) : option (list (list bus_item) * Bus) :=
  match batches with
  | [] => Some ([], b)
  | es :: batches =>
      '(its, b) ← receive_all fuel rx (foldl Publish b es);
      '(r, b) ← batches_read fuel rx b batches; Some (its :: r, b)
  end.
End bus.

(** [spawn_stdout_subscriber]: a line on stdout or stderr; [show] prints a payload. *)
Inductive printed : Type := Stdout (s : string) | Stderr (s : string).
Definition print_item (show : json -> string) (i : bus_item) : option printed :=
  match i with
  | Item (Notify Info message) => Some (Stdout message)
  | Item (Notify Warn message) => Some (Stderr ("[WARN] " +:+ message))
  | Item (Notify Error message) => Some (Stderr ("[ERROR] " +:+ message))
  | Item (Output payload) => Some (Stdout (show payload))
  | Lagged n => Some (Stderr ("[CLI] 丢失 " +:+ dec n +:+ " 条事件"))
  | _ => None
  end.
(** It ends when the bus is closed. *)
Fixpoint stdout_subscriber (show : json -> string) (items : list bus_item) : list printed * bool :=
  match items with
  | [] => ([], false)
  | Closed :: _ => ([], true)
  | i :: items =>
      let (l, ended) := stdout_subscriber show items in
      (match print_item show i with Some p => p :: l | None => l end, ended)
  end.

(** ** What arrives *)
(** A batch as it is read: the last events, after the number lost, if any. *)
Definition delivered (n : nat) (es : list Bus_Event) : list bus_item :=
  if (n <? length es)%nat then Lagged (Z.of_nat (length es - n)) :: map Item (last_n n es) else map Item es.

Section delivery.
Context {Bus Rx : Type} `{!Broadcast Bus Rx} `{!Broadcast_Laws Bus Rx}.
Lemma published es : forall (b : Bus) rx, live b rx ->
  let b' := foldl Publish b es in
  live b' rx /\ capacity b' = capacity b /\
  ((length (unread b rx) <= capacity b)%nat ->
   unread b' rx = last_n (capacity b) (unread b rx ++ es) /\
   lost b' rx = (lost b rx + (length (unread b rx) + length es - capacity b))%nat).
Proof.
  induction es as [|e es IH]; intros b rx Hl; cbn [foldl].
  - split; [done|]. split; [done|]. intros Hc. rewrite app_nil_r, last_n_all by done. split; [done|]. cbn [length]. lia.
  - destruct (sent b e) as [Hcap H]. destruct (H rx Hl) as (Hl' & Hu & Hlost).
    destruct (IH (Publish b e) rx Hl') as (H1 & H2 & H3). split; [exact H1|]. unfold Publish in *. rewrite Hcap, Hu, Hlost in *.
    split; [exact H2|]. intros Hc. destruct H3 as [H3 H4]; [rewrite length_last_n; lia|]. rewrite H3, H4. split.
    + replace (e :: es) with ([e] ++ es) by done. rewrite !app_assoc. clear. generalize (unread b rx ++ [e]) as l. revert es.
      intros es l. induction es as [|x es IH] using rev_ind; [rewrite !app_nil_r; apply last_n_all; rewrite length_last_n; lia|].
      rewrite !app_assoc, <- last_n_snoc, IH, last_n_snoc. done.
    + rewrite length_last_n, length_app. cbn [length]. lia.
Qed.
Lemma received_all (u : list Bus_Event) : forall (b : Bus) rx fuel, live b rx -> unread b rx = u -> lost b rx = O -> (length u < fuel)%nat ->
  exists b', receive_all fuel rx b = Some (map Item u, b') /\ live b' rx /\ capacity b' = capacity b /\ unread b' rx = [] /\ lost b' rx = O.
Proof.
  induction u as [|e u IH]; intros b rx [|fuel] Hl Hu Hn Hf; cbn [length] in Hf; try lia; cbn [receive_all];
    destruct (try_recv rx b) as [o b'] eqn:E; apply received in E as (H1 & H2 & H3 & H4); try done; rewrite Hn, Hu in H4; destruct H4 as [-> H4].
  - by exists b'.
  - destruct (IH b' rx fuel H1 H4 H3) as (b2 & -> & Hb & Hc & Hr); [lia|]. exists b2. split; [done|]. split; [done|]. split; [congruence|done].
Qed.
Lemma drained (b : Bus) rx fuel es : live b rx -> unread b rx = [] -> lost b rx = O -> (S (length es) < fuel)%nat ->
  exists b', receive_all fuel rx (foldl Publish b es) = Some (delivered (capacity b) es, b') /\
    live b' rx /\ capacity b' = capacity b /\ unread b' rx = [] /\ lost b' rx = O.
Proof.
  intros Hl Hu Hn Hf. destruct (published es b rx Hl) as (H1 & H2 & H3). rewrite Hu in H3. destruct H3 as [H3 H4]; [cbn; lia|].
  cbn [app length] in H3, H4. rewrite Hn in H4. cbn [Nat.add] in H4. unfold delivered. destruct (Nat.ltb_spec (capacity b) (length es)) as [Hc|Hc].
  - destruct fuel as [|fuel]; [lia|]. cbn [receive_all]. destruct (try_recv rx (foldl Publish b es)) as [o b1] eqn:E.
    apply received in E as (G1 & G2 & G3 & G4); [|done]. rewrite H4 in G4. destruct (length es - capacity b)%nat as [|k] eqn:Ek; [lia|].
    destruct G4 as [-> G4]. rewrite H3 in G4. destruct (received_all _ b1 rx fuel G1 G4 G3) as (b2 & -> & Hr & Hc2 & Hrest);
      [rewrite length_last_n; lia|]. exists b2. split; [done|]. split; [done|]. split; [congruence|done].
  - rewrite last_n_all in H3 by done. replace (length es - capacity b)%nat with O in H4 by lia.
    destruct (received_all es (foldl Publish b es) rx fuel H1 H3 H4) as (b2 & E & Hr & Hc2 & Hrest); [lia|].
    exists b2. split; [done|]. split; [done|]. split; [congruence|done].
Qed.

(** what subscribers see. One that drains the bus between batches of events reads
    every batch completely and in order when no batch is longer than the capacity;
    of a longer one it reads how many were lost and the rest; nothing of before the
    subscription. The console prints every batch that way and goes on. *)
Theorem bus_delivers show (b0 b : Bus) rx batches fuel :
  Subscribe b0 = (rx, b) -> Forall (fun es => (S (length es) < fuel)%nat) batches ->
  exists b', batches_read fuel rx b batches = Some (map (delivered (capacity b0)) batches, b') /\
    stdout_subscriber show (concat (map (delivered (capacity b0)) batches)) =
      (omap (print_item show) (concat (map (delivered (capacity b0)) batches)), false).
Proof.
  intros (Hl & Hu & Hn & <-)%subscribed HF.
  assert (exists b', batches_read fuel rx b batches = Some (map (delivered (capacity b)) batches, b')) as [b' E].
  { revert b Hl Hu Hn. induction HF as [|es batches He HF IH]; intros b Hl Hu Hn; [by exists b|]. cbn [batches_read].
    destruct (drained b rx fuel es Hl Hu Hn He) as (b1 & -> & H1 & H2 & H3 & H4). cbn [mbind option_bind].
    destruct (IH b1 H1 H3 H4) as [b2 ->]. exists b2. by rewrite H2. }
  exists b'. split; [exact E|]. assert (Forall (fun i => i <> Closed) (concat (map (delivered (capacity b)) batches))) as HC.
  { apply Forall_concat, Forall_fmap, Forall_true. intros es. unfold delivered. cbn.
    case_match; [constructor; [done|]|]; by apply Forall_fmap, Forall_true. }
  clear -HC. induction HC as [|i its Hi HC IH]; [done|]. cbn [stdout_subscriber omap list_omap]. rewrite IH. by destruct i.
Qed.
End delivery.

(** ** A bus *)
(** The events sent since the channel was made, and how far each receiver is. *)
Module Plain_Bus.
Record bus : Type := mk_bus { size : nat; log : list Bus_Event; at_ : list nat }.
Definition rest (b : bus) (rx : nat) : list Bus_Event := drop (default O (at_ b !! rx)) (log b).
Definition move (rx n : nat) (b : bus) : bus := mk_bus (size b) (log b) (<[rx := n]> (at_ b)).
Definition read (rx : nat) (b : bus) : option bus_item * bus :=
  let behind := (length (rest b rx) - size b)%nat in
  match behind, rest b rx with
  | S n, _ => (Some (Lagged (Z.of_nat (S n))), move rx (length (log b) - size b)%nat b)
  | O, e :: _ => (Some (Item e), move rx (S (default O (at_ b !! rx))) b)
  | O, [] => (None, b)
  end.
#[global] Instance plain_broadcast : Broadcast bus nat := {|
  channel n := if n <=? 0 then None else Some (mk_bus (Z.to_nat n) [] []);
  send b e := mk_bus (size b) (log b ++ [e]) (at_ b);
  subscribe b := (length (at_ b), mk_bus (size b) (log b) (at_ b ++ [length (log b)]));
  try_recv := read;
  capacity := size;
  live b rx := exists n, at_ b !! rx = Some n /\ (n <= length (log b))%nat;
  unread b rx := last_n (size b) (rest b rx);
  lost b rx := (length (rest b rx) - size b)%nat;
|}.
Lemma drop_rest (b : bus) rx n : at_ b !! rx = Some n -> rest b rx = drop n (log b).
Proof. unfold rest. by intros ->. Qed.
#[global] Instance plain_broadcast_laws : Broadcast_Laws bus nat.
Proof.
  split.
  - intros n b. cbn. destruct (Z.leb_spec n 0); [done|]. intros [= <-]. cbn. lia.
  - intros b rx b' [= <- <-]. cbn. assert ((at_ b ++ [length (log b)]) !! length (at_ b) = Some (length (log b))) as Hat by (by apply list_lookup_middle).
    unfold rest. cbn [at_ log]. rewrite Hat. cbn [from_option id]. rewrite drop_all. by split; [eexists|].
  - intros b e. split; [done|]. intros rx (n & Hn & Hle). cbn -[last_n rest length]. unfold rest. cbn [at_ log size]. rewrite Hn. cbn [from_option id].
    rewrite drop_app_le, last_n_snoc, length_last_n, !length_app by done. cbn [length].
    split; [exists n; split; [done|lia]|]. split; [done|]. lia.
  - intros b rx o b' (n & Hn & Hle). cbn -[last_n rest length]. unfold read. rewrite (drop_rest b rx n Hn).
    assert (rx < length (at_ b))%nat as Hlt by by eapply lookup_lt_Some.
    assert (forall k, rest (move rx k b) rx = drop k (log b)) as Hm by (intros k; apply (drop_rest (move rx k b) rx k); cbn; by apply list_lookup_insert_eq).
    destruct (length (drop n (log b)) - size b)%nat as [|m] eqn:El.
    + rewrite last_n_all by lia. destruct (drop n (log b)) as [|e u] eqn:Ed.
      * intros [= <- <-]. rewrite (drop_rest b rx n Hn), Ed. cbn. unfold last_n. rewrite drop_nil. by split; [eexists|].
      * intros [= <- <-]. rewrite Hm, Hn. cbn [from_option id]. assert (drop (S n) (log b) = u) as Hu by (by rewrite <- Nat.add_1_r, <- drop_drop, Ed).
        rewrite Hu. cbn [length] in El. assert (S n <= length (log b))%nat by (apply (f_equal length) in Ed; rewrite length_drop in Ed; cbn in Ed; lia).
        change (size (move rx (S n) b)) with (size b). rewrite last_n_all by lia. cbn -[length]. split; [exists (S n); split; [by apply list_lookup_insert_eq|done]|]. split; [done|]. split; [lia|done].
    + intros [= <- <-]. rewrite Hm. rewrite length_drop in El |- *. cbn.
      split; [eexists; split; [by apply list_lookup_insert_eq|cbn; lia]|]. split; [done|]. split; [lia|]. split; [done|].
      unfold last_n. rewrite !drop_drop, !length_drop. f_equal. lia.
Qed.
End Plain_Bus.
Import Plain_Bus.
(** Two events that fit a bus of two, then three that do not. *)
Lemma bus_delivers_witness :
  exists b b', channel 2 = Some b /\
    batches_read 5 (Subscribe b).1 (Subscribe b).2
      [[Notify Info "a"; Notify Warn "b"]; [Notify Info "c"; Notify Info "d"; Notify Error "e"]]%string =
    Some ([[Item (Notify Info "a"); Item (Notify Warn "b")]; [Lagged 1; Item (Notify Info "d"); Item (Notify Error "e")]]%string, b').
Proof.
  eexists. destruct (bus_delivers (fun _ => ""%string) (mk_bus 2 [] []) (Subscribe (mk_bus 2 [] [])).2 (Subscribe (mk_bus 2 [] [])).1
    [[Notify Info "a"; Notify Warn "b"]; [Notify Info "c"; Notify Info "d"; Notify Error "e"]]%string 5) as (b' & E & _).
  - reflexivity.
  - repeat constructor.
  - exists b'. split; [reflexivity|]. exact E.
Defined.
