(* ===== verification/DsTensor.v ===== *)
(** * Tensors of the DeepSeek V4 files (candle's operations)

    The calls of candle that [deepseek_v4] makes, as the class [Tensor_Ops]; what
    its theorems use of them is in [Typing_Laws] (element types and shapes) and
    [Matrix_Laws] (rows of values).  Both state candle's documented behaviour, and
    [Plain_Tensors] is a library that has it.

    Values of a tensor are seen only through [flatten_all] and [to_vec1], as the
    code sees them. A dimension [-1] is [D::Minus1]. *)
From S2P Require Import Prelude RustStd Wire Json Cursor DsWeights.

Inductive tag : Set := TF32 | TBF16 | TI64 | TU32 | TOther (n : Z).
#[global] Instance tag_eq_dec : EqDecision tag.
Proof. solve_decision. Defined.

Lemma zlen_map {A B} (f : A -> B) l : zlen (map f l) = zlen l.
Proof. unfold zlen. by rewrite length_map. Qed.
Lemma zlen_seqZ a n : 0 <= n -> zlen (seqZ a n) = n.
Proof. intros. unfold zlen. rewrite length_seqZ. lia. Qed.
Lemma zlen_zip_with {A B C} (f : A -> B -> C) l k : zlen l = zlen k -> zlen (zip_with f l k) = zlen l.
Proof. unfold zlen. intros. rewrite length_zip_with. lia. Qed.
Lemma zip_with_map {A B C D} (f : B -> C -> D) (g : A -> B) (h : A -> C) l :
  zip_with f (map g l) (map h l) = map (fun a => f (g a) (h a)) l.
Proof. induction l as [|a l IH]; cbn; [done|]. by rewrite IH. Qed.
Lemma zip_with_map_r {A B C D} (f : A -> C -> D) (h : B -> C) l k : zip_with f l (map h k) = zip_with (fun a b => f a (h b)) l k.
Proof. revert k. induction l as [|a l IH]; intros [|b k]; cbn; [done..|]. by rewrite IH. Qed.
Lemma zip_with_map_l {A B C D} (f : B -> C -> D) (g : A -> B) l k : zip_with f (map g l) k = zip_with (fun a b => f (g a) b) l k.
Proof. revert k. induction l as [|a l IH]; intros [|b k]; cbn; [done..|]. by rewrite IH. Qed.
Lemma zip_with_map_same {A C D} (f : A -> C -> D) (h : A -> C) l : zip_with f l (map h l) = map (fun a => f a (h a)) l.
Proof. induction l as [|a l IH]; cbn; [done|]. by rewrite IH. Qed.
Lemma map_zip_with {A B C D} (f : C -> D) (g : A -> B -> C) l k : map f (zip_with g l k) = zip_with (fun a b => f (g a b)) l k.
Proof. revert k. induction l as [|a l IH]; intros [|b k]; cbn; [done..|]. by rewrite IH. Qed.
Lemma zip_with_ext {A B C} (f g : A -> B -> C) l k : (forall a b, f a b = g a b) -> zip_with f l k = zip_with g l k.
Proof. intros E. revert k. induction l as [|a l IH]; intros [|b k]; cbn; [done..|]. by rewrite E, IH. Qed.
Lemma concat_concat {A} (l : list (list (list A))) : concat (concat l) = concat (map (@concat A) l).
Proof. induction l as [|a l IH]; cbn; [done|]. by rewrite concat_app, IH. Qed.
#[export] Hint Rewrite @zlen_map : zlen.
Lemma map_result_total {E A B} (f : A -> result E B) (g : A -> B) l :
  (forall x, x ∈ l -> f x = Ok (g x)) -> map_result f l = Ok (map g l).
Proof.
  induction l as [|x l IH]; intros H; [done|]. cbn. rewrite (H x) by (by left). cbn [mbind result_bind].
  rewrite IH; [done|]. intros y Hy. apply H. by right.
Qed.
Lemma lookup_nth {A} (l : list A) i d : (i < length l)%nat -> l !! i = Some (nth i l d).
Proof. intros Hi. rewrite nth_lookup. by destruct (lookup_lt_is_Some_2 l i Hi) as [x ->]. Qed.
Lemma at_nth {A} (l : list A) i d : 0 <= i < zlen l -> at_ l i = Some (nth (Z.to_nat i) l d).
Proof.
  intros Hi. unfold at_. rewrite (proj2 (Z.ltb_ge i 0)) by lia.
  apply lookup_nth. unfold zlen in Hi. lia.
Qed.
(** Row by row: the entry of a row-major list. *)
Lemma at_concat {A} (L : list (list A)) e r j d : Forall (fun l => zlen l = e) L -> 0 <= r < zlen L -> 0 <= j < e ->
  at_ (concat L) (r * e + j) = Some (nth (Z.to_nat j) (nth (Z.to_nat r) L []) d).
Proof.
  intros HS Hr Hj. revert r Hr. induction HS as [|l L Hl HS IH]; intros r Hr; [zlens|].
  cbn [concat]. unfold at_. rewrite (proj2 (Z.ltb_ge _ 0)) by nia. rewrite zlen_cons in Hr.
  destruct (decide (r = 0)) as [->|Hr0].
  - rewrite Z.mul_0_l, Z.add_0_l, lookup_app_l by (unfold zlen in Hl; lia).
    change (Z.to_nat 0) with 0%nat. cbn [nth]. apply lookup_nth. unfold zlen in Hl. lia.
  - assert (e <= r * e) by nia. rewrite lookup_app_r by (unfold zlen in Hl; lia). specialize (IH (r - 1) ltac:(lia)).
    unfold at_ in IH. rewrite (proj2 (Z.ltb_ge _ 0)) in IH by nia.
    replace (Z.to_nat (r * e + j) - length l)%nat with (Z.to_nat ((r - 1) * e + j)) by (rewrite Z.mul_sub_distr_r; unfold zlen in Hl; lia).
    rewrite IH. replace (Z.to_nat r) with (S (Z.to_nat (r - 1))) by lia. done.
Qed.
Lemma nth_map {A B} (f : A -> B) l i d d' : (i < length l)%nat -> nth i (map f l) d' = f (nth i l d).
Proof. intros Hi. rewrite (nth_indep _ d' (f d)) by (by rewrite length_map). apply map_nth. Qed.
Lemma map_nth_seqZ {A B} (h : A -> B) l d : map (fun r => h (nth (Z.to_nat r) l d)) (seqZ 0 (zlen l)) = map h l.
Proof.
  apply list_eq. intros i. change (map ?f ?k) with (f <$> k). rewrite !list_lookup_fmap.
  destruct (decide (i < length l)%nat) as [Hi|Hi].
  - rewrite lookup_seqZ_lt by (unfold zlen; lia). cbn. rewrite (lookup_nth l i d Hi). cbn. do 3 f_equal; lia.
  - rewrite (lookup_ge_None_2 l) by lia. rewrite lookup_seqZ_ge by (unfold zlen; lia). done.
Qed.
Lemma zip_with_seqZ {A B} (F : Z -> A -> B) l d :
  zip_with F (seqZ 0 (zlen l)) l = map (fun j => F j (nth (Z.to_nat j) l d)) (seqZ 0 (zlen l)).
Proof.
  apply list_eq. intros i. change (map ?f ?k) with (f <$> k). rewrite lookup_zip_with, list_lookup_fmap.
  destruct (decide (i < length l)%nat) as [Hi|Hi].
  - rewrite lookup_seqZ_lt by (unfold zlen; lia). cbn. rewrite (lookup_nth l i d Hi). cbn. do 3 f_equal; lia.
  - rewrite lookup_seqZ_ge by (unfold zlen; lia). done.
Qed.
Lemma zip_with_flip {A B C} (F : A -> B -> C) l k : zip_with F l k = zip_with (fun b a => F a b) k l.
Proof. revert k. induction l as [|a l IH]; intros [|b k]; cbn; [done..|]. by rewrite IH. Qed.
Lemma zip_seqZ {A} (l : list A) d : zip l (seqZ 0 (zlen l)) = map (fun j => (nth (Z.to_nat j) l d, j)) (seqZ 0 (zlen l)).
Proof. rewrite zip_with_flip. exact (zip_with_seqZ (fun j a => (a, j)) l d). Qed.

(** ** 64-bit floats, of the standard library *)
Class Float64 (R : Type) : Type := {
  lit : Z -> Z -> R;  (** [m * 10^e] *)
  of_usize : Z -> R;
  fadd : R -> R -> R; fsub : R -> R -> R; fmul : R -> R -> R; fdiv : R -> R -> R;
  fneg : R -> R; powf : R -> R -> R; ln : R -> R; fcos : R -> R; fsin : R -> R; ffloor : R -> R; fceil : R -> R;
  fmax : R -> R -> R; fmin : R -> R -> R; feqb : R -> R -> bool; fltb : R -> R -> bool;
  f64_pi : R; as_f32 : R -> f32; of_f32 : f32 -> R;
}.
Definition one {R} `{!Float64 R} : R := lit 1 0.
Definition zero {R} `{!Float64 R} : R := lit 0 0.

(** ** The operations *)
(** [candle_core::Result], with panics. *)
Notation res := (result (fault string)).
Inductive unary (R : Type) : Type :=
  | Sqr | Sqrt | Exp | Log | Neg | Abs | Relu | Silu | Recip
  | Affine (a b : R) | Powf (a : R) | Clamp (a b : R) | Minimum (a : R).
Arguments Sqr {R}. Arguments Sqrt {R}. Arguments Exp {R}. Arguments Log {R}. Arguments Neg {R}. Arguments Abs {R}.
Arguments Relu {R}. Arguments Silu {R}. Arguments Recip {R}. Arguments Affine {R}. Arguments Powf {R}.
Arguments Clamp {R}. Arguments Minimum {R}.
Inductive binary : Set := Add | Sub | Mul | Div.
Inductive reduction : Set := Sum | Max | Mean.

Class Tensor_Ops (T Dev R : Type) : Type := {
  dims : T -> list Z;
  dtype_of : T -> tag;
  device : T -> Dev;
  to_dtype : tag -> T -> res T;
  contiguous : T -> res T;
  reshape : list Z -> T -> res T;
  flatten_all : T -> res T;
  unsqueeze : Z -> T -> res T;
  transpose : Z -> Z -> T -> res T;
  t_t : T -> res T;
  permute : list Z -> T -> res T;
  narrow : Z -> Z -> Z -> T -> res T;
  cat : list T -> Z -> res T;
  stack : list T -> Z -> res T;
  broadcast_as : list Z -> T -> res T;
  index_select : T -> T -> Z -> res T;
  (** [t.index_add(indexes, source, dim)] *)
  index_add : T -> T -> T -> Z -> res T;
  t_zeros : list Z -> Dev -> res T;
  t_full : f32 -> list Z -> Dev -> res T;
  ones_like : T -> res T;
  ones : list Z -> Dev -> res T;
  from_vec_f32 : list f32 -> list Z -> Dev -> res T;
  from_vec_i64 : list Z -> list Z -> Dev -> res T;
  from_vec_u32 : list Z -> list Z -> Dev -> res T;
  to_vec1_f32 : T -> res (list f32);
  to_vec1_i64 : T -> res (list Z);
  un : unary R -> T -> res T;
  (** [broadcast_add] and so on, and the operations that want one shape *)
  broadcast : binary -> T -> T -> res T;
  pointwise : binary -> T -> T -> res T;
  reduce_keepdim : reduction -> Z -> T -> res T;
  sum : Z -> T -> res T;
  matmul : T -> T -> res T;
  softmax : Z -> T -> res T;
  (** what an operation does to numbers *)
  un1 : unary R -> f32 -> f32;
  bin1 : binary -> f32 -> f32 -> f32;
  red1 : reduction -> list f32 -> f32;
  vecmat : list f32 -> list (list f32) -> list f32;
}.

(** ** Shapes *)
Section shapes.
Context {T Dev R : Type} `{!Tensor_Ops T Dev R}.
Definition unexpected_rank : fault string := Failed "unexpected rank"%string.
Definition dim (t : T) (i : nat) : res Z := ok_or (Failed "dim out of range"%string) (dims t !! i).
Definition last_dim (t : T) : res Z := ok_or (Failed "dim out of range"%string) (last (dims t)).
Definition get_dims1 (t : T) : res Z := match dims t with [a] => Ok a | _ => Err unexpected_rank end.
Definition get_dims2 (t : T) : res (Z * Z) := match dims t with [a; b] => Ok (a, b) | _ => Err unexpected_rank end.
Definition get_dims3 (t : T) : res (Z * Z * Z) := match dims t with [a; b; c] => Ok (a, b, c) | _ => Err unexpected_rank end.
Definition get_dims4 (t : T) : res (Z * Z * Z * Z) :=
  match dims t with [a; b; c; d] => Ok (a, b, c, d) | _ => Err unexpected_rank end.
Definition product (l : list Z) : Z := foldr Z.mul 1 l.
(** The last dimension of [x] against the second of [w]. *)
Definition attn_linear (x w : T) : res T :=
  match last (dims x) with
  | None => Err Panicked
  | Some in_f =>
      let rest := removelast (dims x) in
      out_f ← dim w 0;
      x ← reshape [product rest; in_f] x;
      w ← t_t w;
      w ← contiguous w;
      y ← matmul x w;
      reshape (rest ++ [out_f]) y
  end.

(** *** Values as rows *)
Definition mat (t : T) (d : Z) (X : list (list f32)) : Prop :=
  dims t = [zlen X; d] /\ dtype_of t = TF32 /\ Forall (fun r => zlen r = d) X /\
  exists f, flatten_all t = Ok f /\ to_vec1_f32 f = Ok (concat X).
Definition vec (t : T) (l : list f32) : Prop := dims t = [zlen l] /\ dtype_of t = TF32 /\ to_vec1_f32 t = Ok l.
Definition imat (t : T) (d : Z) (X : list (list Z)) : Prop :=
  dims t = [zlen X; d] /\ dtype_of t = TI64 /\ Forall (fun r => zlen r = d) X /\
  exists f, flatten_all t = Ok f /\ to_vec1_i64 f = Ok (concat X).
End shapes.
Definition transposed (d : Z) (W : list (list f32)) : list (list f32) :=
  map (fun j => map (fun r => nth (Z.to_nat j) r NaN) W) (seqZ 0 d).
Definition f32_zero : f32 := Fin false 0 0.
Definition f32_one : f32 := Fin false 1 0.
(** [Y[i] += r] for every pair, in order. *)
Definition add_rows (plus : f32 -> f32 -> f32) (Y : list (list f32)) (l : list (Z * list f32)) : list (list f32) :=
  foldl (fun Y '(i, r) => alter (fun y => zip_with plus y r) (Z.to_nat i) Y) Y l.

Class Matrix_Laws (T Dev R : Type) `{!Tensor_Ops T Dev R} : Type := {
  index_tensor : T -> list Z -> Prop;
  m_reshape t d X : mat t d X -> exists y, reshape [zlen X; d] t = Ok y /\ mat y d X;
  m_t t d X : mat t d X -> exists y, t_t t = Ok y /\ mat y (zlen X) (transposed d X);
  m_contiguous t d X : mat t d X -> exists y, contiguous t = Ok y /\ mat y d X;
  m_to_dtype t d X : mat t d X -> exists y, to_dtype TF32 t = Ok y /\ mat y d X;
  m_matmul a b d e X W : mat a d X -> mat b e W -> zlen W = d -> 0 < d ->
    exists y, matmul a b = Ok y /\ mat y e (map (fun r => vecmat r W) X);
  m_un u t d X : mat t d X -> exists y, un u t = Ok y /\ mat y d (map (map (un1 u)) X);
  m_reduce o t d X : mat t d X -> 0 < d ->
    exists y, reduce_keepdim o (-1) t = Ok y /\ mat y 1 (map (fun r => [red1 o r]) X);
  m_broadcast o a b d X Y : mat a d X -> mat b d Y -> zlen X = zlen Y ->
    exists y, broadcast o a b = Ok y /\ mat y d (zip_with (zip_with (bin1 o)) X Y);
  m_pointwise o a b d X Y : mat a d X -> mat b d Y -> zlen X = zlen Y ->
    exists y, pointwise o a b = Ok y /\ mat y d (zip_with (zip_with (bin1 o)) X Y);
  m_broadcast_col o a b d X c : mat a d X -> mat b 1 (map (fun v => [v]) c) -> zlen X = zlen c ->
    exists y, broadcast o a b = Ok y /\ mat y d (zip_with (fun r v => map (fun u => bin1 o u v) r) X c);
  m_broadcast_vec o a b d X l : mat a d X -> vec b l -> zlen l = d ->
    exists y, broadcast o a b = Ok y /\ mat y d (map (fun r => zip_with (bin1 o) r l) X);
  m_ones_like t d X : mat t d X -> exists y, ones_like t = Ok y /\ mat y d (map (map (fun _ => f32_one)) X);
  m_zeros n d dev : 0 <= n -> 0 <= d ->
    exists y, t_zeros [n; d] dev = Ok y /\ mat y d (repeat (repeat f32_zero (Z.to_nat d)) (Z.to_nat n));
  m_from_vec d X dev : Forall (fun r => zlen r = d) X ->
    exists y, from_vec_f32 (concat X) [zlen X; d] dev = Ok y /\ mat y d X;
  m_from_vec_i64 d X dev : Forall (fun r => zlen r = d) X ->
    exists y, from_vec_i64 (concat X) [zlen X; d] dev = Ok y /\ imat y d X;
  m_from_vec_u32 l dev : exists y, from_vec_u32 l [zlen l] dev = Ok y /\ index_tensor y l;
  m_index_select t d X s l : mat t d X -> index_tensor s l -> Forall (fun i => 0 <= i < zlen X) l ->
    exists y, index_select t s 0 = Ok y /\ mat y d (map (fun i => nth (Z.to_nat i) X []) l);
  m_index_add t s src d X l Y : mat t d X -> index_tensor s l -> mat src d Y -> zlen l = zlen Y ->
    Forall (fun i => 0 <= i < zlen X) l ->
    exists y, index_add t s src 0 = Ok y /\ mat y d (add_rows (bin1 Add) X (zip l Y));
}.

(** What the results of some operations have in common with their arguments. *)
Class Typing_Laws (T Dev R : Type) `{!Tensor_Ops T Dev R} : Prop := {
  dims_nonneg t : Forall (Z.le 0) (dims t);
  to_dtype_type d t y : to_dtype d t = Ok y -> dtype_of y = d /\ dims y = dims t;
  reshape_type s t y : reshape s t = Ok y -> dtype_of y = dtype_of t /\ dims y = s;
  t_type t y : t_t t = Ok y -> dtype_of y = dtype_of t;
  contiguous_type t y : contiguous t = Ok y -> dtype_of y = dtype_of t /\ dims y = dims t;
  matmul_type a b y : matmul a b = Ok y -> dtype_of a = dtype_of b;
  cat_dim a b i n m y : cat [a; b] (Z.of_nat i) = Ok y -> dims a !! i = Some n -> dims b !! i = Some m -> dims y !! i = Some (n + m);
  from_vec_i64_dims l s dev y : from_vec_i64 l s dev = Ok y -> dims y = s;
  unsqueeze_front t y : unsqueeze 0 t = Ok y -> dims y = 1 :: dims t;
  broadcast_as_fits s t y : broadcast_as s t = Ok y -> length s = length (dims t) -> Forall2 (fun d e => d = 1 \/ d = e) (dims t) s;
}.

(** Adding rows group by group, the rows of a group to one row. *)
Lemma add_rows_app plus Y l k : add_rows plus Y (l ++ k) = add_rows plus (add_rows plus Y l) k.
Proof. unfold add_rows. by rewrite foldl_app. Qed.
Lemma add_rows_one plus pre y post rs :
  add_rows plus (pre ++ y :: post) (map (fun r => (zlen pre, r)) rs) = pre ++ foldl (zip_with plus) y rs :: post.
Proof.
  revert y. induction rs as [|r rs IH]; intros y; [done|]. cbn [map]. change ((zlen pre, r) :: ?l) with ([(zlen pre, r)] ++ l).
  rewrite add_rows_app. cbn [add_rows foldl]. rewrite alter_app_r_alt by (unfold zlen; lia).
  replace (Z.to_nat (zlen pre) - length pre)%nat with 0%nat by (unfold zlen; lia). cbn. apply IH.
Qed.
Lemma add_rows_groups {A} plus (h : A -> list f32) (rs : A -> list (list f32)) X pre :
  add_rows plus (pre ++ map h X) (concat (zip_with (fun t x => map (pair t) (rs x)) (seqZ (zlen pre) (zlen X)) X)) =
  pre ++ map (fun x => foldl (zip_with plus) (h x) (rs x)) X.
Proof.
  revert pre. induction X as [|x X IH]; intros pre; [done|]. rewrite zlen_cons, seqZ_cons by (pose proof (zlen_nonneg X); lia).
  cbn [zip_with map concat]. rewrite add_rows_app, add_rows_one.
  specialize (IH (pre ++ [foldl (zip_with plus) (h x) (rs x)])). rewrite zlen_app in IH. cbn in IH.
  rewrite <- !app_assoc in IH. cbn in IH. rewrite <- IH.
  change (zlen [_]) with 1. by replace (Z.pred (1 + zlen X)) with (zlen X) by lia.
Qed.

(** ** Comparison and selection *)
(** [partial_cmp] *)
Definition signed (neg : bool) (m : Z) : Z := if neg then - m else m.
Definition f32_cmp (x y : f32) : option comparison :=
  match x, y with
  | NaN, _ | _, NaN => None
  | Inf n, Inf n' => Some (if eqb n n' then Eq else if n then Lt else Gt)
  | Inf n, Fin _ _ _ => Some (if n then Lt else Gt)
  | Fin _ _ _, Inf n => Some (if n then Gt else Lt)
  | Fin n m e, Fin n' m' e' =>
      let k := Z.min e e' in Some (signed n m * 2 ^ (e - k) ?= signed n' m' * 2 ^ (e' - k))
  end.
(** [cand.sort_by(|a, c| c.0.partial_cmp(&a.0).unwrap_or(Equal))]: stable, the
    greatest first. Its result is fixed by the documentation of [sort_by] when no
    candidate is NaN. [geb x y]: [x] is not below [y]. *)
Definition geb (x y : f32) : bool := negb (bool_decide (f32_cmp y x = Some Gt)).
Fixpoint insert_cand {A} (x : f32 * A) (l : list (f32 * A)) : list (f32 * A) :=
  match l with [] => [x] | y :: l' => if geb x.1 y.1 then x :: l else y :: insert_cand x l' end.
Definition sort_cand {A} (l : list (f32 * A)) : list (f32 * A) := foldr insert_cand [] l.


(** *** Lemmas *)
Definition is_num (x : f32) : bool := match x with NaN => false | _ => true end.
Definition fin_ge (k : Z) (n : bool) (m e : Z) (n' : bool) (m' e' : Z) : Prop :=
  signed n' m' * 2 ^ (e' - k) <= signed n m * 2 ^ (e - k).
Lemma geb_fin k n m e n' m' e' : k <= e -> k <= e' -> geb (Fin n m e) (Fin n' m' e') = true <-> fin_ge k n m e n' m' e'.
Proof.
  intros H H'. unfold geb, fin_ge, f32_cmp. cbv zeta. set (k0 := Z.min e' e).
  assert (forall a z, 0 <= z - k0 -> a * 2 ^ (z - k) = a * 2 ^ (z - k0) * 2 ^ (k0 - k)) as E.
  { intros a z Hz. rewrite <- Z.mul_assoc, <- Z.pow_add_r by lia. do 2 f_equal. lia. }
  rewrite (E _ e), (E _ e') by lia. assert (0 < 2 ^ (k0 - k)) as Hp by (apply Z.pow_pos_nonneg; lia).
  rewrite <- Z.mul_le_mono_pos_r by done. rewrite negb_true_iff, bool_decide_eq_false.
  set (a := signed n' m' * _). set (b := signed n m * _). clearbody a b. clear. split.
  - intros Hn. destruct (Z.compare_spec a b); [lia|lia|]. by destruct Hn.
  - intros Hle [=Hc]. apply Z.compare_gt_iff in Hc. lia.
Qed.
Lemma geb_total x y : geb x y = true \/ geb y x = true.
Proof.
  destruct x as [n m e|n|], y as [n' m' e'|n'|]; try (by left); try (by right).
  - set (k := Z.min e e'). rewrite (geb_fin k n), (geb_fin k n') by lia. unfold fin_ge. lia.
  - destruct n'; [by left|by right].
  - destruct n; [by right|by left].
  - destruct n, n'; try (by left); by right.
Qed.
Lemma geb_trans x y z : is_num y = true -> geb x y = true -> geb y z = true -> geb x z = true.
Proof.
  destruct y as [n2 m2 e2|n2|]; [| |discriminate]; intros _.
  - destruct x as [n1 m1 e1|n1|], z as [n3 m3 e3|n3|]; try done; try (by destruct n1); try (by destruct n3);
      try (by destruct n1, n3).
    set (k := Z.min (Z.min e1 e2) e3). rewrite !(geb_fin k) by lia. unfold fin_ge. lia.
  - destruct x as [n1 m1 e1|n1|], z as [n3 m3 e3|n3|], n2; try done; try (by destruct n1); try (by destruct n3);
      try (by destruct n1, n3).
Qed.

(** Candidates in the order of their indexes are sorted by value, the greatest
    first, and by index where values agree. *)
Definition before (x y : f32 * Z) : Prop := geb x.1 y.1 = true /\ (geb y.1 x.1 = true -> x.2 < y.2).
Lemma insert_cand_perm {A} (x : f32 * A) l : insert_cand x l ≡ₚ x :: l.
Proof. induction l as [|y l IH]; cbn; [done|]. case_match; [done|]. rewrite IH. by constructor. Qed.
Lemma sort_cand_perm {A} (l : list (f32 * A)) : sort_cand l ≡ₚ l.
Proof. induction l as [|x l IH]; cbn; [done|]. by rewrite insert_cand_perm, IH. Qed.
Lemma insert_cand_sorted x l :
  is_num x.1 = true -> Forall (fun y => is_num y.1 = true /\ x.2 < y.2) l -> StronglySorted before l ->
  StronglySorted before (insert_cand x l).
Proof.
  intros Hx Hl Hs. induction Hs as [|y l Hs IH Hy]; cbn; [by repeat constructor|].
  apply Forall_cons in Hl as [[Hn Hxy] Hl]. destruct (geb x.1 y.1) eqn:E.
  - constructor; [by constructor|]. constructor; [by split|]. rewrite Forall_forall in Hl, Hy |- *.
    intros z Hz. destruct (Hl z Hz) as [_ Hi], (Hy z Hz) as [Hg _]. split; [by apply (geb_trans _ y.1)|done].
  - constructor; [by apply IH|]. apply Forall_forall. intros z Hz. rewrite insert_cand_perm in Hz.
    apply elem_of_cons in Hz as [->|Hz]; [|by apply (proj1 (Forall_forall _ _) Hy)].
    destruct (geb_total x.1 y.1) as [|Hg]; [congruence|]. split; [done|congruence].
Qed.
Lemma sort_cand_sorted l :
  Forall (fun y => is_num y.1 = true) l -> StronglySorted Z.lt l.*2 -> StronglySorted before (sort_cand l).
Proof.
  induction l as [|x l IH]; cbn; intros Hn Hs; [constructor|]. apply Forall_cons in Hn as [Hx Hn].
  apply StronglySorted_inv in Hs as [Hs Hi]. fold (sort_cand l).
  apply insert_cand_sorted; [done| |by apply IH]. apply Forall_forall. intros y Hy. rewrite sort_cand_perm in Hy. split; [by apply (proj1 (Forall_forall _ _) Hn)|].
  apply (proj1 (Forall_forall _ _) Hi). by apply list_elem_of_fmap_2.
Qed.
(** The first [k]: everything else comes after each of them. *)
Lemma take_sorted {A} (R : A -> A -> Prop) k l x y :
  StronglySorted R l -> x ∈ take k l -> y ∈ drop k l -> R x y.
Proof.
  revert l. induction k as [|k IH]; intros l Hs Hx Hy; [by apply not_elem_of_nil in Hx|].
  destruct Hs as [|z l Hs Hz]; [by apply not_elem_of_nil in Hx|]. cbn in Hx, Hy.
  apply elem_of_cons in Hx as [->|Hx]; [|by apply (IH l)].
  apply (proj1 (Forall_forall _ _) Hz). rewrite <- (take_drop k l). apply elem_of_app. by right.
Qed.
