(* ===== verification/DsMatrices.v ===== *)
(** * A library of matrices that has the matrix laws

    A concrete tensor library with matrices and vectors only, on which the theorems
    of [DsMoe] are instantiated.  Sums and products are exact; the functions that
    dyadic numbers do not have (roots, exponentials, quotients) are left out, that
    is, give their first argument back. *)
From S2P Require Import Prelude RustStd Wire Json Cursor DsWeights DsTensor.

Definition f32_neg (x : f32) : f32 := match x with Fin n m e => Fin (negb n) m e | Inf n => Inf (negb n) | NaN => NaN end.
Definition f32_add (x y : f32) : f32 :=
  match x, y with
  | NaN, _ | _, NaN => NaN
  | Inf n, _ | _, Inf n => Inf n
  | Fin n m e, Fin n' m' e' =>
      let k := Z.min e e' in
      let s := signed n m * 2 ^ (e - k) + signed n' m' * 2 ^ (e' - k) in Fin (s <? 0) (Z.abs s) k
  end.
Definition f32_lt (x y : f32) : bool := bool_decide (f32_cmp x y = Some Lt).
Definition f32_min (x y : f32) : f32 := if f32_lt y x then y else x.
Definition f32_max (x y : f32) : f32 := if f32_lt x y then y else x.
#[global] Instance f32_Float64 : Float64 f32 := {
  lit m _ := Fin (m <? 0) (Z.abs m) 0; of_usize n := Fin false n 0;
  fadd := f32_add; fsub x y := f32_add x (f32_neg y); fmul := f32_mul; fdiv x _ := x; fneg := f32_neg; powf x _ := x;
  ln x := x; fcos x := x; fsin x := x; ffloor x := x; fceil x := x; fmax := f32_max; fmin := f32_min;
  feqb x y := bool_decide (f32_cmp x y = Some Eq); fltb := f32_lt; f64_pi := Fin false 25 (-3); as_f32 x := x; of_f32 x := x;
}.

Module Matrices.
Inductive t : Type := Mat (d : Z) (X : list (list f32)) | IMat (d : Z) (X : list (list Z)) | Vec (l : list f32)
  | IVec (l : list Z) | UVec (l : list Z).
Definition even_rows {A} (d : Z) (X : list (list A)) : bool := forallb (fun r => zlen r =? d) X.
Definition dims_of (x : t) : list Z :=
  match x with
  | Mat d X => if even_rows d X then [zlen X; d] else []
  | IMat d X => if even_rows d X then [zlen X; d] else []
  | Vec l => [zlen l]
  | IVec l | UVec l => [zlen l]
  end.
Definition unsupported {A} : res A := Err (Failed "unsupported"%string).
Fixpoint chunk {A} (n : nat) (d : Z) (l : list A) : list (list A) :=
  match n with O => [] | S n => take (Z.to_nat d) l :: chunk n d (drop (Z.to_nat d) l) end.
Definition in_rows (n : Z) (l : list Z) : bool := forallb (fun i => (0 <=? i) && (i <? n)) l.
Definition scalar1 (u : unary f32) (x : f32) : f32 :=
  match u with
  | Neg => f32_neg x | Relu => f32_max x f32_zero | Affine a b => f32_add (f32_mul a x) b
  | Clamp a b => f32_min (f32_max x a) b | Minimum a => f32_min x a | _ => x
  end.
Definition scalar2 (o : binary) (x y : f32) : f32 :=
  match o with Add => f32_add x y | Sub => f32_add x (f32_neg y) | Mul => f32_mul x y | Div => x end.
Definition reduced (o : reduction) (l : list f32) : f32 :=
  match o, l with Max, x :: l => foldl f32_max x l | _, _ => foldl f32_add f32_zero l end.
Definition times (r : list f32) (W : list (list f32)) : list f32 :=
  match W with
  | [] => []
  | w :: _ => foldl (zip_with f32_add) (map (fun _ => f32_zero) w) (zip_with (fun a w => map (f32_mul a) w) r W)
  end.
Definition map_values (f : f32 -> f32) (x : t) : res t :=
  match x with Mat d X => Ok (Mat d (map (map f) X)) | Vec l => Ok (Vec (map f l)) | _ => unsupported end.
Definition same (f : f32 -> f32 -> f32) (a b : t) : res t :=
  match a, b with
  | Mat d X, Mat d' Y => if (d =? d') && (zlen X =? zlen Y) then Ok (Mat d (zip_with (zip_with f) X Y)) else unsupported
  | _, _ => unsupported
  end.
Definition spread (f : f32 -> f32 -> f32) (a b : t) : res t :=
  match a, b with
  | Mat d X, Mat d' Y =>
      if (d' =? 1) && (zlen X =? zlen Y) then Ok (Mat d (zip_with (fun r v => map (fun u => f u v) r) X (concat Y)))
      else same f a b
  | Mat d X, Vec l => if zlen l =? d then Ok (Mat d (map (fun r => zip_with f r l) X)) else unsupported
  | _, _ => unsupported
  end.

#[global] Instance ops : Tensor_Ops t unit f32 := {
  dims := dims_of;
  dtype_of x := match x with Mat _ _ | Vec _ => TF32 | IMat _ _ | IVec _ => TI64 | UVec _ => TU32 end;
  device _ := tt;
  to_dtype d x := match d, x with TF32, (Mat _ _ | Vec _) => Ok x | _, _ => unsupported end;
  contiguous x := Ok x;
  reshape s x := if decide (dims_of x = s) then Ok x else unsupported;
  flatten_all x := match x with Mat _ X => Ok (Vec (concat X)) | IMat _ X => Ok (IVec (concat X)) | _ => Ok x end;
  unsqueeze _ _ := unsupported; transpose _ _ _ := unsupported; permute _ _ := unsupported; narrow _ _ _ _ := unsupported;
  t_t x := match x with Mat d X => Ok (Mat (zlen X) (transposed d X)) | _ => unsupported end;
  cat _ _ := unsupported; stack _ _ := unsupported; broadcast_as _ _ := unsupported;
  index_select x s i :=
    match x, s, i with
    | Mat d X, UVec l, 0 => if in_rows (zlen X) l then Ok (Mat d (map (fun i => nth (Z.to_nat i) X []) l)) else unsupported
    | _, _, _ => unsupported
    end;
  index_add x s y i :=
    match x, s, y, i with
    | Mat d X, UVec l, Mat d' Y, 0 =>
        if (d =? d') && (zlen l =? zlen Y) && in_rows (zlen X) l then Ok (Mat d (add_rows f32_add X (zip l Y))) else unsupported
    | _, _, _, _ => unsupported
    end;
  t_zeros s _ := match s with [n; d] => Ok (Mat d (repeat (repeat f32_zero (Z.to_nat d)) (Z.to_nat n))) | _ => unsupported end;
  t_full _ _ _ := unsupported; ones _ _ := unsupported;
  ones_like x := map_values (fun _ => f32_one) x;
  from_vec_f32 l s _ :=
    match s with [n; d] => if zlen l =? n * d then Ok (Mat d (chunk (Z.to_nat n) d l)) else unsupported | _ => unsupported end;
  from_vec_i64 l s _ :=
    match s with [n; d] => if zlen l =? n * d then Ok (IMat d (chunk (Z.to_nat n) d l)) else unsupported | _ => unsupported end;
  from_vec_u32 l s _ := match s with [n] => if zlen l =? n then Ok (UVec l) else unsupported | _ => unsupported end;
  to_vec1_f32 x := match x with Vec l => Ok l | _ => unsupported end;
  to_vec1_i64 x := match x with IVec l => Ok l | _ => unsupported end;
  un u x := map_values (scalar1 u) x;
  broadcast o a b := spread (scalar2 o) a b;
  pointwise o a b := same (scalar2 o) a b;
  reduce_keepdim o i x :=
    match x, i with Mat d X, -1 => Ok (Mat 1 (map (fun r => [reduced o r]) X)) | _, _ => unsupported end;
  sum _ _ := unsupported;
  matmul a b :=
    match a, b with
    | Mat d X, Mat e W => if zlen W =? d then Ok (Mat e (map (fun r => times r W) X)) else unsupported
    | _, _ => unsupported
    end;
  softmax _ _ := unsupported;
  un1 := scalar1; bin1 := scalar2; red1 := reduced; vecmat := times;
}.

(** ** Laws *)
Notation even d X := (Forall (fun r => zlen r = d) X).
Lemma even_rows_spec {A} d (X : list (list A)) : even_rows d X = true <-> even d X.
Proof. unfold even_rows. rewrite forallb_forall, Forall_forall. setoid_rewrite Z.eqb_eq. by setoid_rewrite list_elem_of_In. Qed.
Lemma chunk_concat {A} d (X : list (list A)) : even d X -> chunk (length X) d (concat X) = X.
Proof.
  induction 1 as [|r X Hr HX IH]; [done|]. cbn [length chunk concat].
  rewrite take_app_length', drop_app_length' by (unfold zlen in Hr; lia). by rewrite IH.
Qed.
Lemma chunk_rows {A} d (X : list (list A)) : even d X -> chunk (Z.to_nat (zlen X)) d (concat X) = X.
Proof. unfold zlen. rewrite Nat2Z.id. apply chunk_concat. Qed.
Lemma zlen_concat {A} d (X : list (list A)) : even d X -> zlen (concat X) = zlen X * d.
Proof. induction 1 as [|r X Hr HX IH]; [done|]. cbn [concat]. zlens. Qed.
Lemma mat_intro d X : even d X -> mat (Mat d X) d X.
Proof.
  intros H. split_and!; [cbn; by rewrite (proj2 (even_rows_spec d X) H)|done|done|]. by exists (Vec (concat X)).
Qed.
Lemma mat_inv x d X : mat x d X -> x = Mat d X /\ even d X.
Proof.
  intros (Hd & Ht & HX & f & Hf & Hv). destruct x as [d' X'|d' X'|l|l|l]; try done. cbn in Hd, Hf. injection Hf as <-. injection Hv as Hc.
  destruct (even_rows d' X') eqn:E; [|done]. injection Hd as Hl ->. apply even_rows_spec in E. split; [|done]. f_equal.
  rewrite <- (chunk_rows d X' E), <- (chunk_rows d X HX). by rewrite Hl, Hc.
Qed.
Lemma vec_inv x l : vec x l -> x = Vec l.
Proof. intros (_ & _ & Hv). destruct x; try done. by injection Hv as ->. Qed.
Lemma imat_intro d X : even d X -> imat (IMat d X) d X.
Proof.
  intros H. split_and!; [cbn; by rewrite (proj2 (even_rows_spec d X) H)|done|done|]. by exists (IVec (concat X)).
Qed.
Lemma even_map {A B} d (f : list A -> list B) X : (forall r, zlen (f r) = zlen r) -> even d X -> even d (map f X).
Proof. intros Hf H. apply Forall_map. eapply Forall_impl; [exact H|]. intros r <-. apply Hf. Qed.
Lemma even_zip {A B C} d (f : list A -> B -> list C) X Y : (forall r b, b ∈ Y -> zlen r = d -> zlen (f r b) = d) ->
  even d X -> even d (zip_with f X Y).
Proof.
  intros Hf H. revert Y Hf. induction H as [|r X Hr HX IH]; intros [|b Y] Hf; cbn; [constructor..|].
  constructor; [apply Hf; [by left|done]|]. apply IH. intros r' b' Hb. apply Hf. by right.
Qed.
Lemma same_rows f a b d X Y : mat a d X -> mat b d Y -> zlen X = zlen Y ->
  exists y, same f a b = Ok y /\ mat y d (zip_with (zip_with f) X Y).
Proof.
  intros [-> HX]%mat_inv [-> HY]%mat_inv H. cbn. rewrite Z.eqb_refl, (proj2 (Z.eqb_eq _ _) H). eexists. split; [done|].
  apply mat_intro. apply even_zip; [|done]. intros r b Hb Hr. rewrite Forall_forall in HY. rewrite zlen_zip_with; [done|].
  by rewrite (HY b Hb).
Qed.
Lemma concat_singles {A} (c : list A) : concat (map (fun v => [v]) c) = c.
Proof. induction c as [|v c IH]; [done|]. cbn. by rewrite IH. Qed.
Lemma single_zip (f : f32 -> f32 -> f32) X c : even 1 X -> zip_with (fun r v => map (fun u => f u v) r) X c =
  zip_with (zip_with f) X (map (fun v => [v]) c).
Proof.
  intros H. revert c. induction H as [|r X Hr HX IH]; intros [|v c]; cbn; [done..|].
  destruct r as [|u [|]]; unfold zlen in Hr; cbn in Hr; try lia. cbn. by rewrite IH.
Qed.
Lemma column f a b d X c : mat a d X -> mat b 1 (map (fun v => [v]) c) -> zlen X = zlen c ->
  exists y, spread f a b = Ok y /\ mat y d (zip_with (fun r v => map (fun u => f u v) r) X c).
Proof.
  intros [-> HX]%mat_inv [-> _]%mat_inv H. cbn. rewrite zlen_map, (proj2 (Z.eqb_eq _ _) H), concat_singles. cbn.
  eexists. split; [done|]. apply mat_intro. apply even_zip; [|done]. intros r v _ Hr. by rewrite zlen_map.
Qed.
Lemma spread_same f a b d X Y : mat a d X -> mat b d Y -> zlen X = zlen Y ->
  exists y, spread f a b = Ok y /\ mat y d (zip_with (zip_with f) X Y).
Proof.
  intros Ha Hb H. destruct (decide (d = 1)) as [->|Hd].
  - pose proof (mat_inv _ _ _ Hb) as [_ HY].
    assert (Y = map (fun v => [v]) (concat Y)) as EY.
    { clear -HY. induction HY as [|r Y Hr HY IH]; [done|]. destruct r as [|u [|]]; unfold zlen in Hr; cbn in Hr; try lia.
      cbn. by rewrite <- IH. }
    rewrite EY in Hb |- *. rewrite EY, zlen_map in H. destruct (column f a b 1 X _ Ha Hb H) as (y & Hy & My).
    exists y. split; [done|]. pose proof (mat_inv _ _ _ Ha) as [_ HX]. by rewrite <- single_zip.
  - pose proof Ha as [-> _]%mat_inv. pose proof Hb as [-> _]%mat_inv. unfold spread.
    rewrite (proj2 (Z.eqb_neq d 1)) by done. cbn [andb]. by apply same_rows.
Qed.
Lemma zlen_times r W e : even e W -> 0 < zlen W -> zlen (times r W) = e.
Proof.
  intros HW H. destruct HW as [|w W Hw HW]; [zlens|]. cbn [times].
  assert (forall L acc, even e L -> zlen acc = e -> zlen (foldl (zip_with f32_add) acc L) = e) as G.
  { intros L. induction L as [|l L IH]; intros acc HL Ha; [done|]. apply Forall_cons in HL as [Hl HL]. cbn. apply IH; [done|].
    rewrite zlen_zip_with; [done|]. by rewrite Hl. }
  apply G; [|by rewrite zlen_map]. rewrite zip_with_flip. apply even_zip; [|by constructor].
  intros l a _ Hl. by rewrite zlen_map.
Qed.
Lemma even_select d (X : list (list f32)) l : even d X -> in_rows (zlen X) l = true ->
  even d (map (fun i => nth (Z.to_nat i) X []) l).
Proof.
  intros HX Hl. apply Forall_map, Forall_forall. intros i Hi. apply (proj1 (Forall_forall _ _) HX), list_elem_of_In, nth_In.
  unfold in_rows in Hl. rewrite forallb_forall in Hl. apply list_elem_of_In, Hl in Hi. unfold zlen in Hi. lia.
Qed.
Lemma in_rows_spec n l : Forall (fun i => 0 <= i < n) l -> in_rows n l = true.
Proof. intros H. apply forallb_forall. intros i Hi%list_elem_of_In. rewrite Forall_forall in H. specialize (H i Hi). lia. Qed.
Lemma even_add d X l Y : even d X -> even d Y -> even d (add_rows f32_add X (zip l Y)).
Proof.
  intros HX HY. revert X l HX. induction HY as [|r Y Hr HY IH]; intros X [|i l] HX; try done. cbn [zip_with].
  change ((i, r) :: ?k) with ([(i, r)] ++ k). rewrite add_rows_app. apply IH. cbn [add_rows foldl].
  apply Forall_alter; [done|]. intros y Hy Hyd. rewrite zlen_zip_with; [done|]. by rewrite Hr.
Qed.
Lemma even_transposed d W : 0 <= d -> even (zlen W) (transposed d W).
Proof. intros _. apply Forall_map, Forall_forall. intros j _. by rewrite zlen_map. Qed.
#[global] Instance laws : Matrix_Laws t unit f32.
Proof.
  refine {| index_tensor x l := x = UVec l |}.
  - intros x d X [-> H]%mat_inv. exists (Mat d X). split; [|by apply mat_intro]. cbn.
    rewrite (proj2 (even_rows_spec d X) H). by rewrite decide_True.
  - intros x d X [-> H]%mat_inv. eexists. split; [done|]. apply mat_intro.
    destruct H as [|r X Hr HX]; [by apply Forall_map, Forall_forall|]. apply even_transposed. rewrite <- Hr. apply zlen_nonneg.
  - intros x d X [-> H]%mat_inv. eexists. split; [done|]. by apply mat_intro.
  - intros x d X [-> H]%mat_inv. eexists. split; [done|]. by apply mat_intro.
  - intros a b d e X W [-> HX]%mat_inv [-> HW]%mat_inv Hd Hp. cbn. rewrite (proj2 (Z.eqb_eq _ _) Hd). eexists. split; [done|].
    apply mat_intro, Forall_map, Forall_forall. intros r _. apply zlen_times; [done|lia].
  - intros u x d X [-> H]%mat_inv. eexists. split; [done|]. apply mat_intro, even_map; [intros; apply zlen_map|done].
  - intros o x d X [-> H]%mat_inv _. eexists. split; [done|]. apply mat_intro. by apply Forall_map, Forall_forall.
  - intros o. apply spread_same.
  - intros o. apply same_rows.
  - intros o. apply column.
  - intros o a b d X l [-> H]%mat_inv ->%vec_inv Hl. cbn. rewrite (proj2 (Z.eqb_eq _ _) Hl). eexists. split; [done|].
    apply mat_intro, Forall_map. eapply Forall_impl; [exact H|]. intros r Hr. rewrite zlen_zip_with; [done|congruence].
  - intros x d X [-> H]%mat_inv. eexists. split; [done|]. apply mat_intro, even_map; [intros; apply zlen_map|done].
  - intros n d dev Hn Hd. eexists. split; [done|].
    assert (zlen (repeat (repeat f32_zero (Z.to_nat d)) (Z.to_nat n)) = n) as Hl by (unfold zlen; rewrite repeat_length; lia).
    apply mat_intro, Forall_forall. intros r Hr%list_elem_of_In%repeat_spec. subst r. unfold zlen. rewrite repeat_length. lia.
  - intros d X dev H. cbn. rewrite (proj2 (Z.eqb_eq _ _) (zlen_concat d X H)), (chunk_rows d X H). eexists. split; [done|by apply mat_intro].
  - intros d X dev H. cbn. rewrite (proj2 (Z.eqb_eq _ _) (zlen_concat d X H)), (chunk_rows d X H). eexists. split; [done|by apply imat_intro].
  - intros l dev. cbn. rewrite Z.eqb_refl. by eexists.
  - intros x d X s l [-> H]%mat_inv -> Hl. cbn. rewrite (in_rows_spec _ _ Hl). eexists. split; [done|].
    apply mat_intro, even_select; [done|by apply in_rows_spec].
  - intros x s y d X l Y [-> HX]%mat_inv -> [-> HY]%mat_inv Hl Hb. cbn.
    rewrite Z.eqb_refl, (proj2 (Z.eqb_eq _ _) Hl), (in_rows_spec _ _ Hb). eexists. split; [done|]. by apply mat_intro, even_add.
Defined.
End Matrices.
