(* ===== verification/DsMoe.v ===== *)
(** * DeepSeek V4 experts ([deepseek_v4/moe.rs])

    The gate that routes a token to its experts, an expert, and the layer that runs
    every expert once, on all its tokens together. *)
From S2P Require Import Prelude RustStd Wire Json Cursor DsWeights DsTensor DsMatrices.

Inductive ScoreFunc : Set := SqrtSoftplus | Softmax | Sigmoid.

Section moe.
Context {T Dev R : Type} `{!Float64 R} `{!Tensor_Ops T Dev R}.

(** ** Scores *)
Definition sqrtsoftplus (x : T) : res T :=
  a ← un Abs x; a ← un Neg a; a ← un Exp a; a ← un (Affine one one) a; ln_term ← un Log a;
  r ← un Relu x; s ← broadcast Add r ln_term; un Sqrt s.
Definition softmax_last (x : T) : res T :=
  m ← reduce_keepdim Max (-1) x; d ← broadcast Sub x m; e ← un Exp d;
  s ← reduce_keepdim Sum (-1) e; broadcast Div e s.
Definition sigmoid_fn (x : T) : res T :=
  a ← un Neg x; a ← un Exp a; denom ← un (Affine one one) a; o ← ones_like denom; broadcast Div o denom.

(** ** [Gate] *)
Record Gate : Type := mk_Gate {
  weight : T; bias : option T; topk : Z; route_scale : R; score_func : ScoreFunc; tid2eid : option T;
}.
Definition score (f : ScoreFunc) (raw : T) : res T :=
  match f with SqrtSoftplus => sqrtsoftplus raw | Softmax => softmax_last raw | Sigmoid => sigmoid_fn raw end.
Definition values (t : T) : res (list f32) := t ← to_dtype TF32 t; f ← flatten_all t; to_vec1_f32 f.
(** Row [r]: the scores and numbers of the first [k] candidates, of at least [k]. *)
Definition route_pick (sc bi : list f32) (e k r : Z) : res (list (f32 * Z)) :=
  let base := r * e in
  cand ← map_result (fun j => b ← panics_if_none (at_ bi (base + j)); Ok (b, j)) (seqZ 0 e);
  map_result (fun '(_, j) => s ← panics_if_none (at_ sc (base + j)); Ok (s, j)) (take (Z.to_nat k) (sort_cand cand)).
Definition normalised (g : Gate) (weights : T) : res T :=
  match score_func g with
  | Softmax => un (Affine (route_scale g) zero) weights
  | _ => denom ← reduce_keepdim Sum (-1) weights; w ← broadcast Div weights denom; un (Affine (route_scale g) zero) w
  end.
Definition route (g : Gate) (x : T) : res (T * T) :=
  raw ← attn_linear x (weight g);
  scores ← score (score_func g) raw;
  biased ← match bias g with Some b => broadcast Add scores b | None => Ok scores end;
  '(n, e) ← get_dims2 scores;
  let k := Z.min (topk g) e in
  sc ← values scores;
  bi ← values biased;
  rows ← map_result (route_pick sc bi e k) (seqZ 0 n);
  weights ← from_vec_f32 (concat rows).*1 [n; k] (device x);
  indices ← from_vec_i64 (concat rows).*2 [n; k] (device x);
  weights ← normalised g weights;
  Ok (weights, indices).
(** A division by [k = 0] gives an infinity. *)
Definition route_hashed (g : Gate) (input_ids : T) : res (T * T) :=
  tid2eid ← ok_or (Failed "route_hashed: tid2eid not loaded"%string) (tid2eid g);
  n ← get_dims1 input_ids;
  e ← dim tid2eid 1;
  let k := Z.min (topk g) e in
  expert_ids ← index_select tid2eid input_ids 0;
  indices ← narrow 1 0 k expert_ids;
  w ← ones [n; k] (device input_ids);
  weights ← un (Affine (fdiv (route_scale g) (of_usize k)) zero) w;
  i ← to_dtype TI64 indices;
  Ok (weights, i).

(** ** [Expert] *)
Record Expert : Type := mk_Expert { w1 : T; w2 : T; w3 : T; swiglu_limit : R }.
Definition limited (ex : Expert) (gate up : T) : res (T * T) :=
  if fltb zero (swiglu_limit ex) then
    let l := swiglu_limit ex in
    up ← un (Clamp (fneg l) l) up; gate ← un (Minimum l) gate; Ok (gate, up)
  else Ok (gate, up).
Definition expert_forward (ex : Expert) (x : T) (weights : option T) : res T :=
  gate ← attn_linear x (w1 ex);
  up ← attn_linear x (w3 ex);
  '(gate, up) ← limited ex gate up;
  s ← un Silu gate;
  h ← pointwise Mul s up;
  h ← match weights with Some w => broadcast Mul h w | None => Ok h end;
  attn_linear h (w2 ex).

(** ** [Moe] *)
Record Moe : Type := mk_Moe { gate : Gate; experts : list Expert; shared : Expert }.
Definition slots (n topk : Z) : list (Z * Z) := flat_map (fun t => map (pair t) (seqZ 0 topk)) (seqZ 0 n).
(** The tokens of expert [e], with their weights. *)
Definition hits (iv : list Z) (wv : list f32) (n topk e : Z) : res (list (Z * f32)) :=
  l ← map_result (fun '(t, s) =>
        i ← panics_if_none (at_ iv (t * topk + s));
        if i =? e then w ← panics_if_none (at_ wv (t * topk + s)); Ok [(t, w)] else Ok []) (slots n topk);
  Ok (concat l).
Definition run_expert (x : T) (iv : list Z) (wv : list f32) (n topk : Z) (y : T) (e : Z) (expert : Expert) : res T :=
  h ← hits iv wv n topk e;
  if decide (h = []) then Ok y else
  sel ← from_vec_u32 (map (wrap 32) h.*1) [zlen h] (device x);
  xe ← index_select x sel 0;
  we ← from_vec_f32 h.*2 [zlen h; 1] (device x);
  ye ← expert_forward expert xe (Some we);
  index_add y sel ye 0.
Fixpoint run_experts (x : T) (iv : list Z) (wv : list f32) (n topk : Z) (y : T) (e : Z) (es : list Expert) : res T :=
  match es with
  | [] => Ok y
  | expert :: es => y ← run_expert x iv wv n topk y e expert; run_experts x iv wv n topk y (e + 1) es
  end.
(** The part [Moe_forward] and [Moe_forward_hashed] share. *)
Definition dispatch (m : Moe) (x : T) (n dim : Z) (weights indices : T) : res T :=
  let topk := topk (gate m) in
  w ← flatten_all weights;
  wv ← to_vec1_f32 w;
  i ← flatten_all indices;
  iv ← to_vec1_i64 i;
  y ← t_zeros [n; dim] (device x);
  y ← run_experts x iv wv n topk y 0 (experts m);
  ys ← expert_forward (shared m) x None;
  broadcast Add y ys.
Definition Moe_forward (m : Moe) (x : T) : res T :=
  '(n, dim) ← get_dims2 x;
  '(weights, indices) ← route (gate m) x;
  dispatch m x n dim weights indices.
Definition Moe_forward_hashed (m : Moe) (x input_ids : T) : res T :=
  '(n, dim) ← get_dims2 x;
  '(weights, indices) ← route_hashed (gate m) input_ids;
  dispatch m x n dim weights indices.
End moe.

(** ** What a layer does to one token *)
Section rows.
Context {T Dev R : Type} `{!Float64 R} `{!Tensor_Ops T Dev R}.
Notation row := (list f32).
Definition row_linear (d : Z) (W : list row) (x : row) : row := vecmat x (transposed d W).
Definition row_score (f : ScoreFunc) (r : row) : row :=
  match f with
  | SqrtSoftplus =>
      map (un1 Sqrt) (zip_with (bin1 Add) (map (un1 Relu) r)
        (map (un1 Log) (map (un1 (Affine one one)) (map (un1 Exp) (map (un1 Neg) (map (un1 Abs) r))))))
  | Softmax =>
      let e := map (un1 Exp) (map (fun u => bin1 Sub u (red1 Max r)) r) in map (fun u => bin1 Div u (red1 Sum e)) e
  | Sigmoid =>
      let a := map (un1 (Affine one one)) (map (un1 Exp) (map (un1 Neg) r)) in
      zip_with (bin1 Div) (map (fun _ => f32_one) a) a
  end.
(** The best [k] by biased score, each with its plain score. *)
Definition row_picks (k : Z) (scores biased : row) : list (f32 * Z) :=
  map (fun '(_, j) => (nth (Z.to_nat j) scores NaN, j)) (take (Z.to_nat k) (sort_cand (zip biased (seqZ 0 (zlen biased))))).
Definition row_weights (f : ScoreFunc) (scale : R) (ws : row) : row :=
  map (un1 (Affine scale zero)) (match f with Softmax => ws | _ => map (fun u => bin1 Div u (red1 Sum ws)) ws end).
Record expert_values : Type := mk_values { W1 : list row; W2 : list row; W3 : list row; limit : R }.
Definition row_expert (d : Z) (v : expert_values) (x : row) (w : option f32) : row :=
  let g := row_linear d (W1 v) x in
  let u := row_linear d (W3 v) x in
  let l := limit v in
  let '(g, u) := if fltb zero l then (map (un1 (Minimum l)) g, map (un1 (Clamp (fneg l) l)) u) else (g, u) in
  let h := zip_with (bin1 Mul) (map (un1 Silu) g) u in
  let h := match w with Some w => map (fun a => bin1 Mul a w) h | None => h end in
  row_linear (zlen (W1 v)) (W2 v) h.
(** The weights the token gives to expert [e]. *)
Definition row_hits (picks : list Z) (ws : row) (e : Z) : row := (List.filter (fun p => p.1 =? e) (zip picks ws)).*2.
Definition row_routed (d : Z) (x : row) (picks : list Z) (ws : row) (y : row) (e : Z) (v : expert_values) : row :=
  foldl (fun y w => zip_with (bin1 Add) y (row_expert d v x (Some w))) y (row_hits picks ws e).
Fixpoint row_experts (d : Z) (x : row) (picks : list Z) (ws : row) (y : row) (e : Z) (vs : list expert_values) : row :=
  match vs with
  | [] => y
  | v :: vs => row_experts d x picks ws (row_routed d x picks ws y e v) (e + 1) vs
  end.
Record moe_values : Type := mk_moe_values {
  gate_W : list row; gate_b : option row; gate_k : Z; gate_scale : R; gate_f : ScoreFunc;
  expert_vs : list expert_values; shared_v : expert_values;
}.
Definition row_biased (b : option row) (s : row) : row := match b with Some l => zip_with (bin1 Add) s l | None => s end.
Definition row_route (d : Z) (m : moe_values) (x : row) : list (f32 * Z) :=
  let s := row_score (gate_f m) (row_linear d (gate_W m) x) in row_picks (gate_k m) s (row_biased (gate_b m) s).
Definition token (d : Z) (m : moe_values) (x : row) : row :=
  let picks := row_route d m x in
  let ws := row_weights (gate_f m) (gate_scale m) picks.*1 in
  zip_with (bin1 Add) (row_experts d x picks.*2 ws (repeat f32_zero (Z.to_nat d)) 0 (expert_vs m))
    (row_expert d (shared_v m) x None).

(** ** Lemmas *)
Context `{!Matrix_Laws T Dev R}.
Lemma linear_rows x w d X W : mat x d X -> mat w d W -> 0 < d ->
  exists y, attn_linear x w = Ok y /\ mat y (zlen W) (map (row_linear d W) X).
Proof.
  intros Hx Hw Hd. unfold attn_linear. pose proof Hx as (Ex & _). pose proof Hw as (Ew & _).
  rewrite Ex. cbn [last removelast product foldr]. unfold dim. rewrite Ew. cbn [lookup list_lookup ok_or mbind result_bind].
  rewrite Z.mul_1_r. destruct (m_reshape x d X Hx) as (x1 & -> & H1). cbn [mbind result_bind].
  destruct (m_t w d W Hw) as (w1 & -> & H2). cbn [mbind result_bind].
  destruct (m_contiguous _ _ _ H2) as (w2 & -> & H3). cbn [mbind result_bind].
  destruct (m_matmul x1 w2 d (zlen W) X _ H1 H3) as (y & -> & H4).
  { unfold transposed. rewrite zlen_map, zlen_seqZ; lia. }
  { done. }
  cbn [mbind result_bind app]. fold (row_linear d W) in H4.
  destruct (m_reshape y (zlen W) _ H4) as (z & Hz & H5). rewrite zlen_map in Hz. by exists z.
Qed.
(** One operation of candle whose result the matrix laws describe. *)
Ltac op L := let y := fresh "y" in let H := fresh "M" in destruct L as (y & -> & H); cbn [mbind result_bind].
Lemma sqrtsoftplus_rows x d X : mat x d X -> exists y, sqrtsoftplus x = Ok y /\ mat y d (map (row_score SqrtSoftplus) X).
Proof.
  intros Hx. unfold sqrtsoftplus. op (m_un Abs x d X Hx). op (m_un Neg _ _ _ M). op (m_un Exp _ _ _ M0).
  op (m_un (Affine one one) _ _ _ M1). op (m_un Log _ _ _ M2). op (m_un Relu x d X Hx).
  op (m_broadcast Add _ _ _ _ _ M4 M3); [zlens|]. destruct (m_un Sqrt _ _ _ M5) as (z & -> & Mz).
  exists z. split; [done|]. revert Mz. rewrite !map_map, zip_with_map, map_map. done.
Qed.
Lemma softmax_rows x d X : mat x d X -> 0 < d -> exists y, softmax_last x = Ok y /\ mat y d (map (row_score Softmax) X).
Proof.
  intros Hx Hd. unfold softmax_last. op (m_reduce Max x d X Hx Hd).
  rewrite <- (map_map (red1 Max) (fun v => [v])) in M. op (m_broadcast_col Sub x y d X _ Hx M); [zlens|].
  op (m_un Exp _ _ _ M0). op (m_reduce Sum _ _ _ M1 Hd).
  rewrite <- (map_map (red1 Sum) (fun v => [v])) in M2. destruct (m_broadcast_col Div _ _ _ _ _ M1 M2) as (z & -> & Mz); [zlens|].
  exists z. split; [done|]. revert Mz.
  rewrite <- (map_id X) at 1 3. rewrite !zip_with_map, !map_map, zip_with_map. done.
Qed.
Lemma sigmoid_rows x d X : mat x d X -> exists y, sigmoid_fn x = Ok y /\ mat y d (map (row_score Sigmoid) X).
Proof.
  intros Hx. unfold sigmoid_fn. op (m_un Neg x d X Hx). op (m_un Exp _ _ _ M). op (m_un (Affine one one) _ _ _ M0).
  op (m_ones_like _ _ _ M1). destruct (m_broadcast Div _ _ _ _ _ M2 M1) as (z & -> & Mz); [zlens|].
  exists z. split; [done|]. revert Mz. rewrite !map_map, zip_with_map. done.
Qed.
Lemma score_rows f x d X : mat x d X -> 0 < d -> exists y, score f x = Ok y /\ mat y d (map (row_score f) X).
Proof. intros. destruct f; [by apply sqrtsoftplus_rows|by apply softmax_rows|by apply sigmoid_rows]. Qed.
Lemma values_rows x d X : mat x d X -> values x = Ok (concat X).
Proof.
  intros Hx. unfold values. op (m_to_dtype x d X Hx). destruct M as (_ & _ & _ & f & -> & Hf). done.
Qed.
Definition bias_ok (b : option T) (v : option row) (e : Z) : Prop :=
  match b, v with Some t, Some l => vec t l /\ zlen l = e | None, None => True | _, _ => False end.
Lemma biased_rows b v e s S : bias_ok b v e -> mat s e S ->
  exists y, match b with Some b => broadcast Add s b | None => Ok s end = Ok y /\ mat y e (map (row_biased v) S).
Proof.
  intros Hb Hs. destruct b as [t|], v as [l|]; try done.
  - destruct Hb as [Ht Hl]. by apply m_broadcast_vec.
  - exists s. split; [done|]. cbn. by rewrite map_id.
Qed.
Lemma pick_rows S B e k r :
  Forall (fun l => zlen l = e) S -> Forall (fun l => zlen l = e) B -> zlen B = zlen S -> 0 <= r < zlen S ->
  route_pick (concat S) (concat B) e k r = Ok (row_picks k (nth (Z.to_nat r) S []) (nth (Z.to_nat r) B [])).
Proof.
  intros HS HB HSB Hr. unfold route_pick, row_picks.
  assert (zlen (nth (Z.to_nat r) B []) = e) as Hl.
  { apply (proj1 (Forall_forall _ _) HB). apply list_elem_of_In, nth_In. unfold zlen in *. lia. }
  rewrite (map_result_total _ (fun j => (nth (Z.to_nat j) (nth (Z.to_nat r) B []) NaN, j))); cycle 1.
  { intros j Hj%elem_of_seqZ. rewrite (at_concat B e r j NaN) by (done || lia). done. }
  cbn [mbind result_bind]. rewrite (zip_seqZ _ NaN), Hl.
  apply map_result_total. intros [v j] Hj.
  assert (j ∈ seqZ 0 e) as Hs%elem_of_seqZ.
  { apply (list_elem_of_fmap_2 snd) in Hj. cbn in Hj. rewrite <- firstn_map in Hj.
    assert (j ∈ (sort_cand (map (fun j => (nth (Z.to_nat j) (nth (Z.to_nat r) B []) NaN, j)) (seqZ 0 e))).*2) as H'.
    { eapply elem_of_subseteq; [|exact Hj]. intros z Hz. rewrite <- (take_drop (Z.to_nat k)). apply elem_of_app. by left. }
    rewrite sort_cand_perm in H'. unfold fmap in H'. rewrite map_map in H'. cbn in H'. by rewrite map_id in H'. }
  rewrite (at_concat S e r j NaN) by (done || lia). done.
Qed.
Lemma row_picks_min k s b e : zlen b = e -> row_picks (Z.min k e) s b = row_picks k s b.
Proof.
  intros <-. unfold row_picks. f_equal. rewrite Z2Nat.inj_min, <- firstn_firstn. f_equal. apply firstn_all2.
  rewrite sort_cand_perm, length_zip_with, length_seqZ. unfold zlen. lia.
Qed.
Record gate_ok (g : Gate (T:=T) (R:=R)) (m : moe_values) (d : Z) : Prop := {
  gate_mat : mat (weight g) d (gate_W m);
  gate_bias : bias_ok (bias g) (gate_b m) (zlen (gate_W m));
  gate_topk : topk g = gate_k m;
  gate_route_scale : route_scale g = gate_scale m;
  gate_func : score_func g = gate_f m;
}.
Lemma zlen_row_picks k s b : 0 <= k -> zlen (row_picks k s b) = Z.min k (zlen b).
Proof.
  intros Hk. unfold row_picks. rewrite zlen_map. unfold zlen. rewrite length_take, sort_cand_perm, length_zip_with, length_seqZ. lia.
Qed.
Lemma normalised_rows g k w X : mat w k X -> 0 < k ->
  exists y, normalised g w = Ok y /\ mat y k (map (row_weights (score_func g) (route_scale g)) X).
Proof.
  intros Hw Hk. unfold normalised.
  assert (exists y, (denom ← reduce_keepdim Sum (-1) w; v ← broadcast Div w denom; un (Affine (route_scale g) zero) v) = Ok y /\
    mat y k (map (fun ws => map (un1 (Affine (route_scale g) zero)) (map (fun u => bin1 Div u (red1 Sum ws)) ws)) X)) as Hn.
  { op (m_reduce Sum w k X Hw Hk). rewrite <- (map_map (red1 Sum) (fun v => [v])) in M.
    op (m_broadcast_col Div w y k X _ Hw M); [zlens|]. destruct (m_un (Affine (route_scale g) zero) _ _ _ M0) as (z & -> & Mz).
    exists z. split; [done|]. revert Mz. rewrite <- (map_id X) at 1. rewrite zip_with_map, map_map. done. }
  unfold row_weights. destruct (score_func g); [exact Hn| |exact Hn].
  destruct (m_un (Affine (route_scale g) zero) w k X Hw) as (z & -> & Mz). exists z. split; [done|exact Mz].
Qed.
Lemma zlen_row_biased b s : match b with Some l => zlen l = zlen s | None => True end -> zlen (row_biased b s) = zlen s.
Proof. destruct b as [l|]; cbn; [|done]. intros. by rewrite zlen_zip_with. Qed.
Lemma mat_len (t : T) e Y y : mat t e Y -> y ∈ Y -> zlen y = e.
Proof. intros (_ & _ & H & _) Hy. by apply (proj1 (Forall_forall _ _) H). Qed.
Lemma route_rows g m d x X : gate_ok g m d -> mat x d X -> 0 < d -> 0 < gate_k m -> 0 < zlen (gate_W m) ->
  exists w i, let k := Z.min (gate_k m) (zlen (gate_W m)) in route g x = Ok (w, i) /\
    mat w k (map (fun x => row_weights (gate_f m) (gate_scale m) (row_route d m x).*1) X) /\
    imat i k (map (fun x => (row_route d m x).*2) X).
Proof.
  intros [Hg Hb Hk Hs Hf] Hx Hd Hk0 He. unfold route. op (linear_rows x (weight g) d X _ Hx Hg Hd).
  op (score_rows (score_func g) y _ _ M He). pose proof M0 as Hsc. destruct (biased_rows _ _ _ _ _ Hb M0) as (b & -> & Hbi).
  cbn [mbind result_bind]. unfold get_dims2. destruct M0 as (-> & _). cbn [mbind result_bind].
  rewrite (values_rows _ _ _ Hsc), (values_rows _ _ _ Hbi). cbn [mbind result_bind].
  rewrite !zlen_map, (map_result_total _ (fun r => row_route d m (nth (Z.to_nat r) X []))); cycle 1.
  { intros r Hr%elem_of_seqZ. pose proof Hsc as (_ & _ & HS & _). pose proof Hbi as (_ & _ & HB & _).
    rewrite (pick_rows _ _ _ _ r HS HB) by zlens.
    assert (Z.to_nat r < length X)%nat as Hlt by (unfold zlen in Hr; lia).
    rewrite !map_map, !(nth_map _ X _ []) by done. rewrite Hk, row_picks_min; [unfold row_route; by rewrite <- Hf|].
    apply (mat_len _ _ _ _ Hbi). rewrite !map_map. apply list_elem_of_In, (in_map (fun x => row_biased _ (row_score _ (row_linear _ _ x))) X), nth_In, Hlt. }
  cbn [mbind result_bind]. rewrite map_nth_seqZ. set (P := map (row_route d m) X).
  set (k := Z.min (gate_k m) (zlen (gate_W m))). rewrite Hk. fold k.
  assert (Forall (fun p => zlen p = k) P) as HP.
  { apply Forall_map, Forall_forall. intros x0 Hx0. unfold row_route. rewrite zlen_row_picks by lia. f_equal.
    apply (mat_len _ _ _ _ Hbi). rewrite <- Hf, !map_map. apply list_elem_of_In, in_map_iff. exists x0. by rewrite <- list_elem_of_In. }
  change ((concat P).*1) with (map fst (concat P)). change ((concat P).*2) with (map snd (concat P)). rewrite !concat_map.
  destruct (m_from_vec k (map (map fst) P) (device x)) as (w & Ew & Mw).
  { apply Forall_map. eapply Forall_impl; [exact HP|]. intros p Hp. cbn beta. by rewrite zlen_map. }
  destruct (m_from_vec_i64 k (map (map snd) P) (device x)) as (i & Ei & Mi).
  { apply Forall_map. eapply Forall_impl; [exact HP|]. intros p Hp. cbn beta. by rewrite zlen_map. }
  assert (zlen P = zlen X) as HPX by (unfold P; zlens). rewrite zlen_map, HPX in Ew. rewrite zlen_map, HPX in Ei. rewrite Ew. cbn [mbind result_bind]. rewrite Ei. cbn [mbind result_bind].
  op (normalised_rows g k w _ Mw); [lia|]. exists y1, i. split; [done|].
  revert M0 Mi. unfold P. rewrite Hs, Hf, !map_map. done.
Qed.

(** *** Experts *)
Record expert_ok (d : Z) (ex : Expert (T:=T) (R:=R)) (v : expert_values) : Prop := {
  w1_mat : mat (w1 ex) d (W1 v);
  w3_mat : mat (w3 ex) d (W3 v);
  w2_mat : mat (w2 ex) (zlen (W1 v)) (W2 v);
  w3_len : zlen (W3 v) = zlen (W1 v);
  w2_len : zlen (W2 v) = d;
  inner : 0 < zlen (W1 v);
  limit_eq : swiglu_limit ex = limit v;
}.
Definition weights_ok (w : option T) (X : list row) (c : list (option f32)) : Prop :=
  match w with
  | Some t => exists l, c = map Some l /\ zlen l = zlen X /\ mat t 1 (map (fun v => [v]) l)
  | None => c = map (fun _ => None) X
  end.
Definition scaled (h : row) (o : option f32) : row := match o with Some w => map (fun a => bin1 Mul a w) h | None => h end.
Lemma scaled_rows h w k X (H : row -> row) c : mat h k (map H X) -> weights_ok w X c ->
  exists y, match w with Some t => broadcast Mul h t | None => Ok h end = Ok y /\
    mat y k (zip_with (fun x o => scaled (H x) o) X c).
Proof.
  intros Hh Hw. destruct w as [t|].
  - destruct Hw as (l & -> & Hl & Ht). destruct (m_broadcast_col Mul _ _ _ _ _ Hh Ht) as (z & Hz & Mz); [zlens|].
    exists z. split; [done|]. revert Mz. by rewrite zip_with_map_l, zip_with_map_r.
  - cbn in Hw. subst c. exists h. split; [done|]. by rewrite zip_with_map_same.
Qed.
Lemma limited_rows ex l g u k (X : list row) (G U : row -> row) : swiglu_limit ex = l -> mat g k (map G X) -> mat u k (map U X) ->
  exists g' u', limited ex g u = Ok (g', u') /\
    mat g' k (map (fun x => if fltb zero l then map (un1 (Minimum l)) (G x) else G x) X) /\
    mat u' k (map (fun x => if fltb zero l then map (un1 (Clamp (fneg l) l)) (U x) else U x) X).
Proof.
  intros Hl Hg Hu. unfold limited. rewrite Hl. destruct (fltb zero l).
  - op (m_un (Clamp (fneg l) l) u k _ Hu). op (m_un (Minimum l) g k _ Hg).
    exists y0, y. rewrite map_map in M. rewrite map_map in M0. done.
  - by exists g, u.
Qed.
Lemma expert_rows d ex v x X w c : expert_ok d ex v -> mat x d X -> 0 < d -> weights_ok w X c ->
  exists y, expert_forward ex x w = Ok y /\ mat y d (zip_with (row_expert d v) X c).
Proof.
  intros [H1 H3 H2 L3 L2 Hi Hl] Hx Hd Hw. unfold expert_forward. op (linear_rows x (w1 ex) d X _ Hx H1 Hd).
  op (linear_rows x (w3 ex) d X _ Hx H3 Hd). rewrite L3 in M0.
  destruct (limited_rows ex (limit v) _ _ _ X _ _ Hl M M0) as (g & u & -> & Mg & Mu). cbn [mbind result_bind].
  op (m_un Silu g _ _ Mg). op (m_pointwise Mul _ _ _ _ _ M1 Mu); [zlens|]. rewrite map_map, zip_with_map in M2.
  destruct (scaled_rows _ w _ X _ c M2 Hw) as (h & -> & Mh). cbn [mbind result_bind].
  destruct (linear_rows h (w2 ex) _ _ _ Mh H2 Hi) as (z & -> & Mz). exists z. split; [done|].
  rewrite L2 in Mz. revert Mz. rewrite map_zip_with.
  erewrite zip_with_ext; [intros H; exact H|]. intros a o. cbn. unfold row_expert. by destruct (fltb zero (limit v)), o.
Qed.

(** *** The layer *)
(** [picks] and [ws] of a row [x] of [X]: [k] of each. *)
Definition routed (k : Z) (X : list row) (picks : row -> list Z) (ws : row -> row) : Prop :=
  0 <= k /\ Forall (fun x => zlen (picks x) = k /\ zlen (ws x) = k) X.
Lemma row_hits_at (t : Z) (I : list Z) (W : row) k e : zlen I = k -> zlen W = k ->
  concat (map (fun '(t, s) => if nth (Z.to_nat s) I 0 =? e then [(t, nth (Z.to_nat s) W NaN)] else []) (map (pair t) (seqZ 0 k)))
  = map (pair t) (row_hits I W e).
Proof.
  intros HI HW. rewrite map_map. unfold row_hits.
  assert (zip I W = map (fun s => (nth (Z.to_nat s) I 0, nth (Z.to_nat s) W NaN)) (seqZ 0 k)) as ->.
  { apply list_eq. intros i. change (map ?f ?l) with (f <$> l). rewrite lookup_zip_with, list_lookup_fmap.
    destruct (decide (i < Z.to_nat k)%nat) as [Hi|Hi].
    - rewrite lookup_seqZ_lt by lia. rewrite (lookup_nth W i NaN), (lookup_nth I i 0) by (unfold zlen in *; lia).
      unfold fmap, option_fmap, option_map. replace (Z.to_nat (0 + Z.of_nat i)) with i by lia. done.
    - rewrite lookup_seqZ_ge by lia. rewrite (lookup_ge_None_2 I) by (unfold zlen in *; lia). done. }
  generalize (seqZ 0 k) as l. induction l as [|s l IH]; [done|]. cbn [map concat List.filter].
  rewrite IH. cbn [fst]. by destruct (_ =? e).
Qed.
Lemma hits_rows k e X picks ws : routed k X picks ws ->
  hits (concat (map picks X)) (concat (map ws X)) (zlen X) k e =
  Ok (concat (zip_with (fun t x => map (pair t) (row_hits (picks x) (ws x) e)) (seqZ 0 (zlen X)) X)).
Proof.
  intros [Hk HX]. unfold hits.
  set (I := fun t => picks (nth (Z.to_nat t) X [])). set (W := fun t => ws (nth (Z.to_nat t) X [])).
  assert (forall t, 0 <= t < zlen X -> zlen (I t) = k /\ zlen (W t) = k) as HIW.
  { intros t Ht. apply (proj1 (Forall_forall _ _) HX). apply list_elem_of_In, nth_In. unfold zlen in Ht. lia. }
  rewrite (map_result_total _ (fun '(t, s) => if nth (Z.to_nat s) (I t) 0 =? e then [(t, nth (Z.to_nat s) (W t) NaN)] else [])); cycle 1.
  { intros [t s] Hin. unfold slots in Hin. apply list_elem_of_In, in_flat_map in Hin as (t' & Ht & Hs).
    apply in_map_iff in Hs as (s' & [= <- <-] & Hs). apply list_elem_of_In, elem_of_seqZ in Ht. apply list_elem_of_In, elem_of_seqZ in Hs.
    assert (forall {A} (g : row -> list A), (forall x, x ∈ X -> zlen (g x) = k) -> Forall (fun l => zlen l = k) (map g X)) as Hall.
    { intros A g Hg. apply Forall_map, Forall_forall, Hg. }
    rewrite Forall_forall in HX.
    rewrite (at_concat (map picks X) k t' s' 0), (at_concat (map ws X) k t' s' NaN); [|apply Hall; intros; by apply HX|zlens|lia|apply Hall; intros; by apply HX|zlens|lia].
    cbn [panics_if_none ok_or mbind result_bind]. rewrite !(nth_map _ X _ []) by (unfold zlen in Ht; lia). fold (I t') (W t'). by destruct (_ =? e). }
  cbn [mbind result_bind]. f_equal. unfold slots. rewrite flat_map_concat_map, concat_map, map_map.
  rewrite (zip_with_seqZ _ X []), concat_concat, map_map. f_equal. apply map_ext_in. intros t Ht%list_elem_of_In%elem_of_seqZ.
  destruct (HIW t ltac:(lia)) as [H1 H2]. etrans; [|exact (row_hits_at t (I t) (W t) k e H1 H2)]. by rewrite !map_map.
Qed.
(** The pairs of a token and one of its values, token by token. *)
Definition grouped {A} (hs : row -> list A) (X : list row) : list (Z * A) :=
  concat (zip_with (fun t x => map (pair t) (hs x)) (seqZ 0 (zlen X)) X).
Lemma grouped_range {A} (hs : row -> list A) X : Forall (fun p => 0 <= p.1 < zlen X) (grouped hs X).
Proof.
  unfold grouped. rewrite (zip_with_seqZ _ X []). apply Forall_concat, Forall_map, Forall_forall. intros t Ht%elem_of_seqZ.
  apply Forall_map, Forall_forall. intros a _. cbn. lia.
Qed.
Lemma grouped_map {A B} (E : row -> A -> B) (hs : row -> list A) X :
  zip (map fst (grouped hs X)) (map (fun p => E (nth (Z.to_nat p.1) X []) p.2) (grouped hs X)) = grouped (fun x => map (E x) (hs x)) X.
Proof.
  rewrite zip_with_map. unfold grouped. rewrite !(zip_with_seqZ _ X []), concat_map, map_map. f_equal. apply map_ext. intros t.
  by rewrite !map_map.
Qed.
Lemma run_expert_rows d ex v x X y h picks ws k e : expert_ok d ex v -> mat x d X -> 0 < d -> zlen X <= 2 ^ 32 ->
  mat y d (map h X) -> routed k X picks ws ->
  exists y', run_expert x (concat (map picks X)) (concat (map ws X)) (zlen X) k y e ex = Ok y' /\
    mat y' d (map (fun x => row_routed d x (picks x) (ws x) (h x) e v) X).
Proof.
  intros Hex Hx Hd Hn Hy Hr. unfold run_expert. 
  pose (hs := fun x => row_hits (picks x) (ws x) e). pose (E := fun x w => row_expert d v x (Some w)).
  assert (hits (concat (map picks X)) (concat (map ws X)) (zlen X) k e = Ok (grouped hs X)) as -> by exact (hits_rows k e X picks ws Hr).
  cbn [mbind result_bind]. pose proof (grouped_range hs X) as HB. pose proof (grouped_map E hs X) as Hz. set (H := grouped hs X) in *.
  assert (map (fun x => row_routed d x (picks x) (ws x) (h x) e v) X =
    add_rows (bin1 Add) (map h X) (zip (map fst H) (map (fun p => E (nth (Z.to_nat p.1) X []) p.2) H))) as HR.
  { rewrite Hz. pose proof (add_rows_groups (bin1 Add) h (fun x => map (E x) (hs x)) X []) as G. cbn [app] in G.
    etrans; [|symmetry; exact G]. apply map_ext. intros x0. unfold row_routed. fold (hs x0). clear. generalize (hs x0) as l, (h x0) as z.
    induction l as [|w l IH]; intros z; [done|]. cbn. by rewrite IH. }
  rewrite HR. case_decide as Hemp; [rewrite Hemp; by exists y|].
  change (H.*1) with (map fst H). change (H.*2) with (map snd H).
  assert (Forall (fun i => 0 <= i < zlen X) (map fst H)) as HB1 by (by apply Forall_map).
  assert (map (wrap 32) (map fst H) = map fst H) as ->.
  { rewrite <- (map_id (map fst H)) at 2. apply map_ext_in. intros t Ht%list_elem_of_In. rewrite Forall_forall in HB1.
    specialize (HB1 t Ht). apply wrap_id. unfold in_range. lia. }
  destruct (m_from_vec_u32 (map fst H) (device x)) as (sel & Es & Ms). rewrite zlen_map in Es. rewrite Es. cbn [mbind result_bind].
  op (m_index_select x d X sel _ Hx Ms HB1).
  destruct (m_from_vec 1 (map (fun v => [v]) (map snd H)) (device x)) as (we & Ew & Mw); [by apply Forall_map, Forall_forall|].
  assert (concat (map (fun v : f32 => [v]) (map snd H)) = map snd H) as Hc.
  { generalize (map snd H). intros l. induction l as [|a l IH]; [done|]. cbn. by rewrite IH. }
  rewrite Hc, !zlen_map in Ew. rewrite Ew. cbn [mbind result_bind].
  destruct (expert_rows d ex v y0 _ (Some we) (map Some (map snd H)) Hex M Hd) as (ye & -> & Mye).
  { exists (map snd H). split; [done|]. split; [zlens|done]. }
  cbn [mbind result_bind]. rewrite map_map, map_map, zip_with_map in Mye.
  apply (m_index_add y sel ye d _ _ _ Hy Ms Mye); [by rewrite !zlen_map|by rewrite zlen_map].
Qed.
Lemma run_experts_rows d es vs x X picks ws k : Forall2 (expert_ok d) es vs -> mat x d X -> 0 < d -> zlen X <= 2 ^ 32 ->
  routed k X picks ws -> forall y h e, mat y d (map h X) ->
  exists y', run_experts x (concat (map picks X)) (concat (map ws X)) (zlen X) k y e es = Ok y' /\
    mat y' d (map (fun x => row_experts d x (picks x) (ws x) (h x) e vs) X).
Proof.
  intros Hes Hx Hd Hn Hr. induction Hes as [|ex v es vs Hex Hes IH]; intros y h e Hy; [by exists y|].
  cbn [run_experts]. destruct (run_expert_rows d ex v x X y h picks ws k e Hex Hx Hd Hn Hy Hr) as (y1 & -> & M1).
  cbn [mbind result_bind]. exact (IH y1 _ (e + 1) M1).
Qed.
Record moe_ok (d : Z) (l : Moe (T:=T) (R:=R)) (m : moe_values) : Prop := {
  moe_gate : gate_ok (gate l) m d;
  moe_experts : Forall2 (expert_ok d) (experts l) (expert_vs m);
  moe_shared : expert_ok d (shared l) (shared_v m);
  moe_count : zlen (gate_W m) = zlen (experts l);
  moe_dim : 0 < d;
}.
Lemma dispatch_rows d l m x X w i picks ws : moe_ok d l m -> mat x d X -> zlen X <= 2 ^ 32 -> 0 <= topk (gate l) ->
  mat w (topk (gate l)) (map ws X) -> imat i (topk (gate l)) (map picks X) ->
  exists y, dispatch l x (zlen X) d w i = Ok y /\
    mat y d (map (fun x => zip_with (bin1 Add)
      (row_experts d x (picks x) (ws x) (repeat f32_zero (Z.to_nat d)) 0 (expert_vs m)) (row_expert d (shared_v m) x None)) X).
Proof.
  intros [_ He Hsh _ Hd] Hx Hn Hk Hw Hi. unfold dispatch.
  assert (routed (topk (gate l)) X picks ws) as Hr.
  { split; [done|]. destruct Hw as (_ & _ & HW & _), Hi as (_ & _ & HI & _). rewrite Forall_map in HW, HI.
    apply Forall_forall. intros x0 Hx0. rewrite Forall_forall in HW, HI. split; [by apply HI|by apply HW]. }
  destruct Hw as (_ & _ & _ & fw & -> & Ew). cbn [mbind result_bind]. rewrite Ew. cbn [mbind result_bind].
  destruct Hi as (_ & _ & _ & fi & -> & Ei). cbn [mbind result_bind]. rewrite Ei. cbn [mbind result_bind].
  op (m_zeros (zlen X) d (device x)); [apply zlen_nonneg|lia|].
  assert (repeat (repeat f32_zero (Z.to_nat d)) (Z.to_nat (zlen X)) = map (fun _ => repeat f32_zero (Z.to_nat d)) X) as HZ.
  { unfold zlen. rewrite Nat2Z.id. clear. induction X as [|x X IH]; cbn; [done|]. by f_equal. }
  rewrite HZ in M. destruct (run_experts_rows d _ _ x X picks ws _ He Hx Hd Hn Hr y _ 0 M) as (y1 & -> & M1). cbn [mbind result_bind].
  destruct (expert_rows d _ _ x X None _ Hsh Hx Hd eq_refl) as (y2 & -> & M2). cbn [mbind result_bind].
  rewrite zip_with_map_same in M2. destruct (m_broadcast Add _ _ _ _ _ M1 M2) as (z & -> & Mz); [zlens|].
  exists z. split; [done|]. by rewrite zip_with_map in Mz.
Qed.
(** A loop whose failures are panics, and that has one, panics. *)
Lemma map_result_panics {A B} (f : A -> res B) l a : (forall a, f a = Err Panicked \/ exists b, f a = Ok b) ->
  a ∈ l -> f a = Err Panicked -> map_result f l = Err Panicked.
Proof.
  intros Hf Ha Hp. induction l as [|c l IH]; [by apply not_elem_of_nil in Ha|]. cbn.
  destruct (Hf c) as [->|[b Hb]]; [done|]. rewrite Hb. cbn [mbind result_bind].
  apply elem_of_cons in Ha as [->|Ha]; [congruence|]. by rewrite IH.
Qed.
Lemma hits_panics iv wv n topk e : 0 < n -> 0 < topk -> zlen iv < n * topk -> zlen wv = zlen iv -> hits iv wv n topk e = Err Panicked.
Proof.
  intros Hn Hk Hiv Hwv. unfold hits.
  rewrite (map_result_panics _ (slots n topk) (n - 1, topk - 1)); [done| | |].
  - intros [t s]. destruct (at_ iv (t * topk + s)) as [i|]; [|by left]. cbn.
    destruct (i =? e); [|right; by exists []]. destruct (at_ wv (t * topk + s)) as [w|]; [right; by exists [(t, w)]|by left].
  - unfold slots. apply list_elem_of_In, in_flat_map. exists (n - 1). rewrite in_map_iff.
    split; [|exists (topk - 1); split; [done|]]; apply list_elem_of_In, elem_of_seqZ; lia.
  - cbv beta iota. rewrite (at_None iv) by nia. done.
Qed.
Lemma Moe_forward_panics d l m x X : moe_ok d l m -> mat x d X -> 0 < zlen X ->
  0 < zlen (experts l) < topk (gate l) -> Moe_forward l x = Err Panicked.
Proof.
  intros Hok Hx HX He. pose proof Hok as [Hg Hes _ Hc Hd]. unfold Moe_forward, get_dims2. pose proof Hx as (-> & _). cbn [mbind result_bind].
  pose proof (gate_topk _ _ _ Hg) as Hk.
  destruct (route_rows (gate l) m d x X Hg Hx Hd) as (w & i & -> & Mw & Mi); [lia|lia|].
  cbn [mbind result_bind]. unfold dispatch. set (k := Z.min (gate_k m) (zlen (gate_W m))) in *.
  assert (forall {A} (L : list (list A)), Forall (fun r => zlen r = k) L -> zlen (concat L) = zlen L * k) as Hcat.
  { intros A L HL. induction HL as [|r L Hr HL IH]; [done|]. cbn [concat]. zlens. }
  destruct Mw as (_ & _ & FW & fw & -> & Ew). cbn [mbind result_bind]. rewrite Ew. cbn [mbind result_bind].
  destruct Mi as (_ & _ & FI & fi & -> & Ei). cbn [mbind result_bind]. rewrite Ei. cbn [mbind result_bind].
  op (m_zeros (zlen X) d (device x)); [apply zlen_nonneg|lia|].
  destruct (experts l) as [|ex es]; [zlens|]. cbn [run_experts]. unfold run_expert.
  pose proof (Hcat _ _ FW) as GW. pose proof (Hcat _ _ FI) as GI. rewrite zlen_map in GW. rewrite zlen_map in GI. unfold k in GW, GI.
  rewrite hits_panics; [done|done|lia|rewrite GI; nia|by rewrite GW].
Qed.

(** C23: running every expert once, on all the tokens that chose it, gives each
    token what it gets alone ([token]): the sum, expert by expert, of the outputs
    of its best experts times their weights, plus the shared expert. A gate that
    picks more experts than there are ends in a panic as soon as there is a token. *)
Theorem experts_per_token d l m x X :
  moe_ok d l m -> mat x d X -> zlen X <= 2 ^ 32 -> 0 < topk (gate l) -> 0 < zlen (experts l) ->
  (topk (gate l) <= zlen (experts l) -> exists y, Moe_forward l x = Ok y /\ mat y d (map (token d m) X)) /\
  (zlen (experts l) < topk (gate l) -> 0 < zlen X -> Moe_forward l x = Err Panicked).
Proof.
  intros Hok Hx Hn Hk He. split; [intros Hle|intros Hlt HX; by apply (Moe_forward_panics d l m x X)].
  pose proof Hok as [Hg _ _ Hc Hd]. unfold Moe_forward, get_dims2. pose proof Hx as (-> & _). cbn [mbind result_bind].
  pose proof (gate_topk _ _ _ Hg) as Hk'.
  destruct (route_rows (gate l) m d x X Hg Hx Hd) as (w & i & -> & Mw & Mi); [lia|lia|]. cbn [mbind result_bind].
  rewrite Z.min_l, <- Hk' in Mw, Mi by lia. exact (dispatch_rows d l m x X w i _ _ Hok Hx Hn ltac:(lia) Mw Mi).
Qed.
(** [p] is what a choice of [k] of the values [b] should be. *)
Definition best (k : Z) (b : row) (p : list Z) : Prop :=
  NoDup p /\ zlen p = Z.min k (zlen b) /\
  forall j, j ∈ p -> 0 <= j < zlen b /\
    forall j', 0 <= j' < zlen b -> j' ∉ p -> before (nth (Z.to_nat j) b NaN, j) (nth (Z.to_nat j') b NaN, j').
Lemma row_picks_fst k s b : (row_picks k s b).*1 = map (fun j => nth (Z.to_nat j) s NaN) (row_picks k s b).*2.
Proof. unfold row_picks, fmap. rewrite !map_map. apply map_ext. by intros [v j]. Qed.
Lemma seqZ_increasing a n : StronglySorted Z.lt (seqZ a n).
Proof.
  destruct (Z.le_gt_cases 0 n) as [Hn|Hn]; [|rewrite seqZ_nil by lia; constructor].
  revert a. pattern n. apply natlike_ind; [intros; constructor| |done]. intros m Hm IH a.
  rewrite seqZ_cons by lia. rewrite Z.pred_succ. constructor; [apply IH|].
  apply Forall_forall. intros j Hj%elem_of_seqZ. lia.
Qed.
Lemma row_picks_best k s b : Forall (fun v => is_num v = true) b -> 0 <= k -> best k b (row_picks k s b).*2.
Proof.
  intros Hb Hk. set (cand := zip b (seqZ 0 (zlen b))).
  assert (length b = length (seqZ 0 (zlen b))) as Hlen by (rewrite length_seqZ; unfold zlen; lia).
  assert (cand.*2 = seqZ 0 (zlen b)) as Hc2 by (apply snd_zip; lia). assert (cand.*1 = b) as Hc1 by (apply fst_zip; lia).
  assert ((row_picks k s b).*2 = (take (Z.to_nat k) (sort_cand cand)).*2) as ->.
  { unfold row_picks. fold cand. unfold fmap. rewrite map_map. apply map_ext. by intros [v j]. }
  assert (StronglySorted before (sort_cand cand)) as Hs.
  { apply sort_cand_sorted; [|rewrite Hc2; apply seqZ_increasing]. rewrite <- Hc1 in Hb. by apply Forall_fmap in Hb. }
  assert (forall v j, (v, j) ∈ sort_cand cand -> 0 <= j < zlen b /\ v = nth (Z.to_nat j) b NaN) as Hin.
  { intros v j Hv. rewrite sort_cand_perm in Hv. unfold cand in Hv. rewrite (zip_seqZ b NaN) in Hv.
    apply list_elem_of_In, in_map_iff in Hv as (j' & [= <- <-] & Hj%list_elem_of_In%elem_of_seqZ). split; [lia|done]. }
  split_and!.
  - assert (NoDup (sort_cand cand).*2) as Hnd by (rewrite (sort_cand_perm cand), Hc2; apply NoDup_seqZ).
    rewrite <- (take_drop (Z.to_nat k) (sort_cand cand)), fmap_app in Hnd. by apply NoDup_app in Hnd as [Hnd _].
  - unfold zlen. rewrite length_fmap, length_take, sort_cand_perm, <- (length_fmap fst cand), Hc1. lia.
  - intros j Hj. apply list_elem_of_fmap in Hj as ([v ?] & -> & Hv). cbn.
    destruct (Hin v z) as [Hr ->]; [rewrite <- (take_drop (Z.to_nat k)); apply elem_of_app; by left|]. split; [done|].
    intros j' Hj' Hn. apply (take_sorted before (Z.to_nat k) (sort_cand cand)); [done|done|].
    assert ((nth (Z.to_nat j') b NaN, j') ∈ sort_cand cand) as Hj2.
    { rewrite sort_cand_perm. unfold cand. rewrite (zip_seqZ b NaN). apply list_elem_of_In, in_map_iff.
      exists j'. split; [done|]. apply list_elem_of_In, elem_of_seqZ. lia. }
    rewrite <- (take_drop (Z.to_nat k)) in Hj2. apply elem_of_app in Hj2 as [Hj2|]; [|done].
    destruct Hn. by apply (list_elem_of_fmap_2 snd) in Hj2.
Qed.
(** the gate's choice. Every row of indices has the [k] experts of greatest
    biased score, all different, the first of equals, and the row of weights has
    their unbiased scores, normalised and scaled; as long as no score is NaN. *)
Theorem route_picks_best g m d x X : gate_ok g m d -> mat x d X -> 0 < d -> 0 < topk g -> 0 < zlen (gate_W m) ->
  exists w i picks, let k := Z.min (topk g) (zlen (gate_W m)) in
  let scores := fun x => row_score (gate_f m) (row_linear d (gate_W m) x) in
  route g x = Ok (w, i) /\ imat i k (map picks X) /\
  mat w k (map (fun x => row_weights (gate_f m) (gate_scale m) (map (fun j => nth (Z.to_nat j) (scores x) NaN) (picks x))) X) /\
  forall x, x ∈ X -> Forall (fun v => is_num v = true) (row_biased (gate_b m) (scores x)) ->
    best (topk g) (row_biased (gate_b m) (scores x)) (picks x).
Proof.
  intros Hg Hx Hd Hk He. rewrite (gate_topk _ _ _ Hg) in *.
  destruct (route_rows g m d x X Hg Hx Hd Hk He) as (w & i & Hr & Mw & Mi).
  exists w, i, (fun x => (row_route d m x).*2). split_and!; [done|done| |].
  - erewrite map_ext; [exact Mw|]. intros x0. unfold row_route. by rewrite row_picks_fst.
  - intros x0 Hx0 Hn. apply row_picks_best; [exact Hn|lia].
Qed.
End rows.

(** ** Witnesses *)
(** Two tokens and two experts, on [Matrices]: the first token goes to the first
    expert, the second to the second. *)
Module Example_Moe.
Import Matrices.
Definition num (z : Z) : f32 := Fin (z <? 0) (Z.abs z) 0.
Definition vals (w : Z) : expert_values := mk_values [[num w; num 0]] [[num 1]; [num 1]] [[num 0; num 1]] (num 0).
Definition values (k : Z) : moe_values :=
  mk_moe_values [[num 1; num 0]; [num 0; num 1]] None k (num 1) Softmax [vals 1; vals 2] (vals 3).
Definition expert (v : expert_values (R:=f32)) : Expert := mk_Expert (Mat 2 (W1 v)) (Mat 1 (W2 v)) (Mat 2 (W3 v)) (limit v).
Definition layer (k : Z) : Moe :=
  mk_Moe (mk_Gate (Mat 2 (gate_W (values k))) None k (num 1) Softmax None) [expert (vals 1); expert (vals 2)] (expert (vals 3)).
Definition rows : list (list f32) := [[num 3; num 1]; [num 1; num 3]].
Lemma layer_gate k : gate_ok (gate (layer k)) (values k) 2.
Proof. split; [apply mat_intro; by repeat constructor|done..]. Qed.
Lemma layer_expert w : expert_ok 2 (expert (vals w)) (vals w).
Proof. split; [apply mat_intro; by repeat constructor..|done|done|done|done]. Qed.
Lemma layer_ok k : moe_ok 2 (layer k) (values k).
Proof.
  split; [apply layer_gate| |apply layer_expert|done|done].
  constructor; [apply layer_expert|]. constructor; [apply layer_expert|constructor].
Qed.
Lemma rows_ok : mat (Mat 2 rows) 2 rows.
Proof. apply mat_intro. by repeat constructor. Qed.
End Example_Moe.
Import Example_Moe.

Lemma experts_per_token_witness :
  (exists y, Moe_forward (layer 1) (Matrices.Mat 2 rows) = Ok y /\ mat y 2 (map (token 2 (values 1)) rows)) /\
  Moe_forward (layer 3) (Matrices.Mat 2 rows) = Err Panicked.
Proof.
  split.
  - apply (experts_per_token 2 (layer 1) (values 1) (Matrices.Mat 2 rows) rows (layer_ok 1) rows_ok);
      [vm_compute; discriminate|vm_compute; reflexivity|vm_compute; reflexivity|vm_compute; discriminate].
  - apply (experts_per_token 2 (layer 3) (values 3) (Matrices.Mat 2 rows) rows (layer_ok 3) rows_ok);
      [vm_compute; discriminate|vm_compute; reflexivity|vm_compute; reflexivity|vm_compute; reflexivity|vm_compute; reflexivity].
Defined.
Lemma route_picks_best_witness :
  exists w i picks, route (gate (layer 1)) (Matrices.Mat 2 rows) = Ok (w, i) /\
    imat i 1 (map picks rows) /\ best 1 [num 0; num (-2)] (picks [num 3; num 1]).
Proof.
  destruct (route_picks_best (gate (layer 1)) (values 1) 2 (Matrices.Mat 2 rows) rows (layer_gate 1) rows_ok)
    as (w & i & picks & H1 & H2 & _ & H3); [vm_compute; reflexivity|vm_compute; reflexivity|vm_compute; reflexivity|].
  exists w, i, picks. split; [exact H1|]. split; [exact H2|].
  assert (row_biased (gate_b (values 1)) (row_score (gate_f (values 1)) (row_linear 2 (gate_W (values 1)) [num 3; num 1]))
    = [Fin false 0 0; Fin true 2 0]) as E by (vm_compute; reflexivity).
  specialize (H3 [num 3; num 1]). rewrite E in H3. apply H3; [by left|by repeat constructor].
Defined.
