(* ===== verification/DsShapes.v ===== *)
(** * A library of shapes that has the typing laws

    Tensors of which only the element type and the shape are kept: every operation
    fails where its shapes do not fit, and values read from a tensor are all one
    ([to_vec1_f32]) or zero ([to_vec1_i64]). *)
From S2P Require Import Prelude RustStd Wire Json Cursor DsWeights DsTensor DsMatrices.

Record shaped : Type := mk_shaped { sh_tag : tag; sh_dims : list nat }.
Definition misfit {A} : res A := Err (Failed "shape mismatch"%string).
Definition dtypes_differ {A} : res A := Err (Failed "dtype mismatch"%string).
Definition numel (l : list nat) : nat := foldr Nat.mul 1%nat l.
Definition nats : list Z -> list nat := map Z.to_nat.
Definition dim_index (i : Z) (rank : nat) : nat := Z.to_nat (if i <? 0 then Z.of_nat rank + i else i).
Definition or_misfit (t : tag) (o : option (list nat)) : res shaped := match o with Some l => Ok (mk_shaped t l) | None => misfit end.
(** The common shape of a broadcast, from the last dimension on. *)
Fixpoint common (l k : list nat) : option (list nat) :=
  match l, k with
  | [], k => Some k
  | l, [] => Some l
  | a :: l, b :: k =>
      r ← common l k;
      if (a =? b)%nat then Some (a :: r) else if (a =? 1)%nat then Some (b :: r) else if (b =? 1)%nat then Some (a :: r) else None
  end.
Definition sh_broadcast (a b : shaped) : res shaped :=
  if decide (sh_tag a = sh_tag b)
  then or_misfit (sh_tag a) (l ← common (rev (sh_dims a)) (rev (sh_dims b)); Some (rev l)) else dtypes_differ.
Definition set_dim (i n : nat) (t : shaped) : res shaped :=
  or_misfit (sh_tag t) (_ ← sh_dims t !! i; Some (<[i := n]> (sh_dims t))).
Definition swapped (i j : nat) (t : shaped) : res shaped :=
  or_misfit (sh_tag t) (a ← sh_dims t !! i; b ← sh_dims t !! j; Some (<[i := b]> (<[j := a]> (sh_dims t)))).
Definition inserted (i n : nat) (t : shaped) : shaped := mk_shaped (sh_tag t) (take i (sh_dims t) ++ n :: drop i (sh_dims t)).
Definition numbers (want : tag) (t : shaped) : res nat :=
  match sh_dims t with [n] => if decide (sh_tag t = want) then Ok n else dtypes_differ | _ => misfit end.
Definition of_vec (t : tag) (s : list Z) (n : Z) : res shaped := if product s =? n then Ok (mk_shaped t (nats s)) else misfit.
Definition sh_matmul (a b : shaped) : res shaped :=
  if decide (sh_tag a = sh_tag b) then
    match rev (sh_dims a), rev (sh_dims b) with
    | k :: m :: batch, n :: k' :: batch' =>
        if (k =? k')%nat && bool_decide (batch = batch') then Ok (mk_shaped (sh_tag a) (rev batch ++ [m; n])) else misfit
    | _, _ => misfit
    end
  else dtypes_differ.
Definition cat2 (p : nat) (a b : shaped) : res shaped :=
  match sh_dims a !! p, sh_dims b !! p with
  | Some n, Some m =>
      if bool_decide (<[p := 0%nat]> (sh_dims a) = <[p := 0%nat]> (sh_dims b)) && bool_decide (sh_tag a = sh_tag b)
      then Ok (mk_shaped (sh_tag a) (<[p := (n + m)%nat]> (sh_dims a))) else misfit
  | _, _ => misfit
  end.

#[global] Instance shape_ops : Tensor_Ops shaped unit f32 := {
  dims t := map Z.of_nat (sh_dims t);
  dtype_of := sh_tag;
  device _ := tt;
  to_dtype d t := Ok (mk_shaped d (sh_dims t));
  contiguous t := Ok t;
  reshape s t := if forallb (Z.leb 0) s && (numel (nats s) =? numel (sh_dims t))%nat then Ok (mk_shaped (sh_tag t) (nats s)) else misfit;
  flatten_all t := Ok (mk_shaped (sh_tag t) [numel (sh_dims t)]);
  unsqueeze i t := Ok (inserted (dim_index i (S (length (sh_dims t)))) 1 t);
  transpose i j := swapped (Z.to_nat i) (Z.to_nat j);
  t_t := swapped 0 1;
  permute p t := or_misfit (sh_tag t) (mapM (fun i => sh_dims t !! Z.to_nat i) p);
  narrow i start len t :=
    let p := dim_index i (length (sh_dims t)) in
    match sh_dims t !! p with Some n => if start + len <=? Z.of_nat n then set_dim p (Z.to_nat len) t else misfit | None => misfit end;
  cat l i := match l with [a; b] => cat2 (dim_index i (length (sh_dims a))) a b | _ => misfit end;
  stack l i := match l with a :: _ => Ok (inserted (dim_index i (S (length (sh_dims a)))) (length l) a) | [] => misfit end;
  broadcast_as s t :=
    if (length s =? length (sh_dims t))%nat && forallb (fun '(d, e) => (d =? 1) || (d =? e)) (zip (map Z.of_nat (sh_dims t)) s)
    then Ok (mk_shaped (sh_tag t) (nats s)) else misfit;
  index_select t s i := match sh_dims s with [n] => set_dim (Z.to_nat i) n t | _ => misfit end;
  index_add t _ _ _ := Ok t;
  t_zeros s _ := Ok (mk_shaped TF32 (nats s)); t_full _ s _ := Ok (mk_shaped TF32 (nats s)); ones s _ := Ok (mk_shaped TF32 (nats s));
  ones_like t := Ok t;
  from_vec_f32 l s _ := if forallb (Z.leb 0) s then of_vec TF32 s (zlen l) else misfit;
  from_vec_i64 l s _ := if forallb (Z.leb 0) s then of_vec TI64 s (zlen l) else misfit;
  from_vec_u32 l s _ := if forallb (Z.leb 0) s then of_vec TU32 s (zlen l) else misfit;
  to_vec1_f32 t := n ← numbers TF32 t; Ok (repeat f32_one n);
  to_vec1_i64 t := n ← numbers TI64 t; Ok (repeat 0 n);
  un _ t := Ok t;
  broadcast _ := sh_broadcast;
  pointwise _ a b := if decide (sh_dims a = sh_dims b) then sh_broadcast a b else misfit;
  reduce_keepdim _ i t := set_dim (dim_index i (length (sh_dims t))) 1 t;
  sum i t := let p := dim_index i (length (sh_dims t)) in Ok (mk_shaped (sh_tag t) (take p (sh_dims t) ++ drop (S p) (sh_dims t)));
  matmul := sh_matmul;
  softmax _ t := Ok t;
  un1 _ x := x; bin1 _ x _ := x; red1 _ _ := f32_zero; vecmat r _ := r;
}.
Lemma nats_nonneg s : forallb (Z.leb 0) s = true -> map Z.of_nat (nats s) = s.
Proof.
  intros H. unfold nats. rewrite map_map. rewrite <- (map_id s) at 2. apply map_ext_in. intros z Hz.
  rewrite forallb_forall in H. specialize (H z Hz). lia.
Qed.
#[global] Instance shape_laws : Typing_Laws shaped unit f32.
Proof.
  split.
  - intros t. cbn. apply Forall_map, Forall_forall. intros. lia.
  - by intros d t y [= <-].
  - intros s t y. cbn. destruct (forallb _ s) eqn:E; [|done]. cbn. case_match; [|done]. intros [= <-]. split; [done|by apply nats_nonneg].
  - intros t y. cbn. unfold swapped, or_misfit. case_match; [|done]. by intros [= <-].
  - by intros t y [= <-].
  - intros a b y. cbn. unfold sh_matmul. by case_decide.
  - intros a b i n m y. cbn. unfold dim_index. rewrite (proj2 (Z.ltb_ge _ 0)) by lia. rewrite Nat2Z.id. unfold cat2.
    change (map ?f ?l) with (f <$> l). rewrite !list_lookup_fmap.
    destruct (sh_dims a !! i) as [n'|] eqn:Ea; [|done]. destruct (sh_dims b !! i) as [m'|]; [|done].
    case_match; [|done]. intros [= <-] [= <-] [= <-].  cbn [sh_dims].
    rewrite list_lookup_insert_eq by (by eapply lookup_lt_Some). cbn. f_equal. lia.
  - intros l s dev y. cbn. destruct (forallb _ s) eqn:E; [|done]. unfold of_vec. case_match; [|done]. intros [= <-]. by apply nats_nonneg.
  - by intros t y [= <-].
  - intros s t y. cbn. case_match eqn:E; [|done]. intros _ _. apply andb_prop in E as [El E]. apply Nat.eqb_eq in El.
    rewrite forallb_forall in E. apply Forall2_same_length_lookup_2; [by rewrite length_map|].
    intros i d e Hd He. specialize (E (d, e)). cbn in E. apply orb_prop in E; [lia|].
    apply list_elem_of_In, list_elem_of_lookup. exists i. by rewrite lookup_zip_with, Hd, He.
Qed.
