(* ===== verification/DsAttention.v ===== *)
(** * DeepSeek V4 attention ([deepseek_v4/attention.rs], [sparse.rs], [rope.rs])

    Rotary positions, the tables of positions a token looks at, the compressed
    blocks of tokens and their selection, and the attention layer with its cache.
    The cache is updated in place: a pass returns the layer with its result, also
    when it fails.  [chk] as in [DsWeights]. *)
From S2P Require Import Prelude RustStd Wire Json Cursor DsWeights DsTensor DsMatrices.

Section attention.
Context {T Dev R : Type} (chk : bool) `{!Float64 R} `{!Tensor_Ops T Dev R}.
Definition r_two : R := lit 2 0.

(** ** [rope.rs] *)
Record Rope : Type := mk_Rope { cos : T; sin : T }.
Definition correction_dim (num_rotations : R) (dim : Z) (base : R) (max_seq_len : Z) : R :=
  fdiv (fmul (of_usize dim) (ln (fdiv (of_usize max_seq_len) (fmul (fmul num_rotations r_two) f64_pi)))) (fmul r_two (ln base)).
Definition correction_range (low_rot high_rot : R) (dim : Z) (base : R) (max_seq_len : Z) : res (R * R) :=
  let low := fmax (ffloor (correction_dim low_rot dim base max_seq_len)) zero in
  d ← usz chk (dim - 1);
  let high := fmin (fceil (correction_dim high_rot dim base max_seq_len)) (of_usize d) in
  Ok (low, high).
Definition clamp (x lo hi : R) : R := if fltb x lo then lo else if fltb hi x then hi else x.
Definition interpolated (factor low high : R) (i : Z) (f : R) : R :=
  let denom := if feqb low high then lit 1 (-3) else fsub high low in
  let ramp := clamp (fdiv (fsub (of_usize i) low) denom) zero one in
  let smooth := fsub one ramp in
  fadd (fmul (fdiv f factor) (fsub one smooth)) (fmul f smooth).
Definition frequencies (dim original_seq_len : Z) (base factor beta_fast beta_slow : R) : res (list R) :=
  let half := dim / 2 in
  let freqs := map (fun i => fdiv one (powf base (fdiv (of_usize (2 * i)) (of_usize dim)))) (seqZ 0 half) in
  if 0 <? original_seq_len then
    '(low, high) ← correction_range beta_fast beta_slow dim base original_seq_len;
    Ok (zip_with (interpolated factor low high) (seqZ 0 half) freqs)
  else Ok freqs.
Definition Rope_new (dim max_seq original_seq_len : Z) (base factor beta_fast beta_slow : R) (dev : Dev) : res Rope :=
  freqs ← frequencies dim original_seq_len base factor beta_fast beta_slow;
  let angles := flat_map (fun p => map (fun f => fmul (of_usize p) f) freqs) (seqZ 0 max_seq) in
  c ← from_vec_f32 (map (fun a => as_f32 (fcos a)) angles) [max_seq; dim / 2] dev;
  s ← from_vec_f32 (map (fun a => as_f32 (fsin a)) angles) [max_seq; dim / 2] dev;
  Ok (mk_Rope c s).
Definition apply_rows (x cos sin : T) (inverse : bool) : res T :=
  '(b, s, h, d) ← get_dims4 x;
  let half := d / 2 in
  x ← to_dtype TF32 x;
  cos ← reshape [1; s; 1; half] cos;
  sin ← reshape [1; s; 1; half] sin;
  sin ← (if inverse then un Neg sin else Ok sin);
  xr ← reshape [b; s; h; half; 2] x;
  e ← narrow 4 0 1 xr; e ← contiguous e; x_even ← reshape [b; s; h; half] e;
  o ← narrow 4 1 1 xr; o ← contiguous o; x_odd ← reshape [b; s; h; half] o;
  a ← broadcast Mul x_even cos; c ← broadcast Mul x_odd sin; out_even ← pointwise Sub a c;
  a ← broadcast Mul x_even sin; c ← broadcast Mul x_odd cos; out_odd ← pointwise Add a c;
  y ← stack [out_even; out_odd] 4;
  reshape [b; s; h; d] y.
Definition apply (r : Rope) (x : T) (start_pos : Z) (inverse : bool) : res T :=
  s ← dim x 1;
  c ← narrow 0 start_pos s (cos r);
  n ← narrow 0 start_pos s (sin r);
  apply_rows x c n inverse.
Definition apply_at (r : Rope) (x : T) (positions : list Z) (inverse : bool) : res T :=
  idx ← from_vec_u32 (map (wrap 32) positions) [zlen positions] (device (cos r));
  c ← index_select (cos r) idx 0;
  n ← index_select (sin r) idx 0;
  apply_rows x c n inverse.

(** ** Helpers of [attention.rs] *)
Definition rms_norm (x : T) (gamma : option T) (eps : R) : res T :=
  x ← to_dtype TF32 x;
  q ← un Sqr x; var ← reduce_keepdim Mean (-1) q;
  v ← un (Affine one eps) var; v ← un Sqrt v;
  normed ← broadcast Div x v;
  match gamma with Some g => g ← to_dtype TF32 g; broadcast Mul normed g | None => Ok normed end.
(** The last [rd] columns, rotated by [f]. *)
Definition rotate_tail (f : T -> res T) (x : T) (rd : Z) : res T :=
  d ← last_dim x;
  nope ← usz chk (d - rd);
  head ← narrow (-1) 0 nope x; head ← contiguous head;
  tail ← narrow (-1) nope rd x; tail ← contiguous tail;
  tail ← f tail;
  cat [head; tail] (-1).
Definition rope_tail (r : Rope) (x : T) (start_pos rd : Z) (inverse : bool) : res T :=
  rotate_tail (fun t => apply r t start_pos inverse) x rd.
Definition rope_tail_at (r : Rope) (x : T) (positions : list Z) (rd : Z) : res T :=
  rotate_tail (fun t => apply_at r t positions false) x rd.

(** ** Positions a token looks at ([sparse.rs]) *)
Definition window_row (window k i : Z) : list Z :=
  let lo := Z.max 0 (i + 1 - window) in
  map (fun j => let key := lo + j in if key <=? i then key else -1) (seqZ 0 k).
Definition window_topk_idxs (window seqlen : Z) (dev : Dev) : res T :=
  let k := Z.min window seqlen in
  from_vec_i64 (flat_map (window_row window k) (seqZ 0 seqlen)) [seqlen; k] dev.
Definition compress_row (ratio cols offset i : Z) : list Z :=
  let visible := Z.min ((i + 1) / ratio) cols in
  map (fun c => if c <? visible then c + offset else -1) (seqZ 0 cols).
Definition compress_topk_idxs (ratio seqlen offset : Z) (dev : Dev) : res T :=
  if ratio =? 0 then Err Panicked else
  let cols := seqlen / ratio in
  from_vec_i64 (flat_map (compress_row ratio cols offset) (seqZ 0 seqlen)) [seqlen; cols] dev.

(** ** [Compressor] *)
Definition softmax_dim (x : T) (i : Z) : res T :=
  m ← reduce_keepdim Max i x; d ← broadcast Sub x m; e ← un Exp d; s ← reduce_keepdim Sum i e; broadcast Div e s.
Definition gated_pool (values gates : T) : res T :=
  w ← softmax_dim gates 2; v ← pointwise Mul values w; sum 2 v.
Definition overlap_windows (t : T) (d : Z) (fill : f32) : res T :=
  '(b, nb, ratio, _) ← get_dims4 t;
  normal ← narrow 3 d d t;
  first ← narrow 3 0 d t;
  fill_block ← t_full fill [b; 1; ratio; d] (device t);
  prev ← (if 1 <? nb then p ← narrow 1 0 (nb - 1) first; cat [fill_block; p] 1 else Ok fill_block);
  cat [prev; normal] 2.
Record Compressor : Type := mk_Compressor {
  c_wkv : T; wgate : T; ape : T; c_norm : T; c_ratio : Z; c_head_dim : Z; c_rope_dim : Z; c_eps : R;
}.
Definition neg_infinity : f32 := Inf true.
Definition Compressor_compress (c : Compressor) (x : T) (rope : Rope) : res T :=
  '(b, s, _) ← get_dims3 x;
  let ratio := c_ratio c in let d := c_head_dim c in let rd := c_rope_dim c in
  if ratio =? 0 then Err Panicked else
  let nb := s / ratio in
  let overlap := ratio =? 4 in
  proj_d ← (if overlap then usz chk (2 * d) else Ok d);
  kv ← attn_linear x (c_wkv c); kv ← reshape [b; nb; ratio; proj_d] kv;
  ape ← reshape [1; 1; ratio; proj_d] (ape c);
  g ← attn_linear x (wgate c); g ← reshape [b; nb; ratio; proj_d] g; score ← broadcast Add g ape;
  pooled ← (if overlap then
              kv ← overlap_windows kv d f32_zero; score ← overlap_windows score d neg_infinity; gated_pool kv score
            else gated_pool kv score);
  pooled ← rms_norm pooled (Some (c_norm c)) (c_eps c);
  if rd =? 0 then Ok pooled else
  let positions := map (fun i => i * ratio) (seqZ 0 nb) in
  p ← reshape [b; nb; 1; d] pooled;
  roped ← rope_tail_at rope p positions rd;
  reshape [b; nb; d] roped.

(** ** [Indexer] *)
Record Indexer : Type := mk_Indexer {
  i_wq_b : T; weights_proj : T; i_compressor : Compressor; i_heads : Z; i_head_dim : Z; i_rope_dim : Z;
  index_topk : Z; i_ratio : Z; i_scale : R;
}.
(** Row [r = bi * s + i] of the scores: the complete blocks, the best first. *)
Definition select_row (flat : list f32) (nb k ratio offset r i : Z) : res (list Z) :=
  let visible := (i + 1) / ratio in
  let base := r * nb in
  cand ← map_result (fun t => v ← panics_if_none (at_ flat (base + t)); Ok (v, t))
           (List.filter (fun t => t <? visible) (seqZ 0 nb));
  let picked := map (fun '(_, t) => t + offset) (take (Z.to_nat k) (sort_cand cand)) in
  Ok (picked ++ repeat (-1) (Z.to_nat k - length picked)).
Definition index_scores (x : Indexer) (q kv weights : T) (b s nb : Z) : res (list f32) :=
  qm ← reshape [b; s * i_heads x; i_head_dim x] q;
  kvt ← transpose 1 2 kv; kvt ← contiguous kvt;
  sc ← matmul qm kvt; sc ← reshape [b; s; i_heads x; nb] sc; scores ← un Relu sc;
  w ← unsqueeze (-1) weights; scores ← broadcast Mul scores w;
  index_score ← sum 2 scores;
  f ← to_dtype TF32 index_score; f ← flatten_all f; to_vec1_f32 f.
Definition select (x : Indexer) (input qr : T) (rope : Rope) : res T :=
  '(b, s, _) ← get_dims3 input;
  if i_ratio x =? 0 then Err Panicked else
  let nb := s / i_ratio x in
  let k := Z.min (index_topk x) nb in
  q ← attn_linear qr (i_wq_b x); q ← reshape [b; s; i_heads x; i_head_dim x] q;
  q ← (if 0 <? i_rope_dim x then rope_tail_at rope q (seqZ 0 s) (i_rope_dim x) else Ok q);
  kv ← Compressor_compress (i_compressor x) input rope;
  let wsc := fmul (i_scale x) (powf (of_usize (i_heads x)) (lit (-5) (-1))) in
  w ← attn_linear input (weights_proj x); weights ← un (Affine wsc zero) w;
  flat ← index_scores x q kv weights b s nb;
  rows ← map_result (fun '(bi, i) => select_row flat nb k (i_ratio x) s (bi * s + i) i)
           (flat_map (fun bi => map (pair bi) (seqZ 0 s)) (seqZ 0 b));
  from_vec_i64 (concat rows) [b; s; k] (device input).

(** ** Attention over the chosen positions *)
Definition mask_row (n : Z) (idxs : list Z) : list f32 :=
  foldl (fun m idx => if (0 <=? idx) && (idx <? n) then <[Z.to_nat idx := f32_zero]> m else m)
    (repeat neg_infinity (Z.to_nat n)) idxs.
Definition attn_core (q kv sink : T) (scale : R) (mask : option T) : res T :=
  '(b, _, h, d) ← get_dims4 q;
  n ← dim kv 1;
  q ← to_dtype TF32 q;
  kv ← to_dtype TF32 kv;
  qh ← transpose 1 2 q; qh ← contiguous qh;
  kvh ← unsqueeze 1 kv; kvh ← broadcast_as [b; h; n; d] kvh; kvh ← contiguous kvh;
  kt ← transpose 2 3 kvh; kt ← contiguous kt;
  sc ← matmul qh kt; scores ← un (Affine scale zero) sc;
  scores ← match mask with Some m => broadcast Add scores m | None => Ok scores end;
  m ← reduce_keepdim Max (-1) scores;
  e ← broadcast Sub scores m; exp_scores ← un Exp e;
  sum_keys ← reduce_keepdim Sum (-1) exp_scores;
  st ← reshape [1; h; 1; 1] sink; st ← broadcast Sub st m; sink_term ← un Exp st;
  denom ← pointwise Add sum_keys sink_term;
  weights ← broadcast Div exp_scores denom;
  o ← matmul weights kvh; o ← transpose 1 2 o; contiguous o.
Definition sparse_attn (q kv sink topk_idxs : T) (scale : R) : res T :=
  '(b, s, _, _) ← get_dims4 q;
  n ← dim kv 1;
  '(_, _, topk) ← get_dims3 topk_idxs;
  i ← to_dtype TI64 topk_idxs; i ← flatten_all i; idxs ← to_vec1_i64 i;
  rows ← map_result (fun r => l ← map_result (fun t => panics_if_none (at_ idxs (r * topk + t))) (seqZ 0 topk); Ok (mask_row n l))
           (seqZ 0 (b * s));
  mask ← from_vec_f32 (concat rows) [b; 1; s; n] (device q);
  attn_core q kv sink scale (Some mask).

(** ** [Mla] *)
Record Mla : Type := mk_Mla {
  wq_a : T; q_norm : T; wq_b : T; wkv : T; kv_norm : T; wo_a : T; wo_b : T; attn_sink : T;
  n_heads : Z; head_dim : Z; rope_head_dim : Z; n_groups : Z; o_lora_rank : Z; window_size : Z; compress_ratio : Z;
  compressor : option Compressor; indexer : option Indexer; eps : R; scale : R;
  kv_cache : option T;
}.
Definition with_kv (c : option T) (a : Mla) : Mla :=
  mk_Mla (wq_a a) (q_norm a) (wq_b a) (wkv a) (kv_norm a) (wo_a a) (wo_b a) (attn_sink a) (n_heads a) (head_dim a)
    (rope_head_dim a) (n_groups a) (o_lora_rank a) (window_size a) (compress_ratio a) (compressor a) (indexer a) (eps a) (scale a) c.
Definition project_q (a : Mla) (x : T) (rope : Rope) (start_pos b s : Z) : res (T * T) :=
  q ← attn_linear x (wq_a a); qr ← rms_norm q (Some (q_norm a)) (eps a);
  q ← attn_linear qr (wq_b a); q ← reshape [b; s; n_heads a; head_dim a] q;
  q ← rms_norm q None (eps a);
  q ← rope_tail rope q start_pos (rope_head_dim a) false;
  Ok (qr, q).
Definition project_kv (a : Mla) (x : T) (rope : Rope) (start_pos b s : Z) : res T :=
  kv ← attn_linear x (wkv a); kv_new ← rms_norm kv (Some (kv_norm a)) (eps a);
  kv_new ← reshape [b; s; 1; head_dim a] kv_new;
  kv_new ← rope_tail rope kv_new start_pos (rope_head_dim a) false;
  reshape [b; s; head_dim a] kv_new.
(** The keys and values so far, which become the cache. *)
Definition extended (cached : option T) (start_pos : Z) (kv_new : T) : res T :=
  if start_pos =? 0 then Ok kv_new
  else match cached with Some c => cat [c; kv_new] 1 | None => Ok kv_new end.
Definition positions_of (a : Mla) (x qr kv : T) (rope : Rope) (b s : Z) : res (T * T) :=
  seqlen ← dim kv 1;
  let k_win := Z.min (window_size a) seqlen in
  w ← window_topk_idxs (window_size a) seqlen (device x);
  w ← unsqueeze 0 w; w ← broadcast_as [b; s; k_win] w; window ← contiguous w;
  match compressor a with
  | Some comp =>
      kv_compress ← Compressor_compress comp x rope;
      cidxs ← match indexer a with
              | Some idx => select idx x qr rope
              | None =>
                  c ← compress_topk_idxs (compress_ratio a) seqlen seqlen (device x);
                  cols ← dim c 1;
                  c ← unsqueeze 0 c; c ← broadcast_as [b; s; cols] c; contiguous c
              end;
      kv_attn ← cat [kv; kv_compress] 1;
      idxs ← cat [window; cidxs] (-1);
      Ok (kv_attn, idxs)
  | None => Ok (kv, window)
  end.
Definition project_out (a : Mla) (o : T) (b s : Z) : res T :=
  let g := n_groups a in let r := o_lora_rank a in
  n ← usz chk (n_heads a * head_dim a);
  if g =? 0 then Err Panicked else
  let din := n / g in
  o ← reshape [b; s; g; din] o; o ← permute [2; 0; 1; 3] o; o ← reshape [g; b * s; din] o;
  wa ← reshape [g; r; din] (wo_a a); wa ← transpose 1 2 wa; wa ← contiguous wa;
  og ← matmul o wa; og ← reshape [g; b; s; r] og; og ← permute [1; 2; 0; 3] og; og ← reshape [b; s; g * r] og;
  attn_linear og (wo_b a).
Definition mla_attend (a : Mla) (x qr q kv : T) (rope : Rope) (start_pos b s : Z) : res T :=
  '(kv_attn, idxs) ← positions_of a x qr kv rope b s;
  idxs ← contiguous idxs;
  o ← sparse_attn q kv_attn (attn_sink a) idxs (scale a);
  o ← rope_tail rope o start_pos (rope_head_dim a) true;
  project_out a o b s.
Definition projected (a : Mla) (x : T) (rope : Rope) (start_pos : Z) : res (Z * Z * T * T * T) :=
  '(b, s, _) ← get_dims3 x;
  '(qr, q) ← project_q a x rope start_pos b s;
  kv_new ← project_kv a x rope start_pos b s;
  kv ← extended (kv_cache a) start_pos kv_new;
  Ok (b, s, qr, q, kv).
Definition Mla_forward (a : Mla) (x : T) (rope : Rope) (start_pos : Z) : Mla * res T :=
  match projected a x rope start_pos with
  | Err e => (a, Err e)
  | Ok (b, s, qr, q, kv) => (with_kv (Some kv) a, mla_attend a x qr q kv rope start_pos b s)
  end.
Definition Mla_clear_kv_cache (a : Mla) : Mla := with_kv None a.
Definition Mla_extract_kv_cache (a : Mla) : res (T * T) :=
  k ← ok_or (Failed "extract_kv_cache: empty"%string) (kv_cache a); Ok (k, k).
Definition Mla_restore_kv_cache (a : Mla) (k _v : T) : Mla := with_kv (Some k) a.
End attention.

(** ** Lemmas *)
(** [bound H as x Hx]: a sequence that returned went through its first step. *)
Ltac bound H x Hx :=
  lazymatch type of H with
  | mbind _ ?m = Ok _ => destruct m as [x|] eqn:Hx; cbn [mbind result_bind] in H; [|discriminate H]
  end.
(** *** Masks *)
Definition allowed (b : bool) : f32 := if b then f32_zero else neg_infinity.
Lemma mask_row_spec n l c : 0 <= c < n -> nth (Z.to_nat c) (mask_row n l) NaN = allowed (bool_decide (c ∈ l)).
Proof.
  intros Hc. unfold mask_row.
  assert (forall m, length m = Z.to_nat n ->
    nth (Z.to_nat c) (foldl (fun m idx => if (0 <=? idx) && (idx <? n) then <[Z.to_nat idx := f32_zero]> m else m) m l) NaN =
    if bool_decide (c ∈ l) then f32_zero else nth (Z.to_nat c) m NaN) as G.
  { induction l as [|i l IH]; intros m Hm; [done|]. cbn [foldl].
    destruct ((0 <=? i) && (i <? n)) eqn:E.
    - rewrite IH by (by rewrite length_insert). destruct (decide (c = i)) as [->|Hne].
      + rewrite (bool_decide_eq_true_2 (i ∈ i :: l)) by (by left). case_match; [done|].
        by rewrite nth_lookup, list_lookup_insert_eq by lia.
      + rewrite !nth_lookup, list_lookup_insert_ne by lia. rewrite (bool_decide_ext (c ∈ i :: l) (c ∈ l)); [done|].
        rewrite elem_of_cons. naive_solver.
    - rewrite IH by done. rewrite (bool_decide_ext (c ∈ i :: l) (c ∈ l)); [done|]. rewrite elem_of_cons. split; [|by right].
      intros [->|]; [lia|done]. }
  rewrite G by (by rewrite repeat_length). unfold allowed. case_match; [done|].
  rewrite nth_lookup. rewrite (lookup_nth _ _ NaN) by (rewrite repeat_length; lia). cbn.
  assert (Z.to_nat c < Z.to_nat n)%nat as Hlt by lia. revert Hlt. clear. generalize (Z.to_nat c) as j, (Z.to_nat n) as k.
  intros j k. revert j. induction k as [|k IH]; intros [|j] Hj; cbn; [lia|lia|done|apply IH; lia].
Qed.
Lemma elem_window window seqlen i c : 0 <= i < seqlen -> 0 <= c -> 0 <= window ->
  c ∈ window_row window (Z.min window seqlen) i <-> i - window < c <= i.
Proof.
  intros Hi Hc Hw. unfold window_row. rewrite list_elem_of_In, in_map_iff. setoid_rewrite <- list_elem_of_In.
  setoid_rewrite elem_of_seqZ. split.
  - intros (j & Hj & Hr). case_match; lia.
  - intros H. exists (c - Z.max 0 (i + 1 - window)). split; [case_match; lia|]. lia.
Qed.
Lemma elem_compress ratio seqlen offset i c : 0 < ratio -> 0 <= i < seqlen -> 0 <= c -> 0 <= offset ->
  c ∈ compress_row ratio (seqlen / ratio) offset i <-> offset <= c /\ ratio * (c - offset + 1) <= i + 1.
Proof.
  intros Hr Hi Hc Ho. unfold compress_row. rewrite list_elem_of_In, in_map_iff. setoid_rewrite <- list_elem_of_In.
  setoid_rewrite elem_of_seqZ. assert ((i + 1) / ratio <= seqlen / ratio) as Hle by (apply Z.div_le_mono; lia).
  rewrite Z.min_l by done. split.
  - intros (j & Hj & Hr'). case_match; [|lia]. split; [lia|]. assert (j + 1 <= (i + 1) / ratio) as H1 by lia.
    replace (c - offset + 1) with (j + 1) by lia. pose proof (Z.mul_div_le (i + 1) ratio Hr). nia.
  - intros [H1 H2]. exists (c - offset). assert (c - offset + 1 <= (i + 1) / ratio) by (apply Z.div_le_lower_bound; lia).
    split; [case_match; lia|lia].
Qed.
(** who a token attends to. In the mask made from the window table and the
    table of compressed blocks, row [i] leaves open exactly the last [window] tokens
    up to [i] itself and, behind the tokens, the blocks of [ratio] tokens that end
    at [i] or before; everything else is minus infinity. *)
Theorem sparse_mask_exact window ratio seqlen i c :
  0 <= window -> 0 < ratio -> 0 <= i < seqlen -> 0 <= c < seqlen + seqlen / ratio ->
  nth (Z.to_nat c) (mask_row (seqlen + seqlen / ratio)
    (window_row window (Z.min window seqlen) i ++ compress_row ratio (seqlen / ratio) seqlen i)) NaN =
  allowed (if c <? seqlen then (i - window <? c) && (c <=? i) else ratio * (c - seqlen + 1) <=? i + 1).
Proof.
  intros Hw Hr Hi Hc. rewrite mask_row_spec by done. f_equal. apply eq_true_iff_eq. rewrite bool_decide_eq_true, elem_of_app.
  rewrite elem_window, elem_compress by lia. destruct (Z.ltb_spec c seqlen); lia.
Qed.

(** *** A pass that continues an earlier one *)
Section continued.
Context {T Dev R : Type} (chk : bool) `{!Float64 R} `{!Tensor_Ops T Dev R} `{!Typing_Laws T Dev R}.
Definition cached (a : Mla (T:=T) (R:=R)) (n : Z) : Prop := exists c, kv_cache a = Some c /\ dims c !! 1%nat = Some n.
Lemma extended_dim a x rope start_pos n b s qr q kv : cached a n -> start_pos <> 0 ->
  projected chk a x rope start_pos = Ok (b, s, qr, q, kv) -> 0 <= s /\ dims kv !! 1%nat = Some (n + s).
Proof.
  intros (c & Hc & Hn) Hp H. unfold projected in H. bound H z Hd. destruct z as [[b' s'] d'].
  bound H z Hq. destruct z as [qr' q']. bound H kn Hk. bound H kv' He. injection H as -> -> -> -> ->.
  assert (0 <= s) as Hs.
  { unfold get_dims3 in Hd. destruct (dims x) as [|z1 [|z2 [|z3 [|]]]] eqn:Ed; try discriminate Hd. injection Hd as -> -> ->.
    pose proof (dims_nonneg x) as Hnn. rewrite Ed in Hnn. by repeat apply Forall_cons in Hnn as [? Hnn]. }
  split; [done|]. assert (dims kn = [b; s; head_dim a]) as Hkn.
  { unfold project_kv in Hk. do 4 (let t := fresh "t" in let Ht := fresh "Ht" in bound Hk t Ht). by apply reshape_type in Hk as [_ Hk]. }
  unfold extended in He. rewrite Hc, (proj2 (Z.eqb_neq _ _) Hp) in He. apply (cat_dim c kn 1%nat); [exact He|done|by rewrite Hkn].
Qed.
Lemma window_refused a x qr kv rope b s n : dims kv !! 1%nat = Some n -> n <> 1 -> n <> s ->
  forall r, positions_of chk a x qr kv rope b s <> Ok r.
Proof.
  intros Hn H1 Hs r H. unfold positions_of, dim in H. rewrite Hn in H. cbn [ok_or mbind result_bind] in H.
  bound H w Hw. bound H w2 Hu. bound H w3 Hb. clear H. unfold window_topk_idxs in Hw. apply from_vec_i64_dims in Hw.
  apply unsqueeze_front in Hu. rewrite Hw in Hu. apply broadcast_as_fits in Hb; [|by rewrite Hu]. rewrite Hu in Hb.
  apply Forall2_cons in Hb as [_ Hb]. apply Forall2_cons in Hb as [[|] _]; lia.
Qed.
Lemma continued_fails a x rope start_pos n : cached a n -> 2 <= n -> start_pos <> 0 ->
  exists a' e, Mla_forward chk a x rope start_pos = (a', Err e) /\
    (a' = a \/ exists s, 0 <= s /\ cached a' (n + s)).
Proof.
  intros Hc Hn Hp. unfold Mla_forward. destruct (projected chk a x rope start_pos) as [[[[[b s] qr] q] kv]|e] eqn:E;
    [|exists a, e; auto].
  destruct (extended_dim a x rope start_pos n b s qr q kv Hc Hp E) as [Hs Hd].
  unfold mla_attend. destruct (positions_of chk a x qr kv rope b s) as [r|e] eqn:Hpos.
  - exfalso. apply (window_refused a x qr kv rope b s (n + s) Hd) in Hpos; lia.
  - eexists _, e. split; [done|]. right. exists s. split; [done|]. by exists kv.
Qed.
End continued.

Lemma sparse_mask_exact_witness :
  nth 1 (mask_row 6 (window_row 2 2 2 ++ compress_row 2 2 4 2)) NaN = f32_zero /\
  nth 0 (mask_row 6 (window_row 2 2 2 ++ compress_row 2 2 4 2)) NaN = neg_infinity /\
  nth 4 (mask_row 6 (window_row 2 2 2 ++ compress_row 2 2 4 2)) NaN = f32_zero /\
  nth 5 (mask_row 6 (window_row 2 2 2 ++ compress_row 2 2 4 2)) NaN = neg_infinity.
Proof.
  split_and!.
  - apply (sparse_mask_exact 2 2 4 2 1); lia || (split; [discriminate|reflexivity]).
  - apply (sparse_mask_exact 2 2 4 2 0); lia || (split; [discriminate|reflexivity]).
  - apply (sparse_mask_exact 2 2 4 2 4); lia || (split; [discriminate|reflexivity]).
  - apply (sparse_mask_exact 2 2 4 2 5); lia || (split; [discriminate|reflexivity]).
Defined.
