(* ===== verification/DsModel.v ===== *)
(** * The DeepSeek V4 model ([deepseek_v4]: [mhc.rs], [block.rs], [model.rs], [mod.rs], [config.rs])

    Hyper-connections, blocks, the output head, the configuration read from a
    file's metadata, the assembly of a model from the shards of its weights, and
    its passes.  A pass updates the caches in place, as in [DsAttention]. *)
From S2P Require Import Prelude RustStd Wire Json Cursor KvCache Gguf DsWeights DsTensor DsMatrices DsShapes DsMoe DsAttention.

(** ** [config.rs] *)
Record Config {R : Type} : Type := mk_Config {
  vocab_size : Z; cfg_dim : Z; moe_inter_dim : Z; n_layers : Z; n_hash_layers : Z; n_mtp_layers : Z; cfg_n_heads : Z;
  n_routed_experts : Z; n_shared_experts : Z; n_activated_experts : Z; cfg_score_func : string; cfg_route_scale : R;
  cfg_swiglu_limit : R;
  q_lora_rank : Z; cfg_head_dim : Z; cfg_rope_head_dim : Z; o_groups : Z; cfg_o_lora_rank : Z; cfg_window_size : Z; max_seq_len : Z;
  original_seq_len : Z; rope_theta : R; rope_factor : R; beta_fast : R; beta_slow : R; compress_rope_theta : R;
  index_n_heads : Z; index_head_dim : Z; cfg_index_topk : Z;
  hc_mult : Z; hc_sinkhorn_iters : Z; cfg_hc_eps : R; norm_eps : R;
  compress_ratios : list Z;
  cfg_dtype : option string; scale_fmt : option string; expert_dtype : option string;
}.
Arguments Config : clear implicits.

Section config.
Context `{!Gguf} {R : Type} `{!Float64 R} (chk : bool) (of_real : real -> R).
Definition mix_hc (c : Config R) : res Z := a ← usz chk (2 + hc_mult c); usz chk (a * hc_mult c).
Definition missing (key : string) : string := ("missing metadata: " +:+ key)%string.
Definition get_usize (md : gmap string Value) (key : string) : result string Z :=
  v ← ok_or (missing key) (md !! key);
  ok_or ("cannot convert " +:+ key +:+ " to usize")%string (match to_u32 v with Some x => Some x | None => to_u64 v end).
Definition get_f64 (md : gmap string Value) (key : string) : result string R :=
  v ← ok_or (missing key) (md !! key);
  ok_or ("cannot convert " +:+ key +:+ " to f64")%string
    (match to_f32 v with Some x => Some (of_real (Widened x)) | None => (fun x => of_real (Double x)) <$> to_f64 v end).
Definition get_string (md : gmap string Value) (key : string) : option string := v ← md !! key; to_str v.
Definition get_string_req (md : gmap string Value) (key : string) : result string string := ok_or (missing key) (get_string md key).
Definition unwrap_or {A} (d : A) (r : result string A) : A := match r with Ok a => a | Err _ => d end.
Definition key (s : string) : string := ("deepseek_v4." +:+ s)%string.
(** [split(',')] of the text; entries that are no numbers are dropped. *)
Definition ratios_of (text : string) (n_layers : Z) : list Z :=
  if String.eqb text "" then repeat 0 (Z.to_nat n_layers)
  else omap (fun p => to_option (Num.parse_uint 64 (Str.trim p))) (Split.split ","%byte (as_bytes text)).
Definition from_gguf_metadata (md : gmap string Value) : result string (Config R) :=
  let u k d := unwrap_or d (get_usize md (key k)) in
  let f k d := unwrap_or d (get_f64 md (key k)) in
  n_layers ← get_usize md (key "block_count");
  let ratios := ratios_of (default ""%string (get_string md (key "compress_ratios"))) n_layers in
  dim ← get_usize md (key "embedding_length");
  heads ← get_usize md (key "attention.head_count");
  score ← get_string_req md (key "score_func");
  q_lora ← get_usize md (key "q_lora_rank");
  hd ← get_usize md (key "attention.key_length");
  Ok (mk_Config R (u "vocab_size" 0)%string dim (u "feed_forward_length" 0)%string n_layers (u "n_hash_layers" 0)%string 1 heads
    (u "n_routed_experts" 0)%string (u "n_shared_experts" 0)%string (u "n_activated_experts" 0)%string score
    (f "route_scale" (lit 1 0))%string (f "swiglu_limit" (lit 0 0))%string
    q_lora hd (u "rope_head_dim" 0)%string (u "o_groups" 1)%string (u "o_lora_rank" 0)%string (u "window_size" 0)%string
    (u "context_length" 4096)%string
    (u "original_seq_len" 0)%string (f "rope.freq_base" (lit 1 4))%string (f "rope_factor" (lit 1 0))%string
    (f "beta_fast" (lit 32 0))%string (f "beta_slow" (lit 1 0))%string (f "compress_rope_theta" (lit 1 4))%string
    (u "index_n_heads" 0)%string (u "index_head_dim" 0)%string (u "index_topk" 0)%string
    (u "hc_mult" 0)%string (u "hc_sinkhorn_iters" 0)%string (f "hc_eps" (lit 1 (-6)))%string
    (f "attention.layer_norm_rms_epsilon" (lit 1 (-6)))%string
    ratios (get_string md (key "dtype")) (get_string md (key "scale_fmt")) (get_string md (key "expert_dtype"))).
End config.

Section model.
Context {T Dev R : Type} (chk : bool) `{!Float64 R} `{!Tensor_Ops T Dev R}.

(** ** [mhc.rs] *)
Definition sigmoid (x : T) : res T := a ← un Neg x; a ← un Exp a; a ← un (Affine one one) a; un Recip a.
Definition hc_part (mixes hc_base : T) (start len : Z) (s : R) : res T :=
  m ← narrow 1 start len mixes; m ← un (Affine s zero) m; b ← narrow 0 start len hc_base; broadcast Add m b.
Definition divided (i : Z) (eps : R) (comb : T) : res T :=
  c ← reduce_keepdim Sum i comb; c ← un (Affine one eps) c; broadcast Div comb c.
Fixpoint sinkhorn (n : nat) (eps : R) (comb : T) : res T :=
  match n with O => Ok comb | S n => comb ← divided (-1) eps comb; comb ← divided 1 eps comb; sinkhorn n eps comb end.
Definition hc_split_sinkhorn (mixes hc_scale hc_base : T) (hc sinkhorn_iters : Z) (eps : R) : res (T * T * T) :=
  n ← dim mixes 0;
  s ← to_vec1_f32 hc_scale;
  s0 ← panics_if_none (at_ s 0); s1 ← panics_if_none (at_ s 1); s2 ← panics_if_none (at_ s 2);
  pre ← hc_part mixes hc_base 0 hc (of_f32 s0); pre ← sigmoid pre; pre ← un (Affine one eps) pre;
  post ← hc_part mixes hc_base hc hc (of_f32 s1); post ← sigmoid post; post ← un (Affine (lit 2 0) zero) post;
  comb ← hc_part mixes hc_base (2 * hc) (hc * hc) (of_f32 s2); comb ← reshape [n; hc; hc] comb;
  comb ← softmax (-1) comb; comb ← un (Affine one eps) comb;
  comb ← divided 1 eps comb;
  comb ← sinkhorn (Z.to_nat (sinkhorn_iters - 1)) eps comb;
  Ok (pre, post, comb).
Record Hc : Type := mk_Hc { hc_fn : T; hc_base : T; hc_scale : T; hc : Z; sinkhorn_iters : Z; hc_eps : R; hc_norm_eps : R }.
(** The rows of [x] in single precision, and their inverse root mean squares. *)
Definition flat_rms (x : T) (b s hcn d : Z) (eps : R) : res (T * T * T) :=
  x ← to_dtype TF32 x;
  xf ← reshape [b * s; hcn * d] x;
  q ← un Sqr xf; var ← reduce_keepdim Mean 1 q;
  v ← un (Affine one eps) var; rms ← un (Powf (lit (-5) (-1))) v;
  Ok (x, xf, rms).
Definition Hc_pre (h : Hc) (x : T) : res (T * T * T) :=
  '(b, s, hcn, d) ← get_dims4 x;
  '(x, xf, rms) ← flat_rms x b s hcn d (hc_norm_eps h);
  w ← t_t (hc_fn h); m ← matmul xf w; mixes ← broadcast Mul m rms;
  '(pre, post, comb) ← hc_split_sinkhorn mixes (hc_scale h) (hc_base h) (hc h) (sinkhorn_iters h) (hc_eps h);
  pre ← reshape [b; s; hcn; 1] pre;
  y ← broadcast Mul pre x; y ← sum 2 y;
  post ← reshape [b; s; hcn] post;
  comb ← reshape [b; s; hcn; hcn] comb;
  Ok (y, post, comb).
Definition Hc_post (h : Hc) (x residual post comb : T) : res T :=
  '(b, s, d) ← get_dims3 x;
  let n := hc h in
  x ← to_dtype TF32 x;
  residual ← to_dtype TF32 residual;
  p ← reshape [b; s; n; 1] post; x1 ← reshape [b; s; 1; d] x; term1 ← broadcast Mul p x1;
  comb_e ← reshape [b; s; n; n; 1] comb;
  res_e ← reshape [b; s; n; 1; d] residual;
  t ← broadcast Mul comb_e res_e; term2 ← sum 2 t;
  pointwise Add term1 term2.

(** ** [block.rs] *)
Record Block : Type := mk_Block {
  attn : Mla (T:=T) (R:=R); ffn : Moe (T:=T) (R:=R); attn_norm : T; ffn_norm : T; hc_attn : Hc; hc_ffn : Hc; blk_eps : R;
  is_hash_routed : bool;
}.
Definition with_attn (a : Mla) (k : Block) : Block :=
  mk_Block a (ffn k) (attn_norm k) (ffn_norm k) (hc_attn k) (hc_ffn k) (blk_eps k) (is_hash_routed k).
Definition Block_attn_input (k : Block) (x : T) : res (T * T * T) :=
  '(collapsed, post, comb) ← Hc_pre (hc_attn k) x;
  normed ← rms_norm collapsed (Some (attn_norm k)) (blk_eps k);
  Ok (normed, post, comb).
Definition Block_ffn (k : Block) (x : T) : res T :=
  '(collapsed, post, comb) ← Hc_pre (hc_ffn k) x;
  normed ← rms_norm collapsed (Some (ffn_norm k)) (blk_eps k);
  '(b, s, d) ← get_dims3 normed;
  n ← reshape [b * s; d] normed; ff ← Moe_forward (ffn k) n; ff ← reshape [b; s; d] ff;
  Hc_post (hc_ffn k) ff x post comb.
Definition Block_forward (k : Block) (x : T) (rope : Rope) (start_pos : Z) : Block * res T :=
  match Block_attn_input k x with
  | Err e => (k, Err e)
  | Ok (normed, post, comb) =>
      let (a, r) := Mla_forward chk (attn k) normed rope start_pos in
      (with_attn a k, attended ← r; x ← Hc_post (hc_attn k) attended x post comb; Block_ffn k x)
  end.
Definition Block_clear_kv_cache (k : Block) : Block := with_attn (Mla_clear_kv_cache (attn k)) k.

(** ** The output head ([attention.rs]) *)
Record Head : Type := mk_Head {
  h_weight : T; h_norm : T; h_hc_fn : T; h_hc_base : T; h_hc_scale : T; h_hc : Z; h_eps : R; h_hc_eps : R;
}.
Definition collapse (h : Head) (x : T) : res T :=
  '(b, s, hc, d) ← get_dims4 x;
  '(x, xf, rms) ← flat_rms x b s hc d (h_eps h);
  m ← attn_linear xf (h_hc_fn h); mixes ← broadcast Mul m rms;
  sc ← to_vec1_f32 (h_hc_scale h); s0 ← panics_if_none (at_ sc 0);
  p ← un (Affine (of_f32 s0) zero) mixes; pre ← broadcast Add p (h_hc_base h);
  pre ← sigmoid pre; pre ← un (Affine one (h_hc_eps h)) pre;
  p ← reshape [b; s; hc; 1] pre; p ← broadcast Mul p x; sum 2 p.
Definition Head_forward (h : Head) (x : T) : res T :=
  collapsed ← collapse h x;
  normed ← rms_norm collapsed (Some (h_norm h)) (h_eps h);
  '(b, s, d) ← get_dims3 normed;
  l ← usz chk (s - 1);
  last ← narrow 1 l 1 normed; last ← reshape [b; d] last;
  attn_linear last (h_weight h).

(** ** The model ([mod.rs]) *)
Record DeepSeekV4Model : Type := mk_model { embed : T; layers : list Block; head : Head; ropes : list (Rope (T:=T)); m_hc : Z }.
Definition with_layers (ls : list Block) (m : DeepSeekV4Model) : DeepSeekV4Model := mk_model (embed m) ls (head m) (ropes m) (m_hc m).
(** From layer [l] on; [self.ropes[l]]. *)
Fixpoint V4_run_layers (ropes : list (Rope (T:=T))) (start_pos l : Z) (ls : list Block) (h : T) : list Block * res T :=
  match ls with
  | [] => ([], Ok h)
  | k :: ls =>
      match at_ ropes l with
      | None => (k :: ls, Err Panicked)
      | Some rope =>
          let (k, r) := Block_forward k h rope start_pos in
          match r with
          | Err e => (k :: ls, Err e)
          | Ok h => let (ls, r) := V4_run_layers ropes start_pos (l + 1) ls h in (k :: ls, r)
          end
      end
  end.
Definition embedded (m : DeepSeekV4Model) (input_ids : T) : res T :=
  '(b, s) ← get_dims2 input_ids;
  dim ← dim (embed m) 1;
  ids ← flatten_all input_ids; ids ← to_dtype TU32 ids;
  h ← index_select (embed m) ids 0; h ← reshape [b; s; dim] h;
  h ← unsqueeze 2 h; h ← broadcast_as [b; s; m_hc m; dim] h; contiguous h.
Definition V4_forward (m : DeepSeekV4Model) (input_ids : T) (start_pos : Z) : DeepSeekV4Model * res T :=
  match embedded m input_ids with
  | Err e => (m, Err e)
  | Ok h => let (ls, r) := V4_run_layers (ropes m) start_pos 0 (layers m) h in (with_layers ls m, h ← r; Head_forward (head m) h)
  end.
Definition V4_clear_kv_cache (m : DeepSeekV4Model) : DeepSeekV4Model := with_layers (map Block_clear_kv_cache (layers m)) m.
Definition V4_extract_kv_cache (m : DeepSeekV4Model) : res (list (T * T)) :=
  map_result (fun k => Mla_extract_kv_cache (attn k)) (layers m).
Definition V4_restore_kv_cache (m : DeepSeekV4Model) (kvs : list (T * T)) : DeepSeekV4Model * res unit :=
  if negb (zlen kvs =? zlen (layers m)) then
    (m, Err (Failed ("restore_kv_cache: layer count mismatch (expected " +:+ dec (zlen (layers m)) +:+ ", got "
                     +:+ dec (zlen kvs) +:+ ")")%string))
  else (with_layers (zip_with (fun k '(kk, v) => with_attn (Mla_restore_kv_cache (attn k) kk v) k) (layers m) kvs) m, Ok tt).

(** ** Assembly ([model.rs]) *)
Section build.
Context (cfg : Config R) (st : list SafeTensors) (dev : Dev).
Definition st_linear (prefix : string) (rows cols : Z) (fp4 : bool) : res T :=
  multi_linear chk (fun v s => from_vec_f32 v s dev) (to_dtype TBF16) st prefix rows cols fp4.
Definition st_auto (name : string) (shape : list Z) : res T :=
  multi_auto_tensor chk (fun v s => from_vec_f32 v s dev) (to_dtype TBF16) st name shape.
Definition msum (a b : Z) : res Z := usz chk (a * b).
Definition ratio_of (layer : Z) : res Z := panics_if_none (at_ (compress_ratios cfg) layer).
Definition build_rope (layer : Z) : res (Rope (T:=T)) :=
  r ← ratio_of layer;
  let '(original, theta) := if negb (r =? 0) then (original_seq_len cfg, compress_rope_theta cfg) else (0, rope_theta cfg) in
  Rope_new chk (cfg_rope_head_dim cfg) (max_seq_len cfg) original theta (rope_factor cfg) (beta_fast cfg) (beta_slow cfg) dev.
(** [{:?}] of a name: quoted, its special characters left as they are. *)
Definition quoted (s : string) : string := String "034"%char (s +:+ String "034"%char "").
Definition score_func_of (name : string) : res ScoreFunc :=
  if String.eqb name "sqrtsoftplus" then Ok SqrtSoftplus
  else if String.eqb name "softmax" then Ok Softmax
  else if String.eqb name "sigmoid" then Ok Sigmoid
  else Err (Failed ("unknown score_func " +:+ quoted name)%string).
Definition build_compressor (prefix : string) (ratio head_dim : Z) : res (Compressor (T:=T) (R:=R)) :=
  let coff := if ratio =? 4 then 2 else 1 in
  n ← msum coff head_dim;
  wkv ← st_linear (prefix +:+ ".wkv")%string n (cfg_dim cfg) false;
  wgate ← st_linear (prefix +:+ ".wgate")%string n (cfg_dim cfg) false;
  ape ← st_auto (prefix +:+ ".ape")%string [ratio; n];
  norm ← st_auto (prefix +:+ ".norm.weight")%string [head_dim];
  Ok (mk_Compressor wkv wgate ape norm ratio head_dim (cfg_rope_head_dim cfg) (norm_eps cfg)).
Definition inv_sqrt (n : Z) : R := powf (of_usize n) (lit (-5) (-1)).
Definition build_indexer (p : string) : res (Indexer (T:=T) (R:=R)) :=
  let ih := index_n_heads cfg in let ihd := index_head_dim cfg in
  n ← msum ih ihd;
  wq_b ← st_linear (p +:+ ".indexer.wq_b")%string n (q_lora_rank cfg) false;
  wp ← st_linear (p +:+ ".indexer.weights_proj")%string ih (cfg_dim cfg) false;
  c ← build_compressor (p +:+ ".indexer.compressor")%string 4 ihd;
  Ok (mk_Indexer wq_b wp c ih ihd (cfg_rope_head_dim cfg) (cfg_index_topk cfg) 4 (inv_sqrt ihd)).
Definition build_mla (layer : Z) : res (Mla (T:=T) (R:=R)) :=
  let p := ("layers." +:+ dec layer +:+ ".attn")%string in
  ratio ← ratio_of layer;
  wq_a ← st_linear (p +:+ ".wq_a")%string (q_lora_rank cfg) (cfg_dim cfg) false;
  q_norm ← st_auto (p +:+ ".q_norm.weight")%string [q_lora_rank cfg];
  nh ← msum (cfg_n_heads cfg) (cfg_head_dim cfg);
  wq_b ← st_linear (p +:+ ".wq_b")%string nh (q_lora_rank cfg) false;
  wkv ← st_linear (p +:+ ".wkv")%string (cfg_head_dim cfg) (cfg_dim cfg) false;
  kv_norm ← st_auto (p +:+ ".kv_norm.weight")%string [cfg_head_dim cfg];
  go ← msum (o_groups cfg) (cfg_o_lora_rank cfg);
  if o_groups cfg =? 0 then Err Panicked else
  wo_a ← st_linear (p +:+ ".wo_a")%string go (nh / o_groups cfg) false;
  wo_b ← st_linear (p +:+ ".wo_b")%string (cfg_dim cfg) go false;
  sink ← st_auto (p +:+ ".attn_sink")%string [cfg_n_heads cfg];
  comp ← (if 0 <? ratio then c ← build_compressor (p +:+ ".compressor")%string ratio (cfg_head_dim cfg); Ok (Some c) else Ok None);
  idx ← (if ratio =? 4 then i ← build_indexer p; Ok (Some i) else Ok None);
  Ok (mk_Mla wq_a q_norm wq_b wkv kv_norm wo_a wo_b sink (cfg_n_heads cfg) (cfg_head_dim cfg) (cfg_rope_head_dim cfg)
    (o_groups cfg) (cfg_o_lora_rank cfg) (cfg_window_size cfg) ratio comp idx (norm_eps cfg) (inv_sqrt (cfg_head_dim cfg)) None).
Definition build_expert (prefix : string) (fp4 : bool) : res (Expert (T:=T) (R:=R)) :=
  w1 ← st_linear (prefix +:+ ".w1")%string (moe_inter_dim cfg) (cfg_dim cfg) fp4;
  w2 ← st_linear (prefix +:+ ".w2")%string (cfg_dim cfg) (moe_inter_dim cfg) fp4;
  w3 ← st_linear (prefix +:+ ".w3")%string (moe_inter_dim cfg) (cfg_dim cfg) fp4;
  Ok (mk_Expert w1 w2 w3 (cfg_swiglu_limit cfg)).
Definition build_moe (layer : Z) : res (Moe (T:=T) (R:=R)) :=
  let p := ("layers." +:+ dec layer +:+ ".ffn")%string in
  experts ← map_result (fun j => build_expert (p +:+ ".experts." +:+ dec j)%string true) (seqZ 0 (n_routed_experts cfg));
  shared ← build_expert (p +:+ ".shared_experts")%string false;
  weight ← st_linear (p +:+ ".gate")%string (n_routed_experts cfg) (cfg_dim cfg) false;
  bias ← st_auto (p +:+ ".gate.bias")%string [n_routed_experts cfg];
  f ← score_func_of (cfg_score_func cfg);
  Ok (mk_Moe (mk_Gate weight (Some bias) (n_activated_experts cfg) (cfg_route_scale cfg) f None) experts shared).
Definition build_hc (prefix : string) : res Hc :=
  mix ← mix_hc chk cfg;
  cols ← msum (hc_mult cfg) (cfg_dim cfg);
  fn ← st_auto (prefix +:+ "_fn")%string [mix; cols];
  base ← st_auto (prefix +:+ "_base")%string [mix];
  scale ← st_auto (prefix +:+ "_scale")%string [3];
  Ok (mk_Hc fn base scale (hc_mult cfg) (hc_sinkhorn_iters cfg) (cfg_hc_eps cfg) (norm_eps cfg)).
Definition build_block (layer : Z) : res Block :=
  let p := ("layers." +:+ dec layer)%string in
  a ← build_mla layer;
  f ← build_moe layer;
  an ← st_auto (p +:+ ".attn_norm.weight")%string [cfg_dim cfg];
  fn ← st_auto (p +:+ ".ffn_norm.weight")%string [cfg_dim cfg];
  ha ← build_hc (p +:+ ".hc_attn")%string;
  hf ← build_hc (p +:+ ".hc_ffn")%string;
  Ok (mk_Block a f an fn ha hf (norm_eps cfg) false).
Definition build_head : res Head :=
  w ← st_linear "head" (vocab_size cfg) (cfg_dim cfg) false;
  norm ← st_auto "norm.weight" [cfg_dim cfg];
  cols ← msum (hc_mult cfg) (cfg_dim cfg);
  fn ← st_auto "hc_head_fn" [hc_mult cfg; cols];
  base ← st_auto "hc_head_base" [hc_mult cfg];
  scale ← st_auto "hc_head_scale" [1];
  Ok (mk_Head w norm fn base scale (hc_mult cfg) (norm_eps cfg) (cfg_hc_eps cfg)).
Definition from_config : res DeepSeekV4Model :=
  if 0 <? n_hash_layers cfg
  then Err (Failed ("from_config: hash-routing layers (n_hash_layers=" +:+ dec (n_hash_layers cfg) +:+ ") not yet supported")%string) else
  embed ← st_auto "embed.weight" [vocab_size cfg; cfg_dim cfg];
  ls ← map_result build_block (seqZ 0 (n_layers cfg));
  head ← build_head;
  ropes ← map_result build_rope (seqZ 0 (n_layers cfg));
  Ok (mk_model embed ls head ropes (hc_mult cfg)).
End build.
Definition from_pgguf (from_slice : bytes -> result string json) (cfg : Config R) (shard_bytes : list bytes) (dev : Dev)
    : res DeepSeekV4Model :=
  st ← from_shards chk from_slice shard_bytes; from_config cfg st dev.
End model.

(** ** Lemmas *)
Section theorems.
Context {T Dev R : Type} (chk : bool) `{!Float64 R} `{!Tensor_Ops T Dev R} `{!Typing_Laws T Dev R}.
(** Weights are converted when they are loaded. *)
Lemma plain_tensor_bf16 (dev : Dev) what size value st name shape t :
  plain_tensor chk (fun v s => from_vec_f32 v s dev) (to_dtype TBF16) what size value st name shape = Ok t -> dtype_of t = TBF16.
Proof.
  unfold plain_tensor. intros H. bound H b Hb. bound H n Hn. bound H w Hw. case_match; [discriminate|].
  unfold built in H. bound H v Hv. by apply to_dtype_type in H as [H _].
Qed.
Lemma st_auto_bf16 st (dev : Dev) name shape t : st_auto chk st dev name shape = Ok t -> dtype_of t = TBF16.
Proof.
  unfold st_auto, multi_auto_tensor. intros H. bound H s Hs. unfold auto_tensor in H. bound H i Hi.
  repeat (case_match; [by eapply plain_tensor_bf16|]). discriminate.
Qed.
Lemma flat_rms_f32 (x : T) b s hcn d (eps : R) x' xf rms : flat_rms x b s hcn d eps = Ok (x', xf, rms) -> dtype_of xf = TF32.
Proof.
  unfold flat_rms. intros H. bound H x1 H1. bound H x2 H2. do 4 (let t := fresh "t" in let Ht := fresh "Ht" in bound H t Ht).
  injection H as <- <- <-. apply to_dtype_type in H1 as [<- _]. by apply reshape_type in H2 as [-> _].
Qed.
Lemma Hc_pre_bf16 (h : Hc (T:=T) (R:=R)) x r : dtype_of (hc_fn h) = TBF16 -> Hc_pre h x <> Ok r.
Proof.
  intros Hb H. unfold Hc_pre in H. bound H z Hz. destruct z as [[[b s] hcn] d]. bound H z Hf. destruct z as [[x' xf] rms].
  apply flat_rms_f32 in Hf. bound H w Hw. bound H m Hm. apply t_type in Hw. apply matmul_type in Hm. congruence.
Qed.
Lemma collapse_bf16 (h : Head (T:=T) (R:=R)) x r : dtype_of (h_hc_fn h) = TBF16 -> collapse h x <> Ok r.
Proof.
  intros Hb H. unfold collapse in H. bound H z Hz. destruct z as [[[b s] hcn] d]. bound H z Hf. destruct z as [[x' xf] rms].
  apply flat_rms_f32 in Hf. bound H m Hm. clear H. unfold attn_linear in Hm. destruct (last (dims xf)); [|discriminate].
  bound Hm o Ho. bound Hm x1 Hx. bound Hm wa Hw1. bound Hm wb Hw2. bound Hm y Hy.
  apply reshape_type in Hx as [Hx _]. apply t_type in Hw1. apply contiguous_type in Hw2 as [Hw2 _]. apply matmul_type in Hy. congruence.
Qed.
(** What a model that was built starts with. *)
Lemma from_config_bf16 cfg st (dev : Dev) (m : DeepSeekV4Model (T:=T) (R:=R)) : from_config chk cfg st dev = Ok m ->
  dtype_of (h_hc_fn (head m)) = TBF16 /\ (forall k ls, layers m = k :: ls -> dtype_of (hc_fn (hc_attn k)) = TBF16).
Proof.
  unfold from_config. intros H. case_match; [discriminate|]. bound H v_e He. bound H v_ls Hls. bound H v_hd Hhd. bound H v_rs Hrs.
  injection H as <-. cbn [head layers]. split.
  - unfold build_head in Hhd. bound Hhd v_w Hw. bound Hhd v_n Hn. bound Hhd v_c Hco. bound Hhd v_fn Hfn. bound Hhd v_b Hb. bound Hhd v_sc Hsc.
    injection Hhd as <-. by eapply st_auto_bf16.
  - intros k ls' ->. destruct (seqZ 0 (n_layers cfg)) as [|l ns]; [discriminate|]. cbn in Hls. bound Hls k' Hk.
    bound Hls v_ks Hks. injection Hls as -> ->. unfold build_block in Hk.
    bound Hk v_a Ha. bound Hk v_f Hf. bound Hk v_an Han. bound Hk v_fn Hfn. bound Hk v_ha Hha. bound Hk v_hf Hhf. injection Hk as <-.
    cbn [hc_attn]. unfold build_hc in Hha. bound Hha v_mix Hmix. bound Hha v_cols Hcols. bound Hha v_g Hg. bound Hha v_bs Hbs. bound Hha v_sc Hsc.
    injection Hha as <-. by eapply st_auto_bf16.
Qed.
Lemma with_layers_same (m : DeepSeekV4Model (T:=T) (R:=R)) : with_layers (layers m) m = m.
Proof. by destruct m. Qed.

(** a model loaded from a file answers nothing. Its weights are all converted to
    16-bit floats, the hidden states to 32-bit ones, and candle multiplies matrices
    of one type only: the first product of every pass fails, whatever the model, the
    tokens and the position, and leaves the model as it was. *)
Theorem loaded_v4_refuses from_slice cfg shards (dev : Dev) (m : DeepSeekV4Model (T:=T) (R:=R)) :
  from_pgguf chk from_slice cfg shards dev = Ok m ->
  forall input_ids start_pos, exists e, V4_forward chk m input_ids start_pos = (m, Err e).
Proof.
  unfold from_pgguf. intros H ids pos. bound H st Hst. apply from_config_bf16 in H as [Hh Hl]. unfold V4_forward.
  destruct (embedded m ids) as [h|e]; [|by exists e]. destruct (layers m) as [|k ls] eqn:El.
  - cbn [V4_run_layers]. rewrite <- El, with_layers_same. cbn [mbind result_bind]. unfold Head_forward.
    destruct (collapse (head m) h) as [c|e] eqn:Ec; [by apply collapse_bf16 in Ec|]. by exists e.
  - cbn [V4_run_layers]. destruct (at_ (ropes m) 0) as [rope|]; [|exists Panicked; by rewrite <- El, with_layers_same].
    unfold Block_forward, Block_attn_input.
    destruct (Hc_pre (hc_attn k) h) as [c|e] eqn:Ec; [by apply Hc_pre_bf16 in Ec; [|by eapply Hl]|].
    cbn [mbind result_bind]. exists e. by rewrite <- El, with_layers_same.
Qed.

(** C22: no pass goes on where an earlier one ended, whatever the types of the
    weights. The window table of the first layer has a row for every token so far
    and is broadcast to the tokens of the pass: it does not fit, and the pass fails,
    after the layer's cache has taken the tokens in. *)
Theorem no_pass_continues (m : DeepSeekV4Model (T:=T) (R:=R)) k ls n input_ids start_pos :
  layers m = k :: ls -> cached (attn k) n -> 2 <= n -> start_pos <> 0 ->
  exists k' e, V4_forward chk m input_ids start_pos = (with_layers (k' :: ls) m, Err e) /\
    (k' = k \/ exists s, 0 <= s /\ cached (attn k') (n + s)).
Proof.
  intros El Hc Hn Hp. assert (with_layers (k :: ls) m = m) as Hm by (rewrite <- El; apply with_layers_same).
  unfold V4_forward. destruct (embedded m input_ids) as [h|e]; [|exists k, e; rewrite Hm; auto].
  rewrite El. cbn [V4_run_layers]. destruct (at_ (ropes m) 0) as [rope|]; [|exists k, Panicked; rewrite Hm; auto].
  unfold Block_forward. destruct (Block_attn_input k h) as [[[normed post] comb]|e]; [|exists k, e; rewrite Hm; auto].
  destruct (continued_fails chk (attn k) normed rope start_pos n Hc Hn Hp) as (a' & e & -> & Ha). cbn [mbind result_bind].
  exists (with_attn a' k), e. split; [done|]. destruct Ha as [->|Ha]; [left; by destruct k|by right].
Qed.
End theorems.

(** ** Witnesses *)
(** A model of one block and size one, on [DsShapes], from a shard of which every
    tensor is the same few bytes. *)
Module Example_V4.
Definition r1 : f32 := f32_one.
Definition cfg : Config f32 :=
  mk_Config f32 1 1 1 1 0 1 1 0 0 0 "softmax" r1 (Fin false 0 0) 1 1 0 1 1 4 8 0 r1 r1 r1 r1 r1 0 0 0 1 2 r1 r1 [0] None None None.
Definition v4_entry (p : string * Z) : string * json :=
  (p.1, JObj [("dtype"%string, JStr "BF16"); ("shape"%string, JArr []); ("data_offsets"%string, JArr [JNum 0; JNum (2 * p.2)])]).
Definition v4_block_names : list (string * Z) :=
  map (fun n => ("layers.0." +:+ n, 1)%string)
    ["attn.wq_a.weight"; "attn.q_norm.weight"; "attn.wq_b.weight"; "attn.wkv.weight"; "attn.kv_norm.weight"; "attn.wo_a.weight";
     "attn.wo_b.weight"; "attn.attn_sink"; "ffn.shared_experts.w1.weight"; "ffn.shared_experts.w2.weight";
     "ffn.shared_experts.w3.weight"; "attn_norm.weight"; "ffn_norm.weight"]%string
  ++ [("layers.0.ffn.gate.weight"%string, 0); ("layers.0.ffn.gate.bias"%string, 0)]
  ++ map (fun n => ("layers.0.hc_" +:+ n, 3)%string) ["attn_fn"; "attn_base"; "attn_scale"; "ffn_fn"; "ffn_base"; "ffn_scale"]%string.
Definition names : list (string * Z) :=
  v4_block_names ++ map (fun n => (n, 1)) ["embed.weight"; "head.weight"; "norm.weight"; "hc_head_fn"; "hc_head_base"; "hc_head_scale"]%string.
Definition from_slice (_ : bytes) : result string json := Ok (JObj (map v4_entry names)).
Definition shard : bytes := repeat x00 14.
(** The same model with weights of 32-bit floats, and two tokens. *)
Definition f (l : list nat) : shaped := mk_shaped TF32 l.
Definition mla : Mla :=
  mk_Mla (f [1; 1]%nat) (f [1]%nat) (f [1; 1]%nat) (f [1; 1]%nat) (f [1]%nat) (f [1; 1]%nat) (f [1; 1]%nat) (f [1]%nat)
    1 1 0 1 1 4 0 None None r1 r1 None.
Definition ex : Expert := mk_Expert (f [1; 1]%nat) (f [1; 1]%nat) (f [1; 1]%nat) (Fin false 0 0).
Definition moe : Moe := mk_Moe (mk_Gate (f [0; 1]%nat) (Some (f [0]%nat)) 0 r1 Softmax None) [] ex.
Definition hyper : Hc := mk_Hc (f [3; 1]%nat) (f [3]%nat) (f [3]%nat) 1 2 r1 r1.
Definition block : Block := mk_Block mla moe (f [1]%nat) (f [1]%nat) hyper hyper r1 false.
Definition model : DeepSeekV4Model :=
  mk_model (f [1; 1]%nat) [block]
    (mk_Head (f [1; 1]%nat) (f [1]%nat) (f [1; 1]%nat) (f [1]%nat) (f [1]%nat) 1 r1 r1)
    [mk_Rope (f [8; 0]%nat) (f [8; 0]%nat)] 1.
Definition ids (n : nat) : shaped := mk_shaped TU32 [1%nat; n].
Definition after : DeepSeekV4Model := (V4_forward true model (ids 2) 0).1.
End Example_V4.
Import Example_V4.
Lemma loaded_v4_refuses_witness :
  exists m, from_pgguf true from_slice cfg [shard] tt = Ok m /\
    exists e, V4_forward true m (ids 2) 0 = (m, Err e).
Proof.
  destruct (from_pgguf true from_slice cfg [shard] tt) as [m|e] eqn:E; [|vm_compute in E; discriminate E].
  exists m. split; [reflexivity|]. exact (loaded_v4_refuses true from_slice cfg [shard] tt m E (ids 2) 0).
Defined.
(** The first pass answers; the next one fails and leaves a third token behind. *)
Lemma no_pass_continues_witness :
  (V4_forward true model (ids 2) 0).2 = Ok (f [1%nat; 1%nat]) /\
  (exists k' e, V4_forward true after (ids 1) 2 = (with_layers [k'] after, Err e) /\
     cached (attn k') 3).
Proof.
  split; [vm_compute; reflexivity|].
  destruct (layers after) as [|k ls] eqn:El; [vm_compute in El; discriminate El|].
  assert (cached (attn k) 2) as Hc.
  { vm_compute in El. injection El as Hk _. subst k. exists (f [1; 2; 1]%nat). split; [vm_compute; reflexivity|vm_compute; reflexivity]. }
  destruct (no_pass_continues true after k ls 2 (ids 1) 2 El Hc) as (k' & e & Hf & _); [vm_compute; discriminate|discriminate|].
  vm_compute in El. injection El as Hk Hls. subst k ls. exists k', e. split; [exact Hf|].
  assert (layers (with_layers [k'] after) = layers (V4_forward true after (ids 1) 2).1) as H1 by (rewrite Hf; reflexivity).
  vm_compute in H1. injection H1 as H1. subst k'. exists (f [1; 3; 1]%nat). split; [vm_compute; reflexivity|vm_compute; reflexivity].
Defined.
