(* ===== verification/DeepSeekV3.v ===== *)
(** * DeepSeek V3 ([GGUF_Models/deepseek_v3.rs] and its branches of [AnyModel])

    Latent attention with its cache, the mixture of shared and routed experts,
    layers and their assembly from the tensors of a file, the configuration from
    metadata, and the model, which is a [Model_Of] with these layers: its pass is the
    code of [Forward] of [Qwen3].  The file is behind a feature that is off.

    Its constructors that read from a [GGUF_Reader] are not here: that type, like
    [Mlp_Weights::New_Dense] (an argument below), is not in the repository. *)
From S2P Require Import Prelude RustStd Cursor KvCache Gguf Qwen3.

(** candle's operations that [Nn] does not have; [Linear] is [candle_nn]'s. *)
Class Nn_V3 (T QTensor Linear : Type) : Type := {
  cat : list T -> Z -> result string T;
  t_repeat : T -> list Z -> result string T;
  permute : T -> list Z -> result string T;
  scale_by : T -> real -> result string T;
  linear_new : T -> Linear;
  linear_forward : Linear -> T -> result string T;
}.

Section v3.
Context {T Dev QTensor QMatMul RmsNorm Embedding Cache Linear : Type}.
Context `{!Gguf} `{!Nn T Dev QTensor QMatMul RmsNorm Embedding Cache} `{!Nn_V3 T QTensor Linear}.
Notation tensors_t := (gmap string QTensor).
Notation Mlp_Weights := (Mlp_Weights (QMatMul:=QMatMul)).

(** ** The cache *)
Record MLA_KV_Cache : Type := mk_MLA_KV_Cache { k : option T; v : option T }.
Definition MLA_New : MLA_KV_Cache := mk_MLA_KV_Cache None None.
(** [self.k.take()]: an error leaves that half empty. *)
Definition append_half (old : option T) (t : T) : option T * result string unit :=
  match old with
  | None => (Some t, Ok tt)
  | Some old => match cat [old; t] 2 with Ok t => (Some t, Ok tt) | Err e => (None, Err e) end
  end.
Definition MLA_Append (c : MLA_KV_Cache) (k' v' : T) : MLA_KV_Cache * result string unit :=
  let (nk, r) := append_half (k c) k' in
  match r with
  | Err e => (mk_MLA_KV_Cache nk (v c), Err e)
  | Ok _ => let (nv, r) := append_half (v c) v' in (mk_MLA_KV_Cache nk nv, r)
  end.
Definition MLA_Reset (c : MLA_KV_Cache) : MLA_KV_Cache := mk_MLA_KV_Cache None None.

(** ** Latent attention *)
Record MLA_Weights : Type := mk_MLA {
  q_a : QMatMul; q_norm : RmsNorm; q_b : QMatMul; kv_a : QMatMul; kv_norm : RmsNorm; k_b : Linear; v_b : Linear; o_proj : QMatMul;
  n_heads : Z; q_lora_rank : Z; kv_lora_rank : Z; qk_rope_dim : Z; qk_nope_dim : Z; v_head_dim : Z; q_head_dim : Z;
  rotary : Rotary_Embedding (T:=T); kv_cache : MLA_KV_Cache;
}.
Definition with_mla_cache (c : MLA_KV_Cache) (a : MLA_Weights) : MLA_Weights :=
  mk_MLA (q_a a) (q_norm a) (q_b a) (kv_a a) (kv_norm a) (k_b a) (v_b a) (o_proj a) (n_heads a) (q_lora_rank a) (kv_lora_rank a)
    (qk_rope_dim a) (qk_nope_dim a) (v_head_dim a) (q_head_dim a) (rotary a) c.
Definition mla_heads (t : T) (b l heads d : Z) : result string T := t ← reshape t [b; l; heads; d]; transpose t 1 2.
Definition mla_queries (a : MLA_Weights) (x : T) (b l : Z) : result string (T * T) :=
  q ← qmatmul_forward (q_a a) x;
  q ← rmsnorm_forward (q_norm a) q;
  q ← qmatmul_forward (q_b a) q;
  q ← mla_heads q b l (n_heads a) (q_head_dim a);
  q_nope ← narrow q 3 0 (qk_nope_dim a); q_nope ← contiguous q_nope;
  q_pe ← narrow q 3 (qk_nope_dim a) (qk_rope_dim a); q_pe ← contiguous q_pe;
  Ok (q_nope, q_pe).
Definition mla_keys_values (a : MLA_Weights) (x : T) (b l : Z) : result string (T * T * T) :=
  compressed_kv ← qmatmul_forward (kv_a a) x;
  kv_latent ← narrow compressed_kv 2 0 (kv_lora_rank a); kv_latent ← contiguous kv_latent;
  k_pe_raw ← narrow compressed_kv 2 (kv_lora_rank a) (qk_rope_dim a); k_pe_raw ← contiguous k_pe_raw;
  k_pe ← mla_heads k_pe_raw b l 1 (qk_rope_dim a);
  ckv ← rmsnorm_forward (kv_norm a) kv_latent;
  k_nope ← linear_forward (k_b a) ckv;
  k_nope ← mla_heads k_nope b l (n_heads a) (qk_nope_dim a); k_nope ← contiguous k_nope;
  v ← linear_forward (v_b a) ckv;
  v ← mla_heads v b l (n_heads a) (v_head_dim a); v ← contiguous v;
  Ok (k_nope, k_pe, v).
(** Queries, keys and values of the new tokens. *)
Definition mla_project (a : MLA_Weights) (x : T) (offset : Z) : result string (Z * Z * T * T * T) :=
  '(b, l, _) ← dims3 x;
  '(q_nope, q_pe) ← mla_queries a x b l;
  '(k_nope, k_pe, v) ← mla_keys_values a x b l;
  '(q_pe_roped, k_pe_roped) ← Rotary_Apply (rotary a) q_pe k_pe offset;
  k_pe_broadcast ← t_repeat k_pe_roped [1; n_heads a; 1; 1];
  k ← cat [k_nope; k_pe_broadcast] 3;
  q ← cat [q_nope; q_pe_roped] 3;
  Ok (b, l, q, k, v).
Definition mla_extend (c : MLA_KV_Cache) (k' v' : T) : result string (T * T) :=
  match k c, v c with
  | Some prev_k, Some prev_v => nk ← cat [prev_k; k'] 2; nv ← cat [prev_v; v'] 2; Ok (nk, nv)
  | _, _ => Ok (k', v')
  end.
Definition v3_attend (a : MLA_Weights) (attn_mask : option T) (b l : Z) (q k v : T) : result string T :=
  kt ← transpose k 2 3;
  s ← matmul q kt;
  scores ← mul_inv_sqrt s (q_head_dim a);
  scores ← masked scores attn_mask;
  probs ← softmax_last_dim scores;
  ctx ← matmul probs v;
  ctx ← transpose ctx 1 2;
  reshaped ← reshape ctx [b; l; n_heads a * v_head_dim a];
  qmatmul_forward (o_proj a) reshaped.
Definition MLA_Forward (a : MLA_Weights) (x : T) (attn_mask : option T) (offset : Z) : MLA_Weights * result string T :=
  match ('(b, l, q, k, v) ← mla_project a x offset; '(k, v) ← mla_extend (kv_cache a) k v; Ok (b, l, q, k, v)) with
  | Err e => (a, Err e)
  | Ok (b, l, q, k, v) => (with_mla_cache (mk_MLA_KV_Cache (Some k) (Some v)) a, v3_attend a attn_mask b l q k v)
  end.
Definition MLA_Clear (a : MLA_Weights) : MLA_Weights := with_mla_cache (MLA_Reset (kv_cache a)) a.

(** ** Experts *)
Record DeepSeekMoE_Weights : Type := mk_DeepSeekMoE {
  shared_gate : QMatMul; shared_up : QMatMul; shared_down : QMatMul; routed : FusedMoeGGUF T QTensor; routed_scaling_factor : real;
}.
Definition DeepSeekMoE_Forward (m : DeepSeekMoE_Weights) (x : T) : result string T :=
  g ← qmatmul_forward (shared_gate m) x; gate ← silu g;
  up ← qmatmul_forward (shared_up m) x;
  p ← t_mul gate up; shared_out ← qmatmul_forward (shared_down m) p;
  routed_out ← moe_forward (routed m) x false;
  r ← scale_by routed_out (routed_scaling_factor m);
  t_add shared_out r.
Inductive DeepSeekFFN : Type := Dense (m : Mlp_Weights) | V3MoE (m : DeepSeekMoE_Weights).
Definition FFN_Forward (f : DeepSeekFFN) (x : T) : result string T :=
  match f with Dense m => Mlp_forward m x | V3MoE m => DeepSeekMoE_Forward m x end.

(** ** Layers *)
Record DeepSeek_Layer : Type := mk_DeepSeek_Layer { mla : MLA_Weights; ffn : DeepSeekFFN; v3_ln1 : RmsNorm; v3_ln2 : RmsNorm }.
Definition with_mla (a : MLA_Weights) (y : DeepSeek_Layer) : DeepSeek_Layer := mk_DeepSeek_Layer a (ffn y) (v3_ln1 y) (v3_ln2 y).
Definition V3_Layer_Forward (y : DeepSeek_Layer) (x : T) (mask : option T) (offset : Z) (_ : bool)
    : DeepSeek_Layer * result string T :=
  match rmsnorm_forward (v3_ln1 y) x with
  | Err e => (y, Err e)
  | Ok h =>
      let (a, r) := MLA_Forward (mla y) h mask offset in
      (with_mla a y, h ← r; x ← t_add x h; h2 ← rmsnorm_forward (v3_ln2 y) x; h2 ← FFN_Forward (ffn y) h2; t_add x h2)
  end.
Definition V3_Layer_Clear (y : DeepSeek_Layer) : DeepSeek_Layer := with_mla (MLA_Clear (mla y)) y.

(** *** From the tensors of a file *)
Definition debug_quoted (s : string) : string := String "034"%char (s +:+ String "034"%char "").
(** [{:?}] of the sorted names. *)
Definition debug_names (ts : tensors_t) : string :=
  ("[" +:+ String.concat ", " (map debug_quoted (Sort.sort (map_to_list ts).*1)) +:+ "]")%string.
Definition take_listed (key : string) (ts : tensors_t) : result string (QTensor * tensors_t) :=
  match ts !! key with
  | Some qt => Ok (qt, delete key ts)
  | None => Err ("missing tensor: " +:+ key +:+ ". Available tensors for this layer: " +:+ debug_names ts)%string
  end.
Definition V3_Take_Qmatmul (ts : tensors_t) (key : string) : result string (QMatMul * tensors_t) :=
  '(qt, ts) ← take_listed key ts; w ← qmatmul_from_weights qt; Ok (w, ts).
Definition V3_Take_Rmsnorm (eps : real) (ts : tensors_t) (key : string) : result string (RmsNorm * tensors_t) :=
  '(qt, ts) ← take_listed key ts; n ← rmsnorm_from_qtensor qt eps; Ok (n, ts).
Definition load_3d_linear (ts : tensors_t) (key : string) (dev : Dev) (out_dim : Z) (perm : option (list Z))
    : result (fault string) (Linear * tensors_t) :=
  '(qt, ts) ← lift (take_tensor "missing: " key ts);
  deq ← lift (dequantize qt dev);
  let total := product (dims deq) in
  deq ← lift (match perm with
              | Some p => if (length (dims deq) =? 3)%nat then permute deq p else Ok deq
              | None => Ok deq
              end : result string T);
  if out_dim =? 0 then Err Panicked else
  weight ← lift (reshape deq [out_dim; total / out_dim]);
  Ok (linear_new weight, ts).
(** A [usize] result, [chk] being whether overflow is checked. *)
Definition usize_of (chk : bool) (n : Z) : result (fault string) Z :=
  if (0 <=? n) && (n <? 2 ^ 64) then Ok n else if chk then Err Panicked else Ok (wrap 64 n).
Definition MLA_From_Extracted (chk : bool) (ts : tensors_t) (heads q_lora kv_lora rope_dim nope_dim vdim : Z) (eps : real)
    (rot : Rotary_Embedding) (dev : Dev) (prefix : string) : result (fault string) (MLA_Weights * tensors_t) :=
  '(qa, ts) ← lift (V3_Take_Qmatmul ts (prefix +:+ ".attn_q_a.weight")%string);
  '(qn, ts) ← lift (V3_Take_Rmsnorm eps ts (prefix +:+ ".attn_q_a_norm.weight")%string);
  '(qb, ts) ← lift (V3_Take_Qmatmul ts (prefix +:+ ".attn_q_b.weight")%string);
  '(kva, ts) ← lift (V3_Take_Qmatmul ts (prefix +:+ ".attn_kv_a_mqa.weight")%string);
  '(kvn, ts) ← lift (V3_Take_Rmsnorm eps ts (prefix +:+ ".attn_kv_a_norm.weight")%string);
  k_out ← usize_of chk (heads * nope_dim);
  '(kb, ts) ← load_3d_linear ts (prefix +:+ ".attn_k_b.weight")%string dev k_out (Some [0; 2; 1]);
  v_out ← usize_of chk (heads * vdim);
  '(vb, ts) ← load_3d_linear ts (prefix +:+ ".attn_v_b.weight")%string dev v_out None;
  '(o, ts) ← lift (V3_Take_Qmatmul ts (prefix +:+ ".attn_output.weight")%string);
  q_dim ← usize_of chk (nope_dim + rope_dim);
  Ok (mk_MLA qa qn qb kva kvn kb vb o heads q_lora kv_lora rope_dim nope_dim vdim q_dim rot MLA_New, ts).
Definition moe_weights (ts : tensors_t) (key : string) : result string (QMatMul * tensors_t) :=
  '(qt, ts) ← take_tensor "missing: " key ts; w ← qmatmul_from_weights qt; Ok (w, ts).
Definition DeepSeekMoE_From_Extracted (ts : tensors_t) (top_k : Z) (factor : real) (dt : dtype_tag) (dev : Dev) (prefix : string)
    : result string (DeepSeekMoE_Weights * tensors_t) :=
  '(sg, ts) ← moe_weights ts (prefix +:+ ".ffn_gate_shexp.weight")%string;
  '(su, ts) ← moe_weights ts (prefix +:+ ".ffn_up_shexp.weight")%string;
  '(sd, ts) ← moe_weights ts (prefix +:+ ".ffn_down_shexp.weight")%string;
  '(gate_qt, ts) ← take_tensor "missing: " (prefix +:+ ".ffn_gate_inp.weight")%string ts;
  w ← dequantize gate_qt dev; gate ← to_dtype w DtF32;
  '(gx, ts) ← take_tensor "missing: " (prefix +:+ ".ffn_gate_exps.weight")%string ts;
  '(ux, ts) ← take_tensor "missing: " (prefix +:+ ".ffn_up_exps.weight")%string ts;
  '(dx, ts) ← take_tensor "missing: " (prefix +:+ ".ffn_down_exps.weight")%string ts;
  Ok (mk_DeepSeekMoE sg su sd (mk_FusedMoe gate gx ux dx true top_k dt) factor, ts).
(** With a router the layer has experts, otherwise a dense network. *)
Definition V3_Layer_From_Extracted (chk : bool) (New_Dense : tensors_t -> string -> result string (Mlp_Weights * tensors_t)) (ts : tensors_t)
    (heads q_lora kv_lora rope_dim nope_dim vdim top_k : Z) (factor eps : real) (rot : Rotary_Embedding) (layer_idx : Z)
    (dev : Dev) (dt : dtype_tag) : result (fault string) DeepSeek_Layer :=
  let prefix := layer_prefix layer_idx in
  '(n1, ts) ← lift (Take_Rmsnorm eps ts (prefix +:+ ".attn_norm.weight")%string);
  '(n2, ts) ← lift (Take_Rmsnorm eps ts (prefix +:+ ".ffn_norm.weight")%string);
  '(a, ts) ← MLA_From_Extracted chk ts heads q_lora kv_lora rope_dim nope_dim vdim eps rot dev prefix;
  f ← (match ts !! (prefix +:+ ".ffn_gate_inp.weight")%string with
       | Some _ => '(m, _) ← lift (DeepSeekMoE_From_Extracted ts top_k factor dt dev prefix); Ok (V3MoE m)
       | None => '(m, _) ← lift (New_Dense ts prefix); Ok (Dense m)
       end);
  Ok (mk_DeepSeek_Layer a f n1 n2).

(** ** The model *)
Definition DeepSeek_Model : Type := Model_Of Dev QMatMul RmsNorm Embedding DeepSeek_Layer.
Definition V3_Forward : DeepSeek_Model -> T -> Z -> DeepSeek_Model * result string T := Forward V3_Layer_Forward.
Definition V3_Clear (m : DeepSeek_Model) : DeepSeek_Model := with_layers (map V3_Layer_Clear (layers m)) m.

(** ** The configuration *)
Record DeepSeek_Config : Type := mk_DeepSeek_Config {
  c_n_heads : Z; n_kv_heads : Z; c_q_lora_rank : Z; c_kv_lora_rank : Z; c_qk_rope_dim : Z; c_qk_nope_dim : Z; c_v_head_dim : Z;
  num_layers : Z; c_hidden_size : Z; max_position_embeddings : Z; c_rms_norm_eps : real; c_rope_freq_base : real;
  c_n_routed_experts : Z; n_shared_experts : Z; top_k : Z; c_routed_scaling_factor : real; vocab_size : Z;
}.
Section config.
Context (md : gmap string Value).
Definition md_get (s : string) : result string Value := ok_or ("cannot find " +:+ s +:+ " in metadata")%string (md !! s).
Definition as_usize (v : Value) : option Z := match to_u32 v with Some x => Some x | None => to_u64 v end.
Definition as_f64 (v : Value) : option real := match to_f32 v with Some x => Some (Widened x) | None => Double <$> to_f64 v end.
Definition md_get_usize (s : string) : result string Z :=
  v ← md_get s; ok_or ("cannot convert " +:+ s +:+ " to usize")%string (as_usize v).
Definition md_get_usize_opt (s : string) : option Z := md !! s ≫= as_usize.
Definition md_get_f64 (s : string) : result string real :=
  v ← md_get s; ok_or ("cannot convert " +:+ s +:+ " to f64")%string (as_f64 v).
Definition md_get_f64_opt (s : string) : option real := md !! s ≫= as_f64.
Definition or_else {A} (d : A) (r : result string A) : A := match r with Ok a => a | Err _ => d end.
(** [192 - 64] and so on: with overflow checks a dimension below zero panics. The
    constants are the bits of [1e-6], [10000.0] and [2.5]. *)
Definition DeepSeek_From_Metadata (chk : bool) (arch : string) : result (fault string) DeepSeek_Config :=
  let p key := (arch +:+ "." +:+ key)%string in
  n_heads ← lift (md_get_usize (p "attention.head_count"));
  let n_kv_heads := or_else n_heads (md_get_usize (p "attention.head_count_kv")) in
  let q_lora := or_else 1536 (md_get_usize (p "attention.q_lora_rank")) in
  let kv_lora := or_else 512 (md_get_usize (p "attention.kv_lora_rank")) in
  let q_head_dim := default 192 (md_get_usize_opt (p "attention.key_length_mla")) in
  let rope_dim := default 64 (md_get_usize_opt (p "rope.dimension_count")) in
  nope_dim ← usize_of chk (q_head_dim - rope_dim);
  let vdim := default 128 (md_get_usize_opt (p "attention.value_length_mla")) in
  num_layers ← lift (md_get_usize (p "block_count"));
  hidden ← lift (md_get_usize (p "embedding_length"));
  Ok (mk_DeepSeek_Config n_heads n_kv_heads q_lora kv_lora rope_dim nope_dim vdim num_layers hidden
    (or_else 131072 (md_get_usize (p "context_length")))
    (or_else (Double 0x3EB0C6F7A0B5ED8D) (md_get_f64 (p "attention.layer_norm_rms_epsilon")))
    (or_else (Double 0x40C3880000000000) (md_get_f64 (p "rope.freq_base")))
    (default 256 (md_get_usize_opt (p "expert_count"))) (default 1 (md_get_usize_opt (p "expert_shared_count")))
    (default 8 (md_get_usize_opt (p "expert_used_count"))) (default (Double 0x4004000000000000) (md_get_f64_opt (p "expert_weights_scale")))
    (or_else 129280 (md_get_usize (p "vocab_size")))).
End config.

(** ** Its branch of [AnyModel] *)
Definition empty_text : string := "extract_kv_cache: KV cache is empty (no inference done yet)".
Fixpoint v3_pairs (ls : list DeepSeek_Layer) : result string (list (T * T)) :=
  match ls with
  | [] => Ok []
  | y :: ls =>
      k ← ok_or empty_text (k (kv_cache (mla y))); v ← ok_or empty_text (v (kv_cache (mla y)));
      ps ← v3_pairs ls; Ok ((k, v) :: ps)
  end.
Definition V3_extract_kv_cache (m : DeepSeek_Model) : result string (list (T * T)) :=
  match layers m with [] => Err "extract_kv_cache: model has no layers"%string | ls => v3_pairs ls end.
Fixpoint v3_append_all (ls : list DeepSeek_Layer) (kvs : list (T * T)) : list DeepSeek_Layer * result string unit :=
  match ls, kvs with
  | y :: ls', (k, v) :: kvs =>
      let (c, r) := MLA_Append (kv_cache (mla y)) k v in
      let y := with_mla (with_mla_cache c (mla y)) y in
      match r with
      | Err e => (y :: ls', Err ("restore_kv_cache: append failed: " +:+ e)%string)
      | Ok _ => let (ls', r) := v3_append_all ls' kvs in (y :: ls', r)
      end
  | _, _ => (ls, Ok tt)
  end.
Definition V3_restore_kv_cache (m : DeepSeek_Model) (kvs : list (T * T)) : DeepSeek_Model * result string unit :=
  if negb (length kvs =? length (layers m))%nat
  then (m, Err ("restore_kv_cache: layer count mismatch (expected " +:+ fmt_uint (zlen (layers m)) +:+ ", got "
                +:+ fmt_uint (zlen kvs) +:+ ")")%string)
  else let (ls, r) := v3_append_all (layers m) kvs in (with_layers ls m, r).
End v3.

(** ** Theorems *)
Section theorems.
Context {T Dev QTensor QMatMul RmsNorm Embedding Cache Linear : Type}.
Context `{!Gguf} `{!Nn T Dev QTensor QMatMul RmsNorm Embedding Cache} `{!Nn_V3 T QTensor Linear}.
Context `{!Nn_Laws T Dev QTensor QMatMul RmsNorm Embedding Cache}.
Notation Layer := (DeepSeek_Layer (T:=T) (QTensor:=QTensor) (QMatMul:=QMatMul) (RmsNorm:=RmsNorm) (Linear:=Linear)).
Notation Model := (DeepSeek_Model (T:=T) (Dev:=Dev) (QTensor:=QTensor) (QMatMul:=QMatMul) (RmsNorm:=RmsNorm)
  (Embedding:=Embedding) (Linear:=Linear)).
Lemma v3_layer_dims (y : Layer) h mask offset pre y' h' : V3_Layer_Forward y h mask offset pre = (y', Ok h') -> dims h' = dims h.
Proof.
  unfold V3_Layer_Forward. destruct (rmsnorm_forward _ h) as [n|e]; [|done]. destruct (MLA_Forward _ n _ _) as [a r].
  intros [= _ E]. apply result_bind_Ok in E as (o & _ & (x & Hx & (h2 & _ & (h3 & _ & E)%result_bind_Ok)%result_bind_Ok)%result_bind_Ok).
  apply add_dims in Hx, E. congruence.
Qed.
Lemma restore_cleared (c : MLA_KV_Cache (T:=T)) k' v' : k c = Some k' -> v c = Some v' -> MLA_Append (MLA_Reset c) k' v' = (c, Ok tt).
Proof. destruct c; cbn. by intros -> ->. Qed.
Lemma restore_layers (ls : list Layer) kvs : v3_pairs ls = Ok kvs -> v3_append_all (map V3_Layer_Clear ls) kvs = (ls, Ok tt) /\ length kvs = length ls.
Proof.
  revert kvs. induction ls as [|y ls IH]; intros kvs; [by intros [= <-]|].
  cbn [v3_pairs]. intros (k' & Hk & (v' & Hv & (ps & Hp & [= <-])%result_bind_Ok)%result_bind_Ok)%result_bind_Ok.
  destruct (k (kv_cache (mla y))) as [k1|] eqn:Ek; [|discriminate]. injection Hk as <-.
  destruct (v (kv_cache (mla y))) as [v1|] eqn:Ev; [|discriminate]. injection Hv as <-.
  destruct (IH ps Hp) as [IH1 IH2]. split; [|by cbn; rewrite IH2]. cbn [map v3_append_all].
  change (kv_cache (mla (V3_Layer_Clear y))) with (MLA_Reset (kv_cache (mla y))).
  rewrite (restore_cleared (kv_cache (mla y)) k1 v1 Ek Ev), IH1. f_equal. f_equal. by destruct y as [[] ? ? ?].
Qed.

(** C19: V3 models compose and park their caches like the others. Stages without an
    inner embedding or output head answer every sequence of passes as the one model
    of all their layers; and the caches taken out of a model, put into the same
    model cleared, give the model back. *)
Theorem v3_stages_and_caches (dev : Dev) (dt : dtype_tag) (m : Model) (ms : list Model) (inputs : list (T * Z)) :
  (stages dev dt (m :: ms) -> serve (pipeline V3_Forward) (m :: ms) inputs = serve V3_Forward (join m ms) inputs) /\
  (forall kvs, V3_extract_kv_cache m = Ok kvs -> V3_restore_kv_cache (V3_Clear m) kvs = (m, Ok tt)).
Proof.
  split.
  - intros Hs. exact (serve_pipeline V3_Layer_Forward v3_layer_dims dev dt m ms inputs Hs).
  - intros kvs E. unfold V3_extract_kv_cache in E. unfold V3_restore_kv_cache, V3_Clear. cbn [layers with_layers].
    assert (v3_pairs (layers m) = Ok kvs) as Hp by (by destruct (layers m)).
    destruct (restore_layers _ _ Hp) as [H1 H2]. rewrite length_map, H2, Nat.eqb_refl, H1. cbn. by destruct m.
Qed.
End theorems.

(** ** Witness *)
Module Plain_V3.
Import KvCache.Plain Qwen3.Plain_Nn.
Definition join_at (a b : tensor) (d : Z) : result string tensor :=
  let i := Z.to_nat d in
  Ok (mk_tensor (<[i := (default O (shape a !! i) + default O (shape b !! i))%nat]> (shape a)) F32 (words a ++ words b)).
(** A projection to [w] columns: [w] copies of the only one. *)
Definition copied (w : Z) (t : tensor) : result string tensor :=
  Ok (mk_tensor (removelast (shape t) ++ [Z.to_nat w]) F32 (flat_map (fun x => repeat x (Z.to_nat w)) (words t))).
#[global] Instance plain_v3 : Nn_V3 tensor tensor Z := {|
  cat l d := match l with [a; b] => join_at a b d | _ => Err "cat"%string end;
  t_repeat t _ := Ok t;
  permute t _ := Ok t;
  scale_by t _ := Ok t;
  linear_new t := default 0 (head (words t));
  linear_forward w t := copied w t;
|}.
Definition block (w : Z) : DeepSeek_Layer (T:=tensor) (QTensor:=tensor) (QMatMul:=Z) (RmsNorm:=Z) (Linear:=Z) :=
  mk_DeepSeek_Layer (mk_MLA w 1 1 1 1 1 2 1 1 1 1 1 1 2 2 rotary MLA_New) (Dense (mk_Mlp 1 w 1)) 1 1.
Definition first : DeepSeek_Model (T:=tensor) (Dev:=unit) (Embedding:=Z) := mk_Model (Some 3) [block 2] None None tt DtF32.
Definition second : DeepSeek_Model (T:=tensor) (Dev:=unit) (Embedding:=Z) := mk_Model None [block 5] (Some 1) (Some 7) tt DtF32.
End Plain_V3.
Import Plain_V3.
(** Two stages answer a prompt and a token like the model, without errors; the
    caches of the model after the prompt come back. *)
Lemma v3_stages_and_caches_witness :
  serve (pipeline V3_Forward) [first; second] Plain_Nn.inputs = serve V3_Forward (join first [second]) Plain_Nn.inputs /\
  forallb is_ok (serve V3_Forward (join first [second]) Plain_Nn.inputs) = true /\
  exists m kvs, (V3_Forward (join first [second]) (KvCache.Plain.mk_tensor [1; 2]%nat KvCache.U32 [4; 9]) 0).1 = m /\
    V3_extract_kv_cache m = Ok kvs /\ length kvs = 2%nat /\ V3_restore_kv_cache (V3_Clear m) kvs = (m, Ok tt).
Proof.
  split_and!.
  - apply (v3_stages_and_caches tt DtF32 first [second] Plain_Nn.inputs).
    constructor; [done|done|by left|done|]. by constructor.
  - by vm_compute.
  - pose (m := (V3_Forward (join first [second]) (KvCache.Plain.mk_tensor [1; 2]%nat KvCache.U32 [4; 9]) 0).1).
    destruct (V3_extract_kv_cache m) as [kvs|e] eqn:E; [|vm_compute in E; discriminate E].
    exists m, kvs. split; [reflexivity|]. split; [exact E|]. split; [vm_compute in E; injection E as E; subst kvs; reflexivity|].
    exact (proj2 (v3_stages_and_caches tt DtF32 m [] []) kvs E).
Defined.
