(* ===== verification/Llama.v ===== *)
(** * Llama ([GGUF_Models/llama.rs] and its branches of [AnyModel])

    The layers and the pass of a (possibly partial) model; its caches are those of
    [Qwen3].  The file is behind a feature that is off.  [New_Dense] is not in the
    repository and is an argument. *)
From S2P Require Import Prelude RustStd Cursor KvCache Gguf Qwen3.

(** candle's operations that [Nn] does not have: division by the root of a
    dimension, and a reshape that infers its last dimension. *)
Class Nn_Llama (T : Type) : Type := {
  div_sqrt : T -> Z -> result string T;
  reshape_rest : T -> list Z -> result string T;
}.

Section llama.
Context {T Dev QTensor QMatMul RmsNorm Embedding Cache : Type}.
Context `{!Nn T Dev QTensor QMatMul RmsNorm Embedding Cache} `{!Nn_Llama T}.
Notation tensors_t := (gmap string QTensor).
Notation Mlp_Weights := (Mlp_Weights (QMatMul:=QMatMul)).

(** ** Attention *)
Record Llama_Attention : Type := mk_Llama_Attention {
  l_q_proj : QMatMul; l_k_proj : QMatMul; l_v_proj : QMatMul; l_o_proj : QMatMul;
  l_num_heads : Z; l_num_kv_heads : Z; l_num_kv_groups : Z; l_head_dim : Z; l_rotary : Rotary_Embedding (T:=T); l_kv_cache : Cache;
}.
Definition with_llama_cache (c : Cache) (a : Llama_Attention) : Llama_Attention :=
  mk_Llama_Attention (l_q_proj a) (l_k_proj a) (l_v_proj a) (l_o_proj a) (l_num_heads a) (l_num_kv_heads a) (l_num_kv_groups a)
    (l_head_dim a) (l_rotary a) c.
(** All three are reshaped before the first is transposed. *)
Definition llama_project (a : Llama_Attention) (x : T) (offset : Z) : result string (Z * Z * T * T * T) :=
  '(b_sz, seq_len, _) ← dims3 x;
  q ← qmatmul_forward (l_q_proj a) x;
  k ← qmatmul_forward (l_k_proj a) x;
  v ← qmatmul_forward (l_v_proj a) x;
  q ← reshape q [b_sz; seq_len; l_num_heads a; l_head_dim a];
  k ← reshape k [b_sz; seq_len; l_num_kv_heads a; l_head_dim a];
  v ← reshape v [b_sz; seq_len; l_num_kv_heads a; l_head_dim a];
  q ← transpose q 1 2; k ← transpose k 1 2; v ← transpose v 1 2;
  '(q, k) ← Rotary_Apply (l_rotary a) q k offset;
  Ok (b_sz, seq_len, q, k, v).
(** [k.t()] of a tensor of rank four; the mask is added without broadcasting. *)
Definition llama_attend (a : Llama_Attention) (mask : option T) (b l : Z) (q k v : T) : result string T :=
  k ← repeat_kv k (l_num_kv_groups a); k ← contiguous k;
  v ← repeat_kv v (l_num_kv_groups a); v ← contiguous v;
  kt ← transpose k 2 3;
  s ← matmul q kt;
  att ← div_sqrt s (l_head_dim a);
  att ← match mask with Some m => t_add att m | None => Ok att end;
  att ← softmax_last_dim att;
  y ← matmul att v;
  y ← transpose y 1 2;
  y ← reshape_rest y [b; l];
  qmatmul_forward (l_o_proj a) y.
Definition Llama_Attention_Forward (a : Llama_Attention) (x : T) (offset : Z) (mask : option T) : Llama_Attention * result string T :=
  match llama_project a x offset with
  | Err e => (a, Err e)
  | Ok (b, l, q, k, v) =>
      let (c, r) := cache_append (l_kv_cache a) k v in
      (with_llama_cache c a, '(k, v) ← r; llama_attend a mask b l q k v)
  end.
Definition Llama_Attention_Clear (a : Llama_Attention) : Llama_Attention := with_llama_cache (cache_reset (l_kv_cache a)) a.

(** ** Layers *)
Record Llama_Layer : Type := mk_Llama_Layer { l_attn : Llama_Attention; l_mlp : Mlp_Weights; l_ln1 : RmsNorm; l_ln2 : RmsNorm }.
Definition with_llama_attn (a : Llama_Attention) (y : Llama_Layer) : Llama_Layer := mk_Llama_Layer a (l_mlp y) (l_ln1 y) (l_ln2 y).
Definition Llama_Layer_Forward (y : Llama_Layer) (x : T) (offset : Z) (mask : option T) : Llama_Layer * result string T :=
  match rmsnorm_forward (l_ln1 y) x with
  | Err e => (y, Err e)
  | Ok h =>
      let (a, r) := Llama_Attention_Forward (l_attn y) h offset mask in
      (with_llama_attn a y, h ← r; x ← t_add h x; h ← rmsnorm_forward (l_ln2 y) x; h ← Mlp_forward (l_mlp y) h; t_add h x)
  end.
Definition Llama_Layer_Clear (y : Llama_Layer) : Llama_Layer := with_llama_attn (Llama_Attention_Clear (l_attn y)) y.
(** Without key/value heads the division panics. *)
Definition Llama_Layer_From_Extracted (New_Dense : tensors_t -> string -> result string (Mlp_Weights * tensors_t)) (ts : tensors_t)
    (heads kv_heads head_dim : Z) (eps : real) (rotary : Rotary_Embedding) (layer_idx : Z) : result (fault string) Llama_Layer :=
  let prefix := layer_prefix layer_idx in
  '(q, ts) ← lift (Take_Qmatmul ts (prefix +:+ ".attn_q.weight")%string);
  '(k, ts) ← lift (Take_Qmatmul ts (prefix +:+ ".attn_k.weight")%string);
  '(v, ts) ← lift (Take_Qmatmul ts (prefix +:+ ".attn_v.weight")%string);
  '(o, ts) ← lift (Take_Qmatmul ts (prefix +:+ ".attn_output.weight")%string);
  if kv_heads =? 0 then Err Panicked else
  let attn := mk_Llama_Attention q k v o heads kv_heads (heads / kv_heads) head_dim rotary (cache_new 2) in
  '(m, ts) ← lift (New_Dense ts prefix);
  '(n1, ts) ← lift (Take_Rmsnorm eps ts (prefix +:+ ".attn_norm.weight")%string);
  '(n2, _) ← lift (Take_Rmsnorm eps ts (prefix +:+ ".ffn_norm.weight")%string);
  Ok (mk_Llama_Layer attn m n1 n2).

(** ** The model *)
Definition Llama_Model : Type := Model_Of Dev QMatMul RmsNorm Embedding Llama_Layer.
Definition llama_causal_mask (seq_len offset : Z) (dev : Dev) : result string T :=
  from_vec F32 (mask_values seq_len offset None) [1; 1; seq_len; offset + seq_len] dev.
Definition input_dims2 (t : T) : result string (Z * Z) :=
  match dims t with [a; b] => Ok (a, b) | _ => Err "unexpected rank"%string end.
Fixpoint llama_run_layers (ls : list Llama_Layer) (x : T) (offset : Z) (mask : option T) : list Llama_Layer * result string T :=
  match ls with
  | [] => ([], Ok x)
  | y :: ls =>
      let (y, r) := Llama_Layer_Forward y x offset mask in
      match r with
      | Err e => (y :: ls, Err e)
      | Ok x => let (ls, r) := llama_run_layers ls x offset mask in (y :: ls, r)
      end
  end.
Definition llama_input (m : Llama_Model) (input : T) (offset : Z) : result string (T * option T) :=
  '(_, seq_len) ← input_dims2 input;
  mask ← (if 1 <? seq_len then t ← llama_causal_mask seq_len offset (m_device m); Ok (Some t) else Ok None);
  x ← embed m input;
  Ok (x, mask).
Definition llama_output (m : Llama_Model) (x : T) : result string T :=
  x ← match norm m with Some n => rmsnorm_forward n x | None => Ok x end;
  match lm_head m with Some h => qmatmul_forward h x | None => Ok x end.
Definition Llama_Forward (m : Llama_Model) (input : T) (offset : Z) : Llama_Model * result string T :=
  match llama_input m input offset with
  | Err e => (m, Err e)
  | Ok (x, mask) =>
      let (ls, r) := llama_run_layers (layers m) x offset mask in
      (with_layers ls m, x ← r; llama_output m x)
  end.
Definition Llama_Clear (m : Llama_Model) : Llama_Model := with_layers (map Llama_Layer_Clear (layers m)) m.

(** *** Its branch of [AnyModel] *)
Definition Llama_extract_kv_cache (m : Llama_Model) : result string (list (T * T)) :=
  match layers m with
  | [] => Err "extract_kv_cache: model has no layers"%string
  | ls => cache_pairs (map (fun y => l_kv_cache (l_attn y)) ls)
  end.
Definition Llama_restore_kv_cache (m : Llama_Model) (kvs : list (T * T)) : Llama_Model * result string unit :=
  if negb (length kvs =? length (layers m))%nat
  then (m, Err ("restore_kv_cache: layer count mismatch (expected " +:+ fmt_uint (zlen (layers m)) +:+ ", got "
                +:+ fmt_uint (zlen kvs) +:+ ")")%string)
  else let (ls, r) := append_all (fun y => l_kv_cache (l_attn y)) (fun c y => with_llama_attn (with_llama_cache c (l_attn y)) y) (layers m) kvs in
       (with_layers ls m, r).
End llama.

(** ** What the model refuses *)
(** Shapes of candle's results; sums are of one shape. *)
Class Shape_Laws (T Dev QTensor QMatMul RmsNorm Embedding Cache : Type)
    `{!Nn T Dev QTensor QMatMul RmsNorm Embedding Cache} `{!Nn_Llama T} : Prop := {
  add_same (x y z : T) : t_add x y = Ok z -> dims x = dims y;
  reshape_dims (t : T) s (y : T) : reshape t s = Ok y -> dims y = s;
  transpose_dims (t : T) a b c d (y : T) : transpose t 1 2 = Ok y -> dims t = [a; b; c; d] -> dims y = [a; c; b; d];
  contiguous_dims (t y : T) : contiguous t = Ok y -> dims y = dims t;
  rope_dims (t c s y : T) : rope t c s = Ok y -> dims y = dims t;
  matmul_heads (t u : T) n h l d (y : T) : matmul t u = Ok y -> dims t = [n; h; l; d] -> dims y !! 1%nat = Some h;
  div_sqrt_dims (t : T) n (y : T) : div_sqrt t n = Ok y -> dims y = dims t;
  from_vec_dims dt l s (dev : Dev) (y : T) : from_vec dt l s dev = Ok y -> dims y = s;
}.
Section refuses.
Context {T Dev QTensor QMatMul RmsNorm Embedding Cache : Type}.
Context `{!Nn T Dev QTensor QMatMul RmsNorm Embedding Cache} `{!Nn_Llama T}.
Context `{!Shape_Laws T Dev QTensor QMatMul RmsNorm Embedding Cache}.
Notation Model := (Llama_Model (T:=T) (Dev:=Dev) (QMatMul:=QMatMul) (RmsNorm:=RmsNorm) (Embedding:=Embedding) (Cache:=Cache)).
Notation Attention := (Llama_Attention (T:=T) (QMatMul:=QMatMul) (Cache:=Cache)).
Lemma rotated_dims r q k offset q' k' : Rotary_Apply r q k offset = Ok (q', k') -> dims q' = dims q.
Proof.
  unfold Rotary_Apply. intros E. repeat (apply result_bind_Ok in E as (? & ? & E)). destruct x as [[[? ?] ?] ?].
  repeat (apply result_bind_Ok in E as (? & ? & E)). injection E as <- <-.
  match goal with Hc : contiguous q = Ok ?z, Hr : rope ?z _ _ = Ok ?y |- _ => rewrite (rope_dims _ _ _ _ Hr); by apply contiguous_dims end.
Qed.
Lemma projected_heads (a : Attention) x offset b l q k v : llama_project a x offset = Ok (b, l, q, k, v) ->
  exists n, dims q = [n; l_num_heads a; l; l_head_dim a].
Proof.
  unfold llama_project. intros E. apply result_bind_Ok in E as ([[b' l'] d] & Hd & E).
  apply result_bind_Ok in E as (q0 & _ & E). apply result_bind_Ok in E as (k0 & _ & E). apply result_bind_Ok in E as (v0 & _ & E).
  apply result_bind_Ok in E as (q1 & Hq1%reshape_dims & E). apply result_bind_Ok in E as (k1 & _ & E). apply result_bind_Ok in E as (v1 & _ & E).
  apply result_bind_Ok in E as (q2 & Hq2 & E). apply result_bind_Ok in E as (k2 & _ & E). apply result_bind_Ok in E as (v2 & _ & E).
  apply result_bind_Ok in E as ([q3 k3] & Hr%rotated_dims & E). injection E as <- <- <- <- <-.
  exists b'. rewrite Hr. by apply (transpose_dims _ _ _ _ _ _ Hq2).
Qed.
(** Scores of more than one head do not fit the mask. *)
Lemma masked_attend_fails (a : Attention) m b l q k v n : dims q = [n; l_num_heads a; l; l_head_dim a] ->
  dims m !! 1%nat = Some 1 -> l_num_heads a <> 1 -> forall r, llama_attend a (Some m) b l q k v <> Ok r.
Proof.
  intros Hq Hm Hh r E. unfold llama_attend in E. do 5 (apply result_bind_Ok in E as (? & _ & E)).
  apply result_bind_Ok in E as (s & Hs & E). apply result_bind_Ok in E as (t & Ht%div_sqrt_dims & E).
  apply result_bind_Ok in E as (u & Hu%add_same & _). apply (matmul_heads _ _ _ _ _ _ _ Hs) in Hq. congruence.
Qed.
Lemma masked_layer_fails (y : Llama_Layer (T:=T) (QMatMul:=QMatMul) (RmsNorm:=RmsNorm) (Cache:=Cache)) x offset m :
  dims m !! 1%nat = Some 1 -> l_num_heads (l_attn y) <> 1 -> exists y' e, Llama_Layer_Forward y x offset (Some m) = (y', Err e).
Proof.
  intros Hm Hh. unfold Llama_Layer_Forward. destruct (rmsnorm_forward _ x) as [h|e]; [|by exists y, e].
  unfold Llama_Attention_Forward. destruct (llama_project _ h offset) as [[[[[b l] q] k] v]|e] eqn:E; [|eexists _, e; done].
  destruct (projected_heads _ _ _ _ _ _ _ _ E) as [n Hn]. destruct (cache_append _ k v) as [c [[k' v']|e]]; [|eexists _, e; done].
  cbn [mbind result_bind]. destruct (llama_attend _ (Some m) b l q k' v') as [o|e] eqn:Ea; [|eexists _, e; done].
  by apply (masked_attend_fails _ _ _ _ _ _ _ _ Hn Hm Hh) in Ea.
Qed.

(** what a Llama model cannot do. A part without the embedding refuses the
    hidden states that another part hands on, whatever its layers, since it asks
    for a tensor of rank two; and a model whose first layer has more than one head
    answers no pass of more than one token, since the mask of one head is added
    without broadcasting. *)
Theorem llama_refuses (m : Model) input offset :
  (forall b l d, dims input = [b; l; d] -> exists e, Llama_Forward m input offset = (m, Err e)) /\
  (forall b l y ls, dims input = [b; l] -> 1 < l -> layers m = y :: ls -> l_num_heads (l_attn y) <> 1 ->
     exists m' e, Llama_Forward m input offset = (m', Err e)).
Proof.
  split.
  - intros b l d Hd. unfold Llama_Forward, llama_input, input_dims2. rewrite Hd. by eexists.
  - intros b l y ls Hd Hl El Hh. unfold Llama_Forward.
    destruct (llama_input m input offset) as [[x mask]|e] eqn:Ei; [|by exists m, e].
    unfold llama_input, input_dims2 in Ei. rewrite Hd in Ei. cbn [mbind result_bind] in Ei. rewrite (proj2 (Z.ltb_lt 1 l) Hl) in Ei.
    apply result_bind_Ok in Ei as (mk & Hm & Ei). apply result_bind_Ok in Hm as (t & Ht & [= <-]).
    apply result_bind_Ok in Ei as (x' & _ & [= -> <-]). unfold llama_causal_mask in Ht. apply from_vec_dims in Ht.
    rewrite El. cbn [llama_run_layers]. destruct (masked_layer_fails y x offset t) as (y' & e & ->); [by rewrite Ht|done|].
    by eexists _, e.
Qed.
End refuses.

(** ** Witness *)
Module Plain_Llama.
Import KvCache.Plain Qwen3.Plain_Nn.
#[global] Instance plain_llama : Nn_Llama tensor := {|
  div_sqrt t _ := Ok t;
  reshape_rest t s := Ok (mk_tensor (map Z.to_nat s ++ [Z.to_nat (Z.of_nat (size t) / product s)]) F32 (words t));
|}.
Lemma build_dims d l s y : build d l s = Ok y -> sizes y = s.
Proof.
  unfold build. destruct (forallb (Z.leb 0) s) eqn:Hf; [|done]. destruct (_ =? _); [|done]. intros [= <-]. unfold sizes. cbn.
  rewrite map_map. rewrite <- (map_id s) at 2. apply map_ext_in. intros z Hz. rewrite forallb_forall in Hf.
  apply Z2Nat.id. by apply Z.leb_le, Hf.
Qed.
#[global] Instance plain_shapes : Shape_Laws tensor unit tensor Z Z Z (option (tensor * tensor)).
Proof.
  split; cbn.
  - intros x y z. unfold add. case_decide as E; [|done]. intros _. unfold sizes. by rewrite E.
  - intros t s y. apply build_dims.
  - intros t a b c d y [= <-] E. unfold sizes in *. cbn. destruct (shape t) as [|x [|x' [|x'' [|x3 [|]]]]]; try done.
    injection E as <- <- <- <-. done.
  - by intros t y [= <-].
  - by intros t c s y [= <-].
  - intros t u n h l d y [= <-] E. unfold sizes in *. cbn. destruct (shape t) as [|x [|x' [|x'' [|x3 [|]]]]]; try done.
    injection E as <- <- <- <-. done.
  - by intros t n y [= <-].
  - intros dt l s dev y. apply build_dims.
Qed.
Definition with_heads (n : Z) : Llama_Model (T:=tensor) (Dev:=unit) (QMatMul:=Z) (RmsNorm:=Z) (Embedding:=Z) (Cache:=option (tensor * tensor)) :=
  mk_Model (Some 3) [mk_Llama_Layer (mk_Llama_Attention 1 1 1 1 n n 1 (2 / n) rotary None) (mk_Mlp 1 1 1) 1 1] None (Some 1) tt DtF32.
Definition tokens (l : list Z) : tensor := mk_tensor [1; length l]%nat KvCache.U32 l.
Definition hidden : tensor := mk_tensor [1; 2; 2]%nat F32 [1; 2; 3; 4].
End Plain_Llama.
Import Plain_Llama.
(** Two heads refuse a prompt of two tokens and answer one token; one head answers
    the prompt; hidden states are refused. *)
Lemma llama_refuses_witness :
  (exists m' e, Llama_Forward (with_heads 2) (tokens [4; 9]) 0 = (m', Err e)) /\
  is_ok (Llama_Forward (with_heads 2) (tokens [4]) 0).2 = true /\ is_ok (Llama_Forward (with_heads 1) (tokens [4; 9]) 0).2 = true /\
  exists e, Llama_Forward (with_heads 1) hidden 0 = (with_heads 1, Err e).
Proof.
  split_and!.
  - destruct (llama_refuses (with_heads 2) (tokens [4; 9]) 0) as [_ H]. eapply (H 1 2); [reflexivity|lia|reflexivity|cbn; lia].
  - by vm_compute.
  - by vm_compute.
  - destruct (llama_refuses (with_heads 1) hidden 0) as [H _]. eapply (H 1 2 2). reflexivity.
Defined.
