(* ===== verification/Launch.v ===== *)
(** * Launching a node ([Init] and [Start] of [network_service.rs], [main.rs])

    The set-up of the network after the first phases of [main] ([Config]): the swarm
    from the configuration, the service and the handle the other components get, the
    registration of the stream protocols before the select loop ([Capability.Start]),
    and the node that then runs: one table of peers, shared by the service's loop
    with the core, the storage and the sessions, whose calls come in between its
    turns (a turn is one step).  libp2p is the class [Libp2p]. *)
From S2P Require Import Prelude RustStd Wire Codec Streams TensorStream Peers Hub Network Storage Orchestrator Cursor Capability Config.

Definition DATA_PROTOCOL : string := "/pleiades/data/1.0.0".
Definition FILE_STREAM_PROTOCOL : string := "/pleiades/file-stream/1.0.0".
Definition TENSOR_STREAM_PROTOCOL : string := "/pleiades/tensor/1.0.0".
Definition BANDWIDTH_STREAM_PROTOCOL : string := "/pleiades/bandwidth/1.0.0".
Definition SESSION_STREAM_PROTOCOL : string := "/pleiades/session/1.0.0".

(** Protocols differ by computation. *)
Ltac distinct := apply (bool_decide_unpack _); vm_compute.

(** ** libp2p *)
(** What [Init] asks of the swarm, in seconds; the rest are the library's defaults. *)
Record swarm_settings : Type := mk_swarm_settings {
  nodelay : bool; kad_server : bool; data_protocol : string; request_timeout : Z;
  ping_interval : Z; ping_timeout : Z; idle_connection_timeout : Z;
}.
Class Libp2p (Keypair PeerId Multiaddr Swarm : Type) : Type := {
  build_swarm : Keypair -> swarm_settings -> result string Swarm;
  (** [PeerId::random()], at its n-th call *)
  random_peer : nat -> PeerId;
  read_addr : string -> result string Multiaddr;
  kad_add_address : PeerId -> Multiaddr -> Swarm -> Swarm;
  listen_on : Multiaddr -> Swarm -> result string Swarm;
  kad_bootstrap : Swarm -> result string Swarm;
  (** [Control::accept], which fails on a protocol that is accepted already *)
  accept : string -> Swarm -> option Swarm;
  accepted : Swarm -> gset string;
}.
Class Libp2p_Laws (Keypair PeerId Multiaddr Swarm : Type) `{!Libp2p Keypair PeerId Multiaddr Swarm} : Prop := {
  built_accepts k s w : build_swarm k s = Ok w -> accepted w = ∅;
  added_accepts p a w : accepted (kad_add_address p a w) = accepted w;
  listening_accepts a w w' : listen_on a w = Ok w' -> accepted w' = accepted w;
  bootstrapped_accepts w w' : kad_bootstrap w = Ok w' -> accepted w' = accepted w;
  accept_new p w : p ∉ accepted w -> exists w', accept p w = Some w' /\ accepted w' = {[p]} ∪ accepted w;
}.

Section launch.
Context {Keypair PeerId Multiaddr Swarm Channel OutboundRequestId Waiter : Type}.
Context `{Countable PeerId} `{Countable OutboundRequestId}.
Context `{!Libp2p Keypair PeerId Multiaddr Swarm} `{!Toml} `{!Keys Keypair PeerId}.
Context (denied : string -> bool) (to_string : PeerId -> bytes).
Context (models_to_json : list SupportedModel -> bytes) (models_from_json : bytes -> option (list SupportedModel)).
Context (sessions_to_json : list SessionSummary -> bytes) (sessions_from_json : bytes -> option (list SessionSummary)).
(** The iteration order of the table. *)
Context (iter : gmap PeerId (PeerInfo PeerId Multiaddr) -> list (PeerInfo PeerId Multiaddr)).
Notation table := (gmap PeerId (PeerInfo PeerId Multiaddr)).
#[local] Instance table_capability : Peer_Management_Capability PeerId Multiaddr table := PeerManager_capability to_string iter.
Notation Service := (Network_Service (PeerId:=PeerId) (Channel:=Channel) (OutboundRequestId:=OutboundRequestId) (Waiter:=Waiter) (S:=table)).
Notation loop_input := (loop_input (PeerId:=PeerId) (Multiaddr:=Multiaddr) (Channel:=Channel) (OutboundRequestId:=OutboundRequestId) (Waiter:=Waiter)).
Notation turn := (loop_turn to_string models_to_json models_from_json sessions_to_json sessions_from_json).

(** ** [Init] *)
(** Discovery in the local network and the transport are not asked for: mDNS and TCP
    are always there. *)
Definition settings_of (config : NetworkConfig) : swarm_settings :=
  mk_swarm_settings true true DATA_PROTOCOL (net_request_response_timeout config)
    (net_heartbeat_interval config) (net_heartbeat_timeout config) 86400.
(** Each address that parses is filed under a random identifier. *)
Fixpoint add_bootstrap (n : nat) (addrs : list string) (w : Swarm) : Swarm :=
  match addrs with
  | [] => w
  | addr_str :: addrs =>
      match read_addr addr_str with
      | Ok addr => add_bootstrap (S n) addrs (kad_add_address (random_peer n) addr w)
      | Err _ => add_bootstrap n addrs w
      end
  end.
Record Initialised : Type := mk_Initialised {
  init_service : Service; init_config : NetworkConfig; init_swarm : Swarm;
  init_rendezvous : Rendezvous_t (Waiter:=Waiter); init_handle : NodeHandle (PeerId:=PeerId);
}.
Definition Init (config : NetworkConfig) (keypair : Keypair) (peers : table) : result string Initialised :=
  let local_peer_id := public_id keypair in
  node_swarm ← build_swarm keypair (settings_of config);
  let handle := mk_NodeHandle local_peer_id (net_request_response_timeout config) in
  let node := mk_Network_Service local_peer_id peers Inbound.New Outbound.New in
  Ok (mk_Initialised node config (add_bootstrap 0 (bootstrap_peers config) node_swarm) Rendezvous.new handle).

(** ** [Start] before its loop *)
Definition register_protocol (protocol : string) (w : Swarm) : result (fault string) Swarm :=
  match accept protocol w with Some w => Ok w | None => Err Panicked end.
Definition Start_listening (i : Initialised) : result (fault string) Swarm :=
  listen_addr ← map_err Failed (read_addr ("/ip4/0.0.0.0/tcp/" +:+ dec (listen_port (init_config i)))%string);
  w ← map_err Failed (listen_on listen_addr (init_swarm i));
  let w := if wan_enabled (init_config i) then match kad_bootstrap w with Ok w => w | Err _ => w end else w in
  w ← register_protocol FILE_STREAM_PROTOCOL w;
  w ← register_protocol TENSOR_STREAM_PROTOCOL w;
  w ← register_protocol BANDWIDTH_STREAM_PROTOCOL w;
  register_protocol SESSION_STREAM_PROTOCOL w.

(** ** The running node *)
(** [main] returns an error when a phase fails; when listening fails, the spawned
    task ends and only logs it. *)
Inductive launch_error : Type := Not_started (e : start_error) | Not_initialised (e : string).
Record Running : Type := mk_Running {
  node : Node (Keypair:=Keypair) (PeerId:=PeerId) (Multiaddr:=Multiaddr);
  started : result (fault string) Swarm;
  looping : bool;
  loop : Service * Rendezvous_t (Waiter:=Waiter);
  node_handle : NodeHandle (PeerId:=PeerId);
}.
Definition main (now : Z) (timestamp : string) (generated : Keypair) (cli : bool) (listing : string -> Disk) (fs : Fs)
    : result launch_error Running * Fs :=
  match main_start denied now timestamp generated cli listing fs with
  | (Err e, fs) => (Err (Not_started e), fs)
  | (Ok n, fs) =>
      match Init (node_net n) (node_keys n) (node_peers n) with
      | Err e => (Err (Not_initialised e), fs)
      | Ok i =>
          let s := Start_listening i in
          (Ok (mk_Running n s (is_ok s) (init_service i, init_rendezvous i) (init_handle i)), fs)
      end
  end.
Definition shared_peers (r : Running) : table := peer_handle (loop r).1.
Definition with_loop (b : bool) (l : Service * Rendezvous_t (Waiter:=Waiter)) (r : Running) : Running :=
  mk_Running (node r) (started r) b l (node_handle r).
(** What happens next: a turn of the network's loop while it runs, or a call on the
    shared table by another component. *)
Inductive event : Type := Network_turn (i : loop_input) | Table_call (op : peer_op (PeerId:=PeerId) (Multiaddr:=Multiaddr)).
Definition run_event (r : Running) (e : event) : Running :=
  match e with
  | Network_turn i =>
      if looping r then
        match turn i (loop r) with
        | Some (continue, l, _) => with_loop continue l r
        | None => with_loop false (loop r) r
        end
      else r
  | Table_call op =>
      let (n, m) := loop r in
      with_loop (looping r) (with_peers (run_op to_string iter (peer_handle n) op) n, m) r
  end.
Definition event_ok (e : event) : Prop := match e with Table_call op => remote_op op | _ => True end.

(** ** Theorems *)
Context (iter_perm : forall m, iter m ≡ₚ (map_to_list m).*2).
Context `{!Libp2p_Laws Keypair PeerId Multiaddr Swarm}.
#[local] Instance table_laws : Peer_Management_Laws to_string Multiaddr table := PeerManager_laws to_string iter iter_perm.

Lemma turn_keeps me i (l : Service * Rendezvous_t (Waiter:=Waiter)) c l' es : wf me (peer_handle l.1) -> turn i l = Some (c, l', es) ->
  wf me (peer_handle l'.1) /\ local_peer_id l'.1 = local_peer_id l.1.
Proof.
  destruct l as [n m]. intros Hw.
  pose proof (fun j => wf_handle to_string models_to_json models_from_json sessions_to_json sessions_from_json me j n Hw) as Hh.
  destruct i as [now ev|cmd|peer s|peer s|peer s|peer s]; cbn [loop_turn].
  - specialize (Hh (In_event now ev)). cbn [Network.handle] in Hh. destruct (Handle_Swarm_Event _ _ _ _ _ _ _ _). by intros [= _ <- _].
  - specialize (Hh (In_command cmd)). cbn [Network.handle] in Hh. destruct (Handle_Command _ _) as [[? ?] ?]. by intros [= _ <- _].
  - by intros [= _ <- _].
  - destruct (read_handshake _ _) as [[[id rest]|]|]; cbn; [|by intros [= _ <- _]|done].
    destruct (Rendezvous.insert_inbound _ _ _). by intros [= _ <- _].
  - destruct (count_incoming _) as [[]|]; cbn; [..|done]; by intros [= _ <- _].
  - destruct (read_handshake _ _) as [[[id rest]|]|]; cbn; [by intros [= _ <- _]..|done].
Qed.
(** The local node is in the table, the only local one, under the service's id. *)
Definition self_known (me : PeerId) (r : Running) : Prop := wf me (shared_peers r) /\ local_peer_id (loop r).1 = me.
Lemma event_keeps me r e : event_ok e -> self_known me r -> self_known me (run_event r e).
Proof.
  unfold self_known, shared_peers. intros He [Hw Hl]. destruct e as [i|op]; cbn [run_event].
  - destruct (looping r); [|done]. destruct (turn i (loop r)) as [[[c l] es]|] eqn:E; [|done].
    destruct (turn_keeps me i _ _ _ _ Hw E) as [Ha Hb]. split; [exact Ha|]. cbn. congruence.
  - destruct r as [n s b [sv m] h]. cbn in *. split; [|done]. by apply wf_run_op.
Qed.
Lemma run_keeps me es r : Forall event_ok es -> self_known me r -> self_known me (foldl run_event r es).
Proof. intros HF. revert r. induction HF as [|e es He HF IH]; intros r Hr; [done|]. by apply IH, event_keeps. Qed.
Lemma bootstrapped_none n addrs (w : Swarm) : accepted (add_bootstrap n addrs w) = accepted w.
Proof.
  revert n w. induction addrs as [|a addrs IH]; intros n w; [done|]. cbn [add_bootstrap].
  destruct (read_addr a); [|apply IH]. by rewrite IH, added_accepts.
Qed.
Lemma registered p (w : Swarm) : p ∉ accepted w -> exists w', register_protocol p w = Ok w' /\ accepted w' = {[p]} ∪ accepted w.
Proof. unfold register_protocol. intros (w' & -> & H')%accept_new. by exists w'. Qed.
(** The four protocols differ, so that none is refused. *)
Lemma listening_never_panics config k peers i : Init config k peers = Ok i -> Start_listening i <> Err Panicked.
Proof.
  unfold Init. intros E. apply result_bind_Ok in E as (w & Hw%built_accepts & [= <-]). unfold Start_listening. cbn [init_config init_swarm].
  destruct (read_addr _) as [a|]; [|done]. cbn [map_err mbind result_bind].
  destruct (listen_on _ _) as [w1|] eqn:El; [|done]. apply listening_accepts in El. rewrite bootstrapped_none, Hw in El. cbn [map_err mbind result_bind].
  set (w2 := if wan_enabled config then _ else w1). assert (accepted w2 = ∅) as Hw2.
  { unfold w2. destruct (wan_enabled config); [|done]. destruct (kad_bootstrap w1) eqn:Eb; [|done]. by rewrite (bootstrapped_accepts _ _ Eb). }
  clearbody w2.
  destruct (registered FILE_STREAM_PROTOCOL w2) as (w3 & -> & Hw3); [rewrite Hw2; set_solver|]. rewrite Hw2 in Hw3. cbn [mbind result_bind].
  destruct (registered TENSOR_STREAM_PROTOCOL w3) as (w4 & -> & Hw4); [rewrite Hw3; by distinct|]. rewrite Hw3 in Hw4. cbn [mbind result_bind].
  destruct (registered BANDWIDTH_STREAM_PROTOCOL w4) as (w5 & -> & Hw5); [rewrite Hw4; by distinct|]. rewrite Hw4 in Hw5. cbn [mbind result_bind].
  destruct (registered SESSION_STREAM_PROTOCOL w5) as (w6 & -> & _); [rewrite Hw5; by distinct|]. done.
Qed.

Lemma main_inv now timestamp g cli listing fs r fs1 : main now timestamp g cli listing fs = (Ok r, fs1) ->
  exists n i, main_start denied now timestamp g cli listing fs = (Ok n, fs1) /\
    Init (node_net n) (node_keys n) (node_peers n) = Ok i /\
    r = mk_Running n (Start_listening i) (is_ok (Start_listening i)) (init_service i, init_rendezvous i) (init_handle i).
Proof.
  unfold main. destruct (main_start denied now timestamp g cli listing fs) as [[n|e] fs2]; [|done].
  destruct (Init _ _ _) as [i|] eqn:Ei; [|done]. intros [= <- <-]. by exists n, i.
Qed.
Lemma halted es r : looping r = false -> looping (foldl run_event r es) = false.
Proof.
  revert r. induction es as [|e es IH]; intros r Hr; [done|]. cbn [foldl]. apply IH. destruct e as [i|op]; cbn [run_event].
  - by rewrite Hr.
  - by destruct r as [n s b [sv m] h].
Qed.
Definition with_lan_and_transport (lan : bool) (transport : string) (c : NetworkConfig) : NetworkConfig :=
  mk_NetworkConfig lan (wan_enabled c) transport (listen_port c) (bootstrap_peers c) (net_cleanup_interval c)
    (net_timeout_interval c) (net_heartbeat_interval c) (net_heartbeat_timeout c) (net_request_response_timeout c).
Context `{!Toml_Laws} `{!Keys_Laws Keypair PeerId}.

(** C15: a node from its launch on. When [main] gets through, the key pair is in its
    file, and the network service and the handle of the other components have its
    identifier; no protocol is refused. However the turns of the network's loop and
    the calls of the other components on the shared table come, the table keeps this
    node as its only local entry. A node that cannot listen goes on, without a
    network for good. Whether local discovery is enabled and which transport is set
    make no difference: neither to the swarm nor to how it listens, joins the wide
    network and registers the protocols. *)
Theorem launched_node now timestamp g cli listing fs r fs1 :
  slash ∉ as_bytes timestamp -> main now timestamp g cli listing fs = (Ok r, fs1) ->
  let me := public_id (node_keys (node r)) in
  (exists b, contents fs1 !! key_path = Some b /\ from_protobuf b = Ok (node_keys (node r))) /\
  handle_local_peer_id (node_handle r) = me /\ started r <> Err Panicked /\
  (forall es, Forall event_ok es ->
     let r' := foldl run_event r es in
     local_peer_id (loop r').1 = me /\
     exists i, shared_peers r' !! me = Some i /\ local i = true /\
       map_Forall (fun p j => peer_id j = p /\ (local j = true <-> p = me)) (shared_peers r')) /\
  (is_ok (started r) = false -> forall es i, run_event (foldl run_event r es) (Network_turn i) = foldl run_event r es) /\
  (forall lan transport k peers,
     (i ← Init (with_lan_and_transport lan transport (node_net (node r))) k peers; Ok (init_swarm i, Start_listening i)) =
     (i ← Init (node_net (node r)) k peers; Ok (init_swarm i, Start_listening i))).
Proof.
  intros Hs (n & i & Hm & Hi & ->)%main_inv me. destruct (main_start_ready _ _ _ _ _ _ _ _ _ Hs Hm) as [Hn Hready].
  pose proof (listening_never_panics _ _ _ _ Hi) as Hp. unfold Init in Hi. apply result_bind_Ok in Hi as (w & Hw & [= <-]).
  cbn [node started node_handle init_handle] in *. split_and!.
  - destruct Hready as [_ (b & Hb & _ & Hk) _ _ _]. by exists b.
  - done.
  - exact Hp.
  - intros es HF. set (r' := foldl run_event _ es). assert (self_known me r') as [[Hf [x Hx]] Hl].
    { apply run_keeps; [done|]. split; [|done]. unfold shared_peers. cbn. rewrite Hn. cbn [node_peers node_of node_keys]. apply wf_new. }
    split; [done|]. exists x. split; [done|]. split; [|done]. by apply (Hf _ _ Hx).
  - intros He es j. cbn [run_event]. by rewrite halted.
  - intros lan transport k peers. unfold Init. cbn [settings_of with_lan_and_transport]. by destruct (build_swarm k _).
Qed.
End launch.

(** ** Witness *)
Import Config.Plain_Toml.
Module Plain_Libp2p.
(** A swarm is what it accepts; it cannot listen on a port below zero. *)
#[global] Instance plain_libp2p : Libp2p bytes N N (gset string) := {|
  build_swarm _ _ := Ok ∅;
  random_peer n := N.of_nat (100 + n);
  read_addr s := Ok (N.of_nat (String.length s));
  kad_add_address _ _ w := w;
  listen_on _ w := Ok w;
  kad_bootstrap w := Ok w;
  accept p w := if decide (p ∈ w) then None else Some ({[p]} ∪ w);
  accepted w := w;
|}.
#[global] Instance plain_libp2p_laws : Libp2p_Laws bytes N N (gset string).
Proof.
  split; cbn; try by intros; simplify_eq.
  intros p w Hp. rewrite decide_False by done. by eexists.
Qed.
Definition first_run : result launch_error (Running (Keypair:=bytes) (PeerId:=N) (Multiaddr:=N) (Swarm:=gset string) (Channel:=nat)
    (OutboundRequestId:=N) (Waiter:=nat)) * Fs :=
  main Plain_Toml.nobody 5 "2026-06-15-10-00-00" [x07] false (fun _ => ∅) Plain_Toml.empty.
(** The node of the first start, launched. *)
Definition first_node : Node (Keypair:=bytes) (PeerId:=N) (Multiaddr:=N) :=
  node_of Plain_Toml.settings [x07] 5 "2026-06-15-10-00-00" false (fun _ => ∅).
Definition initialised : Initialised (PeerId:=N) (Multiaddr:=N) (Swarm:=gset string) (Channel:=nat) (OutboundRequestId:=N) (Waiter:=nat) :=
  mk_Initialised (mk_Network_Service 7%N (node_peers first_node) Inbound.New Outbound.New) (node_net first_node) ∅ Rendezvous.new
    (mk_NodeHandle 7%N 300).
Definition running : Running (Keypair:=bytes) :=
  mk_Running first_node (Start_listening (Keypair:=bytes) initialised) true (init_service initialised, init_rendezvous initialised)
    (init_handle initialised).
(** A peer connects, another component forgets everyone but this node and renames it,
    a command stops the loop, and a peer connects in vain. *)
Definition events : list (event (PeerId:=N) (Multiaddr:=N) (Channel:=nat) (OutboundRequestId:=N) (Waiter:=nat)) :=
  [Network_turn (L_swarm 6 (ConnectionEstablished 9%N 1%N)); Table_call Op_clear; Table_call (Op_set_local_name [x62]);
   Network_turn (L_command Network.Stop); Network_turn (L_swarm 7 (ConnectionEstablished 9%N 1%N))].
Definition step := run_event (Keypair:=bytes) (Swarm:=gset string) (Channel:=nat) (OutboundRequestId:=N) (Waiter:=nat) (fun p : N => [x61]) (fun _ => []) (fun _ => None) (fun _ => []) (fun _ => None)
  (fun m : gmap N (PeerInfo N N) => (map_to_list m).*2).
End Plain_Libp2p.
Import Plain_Libp2p.
Lemma launched_node_witness :
  exists fs1, first_run = (Ok running, fs1) /\ handle_local_peer_id (node_handle running) = 7%N /\ is_ok (started running) = true /\
    let r' := foldl step running events in
    looping r' = false /\ exists i, shared_peers r' !! 7%N = Some i /\ local i = true /\ dom (shared_peers r') = {[7%N]}.
Proof.
  destruct Plain_Toml.first as [r0 fs1] eqn:Hf.
  assert (r0 = Ok first_node) as -> by (unfold first_node; rewrite <- Plain_Toml.first_node, Hf; reflexivity).
  assert (first_run = (Ok running, fs1)) as E by (unfold first_run, main; change (main_start _ _ _ _ _ _ _) with Plain_Toml.first; rewrite Hf; reflexivity).
  exists fs1. split; [exact E|].
  destruct (launched_node (OutboundRequestId:=N) Plain_Toml.nobody (fun p : N => [x61]) (fun _ => []) (fun _ => None) (fun _ => []) (fun _ => None)
    (fun m : gmap N (PeerInfo N N) => (map_to_list m).*2) (fun m => Permutation_refl _) 5 "2026-06-15-10-00-00" [x07] false (fun _ => ∅)
    Plain_Toml.empty running fs1) as (_ & H2 & _ & H4 & _ & _).
  - apply (bool_decide_eq_true_1 _). vm_compute. reflexivity.
  - exact E.
  - split; [exact H2|]. split; [vm_compute; reflexivity|].
    destruct (H4 events) as (_ & i & Hi & Hl & _); [by repeat constructor|].
    split; [vm_compute; reflexivity|]. exists i. split; [exact Hi|]. split; [exact Hl|]. vm_compute. reflexivity.
Defined.
