(* ===== verification/TemplateFilters.v ===== *)
(** * Template filters ([render_with_minijinja] and [encode] of [context.rs])

    What the rewritten template of [ChatTemplate] is rendered with: the filters that
    stand for Python's string methods, the context, and the deprecated way to a prompt.
    The reference is Python's methods on lists of characters.  minijinja is a class. *)
From S2P Require Import Prelude RustStd ChatTemplate.

(** ** Characters *)
(** [str::chars], each as its UTF-8 encoding. *)
Fixpoint chars_of_fuel (fuel : nat) (l : bytes) : list bytes :=
  match fuel, l with
  | O, _ | _, [] => []
  | S fuel, _ => take (first_char_len l) l :: chars_of_fuel fuel (drop (first_char_len l) l)
  end.
Definition chars_of (l : bytes) : list bytes := chars_of_fuel (length l) l.

(** ** Filters *)
Definition startswith (s prefix : bytes) : bool := Str.starts_with prefix s.
Definition endswith (s suffix : bytes) : bool := Str.ends_with suffix s.
Fixpoint split_fuel (fuel : nat) (sep l : bytes) : list bytes :=
  match fuel with
  | O => [l]
  | S fuel =>
      match Str.find sep l with
      | Some i => take i l :: split_fuel fuel sep (drop (i + length sep) l)
      | None => [l]
      end
  end.
(** [str::split] finds an empty separator before, between and after the characters. *)
Definition split_filter (s sep : bytes) : list bytes :=
  match sep with [] => [] :: chars_of s ++ [[]] | _ => split_fuel (length s) sep s end.
Definition trim_start_matches (ws : list bytes) (s : bytes) : bytes := Str.strip ws (length s) s.
Definition trim_end_matches (ws : list bytes) (s : bytes) : bytes := rev (Str.strip (map (@rev byte) ws) (length s) (rev s)).
Definition lstrip (s : bytes) (cs : option bytes) : bytes :=
  match cs with None => Str.trim_start s | Some c => trim_start_matches (chars_of c) s end.
Definition rstrip (s : bytes) (cs : option bytes) : bytes :=
  match cs with None => Str.trim_end s | Some c => trim_end_matches (chars_of c) s end.
Definition strip_filter (s : bytes) (cs : option bytes) : bytes :=
  match cs with None => Str.trim s | Some c => trim_end_matches (chars_of c) (trim_start_matches (chars_of c) s) end.

(** ** Rendering *)
Inductive filter : Type :=
  | Is (f : bytes -> bytes -> bool)
  | Parts (f : bytes -> bytes -> list bytes)
  | Stripped (f : bytes -> option bytes -> bytes).
Inductive value : Type := V_str (s : bytes) | V_bool (b : bool) | V_seq (vs : list value) | V_map (kvs : list (string * value)).
Class Minijinja (Env Template : Type) : Type := {
  (** an empty environment whose undefined values are lenient *)
  new_lenient : Env;
  (** [minijinja_contrib::add_to_environment] *)
  add_python_builtins : Env -> Env;
  add_filter : string -> filter -> Env -> Env;
  add_template : bytes -> Env -> result string Template;
  render : list (string * value) -> Template -> result string bytes;
}.
Section render.
Context {Env Template : Type} `{!Minijinja Env Template}.
Definition filters : list (string * filter) :=
  [("startswith", Is startswith); ("endswith", Is endswith); ("split", Parts split_filter);
   ("lstrip", Stripped lstrip); ("rstrip", Stripped rstrip); ("strip", Stripped strip_filter)]%string.
Definition environment : Env := foldl (fun env '(name, f) => add_filter name f env) (add_python_builtins new_lenient) filters.
(** The keys of a [BTreeMap] are in order. *)
Definition message_value (m : Message) : value := V_map [("content", V_str (content m)); ("role", V_str (role m))]%string.
Definition render_context (messages : list Message) : list (string * value) :=
  [("messages", V_seq (map message_value messages)); ("add_generation_prompt", V_bool true)]%string.
Definition render_rewritten (tmpl : bytes) (messages : list Message) : result string bytes :=
  tmpl ← map_err (String.append "parse template: ") (add_template tmpl environment);
  map_err (String.append "render: ") (render (render_context messages) tmpl).
Definition chat_prompt (chat_template : option bytes) (messages : list Message) : bytes :=
  apply_chat_template render_rewritten chat_template messages.
End render.

(** [MlSession::encode], deprecated. *)
Definition user_prompt (text : bytes) : bytes :=
  lit "<|im_start|>user" ++ [x0a] ++ text ++ lit "<|im_end|>" ++ [x0a] ++ lit "<|im_start|>assistant" ++ [x0a].
Definition encode {Tok : Type} (encode_with_options : Tok -> bytes -> result string (list Z)) (tokenizer : option Tok) (text : bytes)
    : result string (list Z) :=
  t ← ok_or "encode: no tokenizer loaded. Call load_tokenizer() first."%string tokenizer;
  map_err (String.append "Encode failed: ") (encode_with_options t (user_prompt text)).

(** ** The reference: Python's methods on lists of characters *)
Fixpoint drop_while (set l : list bytes) : list bytes :=
  match l with [] => [] | x :: l' => if decide (x ∈ set) then drop_while set l' else l end.
Definition py_lstrip (set l : list bytes) : list bytes := drop_while set l.
Definition py_rstrip (set l : list bytes) : list bytes := rev (drop_while set (rev l)).
Definition py_strip (set l : list bytes) : list bytes := py_rstrip set (py_lstrip set l).
(** Python strips the information separators as white space too, Rust does not:
    they have no [White_Space] property. *)
Definition separators : list bytes := [[x1c]; [x1d]; [x1e]; [x1f]].
Definition py_white : list bytes := Str.white ++ separators.
Definition py_set (cs : option bytes) : list bytes := match cs with None => py_white | Some c => chars_of c end.
(** From the left: the characters of the part so far; [skip] characters of a
    separator that was found are left. *)
Fixpoint py_scan (sep : list bytes) (skip : nat) (part l : list bytes) : list (list bytes) :=
  match l with
  | [] => [part]
  | x :: l' =>
      match skip with
      | S skip => py_scan sep skip part l'
      | O => if decide (sep `prefix_of` l) then part :: py_scan sep (length sep - 1) [] l'
             else py_scan sep O (part ++ [x]) l'
      end
  end.
Definition py_split (sep l : list bytes) : list (list bytes) := py_scan sep O [] l.
(** ** Encodings *)
(** The encoding of one character: a first byte that tells the length, and bytes
    that are not first bytes. *)
Definition is_encoding (w : bytes) : bool :=
  match w with
  | [] => false
  | b :: r => negb (Utf8.is_cont b) && forallb Utf8.is_cont r && (length w =? first_char_len w)%nat
  end.
Lemma white_chars : Forall (fun w => is_encoding w = true) Str.white.
Proof. apply List.Forall_forall, (proj1 (forallb_forall _ _)). reflexivity. Qed.
Lemma first_not_cont b : bz b < 0x80 \/ 0xC0 <= bz b -> Utf8.is_cont b = false.
Proof. unfold Utf8.is_cont, Utf8.between. rewrite andb_false_iff, !Z.leb_gt. lia. Qed.
Lemma is_encoding_intro b r : bz b < 0x80 \/ 0xC0 <= bz b -> Forall (fun c => Utf8.is_cont c = true) r ->
  first_char_len (b :: r) = S (length r) -> is_encoding (b :: r) = true.
Proof.
  intros Hb%first_not_cont Hr Hl. unfold is_encoding. rewrite Hb, Hl. cbn [negb andb length]. rewrite Nat.eqb_refl, andb_true_r.
  by apply forallb_forall, List.Forall_forall.
Qed.
Lemma valid_step b l : Utf8.valid (b :: l) = true ->
  exists r l', l = r ++ l' /\ is_encoding (b :: r) = true /\ first_char_len (b :: l) = S (length r) /\ Utf8.valid l' = true.
Proof.
  assert (forall r l', l = r ++ l' -> bz b < 0x80 \/ 0xC0 <= bz b -> Forall (fun c => Utf8.is_cont c = true) r ->
    first_char_len (b :: r) = S (length r) -> Utf8.valid l' = true -> exists r l', l = r ++ l' /\ is_encoding (b :: r) = true /\
      first_char_len (b :: l) = S (length r) /\ Utf8.valid l' = true) as Hi.
  { intros r l' -> Hb Hr Hl Hv. exists r, l'. split_and!; [done|by apply is_encoding_intro|done|done]. }
  cbn [Utf8.valid]. unfold Utf8.between.
  repeat case_match; try done; intros Hv; rewrite ?andb_true_iff in Hv; destruct_and?; simplify_eq;
    rewrite ?andb_true_iff, ?andb_false_iff, ?Z.leb_le, ?Z.leb_gt, ?Z.ltb_lt, ?Z.ltb_ge in *.
  - apply (Hi [] l); done || lia || (cbn; case_match; [done|lia]).
  - eapply (Hi [_] _); try done; [lia|by repeat constructor|]. cbn. rewrite (proj2 (Z.ltb_ge _ _)), (proj2 (Z.ltb_lt _ _)); done || lia.
  - eapply (Hi [_; _] _); try done; [lia|by repeat constructor; eauto using Utf8.second_ok_cont|]. cbn.
    rewrite (proj2 (Z.ltb_ge _ _)), (proj2 (Z.ltb_ge (bz b) 0xE0)), (proj2 (Z.ltb_lt _ _)); done || lia.
  - eapply (Hi [_; _; _] _); try done; [lia|by repeat constructor; eauto using Utf8.second_ok_cont|]. cbn.
    rewrite !(proj2 (Z.ltb_ge _ _)); done || lia.
Qed.
Lemma chars_fuel_valid fuel l : (length l <= fuel)%nat -> Utf8.valid l = true ->
  Forall (fun w => is_encoding w = true) (chars_of_fuel fuel l) /\ concat (chars_of_fuel fuel l) = l.
Proof.
  revert l. induction fuel as [|fuel IH]; intros l Hf Hv; [by destruct l; [|cbn in Hf; lia]|].
  destruct l as [|b l]; [by split|]. destruct (valid_step b l Hv) as (r & l' & -> & Hc & Hl & Hv').
  cbn [chars_of_fuel]. rewrite Hl. change (b :: r ++ l') with ((b :: r) ++ l').
  rewrite take_app_length' by done. rewrite drop_app_length' by done.
  destruct (IH l') as [H1 H2]; [cbn in Hf; rewrite length_app in Hf; lia|done|].
  split; [by constructor|]. cbn [concat]. by rewrite H2.
Qed.
Lemma chars_valid l : Utf8.valid l = true -> Forall (fun w => is_encoding w = true) (chars_of l) /\ concat (chars_of l) = l.
Proof. by apply chars_fuel_valid. Qed.

(** *** No character begins or ends another one *)
Lemma is_encoding_inv w : is_encoding w = true -> exists b r, w = b :: r /\ Utf8.is_cont b = false /\
  Forall (fun c => Utf8.is_cont c = true) r /\ first_char_len w = length w.
Proof.
  destruct w as [|b r]; [done|]. unfold is_encoding. rewrite !andb_true_iff, negb_true_iff, Nat.eqb_eq, forallb_forall.
  intros [[Hb Hr] Hl]. exists b, r. split_and!; try done. by apply List.Forall_forall.
Qed.
Lemma first_char_len_app w k : w <> [] -> first_char_len (w ++ k) = first_char_len w.
Proof. by destruct w. Qed.
Lemma char_prefix w x k : is_encoding w = true -> is_encoding x = true -> Str.starts_with w (x ++ k) = true <-> w = x.
Proof.
  intros (b & r & -> & _ & _ & Hw)%is_encoding_inv (c & q & -> & _ & _ & Hx)%is_encoding_inv. split; [|intros ->; apply Str.starts_with_app].
  intros [k' E]%Str.starts_with_spec.
  assert (first_char_len ((c :: q) ++ k) = first_char_len ((b :: r) ++ k')) as El by (by rewrite E).
  rewrite !first_char_len_app, Hw, Hx in El by done. symmetry. by apply app_inj_1 in E as [E _].
Qed.
Lemma cont_suffix (b c : byte) r q k k' : Utf8.is_cont b = false -> Utf8.is_cont c = false ->
  Forall (fun c => Utf8.is_cont c = true) r -> Forall (fun c => Utf8.is_cont c = true) q ->
  k ++ b :: r = k' ++ c :: q -> (length r <= length q)%nat -> b = c /\ r = q.
Proof.
  intros Hb Hc Hr Hq E Hl. assert (length r = length q) as Hlen.
  { destruct (decide (length r = length q)) as [|Hn]; [done|]. exfalso.
    assert (length (k ++ b :: r) = length (k' ++ c :: q)) as EL by (by rewrite E). rewrite !length_app in EL. cbn in EL.
    assert ((k ++ b :: r) !! length k = Some b) as E1 by (by apply list_lookup_middle).
    rewrite E, lookup_app_r in E1 by lia. destruct (length k - length k')%nat as [|n] eqn:En; [lia|]. cbn in E1.
    apply (proj1 (Forall_lookup _ _) Hq) in E1. cbn in E1. congruence. }
  apply app_inj_2 in E as [_ E]; [|by cbn; rewrite Hlen]. by simplify_eq.
Qed.
Lemma char_suffix w x k : is_encoding w = true -> is_encoding x = true -> Str.starts_with (rev w) (rev x ++ k) = true <-> w = x.
Proof.
  intros (b & r & -> & Hb & Hr & _)%is_encoding_inv (c & q & -> & Hc & Hq & _)%is_encoding_inv. split; [|intros ->; apply Str.starts_with_app].
  intros [k' E]%Str.starts_with_spec. apply (f_equal (@rev byte)) in E. rewrite !rev_app_distr, !rev_involutive in E.
  destruct (decide (length r <= length q)%nat) as [Hl|Hl].
  - destruct (cont_suffix b c r q (rev k') (rev k)) as [-> ->]; done || congruence.
  - destruct (cont_suffix c b q r (rev k) (rev k')) as [-> ->]; done || congruence || lia.
Qed.

(** *** Stripping *)
Notation all_chars := (Forall (fun w => is_encoding w = true)).
Lemma strip_one_found ws (f : bytes -> bytes) x l : x ∈ ws -> (forall w, w ∈ ws -> Str.starts_with (f w) (f x ++ l) = true <-> w = x) ->
  Str.strip_one (map f ws) (f x ++ l) = Some l.
Proof.
  intros Hx Hw. unfold Str.strip_one. destruct (List.find _ _) as [y|] eqn:E.
  - apply List.find_some in E as [(w & <- & Hin)%in_map_iff Hs]. apply Hw in Hs; [|by apply list_elem_of_In]. subst w.
    by rewrite drop_app_length.
  - assert (Str.starts_with (f x) (f x ++ l) = false) as Hn; [|by rewrite Str.starts_with_app in Hn].
    apply (List.find_none _ _ E). by apply in_map, list_elem_of_In.
Qed.
Lemma strip_one_stop ws (f : bytes -> bytes) x l : x ∉ ws -> (forall w, w ∈ ws -> Str.starts_with (f w) (f x ++ l) = true <-> w = x) ->
  Str.strip_one (map f ws) (f x ++ l) = None.
Proof.
  intros Hx Hw. apply Str.strip_one_None, Forall_forall. intros y (w & <- & Hin%list_elem_of_In)%list_elem_of_In%in_map_iff.
  destruct (Str.starts_with _ _) eqn:E; [|done]. apply Hw in E; [|done]. by subst.
Qed.
(** [f] is the identity when characters are taken from the front, [rev] from the end. *)
Lemma strip_chars (f : bytes -> bytes) ws cs fuel :
  (forall w x k, is_encoding w = true -> is_encoding x = true -> Str.starts_with (f w) (f x ++ k) = true <-> w = x) ->
  (forall x, is_encoding x = true -> f x <> []) ->
  all_chars ws -> all_chars cs -> (length (concat (map f cs)) <= fuel)%nat ->
  Str.strip (map f ws) fuel (concat (map f cs)) = concat (map f (drop_while ws cs)).
Proof.
  intros Hp Hne Hws Hcs. revert fuel. induction Hcs as [|x cs Hx Hcs IH]; intros fuel Hf; cbn [map concat drop_while].
  - apply Str.strip_stop, Str.strip_one_None, Forall_forall. intros y (w & <- & Hin%list_elem_of_In)%list_elem_of_In%in_map_iff.
    pose proof (Hne w (proj1 (Forall_forall _ _) Hws w Hin)). by destruct (f w).
  - assert (forall w, w ∈ ws -> Str.starts_with (f w) (f x ++ concat (map f cs)) = true <-> w = x) as Hw.
    { intros w Hin. apply Hp; [|done]. by apply (proj1 (Forall_forall _ _) Hws). }
    case_decide as Hin; [|by apply Str.strip_stop, strip_one_stop].
    cbn [map concat] in Hf. rewrite length_app in Hf. pose proof (Hne x Hx). assert (0 < length (f x))%nat by (destruct (f x); cbn; done || lia).
    destruct fuel as [|fuel]; [lia|]. cbn [Str.strip]. rewrite strip_one_found by done. apply IH. lia.
Qed.
Lemma char_nonempty x : is_encoding x = true -> x <> [].
Proof. by destruct x. Qed.
Lemma rev_nonempty x : is_encoding x = true -> rev x <> [].
Proof. destruct x; [done|]. cbn. intros _ E. by apply app_eq_nil in E as [_ ?]. Qed.
Lemma rev_concat (cs : list bytes) : rev (concat cs) = concat (map (@rev byte) (rev cs)).
Proof.
  induction cs as [|x cs IH]; [done|]. cbn [concat rev]. rewrite map_app, concat_app, rev_app_distr, IH. cbn. by rewrite app_nil_r.
Qed.
Lemma drop_while_chars ws cs : all_chars cs -> all_chars (drop_while ws cs).
Proof. induction 1 as [|x cs Hx Hcs IH]; cbn [drop_while]; [done|]. case_decide; [done|by constructor]. Qed.
Lemma all_chars_rev cs : all_chars cs -> all_chars (rev cs).
Proof. rewrite !List.Forall_forall. intros H x Hx. by apply H, in_rev. Qed.
Lemma trim_start_chars ws cs : all_chars ws -> all_chars cs ->
  trim_start_matches ws (concat cs) = concat (py_lstrip ws cs).
Proof.
  intros Hw Hc. unfold trim_start_matches, py_lstrip. rewrite <- (map_id ws) at 1. rewrite <- (map_id cs) at 1 2.
  rewrite strip_chars; [by rewrite map_id|exact char_prefix|exact char_nonempty|done..].
Qed.
Lemma trim_end_chars ws cs : all_chars ws -> all_chars cs ->
  trim_end_matches ws (concat cs) = concat (py_rstrip ws cs).
Proof.
  intros Hw Hc. unfold trim_end_matches, py_rstrip. rewrite <- length_rev. rewrite rev_concat.
  rewrite strip_chars; [|exact char_suffix|exact rev_nonempty|done|by apply all_chars_rev|done].
  rewrite <- (rev_involutive (drop_while ws (rev cs))) at 1. by rewrite <- rev_concat, rev_involutive.
Qed.
(** The set the code strips. *)
Definition rust_set (cs : option bytes) : list bytes := match cs with None => Str.white | Some c => chars_of c end.
Lemma rust_set_chars c : (forall x, c = Some x -> Utf8.valid x = true) -> all_chars (rust_set c).
Proof. destruct c as [x|]; [|intros; apply white_chars]. intros H. by apply chars_valid, H. Qed.
Lemma drop_while_app ws extra l : Forall (fun x => x ∉ extra) l -> drop_while (ws ++ extra) l = drop_while ws l.
Proof.
  induction 1 as [|x l Hx _ IH]; [done|]. cbn [drop_while]. rewrite IH. repeat case_decide; try done.
  all: rewrite elem_of_app in *; tauto.
Qed.
Lemma drop_while_Forall (P : bytes -> Prop) ws l : Forall P l -> Forall P (drop_while ws l).
Proof. induction 1 as [|x l Hx Hl IH]; cbn [drop_while]; [done|]. case_decide; [done|by constructor]. Qed.
Section strips.
Variables (s : bytes) (c : option bytes).
Hypotheses (Hs : Utf8.valid s = true) (Hc : forall x, c = Some x -> Utf8.valid x = true).
Hypothesis (Hsep : c = None -> Forall (fun w => w ∉ separators) (chars_of s)).
Lemma py_drop l : (c = None -> Forall (fun w => w ∉ separators) l) -> drop_while (py_set c) l = drop_while (rust_set c) l.
Proof. destruct c; [done|]. intros Hl. by apply drop_while_app, Hl. Qed.
Lemma lstrip_py : lstrip s c = concat (py_lstrip (py_set c) (chars_of s)).
Proof.
  unfold py_lstrip. rewrite py_drop by done. destruct (chars_valid s Hs) as [Hs1 Hs2]. rewrite <- Hs2 at 1.
  pose proof (rust_set_chars c Hc). by destruct c; apply trim_start_chars.
Qed.
Lemma rstrip_py : rstrip s c = concat (py_rstrip (py_set c) (chars_of s)).
Proof.
  unfold py_rstrip. rewrite py_drop by (intros ->; by apply Forall_rev, Hsep). destruct (chars_valid s Hs) as [Hs1 Hs2].
  rewrite <- Hs2 at 1. pose proof (rust_set_chars c Hc). by destruct c; apply trim_end_chars.
Qed.
Lemma strip_py : strip_filter s c = concat (py_strip (py_set c) (chars_of s)).
Proof.
  unfold py_strip, py_rstrip, py_lstrip. rewrite (py_drop (chars_of s)) by done.
  rewrite py_drop by (intros ->; by apply Forall_rev, drop_while_Forall, Hsep).
  destruct (chars_valid s Hs) as [Hs1 Hs2]. pose proof (rust_set_chars c Hc).
  assert (strip_filter s c = trim_end_matches (rust_set c) (trim_start_matches (rust_set c) s)) as -> by (by destruct c).
  rewrite <- Hs2 at 1. rewrite trim_start_chars by done. apply trim_end_chars; [done|by apply drop_while_chars].
Qed.
End strips.
(** Without a set, the four separators are the only characters that differ. *)
Lemma one_char_strip w : Utf8.valid w = true -> chars_of w = [w] ->
  strip_filter w None = concat (py_strip py_white [w]) <-> w ∉ separators.
Proof.
  intros Hv Hw. split.
  - intros E Hin. unfold separators in Hin. rewrite !elem_of_cons in Hin. destruct Hin as [->|[->|[->|[->|Hin]]]]; try (by vm_compute in E).
    by apply elem_of_nil in Hin.
  - intros Hn. rewrite <- Hw. apply (strip_py w None Hv); [done|]. intros _. rewrite Hw. by constructor.
Qed.

(** *** Splitting *)
(** Where the first occurrence is, in characters. *)
Fixpoint char_find (sep l : list bytes) : option nat :=
  match l with
  | [] => None
  | _ :: l' => if decide (sep `prefix_of` l) then Some O else S <$> char_find sep l'
  end.
Lemma starts_with_chars ds cs : all_chars ds -> all_chars cs ->
  Str.starts_with (concat ds) (concat cs) = bool_decide (ds `prefix_of` cs).
Proof.
  intros Hds Hcs. apply eq_bool_prop_intro. rewrite bool_decide_spec, Is_true_true, Str.starts_with_spec.
  split; [|intros [k ->]; exists (concat k); apply concat_app].
  intros [k E]. revert cs Hcs k E. induction Hds as [|d ds Hd Hds IH]; intros cs Hcs k E; [apply prefix_nil|].
  cbn [concat] in E. destruct Hcs as [|x cs Hx Hcs]; [by destruct d|]. cbn [concat] in E.
  assert (d = x) as ->.
  { apply (char_prefix d x (concat cs)); [done..|]. rewrite E, <- app_assoc. apply Str.starts_with_app. }
  rewrite <- app_assoc in E. apply app_inv_head in E. by apply prefix_cons, (IH cs Hcs k).
Qed.
Lemma find_cont b p r l : Utf8.is_cont b = false -> Forall (fun c => Utf8.is_cont c = true) r ->
  Str.find (b :: p) (r ++ l) = Nat.add (length r) <$> Str.find (b :: p) l.
Proof.
  intros Hb Hr. induction Hr as [|c r Hc Hr IH]; cbn [app length].
  - by destruct (Str.find _ l).
  - cbn [Str.find Str.starts_with]. rewrite decide_False by congruence. rewrite IH. by destruct (Str.find _ l).
Qed.
Lemma find_chars ds cs : ds <> [] -> all_chars ds -> all_chars cs ->
  Str.find (concat ds) (concat cs) = (fun n => length (concat (take n cs))) <$> char_find ds cs.
Proof.
  intros Hne Hds Hcs. destruct Hds as [|d ds Hd Hds]; [done|]. pose proof Hd as (b & p & -> & Hb & _)%is_encoding_inv.
  assert (all_chars ((b :: p) :: ds)) as Hall by (by constructor). induction Hcs as [|x cs Hx Hcs IH]; [done|].
  pose proof (starts_with_chars _ (x :: cs) Hall ltac:(by constructor)) as Hsw.
  pose proof Hx as (c & r & -> & _ & Hr & _)%is_encoding_inv. cbn [char_find concat app] in *. cbn [Str.find].
  rewrite Hsw. destruct (decide _) as [Hp|Hp]; [by rewrite bool_decide_eq_true_2|]. rewrite bool_decide_eq_false_2 by done.
  rewrite (find_cont b) by done. rewrite IH. destruct (char_find _ cs); [|done]. cbn. by rewrite List.length_app.
Qed.
Lemma py_scan_skip sep k l : py_scan sep k [] l = py_scan sep O [] (drop k l).
Proof. revert k. by induction l as [|x l IH]; intros [|k]; cbn [drop]; [..|apply IH]. Qed.
Lemma py_scan_find sep part l : sep <> [] -> py_scan sep O part l =
  match char_find sep l with
  | Some n => (part ++ take n l) :: py_split sep (drop (n + length sep) l)
  | None => [part ++ l]
  end.
Proof.
  intros Hsep. revert part. induction l as [|x l IH]; intros part; cbn [py_scan char_find]; [by rewrite app_nil_r|].
  case_decide.
  - rewrite py_scan_skip, app_nil_r. destruct sep; [done|]. cbn [length drop Nat.add]. by rewrite Nat.sub_succ, Nat.sub_0_r.
  - rewrite IH. destruct (char_find sep l); cbn; by rewrite <- app_assoc.
Qed.
Lemma char_find_prefix sep l n : char_find sep l = Some n -> exists k, l = take n l ++ sep ++ k.
Proof.
  revert n. induction l as [|x l IH]; intros n; cbn [char_find]; [done|]. case_decide as Hp.
  - intros [= <-]. exact Hp.
  - destruct (char_find sep l) as [m|]; [|done]. intros [= <-]. destruct (IH m eq_refl) as [k Hk]. exists k. cbn. by rewrite <- Hk.
Qed.
Lemma split_chars fuel ds cs : ds <> [] -> all_chars ds -> all_chars cs -> (length (concat cs) <= fuel)%nat ->
  split_fuel fuel (concat ds) (concat cs) = map (@concat byte) (py_split ds cs).
Proof.
  intros Hne Hds. revert cs. induction fuel as [|fuel IH]; intros cs Hcs Hf; cbn [split_fuel].
  - destruct Hcs as [|x cs Hx _]; [done|]. apply char_nonempty in Hx. cbn [concat] in Hf. rewrite length_app in Hf. destruct x; cbn in *; done || lia.
  - unfold py_split. rewrite py_scan_find, find_chars by done. destruct (char_find ds cs) as [n|] eqn:E; cbn [fmap option_fmap option_map map app]; [|done].
    apply char_find_prefix in E as [k Hk]. set (a := take n cs) in *.
    assert (drop (n + length ds) cs = k) as Hdrop.
    { rewrite Hk at 1. rewrite app_assoc. apply drop_app_length'. rewrite length_app. f_equal. unfold a. rewrite length_take.
      apply (f_equal length) in Hk. rewrite !length_app in Hk. unfold a in Hk. rewrite length_take in Hk. destruct ds; cbn in *; done || lia. }
    rewrite Hdrop, Hk, !concat_app, take_app_length, app_assoc, drop_app_length' by (by rewrite length_app). f_equal.
    rewrite Hk, !concat_app, !length_app in Hf. rewrite Hk, !Forall_app in Hcs. destruct Hcs as (_ & _ & Hk'). apply IH; [done|].
    destruct Hds as [|d ds Hd _]; [done|]. apply char_nonempty in Hd. cbn [concat] in Hf. rewrite length_app in Hf. destruct d; cbn in *; done || lia.
Qed.
Lemma split_py s sep : Utf8.valid s = true -> Utf8.valid sep = true -> sep <> [] ->
  split_filter s sep = map (@concat byte) (py_split (chars_of sep) (chars_of s)).
Proof.
  intros [Hs1 Hs2]%chars_valid [Hp1 Hp2]%chars_valid Hne. rewrite <- split_chars with (fuel := length s); [|intros E|done..|by rewrite Hs2].
  - rewrite Hs2, Hp2. by destruct sep.
  - by rewrite E in Hp2.
Qed.

(** ** Theorems *)
(** C28: the filters registered for a template against the Python methods they are
    named after, on the characters of a text. With a set, the strip family takes away
    what Python takes: the longest run of characters of the set at its ends, never a
    part of a character. Without a set it does so on every text without one of the
    four information separators U+001C to U+001F, which Python strips and Rust does
    not; of the texts of one character exactly these differ. Tests are those of a
    prefix and a suffix. With a separator that is not empty, a split gives the parts of
    Python's scan from the left; the empty one, an error of Python, gives the
    characters between two empty parts. (A split without a separator is not offered.) *)
Theorem filters_are_python s x :
  Utf8.valid s = true -> (forall c, x = Some c -> Utf8.valid c = true) ->
  ((x = None -> Forall (fun w => w ∉ separators) (chars_of s)) ->
    lstrip s x = concat (py_lstrip (py_set x) (chars_of s)) /\
    rstrip s x = concat (py_rstrip (py_set x) (chars_of s)) /\
    strip_filter s x = concat (py_strip (py_set x) (chars_of s))) /\
  (chars_of s = [s] -> strip_filter s None = concat (py_strip py_white [s]) <-> s ∉ separators) /\
  concat (chars_of s) = s /\
  (forall p, (startswith s p = true <-> exists k, s = p ++ k) /\ (endswith s p = true <-> exists k, s = k ++ p)) /\
  (forall sep, Utf8.valid sep = true -> sep <> [] ->
    split_filter s sep = map (@concat byte) (py_split (chars_of sep) (chars_of s))) /\
  split_filter s [] = [] :: chars_of s ++ [[]].
Proof.
  intros Hs Hx. split_and!; [intros Hn; split_and!; [by apply lstrip_py|by apply rstrip_py|by apply strip_py]
    |by apply one_char_strip|by apply chars_valid| |by intros; apply split_py|done].
  intros p. split; [apply Str.starts_with_spec|apply Str.starts_with_rev].
Qed.
Lemma fallback_snoc ms m : fallback_qwen3_template (ms ++ [m]) =
  foldl (fun r m => r ++ lit "<|im_start|>" ++ role m ++ [x0a] ++ content m ++ lit "<|im_end|>" ++ [x0a]) [] ms ++
  lit "<|im_start|>" ++ role m ++ [x0a] ++ content m ++ lit "<|im_end|>" ++ [x0a] ++ lit "<|im_start|>assistant" ++ [x0a].
Proof. unfold fallback_qwen3_template. rewrite foldl_app. cbn [foldl]. by rewrite <- !app_assoc. Qed.
(** Without a template, the deprecated [encode] and [encode_messages] give the
    tokenizer the same text for one message of a user. The text of a message is not
    quoted: one message can be written that is read as several turns. *)
Theorem prompts_agree_and_forge {Env Template : Type} `{!Minijinja Env Template} ms text r answer role' question :
  chat_prompt None [mk_message (lit "user") text] = user_prompt text /\
  chat_prompt None (ms ++ [mk_message r text; mk_message (lit "assistant") answer; mk_message role' question]) =
  chat_prompt None (ms ++ [mk_message r (text ++ lit "<|im_end|>" ++ [x0a] ++ lit "<|im_start|>assistant" ++ [x0a] ++ answer ++
    lit "<|im_end|>" ++ [x0a] ++ lit "<|im_start|>" ++ role' ++ [x0a] ++ question)]).
Proof.
  unfold chat_prompt, apply_chat_template. split.
  { unfold fallback_qwen3_template, user_prompt. cbn [foldl role content]. rewrite <- !app_assoc. reflexivity. }
  change [mk_message r text; mk_message (lit "assistant") answer; mk_message role' question]
    with ([mk_message r text; mk_message (lit "assistant") answer] ++ [mk_message role' question]).
  rewrite app_assoc, !fallback_snoc, foldl_app. cbn [foldl role content]. rewrite <- !app_assoc. done.
Qed.

(** ** Witness *)
(** A text with characters of one, two and three bytes, and a set that shares their
    first byte with one of them: whole characters go, or stay. *)
Definition accented : bytes := lit " " ++ [xc3; xa9] ++ [xe4; xbd; xa0] ++ lit "x" ++ [xc3; xa9] ++ lit " ".
Lemma filters_are_python_witness :
  strip_filter accented None = [xc3; xa9] ++ [xe4; xbd; xa0] ++ lit "x" ++ [xc3; xa9] /\
  strip_filter accented (Some (lit " " ++ [xc3; xa9])) = [xe4; xbd; xa0] ++ lit "x" /\
  lstrip accented (Some (lit " " ++ [xc3; xa8])) = drop 1 accented /\
  split_filter accented [xc3; xa9] = [lit " "; [xe4; xbd; xa0] ++ lit "x"; lit " "] /\
  (strip_filter [x1f] None = [] <-> False).
Proof.
  assert (Utf8.valid accented = true) as Hs by reflexivity.
  assert (forall c, Utf8.valid c = true -> forall d, Some c = Some d -> Utf8.valid d = true) as Hv by (by intros c ? d [= <-]).
  destruct (filters_are_python accented None Hs) as (H1 & _ & _ & _ & H4 & _); [done|].
  destruct H1 as (_ & _ & H1); [intros _; refine (bool_decide_unpack _ _); vm_compute; exact I|].
  destruct (filters_are_python accented (Some (lit " " ++ [xc3; xa9])) Hs) as (H2 & _); [by apply Hv|]. destruct H2 as (_ & _ & H2); [done|].
  destruct (filters_are_python accented (Some (lit " " ++ [xc3; xa8])) Hs) as (H3 & _); [by apply Hv|]. destruct H3 as (H3 & _); [done|].
  rewrite H1, H2, H3, H4 by (reflexivity || discriminate). split_and!; [vm_compute; reflexivity..|].
  destruct (filters_are_python [x1f] None eq_refl) as (_ & H5 & _); [done|].
  change [] with (concat (py_strip py_white [[x1f]])) at 1. rewrite (H5 eq_refl).
  split; [|done]. intros Hn. apply Hn. refine (bool_decide_unpack _ _). vm_compute. exact I.
Defined.
