(* ===== verification/DsReader.v ===== *)
(** * DeepSeek V3 from a reader ([New] and [From_GGUF_Reader] of [deepseek_v3.rs])

    The second way to build the model of [DeepSeekV3], through a reader that hands
    out the tensors of a file by name, and its agreement with the first one, the
    assembly from extracted tensors.  The reader's type ([GGUF], [GGUF_Reader]) is
    not in the repository, nor is any documentation of it: it is a class with the
    operations the code calls.  That it reads the tensors of one file, the laws, is an
    assumption of [reader_agrees], made for the comparison and not known of the type. *)
From S2P Require Import Prelude RustStd Cursor KvCache Gguf Qwen3 DeepSeekV3.

(** [gg: &mut GGUF_Reader<R>]; candle's readers move in the file. *)
Class GGUF_Reader (R Ct File Dev QTensor QMatMul RmsNorm : Type) : Type := {
  gg_New : Ct -> File -> Dev -> R;
  gg_Qmatmul : string -> R -> result string QMatMul * R;
  gg_Rms_Norm : string -> real -> R -> result string RmsNorm * R;
  gg_Tensor : string -> R -> result string QTensor * R;
  gg_device : R -> Dev;
  gg_Metadata : R -> gmap string Value;
}.

(** Computations over a reader, which can fail or panic. *)
Definition reads (R A : Type) : Type := R -> result (fault string) A * R.
#[global] Instance reads_ret R : MRet (reads R) := fun A a r => (Ok a, r).
#[global] Instance reads_bind R : MBind (reads R) := fun A B f m r =>
  match m r with (Ok a, r) => f a r | (Err e, r) => (Err e, r) end.
Definition pure_ {R A} (x : result (fault string) A) : reads R A := fun r => (x, r).
Definition asks {R A} (f : R -> A) : reads R A := fun r => (Ok (f r), r).
Definition call {R A} (op : R -> result string A * R) : reads R A := fun r => let (x, r) := op r in (lift x, r).
(** [match m { Ok(t) => t, Err(_) => m'? }] *)
Definition or_call {R A} (op op' : R -> result string A * R) : reads R A :=
  fun r => let (x, r) := op r in match x with Ok a => (Ok a, r) | Err _ => call op' r end.

Section reader.
Context {T Dev QTensor QMatMul RmsNorm Embedding Cache Linear R Ct File : Type}.
Context `{!Gguf} `{!Nn T Dev QTensor QMatMul RmsNorm Embedding Cache} `{!Nn_V3 T QTensor Linear}.
Context `{!GGUF_Reader R Ct File Dev QTensor QMatMul RmsNorm}.
Notation MLA := (MLA_Weights (T:=T) (QMatMul:=QMatMul) (RmsNorm:=RmsNorm) (Linear:=Linear)).
Notation MoE_w := (DeepSeekMoE_Weights (T:=T) (QTensor:=QTensor) (QMatMul:=QMatMul)).
Notation Layer := (DeepSeek_Layer (T:=T) (QTensor:=QTensor) (QMatMul:=QMatMul) (RmsNorm:=RmsNorm) (Linear:=Linear)).
Context (chk : bool).

(** ** Reading *)
Definition read_k_b (key : string) : reads R Linear :=
  k_b_qt ← call (gg_Tensor key);
  dev ← asks gg_device;
  deq ← pure_ (lift (dequantize k_b_qt dev));
  w ← (match dims deq with
       | [d0; d1; d2] =>
           p ← pure_ (lift (permute deq [0; 2; 1])); rows ← pure_ (usize_of chk (d0 * d2)); pure_ (lift (reshape p [rows; d1]))
       | _ => mret deq
       end : reads R T);
  mret (linear_new w).
Definition read_v_b (key : string) (n_heads v_head_dim : Z) : reads R Linear :=
  v_b_qt ← call (gg_Tensor key);
  dev ← asks gg_device;
  deq ← pure_ (lift (dequantize v_b_qt dev));
  w ← (match dims deq with
       | [d0; d1; d2] => rows ← pure_ (usize_of chk (d0 * d1)); pure_ (lift (reshape deq [rows; d2]))
       | ds =>
           out_dim ← pure_ (usize_of chk (n_heads * v_head_dim));
           if out_dim =? 0 then pure_ (Err Panicked) else pure_ (lift (reshape deq [out_dim; product ds / out_dim]))
       end : reads R T);
  mret (linear_new w).
Definition MLA_Read (heads q_lora kv_lora rope_dim nope_dim vdim : Z) (eps : real) (rot : Rotary_Embedding) (prefix : string)
    : reads R MLA :=
  q_a ← call (gg_Qmatmul (prefix +:+ ".attn_q_a.weight")%string);
  q_norm ← call (gg_Rms_Norm (prefix +:+ ".attn_q_a_norm.weight")%string eps);
  q_b ← call (gg_Qmatmul (prefix +:+ ".attn_q_b.weight")%string);
  kv_a ← call (gg_Qmatmul (prefix +:+ ".attn_kv_a_mqa.weight")%string);
  kv_norm ← call (gg_Rms_Norm (prefix +:+ ".attn_kv_a_norm.weight")%string eps);
  k_b ← read_k_b (prefix +:+ ".attn_k_b.weight")%string;
  v_b ← read_v_b (prefix +:+ ".attn_v_b.weight")%string heads vdim;
  o_proj ← call (gg_Qmatmul (prefix +:+ ".attn_output.weight")%string);
  q_dim ← pure_ (usize_of chk (nope_dim + rope_dim));
  mret (mk_MLA q_a q_norm q_b kv_a kv_norm k_b v_b o_proj heads q_lora kv_lora rope_dim nope_dim vdim q_dim rot MLA_New).
Definition MoE_Read (top_k : Z) (factor : real) (dt : dtype_tag) (prefix : string) : reads R MoE_w :=
  shared_gate ← call (gg_Qmatmul (prefix +:+ ".ffn_gate_shexp.weight")%string);
  shared_up ← call (gg_Qmatmul (prefix +:+ ".ffn_up_shexp.weight")%string);
  shared_down ← call (gg_Qmatmul (prefix +:+ ".ffn_down_shexp.weight")%string);
  gate_experts ← call (gg_Tensor (prefix +:+ ".ffn_gate_exps.weight")%string);
  up_experts ← call (gg_Tensor (prefix +:+ ".ffn_up_exps.weight")%string);
  down_experts ← call (gg_Tensor (prefix +:+ ".ffn_down_exps.weight")%string);
  gate_qt ← call (gg_Tensor (prefix +:+ ".ffn_gate_inp.weight")%string);
  dev ← asks gg_device;
  w ← pure_ (lift (dequantize gate_qt dev));
  gate ← pure_ (lift (to_dtype w DtF32));
  mret (mk_DeepSeekMoE shared_gate shared_up shared_down
    (mk_FusedMoe gate gate_experts up_experts down_experts true top_k dt) factor).
(** Every layer has experts, computing with half precision. *)
Definition Layer_Read (heads q_lora kv_lora rope_dim nope_dim vdim top_k : Z) (factor eps : real) (rot : Rotary_Embedding) (layer_idx : Z)
    : reads R Layer :=
  let prefix := layer_prefix layer_idx in
  ln1 ← call (gg_Rms_Norm (prefix +:+ ".attn_norm.weight")%string eps);
  ln2 ← call (gg_Rms_Norm (prefix +:+ ".ffn_norm.weight")%string eps);
  mla ← MLA_Read heads q_lora kv_lora rope_dim nope_dim vdim eps rot prefix;
  moe ← MoE_Read top_k factor DtF16 prefix;
  mret (mk_DeepSeek_Layer mla (V3MoE moe) ln1 ln2).
Definition config_layer (c : DeepSeek_Config) (rot : Rotary_Embedding) (i : Z) : reads R Layer :=
  Layer_Read (c_n_heads c) (c_q_lora_rank c) (c_kv_lora_rank c) (c_qk_rope_dim c) (c_qk_nope_dim c) (c_v_head_dim c)
    (top_k c) (c_routed_scaling_factor c) (c_rms_norm_eps c) rot i.
Fixpoint Layers_Read (c : DeepSeek_Config) (rot : Rotary_Embedding) (n : nat) (i : Z) : reads R (list Layer) :=
  match n with
  | O => mret []
  | S n => y ← config_layer c rot i; ys ← Layers_Read c rot n (i + 1); mret (y :: ys)
  end.
Definition architecture_of (md : gmap string Value) : string := default "deepseek_v3"%string (md !! "general.architecture"%string ≫= to_str).
Definition dtype_of (md : gmap string Value) : dtype_tag :=
  match md !! "general.dtype"%string with
  | Some v => match to_u32 v with Some 0 => DtF32 | _ => DtF16 end
  | None => DtF16
  end.
Definition read_model (device : Dev) : reads R (DeepSeek_Model (T:=T) (QTensor:=QTensor) (Embedding:=Embedding) (Linear:=Linear)) :=
  md ← asks gg_Metadata;
  config ← pure_ (DeepSeek_From_Metadata md chk (architecture_of md));
  let dtype := dtype_of md in
  embed_tensor ← call (gg_Tensor "token_embd.weight"%string);
  e ← pure_ (lift (dequantize embed_tensor device));
  let embed_tokens := embedding_new e (c_hidden_size config) in
  rotary ← pure_ (lift (Rotary_New dtype (c_qk_rope_dim config) (max_position_embeddings config) (c_rope_freq_base config) device));
  layers ← Layers_Read config rotary (Z.to_nat (num_layers config)) 0;
  norm ← call (gg_Rms_Norm "output_norm.weight"%string (c_rms_norm_eps config));
  lm_head_tensor ← or_call (gg_Tensor "output.weight"%string) (gg_Tensor "token_embd.weight"%string);
  lm_head ← pure_ (lift (qmatmul_from_weights lm_head_tensor));
  mret (mk_Model (Some embed_tokens) layers (Some norm) (Some lm_head) device dtype).
Definition From_GGUF_Reader (ct : Ct) (reader : File) (device : Dev) :=
  (read_model device (gg_New ct reader device)).1.
End reader.

(** ** Theorems *)
Section agree.
Context {T Dev QTensor QMatMul RmsNorm Embedding Cache Linear R Ct File : Type}.
Context `{!Gguf} `{!Nn T Dev QTensor QMatMul RmsNorm Embedding Cache} `{!Nn_V3 T QTensor Linear}.
Context `{!GGUF_Reader R Ct File Dev QTensor QMatMul RmsNorm}.
(** The tensors of the file a reader is on. A call leaves the file as it is. *)
Context (stored : R -> gmap string QTensor).
Definition view (r : R) : gmap string QTensor * Dev * gmap string Value := (stored r, gg_device r, gg_Metadata r).
Class GGUF_Reader_Laws : Prop := {
  new_device ct f d : gg_device (gg_New ct f d) = d;
  tensor_kept key r : view (gg_Tensor key r).2 = view r;
  tensor_read key r qt : (gg_Tensor key r).1 = Ok qt <-> stored r !! key = Some qt;
  qmatmul_kept key r : view (gg_Qmatmul key r).2 = view r;
  qmatmul_read key r w : (gg_Qmatmul key r).1 = Ok w <-> exists qt, stored r !! key = Some qt /\ qmatmul_from_weights qt = Ok w;
  rms_norm_kept key eps r : view (gg_Rms_Norm key eps r).2 = view r;
  rms_norm_read key eps r n : (gg_Rms_Norm key eps r).1 = Ok n <-> exists qt, stored r !! key = Some qt /\ rmsnorm_from_qtensor qt eps = Ok n;
}.
Context `{!GGUF_Reader_Laws} (chk : bool).
Context (ts0 : gmap string QTensor) (dev : Dev) (md : gmap string Value).

(** [m] keeps the file, and its results are those [P] describes. *)
Definition spec {A} (m : reads R A) (P : A -> Prop) : Prop :=
  forall r, view r = (ts0, dev, md) -> view (m r).2 = (ts0, dev, md) /\ forall a, (m r).1 = Ok a <-> P a.
Lemma spec_bind {A B} (m : reads R A) (f : A -> reads R B) P Q :
  spec m P -> (forall a, P a -> spec (f a) (Q a)) -> spec (m ≫= f) (fun b => exists a, P a /\ Q a b).
Proof.
  intros Hm Hf r Hr. destruct (Hm r Hr) as [H1 H2]. unfold mbind, reads_bind. destruct (m r) as [[a|e] r1]; cbn [fst snd] in *.
  - assert (P a) as Ha by (by apply H2). destruct (Hf a Ha r1 H1) as [H3 H4]. split; [done|]. intros b. rewrite H4. split; [by eauto|].
    intros (a' & Ha' & Hq). apply H2 in Ha'. by simplify_eq.
  - split; [done|]. intros b. split; [done|]. intros (a & Ha%H2 & _). done.
Qed.
Lemma spec_mono {A} (m : reads R A) P Q : spec m P -> (forall a, P a <-> Q a) -> spec m Q.
Proof. intros Hm HPQ r Hr. destruct (Hm r Hr) as [H1 H2]. split; [done|]. intros a. by rewrite H2. Qed.
(** A step with one possible result. *)
Lemma spec_known {A B} (m : reads R A) (f : A -> reads R B) a0 Q :
  spec m (fun a => a = a0) -> spec (f a0) Q -> spec (m ≫= f) Q.
Proof.
  intros Hm Hf. eapply (spec_mono (m ≫= f)).
  - eapply (spec_bind m f _ (fun _ => Q)); [exact Hm|]. by intros a ->.
  - intros b. cbn. naive_solver.
Qed.
Lemma spec_ret {A} (a : A) : spec (mret a) (fun b => b = a).
Proof. intros r Hr. split; [done|]. intros b. cbn. split; [by intros [= ->]|by intros ->]. Qed.
Lemma spec_pure {A} (x : result (fault string) A) : spec (pure_ x) (fun a => x = Ok a).
Proof. intros r Hr. by split. Qed.
Lemma lift_Ok {A} (x : result string A) a : lift x = Ok a <-> x = Ok a.
Proof. destruct x; cbn; split; intros; by simplify_eq. Qed.
Lemma spec_lift {A} (x : result string A) : spec (pure_ (lift x)) (fun a => x = Ok a).
Proof. eapply spec_mono; [apply spec_pure|]. intros a. apply lift_Ok. Qed.
Lemma spec_call {A} (op : R -> result string A * R) (P : gmap string QTensor -> A -> Prop) :
  (forall r, view (op r).2 = view r) -> (forall r a, (op r).1 = Ok a <-> P (stored r) a) -> spec (call op) (P ts0).
Proof.
  intros Hk Hp r Hr. unfold call. specialize (Hk r). specialize (Hp r). destruct (op r) as [x r1]. cbn in *.
  split; [congruence|]. intros a. rewrite lift_Ok, Hp. injection Hr as -> _ _. done.
Qed.
Definition raw_of (ts : gmap string QTensor) (key : string) (qt : QTensor) : Prop := ts !! key = Some qt.
Definition mm_of (ts : gmap string QTensor) (key : string) (w : QMatMul) : Prop := exists qt, ts !! key = Some qt /\ qmatmul_from_weights qt = Ok w.
Definition norm_of (ts : gmap string QTensor) (key : string) (eps : real) (n : RmsNorm) : Prop :=
  exists qt, ts !! key = Some qt /\ rmsnorm_from_qtensor qt eps = Ok n.
Lemma spec_tensor key : spec (call (gg_Tensor key)) (raw_of ts0 key).
Proof. apply (spec_call _ (fun ts => raw_of ts key)); [apply tensor_kept|intros; apply tensor_read]. Qed.
Lemma spec_mm key : spec (call (gg_Qmatmul key)) (mm_of ts0 key).
Proof. apply (spec_call _ (fun ts => mm_of ts key)); [apply qmatmul_kept|intros; apply qmatmul_read]. Qed.
Lemma spec_norm key eps : spec (call (gg_Rms_Norm key eps)) (norm_of ts0 key eps).
Proof. apply (spec_call _ (fun ts => norm_of ts key eps)); [apply rms_norm_kept|intros; apply rms_norm_read]. Qed.
Lemma spec_dev : spec (asks gg_device) (fun d => d = dev).
Proof. intros r Hr. split; [done|]. cbn. injection Hr as _ <- _. intros a. split; [by intros [= <-]|by intros ->]. Qed.
Lemma spec_metadata : spec (asks gg_Metadata) (fun d => d = md).
Proof. intros r Hr. split; [done|]. cbn. injection Hr as _ _ <-. intros a. split; [by intros [= <-]|by intros ->]. Qed.
Lemma spec_Ok {A} (m : reads R A) P r a : spec m P -> view r = (ts0, dev, md) -> (m r).1 = Ok a <-> P a.
Proof. intros Hm Hr. by apply (Hm r Hr). Qed.

(** The same of computations that take tensors out of a table. *)
Definition yields {E A} (m : result E A) (P : A -> Prop) : Prop := forall a, m = Ok a <-> P a.
Lemma yields_bind {E A B} (m : result E A) (f : A -> result E B) P Q :
  yields m P -> (forall a, P a -> yields (f a) (Q a)) -> yields (m ≫= f) (fun b => exists a, P a /\ Q a b).
Proof.
  intros Hm Hf b. destruct m as [a|e] eqn:Em; cbn.
  - assert (P a) as Ha by (by apply Hm). rewrite (Hf a Ha b). split; [by eauto|]. intros (a' & Ha'%Hm & Hq). by simplify_eq.
  - split; [done|]. by intros (a & Ha%Hm & _).
Qed.
(** A value taken out, after which the table is [s]. *)
Lemma yields_take {E A B S} (m : result E (A * S)) (f : A -> S -> result E B) P s Q :
  yields m (fun x => P x.1 /\ x.2 = s) -> (forall a, P a -> yields (f a s) (Q a)) ->
  yields ('(a, t) ← m; f a t) (fun b => exists a, P a /\ Q a b).
Proof.
  intros Hm Hf b. destruct m as [[a t]|e] eqn:Em; cbn.
  - destruct (proj1 (Hm (a, t)) eq_refl) as [Ha Ht]. cbn in Ha, Ht. subst t. rewrite (Hf a Ha b). split; [by eauto|].
    intros (a' & Ha' & Hq). assert (Ok (a, s) = Ok (a', s) :> result E (A * S)) as [= ->]; [|done]. by apply Hm.
  - split; [done|]. intros (a & Ha & _). assert (Err e = Ok (a, s) :> result E (A * S)); [|done]. by apply Hm.
Qed.
Lemma yields_mono {E A} (m : result E A) P Q : yields m P -> (forall a, P a <-> Q a) -> yields m Q.
Proof. intros Hm HPQ a. by rewrite (Hm a). Qed.
Lemma yields_lift {A} (m : result string A) P : yields m P -> yields (lift m) P.
Proof. intros Hm a. rewrite lift_Ok. apply Hm. Qed.
Lemma yields_Ok {E A} (m : result E A) : yields m (fun a => m = Ok a).
Proof. done. Qed.
Lemma yields_ret {E A} (a : A) : yields (Ok a : result E A) (fun b => b = a).
Proof. intros b. split; [by intros [= ->]|by intros ->]. Qed.
Lemma yields_tensor m key ts : yields (take_tensor m key ts) (fun x => raw_of ts key x.1 /\ x.2 = delete key ts).
Proof. unfold take_tensor, raw_of. intros [qt t]. destruct (ts !! key); cbn; [|naive_solver]. split; [by intros [= <- <-]|]. by intros [[= ->] ->]. Qed.
Lemma yields_listed key ts : yields (take_listed key ts) (fun x => raw_of ts key x.1 /\ x.2 = delete key ts).
Proof. unfold take_listed, raw_of. intros [qt t]. destruct (ts !! key); cbn; [|naive_solver]. split; [by intros [= <- <-]|]. by intros [[= ->] ->]. Qed.
(** A tensor taken, then a fallible step on it. *)
Lemma yields_taken {A} (m : result string (QTensor * gmap string QTensor)) (f : QTensor -> result string A) key ts :
  yields m (fun x => raw_of ts key x.1 /\ x.2 = delete key ts) ->
  yields ('(qt, ts) ← m; w ← f qt; Ok (w, ts)) (fun x => (exists qt, ts !! key = Some qt /\ f qt = Ok x.1) /\ x.2 = delete key ts).
Proof.
  intros Hm. eapply yields_mono.
  { eapply yields_take; [exact Hm|]. intros qt Hq. eapply yields_bind; [apply yields_Ok|]. intros w _. apply yields_ret. }
  intros [w t]. cbn. unfold raw_of. naive_solver.
Qed.
Lemma yields_mm key ts : yields (lift (V3_Take_Qmatmul ts key)) (fun x => mm_of ts key x.1 /\ x.2 = delete key ts).
Proof. apply yields_lift, yields_taken, yields_listed. Qed.
Lemma yields_norm eps key ts : yields (lift (V3_Take_Rmsnorm eps ts key)) (fun x => norm_of ts key eps x.1 /\ x.2 = delete key ts).
Proof. apply yields_lift, (yields_taken _ (fun qt => rmsnorm_from_qtensor qt eps)), yields_listed. Qed.
Lemma yields_norm' eps key ts : yields (lift (Take_Rmsnorm eps ts key)) (fun x => norm_of ts key eps x.1 /\ x.2 = delete key ts).
Proof. apply yields_lift, (yields_taken _ (fun qt => rmsnorm_from_qtensor qt eps)), yields_tensor. Qed.
Lemma yields_mm' key ts : yields (moe_weights ts key) (fun x => mm_of ts key x.1 /\ x.2 = delete key ts).
Proof. apply yields_taken, yields_tensor. Qed.

(** Opens conjunctions and existentials. *)
Ltac destruct_and_ex := repeat match goal with H : _ /\ _ |- _ => destruct H | H : exists _, _ |- _ => destruct H end.

(** ** The two halves of the latent projections *)
Definition half_of (ts : gmap string QTensor) (key : string) (perm : option (list Z)) (rows : Z) (l : Linear) : Prop :=
  exists qt deq p wt, ts !! key = Some qt /\ dequantize qt dev = Ok deq /\
    match perm with Some s => permute deq s | None => Ok deq end = Ok p /\
    reshape p [rows; product (dims deq) / rows] = Ok wt /\ l = linear_new wt.
(** The tensor under [key] has three dimensions, of which [f] are the rows. *)
Definition three_dims (ts : gmap string QTensor) (key : string) (f : Z -> Z -> Z -> Z) (rows : Z) : Prop :=
  0 < rows < 2 ^ 64 /\
  forall qt deq, ts !! key = Some qt -> dequantize qt dev = Ok deq -> exists a b c, dims deq = [a; b; c] /\ f a b c = rows.
Lemma usize_small n : 0 <= n < 2 ^ 64 -> usize_of chk n = Ok n.
Proof. intros ?. unfold usize_of. by rewrite (proj2 (Z.leb_le _ _)), (proj2 (Z.ltb_lt _ _)) by lia. Qed.
Lemma yields_3d key ts f rows perm : three_dims ts key f rows ->
  yields (load_3d_linear ts key dev rows perm) (fun x => half_of ts key perm rows x.1 /\ x.2 = delete key ts).
Proof.
  intros [Hr Hd]. unfold load_3d_linear. eapply yields_mono.
  { eapply yields_take; [apply yields_lift, yields_tensor|]. intros qt Hq.
    eapply yields_bind; [apply yields_lift, yields_Ok|]. intros deq Hdeq.
    destruct (Hd qt deq Hq Hdeq) as (a & b & c & Hdim & _). rewrite Hdim. cbn [length Nat.eqb]. rewrite <- Hdim.
    rewrite (proj2 (Z.eqb_neq rows 0)) by lia.
    eapply yields_bind; [apply yields_lift, yields_Ok|]. intros p _.
    eapply yields_bind; [apply yields_lift, yields_Ok|]. intros wt _. apply yields_ret. }
  intros [l t]. cbn. unfold half_of, raw_of. naive_solver.
Qed.
Lemma spec_k_b key rows : three_dims ts0 key (fun a _ c => a * c) rows ->
  spec (read_k_b chk key) (half_of ts0 key (Some [0; 2; 1]) rows).
Proof.
  intros [Hr Hd]. unfold read_k_b. eapply spec_mono.
  { eapply spec_bind; [apply spec_tensor|]. intros qt Hq. eapply spec_known; [apply spec_dev|].
    eapply spec_bind; [apply spec_lift|]. intros deq Hdeq. eapply spec_bind; [|intros w _; apply spec_ret].
    instantiate (1 := fun w => exists p, permute deq [0; 2; 1] = Ok p /\ reshape p [rows; product (dims deq) / rows] = Ok w).
    destruct (Hd qt deq Hq Hdeq) as (a & b & c & Hdim & Hrows). rewrite Hdim.
    eapply spec_bind; [apply spec_lift|]. intros p Hp. rewrite Hrows.
    replace (product [a; b; c] / rows) with b
      by (cbn [product foldr]; rewrite <- Hrows; apply Z.div_unique_exact; [lia|ring]).
    eapply spec_mono; [eapply spec_bind; [apply spec_pure|intros n _; apply spec_lift]|].
    intros w. rewrite usize_small by lia. split; [by intros (n & [= <-] & ?)|by eauto]. }
  intros l. unfold half_of, raw_of. naive_solver.
Qed.
Lemma spec_v_b key heads vdim : three_dims ts0 key (fun a b _ => a * b) (heads * vdim) ->
  spec (read_v_b chk key heads vdim) (half_of ts0 key None (heads * vdim)).
Proof.
  intros [Hr Hd]. unfold read_v_b. eapply spec_mono.
  { eapply spec_bind; [apply spec_tensor|]. intros qt Hq. eapply spec_known; [apply spec_dev|].
    eapply spec_bind; [apply spec_lift|]. intros deq Hdeq. eapply spec_bind; [|intros w _; apply spec_ret].
    instantiate (1 := fun w => reshape deq [heads * vdim; product (dims deq) / (heads * vdim)] = Ok w).
    destruct (Hd qt deq Hq Hdeq) as (a & b & c & Hdim & Hrows). rewrite Hdim, Hrows.
    replace (product [a; b; c] / (heads * vdim)) with c
      by (cbn [product foldr]; rewrite <- Hrows; apply Z.div_unique_exact; [lia|ring]).
    eapply spec_mono; [eapply spec_bind; [apply spec_pure|intros n _; apply spec_lift]|].
    intros w. rewrite usize_small by lia. split; [by intros (n & [= <-] & ?)|by eauto]. }
  intros l. unfold half_of, raw_of. naive_solver.
Qed.

(** ** Layers *)
Section layers.
Context (heads q_lora kv_lora rope_dim nope_dim vdim top_k : Z) (factor eps : real) (rot : Rotary_Embedding (T:=T)).
Notation MLA := (MLA_Weights (T:=T) (QMatMul:=QMatMul) (RmsNorm:=RmsNorm) (Linear:=Linear)).
Notation MoE_w := (DeepSeekMoE_Weights (T:=T) (QTensor:=QTensor) (QMatMul:=QMatMul)).
Notation Layer := (DeepSeek_Layer (T:=T) (QTensor:=QTensor) (QMatMul:=QMatMul) (RmsNorm:=RmsNorm) (Linear:=Linear)).
(** What the attention of a layer is in terms of the tensors of the file. *)
Definition mla_of (ts : gmap string QTensor) (p : string) (a : MLA) : Prop :=
  mm_of ts (p +:+ ".attn_q_a.weight")%string (q_a a) /\ norm_of ts (p +:+ ".attn_q_a_norm.weight")%string eps (q_norm a) /\
  mm_of ts (p +:+ ".attn_q_b.weight")%string (q_b a) /\ mm_of ts (p +:+ ".attn_kv_a_mqa.weight")%string (kv_a a) /\
  norm_of ts (p +:+ ".attn_kv_a_norm.weight")%string eps (kv_norm a) /\
  half_of ts (p +:+ ".attn_k_b.weight")%string (Some [0; 2; 1]) (heads * nope_dim) (k_b a) /\
  half_of ts (p +:+ ".attn_v_b.weight")%string None (heads * vdim) (v_b a) /\ mm_of ts (p +:+ ".attn_output.weight")%string (o_proj a) /\
  exists q_dim, usize_of chk (nope_dim + rope_dim) = Ok q_dim /\
    a = mk_MLA (q_a a) (q_norm a) (q_b a) (kv_a a) (kv_norm a) (k_b a) (v_b a) (o_proj a) heads q_lora kv_lora rope_dim nope_dim
      vdim q_dim rot MLA_New.
Definition moe_of (ts : gmap string QTensor) (p : string) (m : MoE_w) : Prop :=
  mm_of ts (p +:+ ".ffn_gate_shexp.weight")%string (shared_gate m) /\ mm_of ts (p +:+ ".ffn_up_shexp.weight")%string (shared_up m) /\
  mm_of ts (p +:+ ".ffn_down_shexp.weight")%string (shared_down m) /\
  raw_of ts (p +:+ ".ffn_gate_exps.weight")%string (gate_experts (routed m)) /\
  raw_of ts (p +:+ ".ffn_up_exps.weight")%string (up_experts (routed m)) /\
  raw_of ts (p +:+ ".ffn_down_exps.weight")%string (down_experts (routed m)) /\
  (exists qt w, raw_of ts (p +:+ ".ffn_gate_inp.weight")%string qt /\ dequantize qt dev = Ok w /\ to_dtype w DtF32 = Ok (gate (routed m))) /\
  m = mk_DeepSeekMoE (shared_gate m) (shared_up m) (shared_down m)
    (mk_FusedMoe (gate (routed m)) (gate_experts (routed m)) (up_experts (routed m)) (down_experts (routed m)) true top_k DtF16) factor.
Definition layer_of (ts : gmap string QTensor) (p : string) (y : Layer) : Prop :=
  norm_of ts (p +:+ ".attn_norm.weight")%string eps (v3_ln1 y) /\ norm_of ts (p +:+ ".ffn_norm.weight")%string eps (v3_ln2 y) /\
  mla_of ts p (mla y) /\ exists m, ffn y = V3MoE m /\ moe_of ts p m.
(** The key and value halves have three dimensions that make up the heads. *)
Definition halves (ts : gmap string QTensor) (p : string) : Prop :=
  three_dims ts (p +:+ ".attn_k_b.weight")%string (fun a _ c => a * c) (heads * nope_dim) /\
  three_dims ts (p +:+ ".attn_v_b.weight")%string (fun a b _ => a * b) (heads * vdim).

(** *** From the reader *)
Lemma spec_mla p : halves ts0 p -> spec (MLA_Read chk heads q_lora kv_lora rope_dim nope_dim vdim eps rot p) (mla_of ts0 p).
Proof.
  intros [Hk Hv]. unfold MLA_Read. eapply spec_mono.
  { repeat (eapply spec_bind; [first [apply spec_mm | apply spec_norm | by apply spec_k_b | by apply spec_v_b | apply spec_pure]|intros ? ?]).
    apply spec_ret. }
  intros a. unfold mla_of. split; [intros; destruct_and_ex; subst; cbn; by eauto 20|].
  intros (H1 & H2 & H3 & H4 & H5 & H6 & H7 & H8 & q & Hq & E). eauto 25.
Qed.
Lemma spec_moe p : spec (MoE_Read top_k factor DtF16 p) (moe_of ts0 p).
Proof.
  unfold MoE_Read. eapply spec_mono.
  { repeat (eapply spec_bind; [first [apply spec_mm | apply spec_tensor]|intros ? ?]). eapply spec_known; [apply spec_dev|].
    repeat (eapply spec_bind; [apply spec_lift|intros ? ?]). apply spec_ret. }
  intros a. unfold moe_of. split; [intros; destruct_and_ex; subst; cbn; by eauto 20|].
  intros (H1 & H2 & H3 & H4 & H5 & H6 & (qt & w & H7 & H8 & H9) & E). eauto 25.
Qed.
Lemma spec_layer i : halves ts0 (layer_prefix i) ->
  spec (Layer_Read chk heads q_lora kv_lora rope_dim nope_dim vdim top_k factor eps rot i) (layer_of ts0 (layer_prefix i)).
Proof.
  intros Hh. unfold Layer_Read. eapply spec_mono.
  { repeat (eapply spec_bind; [first [apply spec_norm | by apply spec_mla | apply spec_moe]|intros ? ?]). apply spec_ret. }
  intros y. unfold layer_of. split; [intros; destruct_and_ex; subst; cbn; by eauto 20|].
  intros (H1 & H2 & H3 & m & Hm & H4). destruct y as [a f n1 n2]. cbn in *. subst f. eauto 20.
Qed.

(** *** From extracted tensors *)
Lemma key_ne (p s s' : string) : s <> s' -> (p +:+ s)%string <> (p +:+ s')%string.
Proof. intros Hs E. apply Hs. revert E. induction p as [|c p IH]; cbn; [done|]. by intros [= ?%IH]. Qed.
Section deletes.
Context (ts : gmap string QTensor) (k key : string) (Hne : k <> key).
Lemma raw_delete qt : raw_of (delete k ts) key qt = raw_of ts key qt.
Proof. unfold raw_of. by rewrite lookup_delete_ne. Qed.
Lemma mm_delete w : mm_of (delete k ts) key w = mm_of ts key w.
Proof. unfold mm_of. by rewrite lookup_delete_ne. Qed.
Lemma norm_delete n : norm_of (delete k ts) key eps n = norm_of ts key eps n.
Proof. unfold norm_of. by rewrite lookup_delete_ne. Qed.
Lemma rows_delete perm rows l : half_of (delete k ts) key perm rows l = half_of ts key perm rows l.
Proof. unfold half_of. by rewrite lookup_delete_ne. Qed.
Lemma three_delete f rows : three_dims (delete k ts) key f rows = three_dims ts key f rows.
Proof. unfold three_dims. by rewrite lookup_delete_ne. Qed.
End deletes.
Ltac undelete := rewrite ?raw_delete, ?mm_delete, ?norm_delete, ?rows_delete, ?three_delete in * by (apply key_ne; discriminate).
(** The tables left after the attention and before the experts. *)
Definition after_mla (p : string) (ts : gmap string QTensor) : gmap string QTensor :=
  foldl (fun ts s => delete (p +:+ s)%string ts) ts
    [".attn_q_a.weight"; ".attn_q_a_norm.weight"; ".attn_q_b.weight"; ".attn_kv_a_mqa.weight"; ".attn_kv_a_norm.weight"; ".attn_k_b.weight";
     ".attn_v_b.weight"; ".attn_output.weight"]%string.
Lemma halves_usize n : 0 < n < 2 ^ 64 -> usize_of chk n = Ok n.
Proof. intros ?. apply usize_small. lia. Qed.
Lemma yields_mla ts p : halves ts p ->
  yields (MLA_From_Extracted chk ts heads q_lora kv_lora rope_dim nope_dim vdim eps rot dev p)
    (fun x => mla_of ts p x.1 /\ x.2 = after_mla p ts).
Proof.
  intros [Hk Hv]. unfold MLA_From_Extracted. rewrite (halves_usize (heads * nope_dim)) by apply Hk. rewrite (halves_usize (heads * vdim)) by apply Hv. eapply yields_mono.
  { do 5 (eapply yields_take; [first [apply yields_mm | apply yields_norm]|intros ? ?]). cbn [mbind result_bind].
    eapply yields_take; [eapply yields_3d; undelete; exact Hk|intros ? ?]. eapply yields_take; [eapply yields_3d; undelete; exact Hv|intros ? ?].
    eapply yields_take; [apply yields_mm|intros ? ?]. eapply yields_bind; [apply yields_Ok|intros ? ?]. apply yields_ret. }
  intros [a t]. unfold mla_of. cbn [fst snd]. split.
  - intros. destruct_and_ex. simplify_eq. undelete. cbn. by eauto 20.
  - intros [(H1 & H2 & H3 & H4 & H5 & H6 & H7 & H8 & q & Hq & E) ->].
    do 8 (eexists; split; [undelete; eassumption|]). exists q. split; [done|]. by rewrite <- E.
Qed.
Definition after_moe (p : string) (ts : gmap string QTensor) : gmap string QTensor :=
  foldl (fun ts s => delete (p +:+ s)%string ts) ts
    [".ffn_gate_shexp.weight"; ".ffn_up_shexp.weight"; ".ffn_down_shexp.weight"; ".ffn_gate_inp.weight"; ".ffn_gate_exps.weight";
     ".ffn_up_exps.weight"; ".ffn_down_exps.weight"]%string.
Lemma yields_moe ts p :
  yields (DeepSeekMoE_From_Extracted ts top_k factor DtF16 dev p) (fun x => moe_of ts p x.1 /\ x.2 = after_moe p ts).
Proof.
  unfold DeepSeekMoE_From_Extracted. eapply yields_mono.
  { do 3 (eapply yields_take; [apply yields_mm'|intros ? ?]). eapply yields_take; [apply yields_tensor|intros ? ?].
    do 2 (eapply yields_bind; [apply yields_Ok|intros ? ?]). do 3 (eapply yields_take; [apply yields_tensor|intros ? ?]). apply yields_ret. }
  intros [m t]. unfold moe_of. cbn [fst snd]. split.
  - intros. destruct_and_ex. simplify_eq. undelete. cbn. by eauto 20.
  - intros [(H1 & H2 & H3 & H4 & H5 & H6 & (qt & w & H7 & H8 & H9) & E) ->].
    do 3 (eexists; split; [undelete; eassumption|]). exists qt. split; [undelete; done|]. exists w. split; [done|].
    eexists. split; [exact H9|]. do 3 (eexists; split; [undelete; eassumption|]). by rewrite <- E.
Qed.
Definition after_norms (p : string) (ts : gmap string QTensor) : gmap string QTensor :=
  delete (p +:+ ".ffn_norm.weight")%string (delete (p +:+ ".attn_norm.weight")%string ts).
Lemma moe_after ts p m : moe_of (after_mla p (after_norms p ts)) p m = moe_of ts p m.
Proof.
  unfold moe_of, raw_of, mm_of, after_mla, after_norms. cbn [foldl].
  by rewrite !lookup_delete_ne by (apply key_ne; discriminate).
Qed.
Lemma mla_after ts p a : mla_of (after_norms p ts) p a = mla_of ts p a.
Proof.
  unfold mla_of, norm_of, mm_of, half_of, after_norms. by rewrite !lookup_delete_ne by (apply key_ne; discriminate).
Qed.
Lemma halves_after ts p : halves (after_norms p ts) p = halves ts p.
Proof. unfold halves, three_dims, after_norms. by rewrite !lookup_delete_ne by (apply key_ne; discriminate). Qed.
(** With a router, the assembly finds experts; so does the reader, which looks for
    nothing else. *)
Lemma yields_layer (New_Dense : gmap string QTensor -> string -> result string (Mlp_Weights (QMatMul:=QMatMul) * gmap string QTensor)) ts i :
  let p := layer_prefix i in
  halves ts p -> is_Some (ts !! (p +:+ ".ffn_gate_inp.weight")%string) ->
  yields (V3_Layer_From_Extracted chk New_Dense ts heads q_lora kv_lora rope_dim nope_dim vdim top_k factor eps rot i dev DtF16) (layer_of ts p).
Proof.
  intros p Hh [rt Hr]. unfold V3_Layer_From_Extracted. fold p. eapply yields_mono.
  { do 2 (eapply yields_take; [apply yields_norm'|intros ? ?]). fold (after_norms p ts).
    eapply yields_take; [apply yields_mla; by rewrite halves_after|intros ? ?].
    eapply (yields_bind _ _ (fun f => exists m, f = V3MoE m /\ moe_of ts p m)); [|intros ? ?; apply yields_ret].
    unfold after_mla at 1, after_norms at 1. cbn [foldl]. rewrite !lookup_delete_ne by (apply key_ne; discriminate). rewrite Hr.
    eapply yields_mono; [eapply yields_take; [apply yields_lift, yields_moe|intros ? ?; apply yields_ret]|].
    intros f. cbn. setoid_rewrite moe_after. naive_solver. }
  intros y. unfold layer_of. setoid_rewrite mla_after. split.
  - intros. destruct_and_ex. subst. undelete. cbn. by eauto 25.
  - intros (H1 & H2 & H3 & m & Hm & H4). do 2 (eexists; split; [undelete; eassumption|]).
    eexists. split; [exact H3|]. exists (ffn y). split; [by eauto|]. by destruct y.
Qed.
(** A layer is read exactly if the file has a router for it and its tensors
    assemble. *)
Lemma layer_reads New_Dense i : halves ts0 (layer_prefix i) ->
  spec (Layer_Read chk heads q_lora kv_lora rope_dim nope_dim vdim top_k factor eps rot i) (fun y =>
    is_Some (ts0 !! (layer_prefix i +:+ ".ffn_gate_inp.weight")%string) /\
    V3_Layer_From_Extracted chk New_Dense ts0 heads q_lora kv_lora rope_dim nope_dim vdim top_k factor eps rot i dev DtF16 = Ok y).
Proof.
  intros Hh. eapply spec_mono; [by apply spec_layer|]. intros y. split.
  - intros Hy. assert (is_Some (ts0 !! (layer_prefix i +:+ ".ffn_gate_inp.weight")%string)) as Hr.
    { destruct Hy as (_ & _ & _ & m & _ & _ & _ & _ & _ & _ & _ & (qt & w & Hq & _) & _). by exists qt. }
    split; [done|]. by apply yields_layer.
  - intros [Hr Hy]. by apply (yields_layer New_Dense ts0 i Hh Hr).
Qed.
End layers.

(** ** The model *)
Context (New_Dense : gmap string QTensor -> string -> result string (Mlp_Weights (QMatMul:=QMatMul) * gmap string QTensor)).
Notation Layer := (DeepSeek_Layer (T:=T) (QTensor:=QTensor) (QMatMul:=QMatMul) (RmsNorm:=RmsNorm) (Linear:=Linear)).
Notation Model := (DeepSeek_Model (T:=T) (Dev:=Dev) (QTensor:=QTensor) (QMatMul:=QMatMul) (RmsNorm:=RmsNorm) (Embedding:=Embedding)
  (Linear:=Linear)).
(** Layer [i] as it is assembled from the tensors of the file. *)
Definition assembled (c : DeepSeek_Config) (rot : Rotary_Embedding) (i : Z) : result (fault string) Layer :=
  V3_Layer_From_Extracted chk New_Dense ts0 (c_n_heads c) (c_q_lora_rank c) (c_kv_lora_rank c) (c_qk_rope_dim c) (c_qk_nope_dim c)
    (c_v_head_dim c) (top_k c) (c_routed_scaling_factor c) (c_rms_norm_eps c) rot i dev DtF16.
Definition has_router (i : Z) : Prop := is_Some (ts0 !! (layer_prefix i +:+ ".ffn_gate_inp.weight")%string).
Definition config_halves (c : DeepSeek_Config) (i : Z) : Prop :=
  halves (c_n_heads c) (c_qk_nope_dim c) (c_v_head_dim c) ts0 (layer_prefix i).
Definition layers_of (c : DeepSeek_Config) (rot : Rotary_Embedding) (n : nat) (i : Z) (ys : list Layer) : Prop :=
  length ys = n /\ forall j y, ys !! j = Some y -> has_router (i + Z.of_nat j) /\ assembled c rot (i + Z.of_nat j) = Ok y.
Lemma spec_layers c rot n i : (forall j, i <= j < i + Z.of_nat n -> config_halves c j) ->
  spec (Layers_Read chk c rot n i) (layers_of c rot n i).
Proof.
  revert i. induction n as [|n IH]; intros i Hh; cbn [Layers_Read].
  - eapply spec_mono; [apply spec_ret|]. intros ys. unfold layers_of. split; [intros ->; by split|].
    intros [Hl _]. by destruct ys.
  - eapply spec_mono.
    { eapply spec_bind; [apply (layer_reads _ _ _ _ _ _ _ _ _ _ New_Dense), Hh; lia|]. intros y _.
      eapply spec_bind; [apply IH; intros; apply Hh; lia|]. intros ys _. apply spec_ret. }
    intros ys. unfold layers_of. split.
    + intros (y & Hy & ys' & [Hl Hys] & ->). split; [by cbn; rewrite Hl|]. intros [|j] y'; cbn.
      * intros [= <-]. by replace (i + Z.of_nat 0) with i by lia.
      * intros Hj%Hys. by replace (i + Z.of_nat (S j)) with (i + 1 + Z.of_nat j) by lia.
    + intros [Hl Hys]. destruct ys as [|y ys]; [done|]. exists y. split.
      { specialize (Hys 0%nat y eq_refl). by replace (i + Z.of_nat 0) with i in Hys by lia. }
      exists ys. split; [|done]. split; [by injection Hl|]. intros j y' Hj. specialize (Hys (S j) y' Hj).
      by replace (i + Z.of_nat (S j)) with (i + 1 + Z.of_nat j) in Hys by lia.
Qed.
Lemma spec_or_call k k' : spec (or_call (gg_Tensor k) (gg_Tensor k')) (fun qt => ts0 !! k = Some qt \/ ts0 !! k = None /\ ts0 !! k' = Some qt).
Proof.
  intros r Hr. unfold or_call. pose proof (tensor_kept k r) as Hk. pose proof (tensor_read k r) as Hq.
  assert (stored r = ts0) as Hs by (by injection Hr). rewrite Hs in Hq.
  destruct (gg_Tensor k r) as [[qt|e] r1]; cbn [fst snd] in *.
  - split; [congruence|]. assert (ts0 !! k = Some qt) as -> by (by apply Hq). intros a. naive_solver.
  - assert (ts0 !! k = None) as -> by (destruct (ts0 !! k) as [q|]; [|done]; by assert (Err e = Ok q :> result string QTensor) by (by apply Hq)).
    destruct (spec_tensor k' r1) as [H1 H2]; [congruence|]. split; [done|]. intros a. rewrite H2. unfold raw_of. naive_solver.
Qed.
(** The parts of a model around its layers. *)
Definition ends_of (c : DeepSeek_Config) (m : Model) : Prop :=
  (exists qt e, ts0 !! "token_embd.weight"%string = Some qt /\ dequantize qt dev = Ok e /\ embed_tokens m = Some (embedding_new e (c_hidden_size c))) /\
  (exists qt n, ts0 !! "output_norm.weight"%string = Some qt /\ rmsnorm_from_qtensor qt (c_rms_norm_eps c) = Ok n /\ norm m = Some n) /\
  (exists qt w, (ts0 !! "output.weight"%string = Some qt \/ ts0 !! "output.weight"%string = None /\ ts0 !! "token_embd.weight"%string = Some qt) /\
     qmatmul_from_weights qt = Ok w /\ lm_head m = Some w) /\
  m_device m = dev /\ m_dtype m = dtype_of md.
Lemma spec_model c : DeepSeek_From_Metadata md chk (architecture_of md) = Ok c ->
  (forall i, 0 <= i < num_layers c -> config_halves c i) ->
  spec (read_model chk dev) (fun m => ends_of c m /\
    exists rot, Rotary_New (dtype_of md) (c_qk_rope_dim c) (max_position_embeddings c) (c_rope_freq_base c) dev = Ok rot /\
      layers_of c rot (Z.to_nat (num_layers c)) 0 (layers m)).
Proof.
  intros Hc Hh. unfold read_model. eapply spec_mono.
  { eapply (spec_known _ _ md); [apply spec_metadata|].
    eapply (spec_known _ _ c); [eapply spec_mono; [apply spec_pure|]; intros a; rewrite Hc; split; [by intros [= ->]|by intros ->]|].
    eapply spec_bind; [apply spec_tensor|]. intros qt Hq. eapply spec_bind; [apply spec_lift|]. intros e He.
    eapply spec_bind; [apply spec_lift|]. intros rot Hrot. eapply spec_bind; [apply spec_layers; intros; apply Hh; lia|]. intros ys Hys.
    eapply spec_bind; [apply spec_norm|]. intros n Hn. eapply spec_bind; [apply spec_or_call|]. intros lt Hlt.
    eapply spec_bind; [apply spec_lift|]. intros w Hw. apply spec_ret. }
  intros m. unfold ends_of, raw_of, norm_of. split.
  - intros. destruct_and_ex. subst. cbn. by eauto 25.
  - intros [((qt & e & H1 & H2 & H3) & (qn & n & H4 & H5 & H6) & (ql & w & H7 & H8 & H9) & H10 & H11) (rot & H12 & H13)].
    destruct m as [em ys nm lm dv dt]. cbn in *. subst. eauto 25.
Qed.
End agree.

Section model.
Context {T Dev QTensor QMatMul RmsNorm Embedding Cache Linear R Ct File : Type}.
Context `{!Gguf} `{!Nn T Dev QTensor QMatMul RmsNorm Embedding Cache} `{!Nn_V3 T QTensor Linear}.
Context `{!GGUF_Reader R Ct File Dev QTensor QMatMul RmsNorm} (stored : R -> gmap string QTensor) `{!GGUF_Reader_Laws stored}.

(** the two ways to a V3 model agree, if the reader obeys its laws. A reader on a
    file whose key and value halves have three dimensions gives a model exactly if every layer has a router
    and assembles from the tensors of the file ([From_Extracted], with half
    precision), and the model consists of those layers between embedding, norm and
    output head, which is the embedding where there is none. So a file with a dense
    layer, which the assembly can build, is never read. *)
Theorem reader_agrees (chk : bool) New_Dense (ct : Ct) (file : File) (d : Dev) (c : DeepSeek_Config) :
  let ts := stored (gg_New ct file d) in
  let md := gg_Metadata (gg_New ct file d) in
  let read := From_GGUF_Reader (T:=T) (Linear:=Linear) (Embedding:=Embedding) chk ct file d in
  DeepSeek_From_Metadata md chk (architecture_of md) = Ok c ->
  (forall i, 0 <= i < num_layers c -> config_halves ts d c i) ->
  (forall m, read = Ok m <-> ends_of ts d md c m /\
     exists rot, Rotary_New (dtype_of md) (c_qk_rope_dim c) (max_position_embeddings c) (c_rope_freq_base c) d = Ok rot /\
       layers_of chk ts d New_Dense c rot (Z.to_nat (num_layers c)) 0 (layers m)) /\
  (forall i, 0 <= i < num_layers c -> ts !! (layer_prefix i +:+ ".ffn_gate_inp.weight")%string = None -> is_ok read = false).
Proof.
  intros ts md read Hc Hh.
  assert (forall m, read = Ok m <-> ends_of ts d md c m /\
     exists rot, Rotary_New (dtype_of md) (c_qk_rope_dim c) (max_position_embeddings c) (c_rope_freq_base c) d = Ok rot /\
       layers_of chk ts d New_Dense c rot (Z.to_nat (num_layers c)) 0 (layers m)) as Hm.
  { intros m. pose proof (spec_model stored chk ts d md New_Dense c Hc Hh) as Hs. refine (spec_Ok stored ts d md _ _ _ m Hs _).
    unfold view. by rewrite (new_device stored). }
  split; [exact Hm|]. intros i Hi Hr. destruct read as [m|e] eqn:E; [|done]. exfalso.
  destruct (proj1 (Hm m) eq_refl) as (_ & rot & _ & Hl & Hys).
  destruct (lookup_lt_is_Some_2 (layers m) (Z.to_nat i)) as [y Hy]; [lia|]. destruct (Hys _ _ Hy) as [[qt Hq] _].
  rewrite Z2Nat.id in Hq by lia. change (0 + i) with i in Hq. congruence.
Qed.
End model.

(** ** Witness *)
Module Plain_Reader.
Import KvCache.Plain Qwen3.Plain_Nn DeepSeekV3.Plain_V3 Gguf.Example_Model.
(** A reader is its metadata and its tensors. *)
Definition reader : Type := gmap string Value * gmap string tensor.
Definition found (ts : gmap string tensor) (key : string) : result string tensor := ok_or key (ts !! key).
#[global] Instance plain_reader : GGUF_Reader reader (gmap string Value) (gmap string tensor) unit tensor Z Z := {|
  gg_New ct f _ := (ct, f);
  gg_Qmatmul key r := (qt ← found r.2 key; qmatmul_from_weights qt, r);
  gg_Rms_Norm key eps r := (qt ← found r.2 key; rmsnorm_from_qtensor qt eps, r);
  gg_Tensor key r := (found r.2 key, r);
  gg_device _ := tt;
  gg_Metadata r := r.1;
|}.
#[global] Instance plain_reader_laws : GGUF_Reader_Laws (snd : reader -> gmap string tensor).
Proof.
  split; intros; cbn; try done.
  - by destruct d.
  - unfold found. by destruct (r.2 !! key); split; intros; simplify_eq/=.
  - unfold found. destruct (r.2 !! key); cbn; naive_solver.
  - unfold found. destruct (r.2 !! key); cbn; naive_solver.
Qed.
Definition metadata : gmap string Value :=
  list_to_map [("deepseek_v3.attention.head_count", U32 1); ("deepseek_v3.attention.key_length_mla", U32 2);
    ("deepseek_v3.rope.dimension_count", U32 1); ("deepseek_v3.attention.value_length_mla", U32 1); ("deepseek_v3.block_count", U32 1);
    ("deepseek_v3.embedding_length", U32 2); ("deepseek_v3.context_length", U32 8); ("general.dtype", U32 0)]%string.
Definition cube (n : Z) : tensor := mk_tensor [1; 1; 1]%nat F32 [n].
Definition names : list string :=
  ["token_embd.weight"; "output_norm.weight"] ++ map (fun s => (layer_prefix 0 +:+ s)%string)
    [".attn_norm.weight"; ".ffn_norm.weight"; ".attn_q_a.weight"; ".attn_q_a_norm.weight"; ".attn_q_b.weight"; ".attn_kv_a_mqa.weight";
     ".attn_kv_a_norm.weight"; ".attn_k_b.weight"; ".attn_v_b.weight"; ".attn_output.weight"; ".ffn_gate_shexp.weight";
     ".ffn_up_shexp.weight"; ".ffn_down_shexp.weight"; ".ffn_gate_exps.weight"; ".ffn_up_exps.weight"; ".ffn_down_exps.weight"]%string.
Definition dense_file : gmap string tensor := list_to_map (imap (fun i n => (n, cube (Z.of_nat i + 1))) names).
Definition file : gmap string tensor := <["blk.0.ffn_gate_inp.weight"%string := cube 20]> dense_file.
Definition config : DeepSeek_Config := mk_DeepSeek_Config 1 1 1536 512 1 1 1 1 2 8 (Double 0x3EB0C6F7A0B5ED8D) (Double 0x40C3880000000000) 256 1 8
  (Double 0x4004000000000000) 129280.
Definition read (f : gmap string tensor) := From_GGUF_Reader (T:=tensor) (Linear:=Z) (Embedding:=Z) true metadata f tt.
Definition no_dense (ts : gmap string tensor) (_ : string) : result string (Mlp_Weights (QMatMul:=Z) * gmap string tensor) := Err "dense"%string.
Lemma config_read f :
  DeepSeek_From_Metadata (gg_Metadata (gg_New metadata f tt)) true (architecture_of (gg_Metadata (gg_New metadata f tt))) = Ok config.
Proof. vm_compute. reflexivity. Qed.
Definition halved (f : gmap string tensor) (key : string) : bool :=
  match f !! key with Some t => bool_decide (shape t = [1; 1; 1]%nat) | None => true end.
Lemma cube_dims f key g : halved f key = true -> g 1 1 1 = 1 -> three_dims tt f key g 1.
Proof.
  intros Hh Hg. split; [lia|]. intros qt deq Hq [= <-]. unfold halved in Hh. rewrite Hq in Hh. apply bool_decide_eq_true_1 in Hh.
  exists 1, 1, 1. split; [|done]. unfold dims. cbn. unfold sizes. by rewrite Hh.
Qed.
Lemma cubes_halve f : halved f "blk.0.attn_k_b.weight" = true -> halved f "blk.0.attn_v_b.weight" = true ->
  forall i, 0 <= i < num_layers config -> config_halves (snd (gg_New metadata f tt)) tt config i.
Proof.
  intros Hk Hv i Hi. assert (i = 0) as -> by (cbn in Hi; lia). split; by apply cube_dims.
Qed.
End Plain_Reader.
Import Plain_Reader.
(** A file with one layer of experts is read as it assembles; without the router it
    is not read. *)
Lemma reader_agrees_witness :
  (exists m rot y, read file = Ok m /\ layers m = [y] /\ assembled true file tt no_dense config rot 0 = Ok y /\ norm m = Some 2) /\
  is_ok (read dense_file) = false.
Proof.
  split.
  - destruct (reader_agrees snd true no_dense metadata file tt config (config_read file)) as [H _].
    { apply cubes_halve; vm_compute; reflexivity. }
    assert (exists m, read file = Ok m) as [m E] by (eexists; vm_compute; reflexivity).
    destruct (proj1 (H m) E) as ((_ & (qt & n & Hn & Hr & Hm) & _) & rot & _ & Hl & Hys).
    change (Z.to_nat (num_layers config)) with 1%nat in Hl.
    destruct (layers m) as [|y [|]] eqn:Ey; try discriminate Hl. exists m, rot, y. split; [exact E|]. split; [exact Ey|].
    split; [exact (proj2 (Hys 0%nat y eq_refl))|]. vm_compute in Hn. injection Hn as <-. vm_compute in Hr. injection Hr as <-. exact Hm.
  - destruct (reader_agrees snd true no_dense metadata dense_file tt config (config_read dense_file)) as [_ H].
    { apply cubes_halve; vm_compute; reflexivity. }
    apply (H 0); [by vm_compute|]. vm_compute. reflexivity.
Defined.
