(* ===== verification/SessionStart.v ===== *)
(** * The start of a session's task ([Session::spawn] of [session.rs])

    Before the loop of [Sessions.Task] runs, the task of a session takes its model
    file from the storage, loads the tokenizer, and waits for the thread that runs
    the model; each step can end it. Meanwhile the session is in the manager's table,
    and clients get slots of it. *)
From S2P Require Import Prelude RustStd Orchestrator Wire KvCache Bitmap Peers Storage Checksum Sessions MlSession.


Section start.
Context {T Dev M Tok Stream Request : Type}.
Notation Ctx := (MlContext M T Dev Tok).
Context (parse_device : bytes -> result string Dev) (path_of : string -> string).
Context (from_gguf_file : string -> result string Tok) (GGUF_Analyze : string -> result string (Z * option string)).








End start.

(** ** Witness *)
Module Example_Start.
End Example_Start.
Import Example_Start.
